(** * Link-resolution and task-orchestration engine: a shallow embedding

  The definitions below follow the TypeScript sources function by
  function.  Conventions used throughout:

  - JavaScript strings are [string]; [toLowerCase] and [trim] act on the
    ASCII range, which is the range of the status words and host names
    the code compares against.
  - [null] and [undefined] are both [None]; [a ?? b] is [from_nullish]
    and [a || b] on strings is [or_truthy].
  - [Date.now()] and ISO timestamps are milliseconds in [Z], passed in
    explicitly.
  - Firestore collections are finite maps from document id to document.
    Storage reads and writes are taken to succeed; the [catch] blocks
    that swallow storage failures are not exercised.
  - Network collaborators (resolvers, page fetches, the discovery step)
    are oracles supplied by the caller of each function. *)

From Stdlib Require Import ZArith Lia List Bool String Ascii.
From stdpp Require Import base option list gmap strings pretty.
Import ListNotations.

Local Open Scope string_scope.
Local Open Scope list_scope.

(** ** JavaScript string helpers *)

(** Strings are byte strings, and the helpers below are the JavaScript
    ones on ASCII text: [toLowerCase] folds the letters A to Z and
    [trim] removes the ASCII white space. *)

Module JS.

Definition lower_ascii (c : ascii) : ascii :=
  let n := nat_of_ascii c in
  if (65 <=? n)%nat && (n <=? 90)%nat then ascii_of_nat (n + 32) else c.

Fixpoint toLowerCase (s : string) : string :=
  match s with
  | EmptyString => EmptyString
  | String c s' => String (lower_ascii c) (toLowerCase s')
  end.

(** [s.includes(needle)] *)
Fixpoint includes (s needle : string) : bool :=
  match s with
  | EmptyString => String.prefix needle EmptyString
  | String _ s' => String.prefix needle s || includes s' needle
  end.

(** [arr.includes(x)] on an array of strings *)
Definition arr_includes (arr : list string) (x : string) : bool :=
  existsb (String.eqb x) arr.

(** [arr.some(d => s.includes(d))] *)
Definition some_includes (arr : list string) (s : string) : bool :=
  existsb (fun d => includes s d) arr.

Definition is_space (c : ascii) : bool :=
  let n := nat_of_ascii c in
  (n =? 32)%nat || ((9 <=? n)%nat && (n <=? 13)%nat).

Fixpoint trimStart_list (l : list ascii) : list ascii :=
  match l with
  | c :: l' => if is_space c then trimStart_list l' else l
  | [] => []
  end.

Definition trim (s : string) : string :=
  string_of_list_ascii
    (rev (trimStart_list (rev (trimStart_list (list_ascii_of_string s))))).

(** JavaScript truthiness of a possibly missing string *)
Definition truthy (o : option string) : bool :=
  match o with
  | Some s => negb (String.eqb s "")
  | None => false
  end.

(** [a || b] on possibly missing strings *)
Definition or_truthy (a b : option string) : option string :=
  if truthy a then a else b.

(** [a ?? b] *)
Definition from_nullish {A} (a : option A) (b : A) : A :=
  match a with Some x => x | None => b end.

(** [a ?? b] where [b] may itself be missing *)
Definition nullish_or {A} (a b : option A) : option A :=
  match a with Some _ => a | None => b end.


End JS.

(** ** lib/config.ts *)

Module Config.

Definition TIMER_DOMAINS : list string :=
  [ "gadgetsweb"; "review-tech"; "ngwin"; "cryptoinsights";
    "techbigs"; "apkdone"; "linkvertise"; "shrinkme"; "shorte";
    "ouo.io"; "ouo.press"; "rocklinks"; "adlinkfly" ].

Definition TARGET_DOMAINS : list string :=
  [ "hblinks"; "hubdrive"; "hubcdn"; "hubcloud"; "gdflix"; "drivehub";
    "filepress"; "hubstream"; "hdstream"; "kolop"; "fastdl" ].

Definition AXIOS_TIMEOUT_MS : Z := 20000.
Definition LINK_TIMEOUT_MS : Z := 20000.
Definition OVERALL_TIMEOUT_MS : Z := 50000.

Definition HTTP_522_MAX_RETRIES : nat := 2.

Definition STUCK_TASK_THRESHOLD_MS : Z := 10 * 60 * 1000.
Definition MAX_CRON_RETRIES : nat := 3.

Definition CACHE_EXPIRY_MS : Z := 24 * 60 * 60 * 1000.

End Config.

(** ** The persisted Task document and its links *)

Record LogEntry := mkLog { log_msg : string; log_type : string }.

Record Button := mkButton { button_name : string; download_link : string }.

(** One element of the [links] array of a [scraping_tasks] document. *)
Record Link := mkLink {
  l_id : nat;
  l_name : string;
  l_link : string;
  l_status : option string;
  l_finalLink : option string;
  l_error : option string;
  l_logs : list LogEntry;
  l_best_button_name : option string;
  l_all_available_buttons : list Button;
  l_solvedAt : option Z
}.

(** A [scraping_tasks] document.  [metadata] and [preview] are produced
  by the discovery step and carried verbatim. *)
Record TaskDoc := mkTask {
  t_url : string;
  t_status : string;
  t_links : list Link;
  t_extractedBy : option string;
  t_metadata : option string;
  t_preview : option string;
  t_createdAt : option Z;
  t_updatedAt : option Z;
  t_processingStartedAt : option Z;
  t_completedAt : option Z;
  t_recoveredAt : option Z;
  t_recoveryReason : option string;
  t_error : option string
}.

(** The [result] argument of [saveResultToFirestore]; every field is
  optional in the source. *)
Record SaveResult := mkSaveResult {
  r_status : option string;
  r_finalLink : option string;
  r_error : option string;
  r_logs : option (list LogEntry);
  r_best_button_name : option string;
  r_all_available_buttons : option (list Button)
}.

(** [(l.status || '').toLowerCase()] *)
Definition status_lc (l : Link) : string :=
  JS.toLowerCase (JS.from_nullish (l_status l) "").

Module Persist.

Definition TERMINAL_WORDS : list string := ["done"; "success"; "error"; "failed"].
Definition SUCCESS_WORDS : list string := ["done"; "success"].

Definition isTerminalLink (l : Link) : bool :=
  JS.arr_includes TERMINAL_WORDS (status_lc l).

Definition isSuccessLink (l : Link) : bool :=
  JS.arr_includes SUCCESS_WORDS (status_lc l).

(** The object written for a link matched by id or by url. *)
Definition updateLink (now : Z) (result : SaveResult) (l : Link) : Link :=
  {| l_id := l_id l;
     l_name := l_name l;
     l_link := l_link l;
     l_status := Some (JS.from_nullish (r_status result) "error");
     l_finalLink := JS.nullish_or (r_finalLink result) (l_finalLink l);
     l_error := r_error result;
     l_logs := JS.from_nullish (r_logs result) [];
     l_best_button_name := r_best_button_name result;
     l_all_available_buttons := JS.from_nullish (r_all_available_buttons result) [];
     l_solvedAt := Some now |}.

Definition matches (lid : nat) (linkUrl : string) (l : Link) : bool :=
  Nat.eqb (l_id l) lid || String.eqb (l_link l) linkUrl.

Definition updatedLinks (now : Z) (lid : nat) (linkUrl : string)
    (result : SaveResult) (existing : list Link) : list Link :=
  map (fun l => if matches lid linkUrl l then updateLink now result l else l)
      existing.

(** [allDone ? (anySuccess ? 'completed' : 'failed') : 'processing'] *)
Definition aggregateStatus (updated : list Link) : string :=
  let allDone := forallb isTerminalLink updated in
  let anySuccess := existsb isSuccessLink updated in
  if allDone then (if anySuccess then "completed" else "failed")
  else "processing".

(** The body of the transaction, on the document that was read. *)
Definition saveTransaction (now : Z) (lid : nat) (linkUrl : string)
    (result : SaveResult) (extractedBy : option string) (d : TaskDoc) : TaskDoc :=
  let updated := updatedLinks now lid linkUrl result (t_links d) in
  let allDone := forallb isTerminalLink updated in
  {| t_url := t_url d;
     t_status := aggregateStatus updated;
     t_links := updated;
     t_extractedBy := JS.nullish_or extractedBy (t_extractedBy d);
     t_metadata := t_metadata d;
     t_preview := t_preview d;
     t_createdAt := t_createdAt d;
     t_updatedAt := t_updatedAt d;
     t_processingStartedAt := t_processingStartedAt d;
     t_completedAt := if allDone then Some now else t_completedAt d;
     t_recoveredAt := t_recoveredAt d;
     t_recoveryReason := t_recoveryReason d;
     t_error := t_error d |}.

(** [saveResultToFirestore]: nothing is written when the document does
    not exist. *)
Definition saveResultToFirestore (now : Z) (tasks : gmap string TaskDoc)
    (taskId : string) (lid : nat) (linkUrl : string) (result : SaveResult)
    (extractedBy : option string) : gmap string TaskDoc :=
  match tasks !! taskId with
  | None => tasks
  | Some d => <[taskId := saveTransaction now lid linkUrl result extractedBy d]> tasks
  end.

(** The words of the data model: a link is terminal when its status is
    one of done, success, error, failed; it succeeded when done or
    success. *)
Definition terminal (l : Link) : Prop :=
  status_lc l = "done" \/ status_lc l = "success" \/
  status_lc l = "error" \/ status_lc l = "failed".

Definition succeeded (l : Link) : Prop :=
  status_lc l = "done" \/ status_lc l = "success".

End Persist.

(** ** lib/cache.ts *)

Record CachedLink := mkCached {
  c_originalUrl : string;
  c_finalLink : string;
  c_solverUsed : string;
  c_resolvedAt : Z;
  c_expiresAt : Z;
  c_hitCount : nat;
  c_status : string;
  c_lastHitAt : option Z;
  c_brokenAt : option Z;
  c_best_button_name : option string;
  c_all_available_buttons : list Button
}.

Module Cache.

Section WithDigest.

(** The md5 digest of the crypto library. *)
Context (md5 : string -> string).

Definition hashUrl (url : string) : string :=
  md5 (JS.trim (JS.toLowerCase url)).

Definition markExpired (data : CachedLink) : CachedLink :=
  {| c_originalUrl := c_originalUrl data;
     c_finalLink := c_finalLink data;
     c_solverUsed := c_solverUsed data;
     c_resolvedAt := c_resolvedAt data;
     c_expiresAt := c_expiresAt data;
     c_hitCount := c_hitCount data;
     c_status := "expired";
     c_lastHitAt := c_lastHitAt data;
     c_brokenAt := c_brokenAt data;
     c_best_button_name := c_best_button_name data;
     c_all_available_buttons := c_all_available_buttons data |}.

Definition recordHit (now : Z) (data : CachedLink) : CachedLink :=
  {| c_originalUrl := c_originalUrl data;
     c_finalLink := c_finalLink data;
     c_solverUsed := c_solverUsed data;
     c_resolvedAt := c_resolvedAt data;
     c_expiresAt := c_expiresAt data;
     c_hitCount := c_hitCount data + 1;
     c_status := c_status data;
     c_lastHitAt := Some now;
     c_brokenAt := c_brokenAt data;
     c_best_button_name := c_best_button_name data;
     c_all_available_buttons := c_all_available_buttons data |}.

Definition markBroken (now : Z) (data : CachedLink) : CachedLink :=
  {| c_originalUrl := c_originalUrl data;
     c_finalLink := c_finalLink data;
     c_solverUsed := c_solverUsed data;
     c_resolvedAt := c_resolvedAt data;
     c_expiresAt := c_expiresAt data;
     c_hitCount := c_hitCount data;
     c_status := "broken";
     c_lastHitAt := c_lastHitAt data;
     c_brokenAt := Some now;
     c_best_button_name := c_best_button_name data;
     c_all_available_buttons := c_all_available_buttons data |}.

(** [getCachedLink]: the value returned and the collection afterwards.
    The returned [data] is the document as read, before the hit update. *)
Definition getCachedLink (now : Z) (cache : gmap string CachedLink) (url : string)
    : option CachedLink * gmap string CachedLink :=
  let hash := hashUrl url in
  match cache !! hash with
  | None => (None, cache)
  | Some data =>
      if (c_expiresAt data <? now)%Z then
        (None, <[hash := markExpired data]> cache)
      else if negb (String.eqb (c_status data) "valid") then
        (None, cache)
      else
        (Some data, <[hash := recordHit now data]> cache)
  end.

Definition setCachedLink (now : Z) (cache : gmap string CachedLink)
    (originalUrl finalLink solverUsed : string)
    (best_button_name : option string)
    (all_available_buttons : option (list Button)) : gmap string CachedLink :=
  <[hashUrl originalUrl :=
      {| c_originalUrl := originalUrl;
         c_finalLink := finalLink;
         c_solverUsed := solverUsed;
         c_resolvedAt := now;
         c_expiresAt := (now + Config.CACHE_EXPIRY_MS)%Z;
         c_hitCount := 0;
         c_status := "valid";
         c_lastHitAt := None;
         c_brokenAt := None;
         c_best_button_name := best_button_name;
         c_all_available_buttons := JS.from_nullish all_available_buttons [] |}]> cache.

(** [update] on a missing document throws, and the error is swallowed. *)
Definition markCacheBroken (now : Z) (cache : gmap string CachedLink) (url : string)
    : gmap string CachedLink :=
  alter (markBroken now) (hashUrl url) cache.

End WithDigest.

(** [cleanupExpiredCache]: at most 100 expired documents are deleted per
    call, in the enumeration order of the collection. *)
Definition cleanupExpiredCache (now : Z) (cache : gmap string CachedLink)
    : nat * gmap string CachedLink :=
  let snap := take 100 (List.filter (fun kv => Z.ltb (c_expiresAt (snd kv)) now)
                               (map_to_list cache)) in
  (length snap, fold_right (fun kv m => delete (fst kv) m) cache snap).

End Cache.

(** ** lib/solvers.ts: page fetches *)

Record AxiosError := mkAxiosError {
  err_status : option Z;      (* err?.response?.status *)
  err_message : string
}.

(** What one [axios.get] does: it resolves with a response, or rejects. *)
Inductive AxiosOutcome :=
| Resolved (status : Z) (data : string)
| Rejected (e : AxiosError).

(** Results of the host resolvers: only [status === 'success'] is ever
    tested by the callers, the other statuses carry a message. *)
Inductive Resp (A : Type) :=
| RespSuccess (a : A)
| RespFailure (status : string) (message : option string).
Arguments RespSuccess {A} a.
Arguments RespFailure {A} status message.

Module Solvers.

Definition TRANSIENT : list Z := [522; 502; 503; 504]%Z.

(** [[522, 502, 503, 504].includes(status)] *)
Definition isTransient (status : option Z) : bool :=
  match status with
  | Some s => existsb (Z.eqb s) TRANSIENT
  | None => false
  end.

(** A run of a fetch: its outcome, the backoff waits slept in order, and
    the number of GET requests issued. *)
Record FetchRun := mkFetchRun {
  fr_outcome : AxiosOutcome;
  fr_waits : list Z;
  fr_gets : nat
}.

(** The [for] loop of [axiosWithRetry], from iteration [attempt].
    [get n] is the outcome of the request issued in iteration [n];
    [fuel] bounds the iterations left and is [maxRetries + 1 - attempt]
    at every call made by [axiosWithRetry]. *)
Fixpoint axiosWithRetry_loop (get : nat -> AxiosOutcome) (maxRetries : nat)
    (fuel attempt : nat) (lastError : AxiosError) : FetchRun :=
  if negb (attempt <=? maxRetries)%nat then
    mkFetchRun (Rejected lastError) [] 0
  else
    match fuel with
    | O => mkFetchRun (Rejected lastError) [] 0
    | S fuel' =>
        match get attempt with
        | Resolved st data => mkFetchRun (Resolved st data) [] 1
        | Rejected err =>
            if isTransient (err_status err) && (attempt <? maxRetries)%nat then
              let wait := (2000 * (Z.of_nat attempt + 1))%Z in
              let rest := axiosWithRetry_loop get maxRetries fuel' (S attempt) err in
              mkFetchRun (fr_outcome rest) (wait :: fr_waits rest) (S (fr_gets rest))
            else
              mkFetchRun (Rejected err) [] 1
        end
    end.

Definition axiosWithRetry (get : nat -> AxiosOutcome) (maxRetries : nat) : FetchRun :=
  axiosWithRetry_loop get maxRetries (S maxRetries) 0
    (mkAxiosError None "undefined").

(** A plain [axios.get]: one request, no wait. *)
Definition axiosGet (get : nat -> AxiosOutcome) : FetchRun :=
  mkFetchRun (get 0%nat) [] 1.

(** [solveHBLinks]; [findHubLink] stands for the three selector passes
    over the parsed page and returns the link and its source label. *)
Definition solveHBLinks (get : nat -> AxiosOutcome)
    (findHubLink : string -> option (string * string))
    : Resp (string * string) * FetchRun :=
  let run := axiosGet get in
  match fr_outcome run with
  | Rejected e => (RespFailure "error" (Some (err_message e)), run)
  | Resolved st data =>
      if negb (st =? 200)%Z then
        (RespFailure "fail" (Some ("HTTP " +:+ pretty st)), run)
      else
        match findHubLink data with
        | Some found => (RespSuccess found, run)
        | None => (RespFailure "fail" (Some "No HubCloud or HubDrive link found"), run)
        end
  end.

(** [solveHubDrive], with [findDriveLink] for the selector passes. *)
Definition solveHubDrive (get : nat -> AxiosOutcome)
    (findDriveLink : string -> option string) : Resp string * FetchRun :=
  let run := axiosGet get in
  match fr_outcome run with
  | Rejected e => (RespFailure "error" (Some (err_message e)), run)
  | Resolved _ data =>
      match findDriveLink data with
      | Some finalLink => (RespSuccess finalLink, run)
      | None => (RespFailure "fail" (Some "No HubCloud/HubCDN link found on HubDrive page"), run)
      end
  end.

(** The page fetch of [extractMovieLinks]; [scrape] stands for the link
    discovery over the fetched page. *)
Definition extractMovieLinks_fetch (get : nat -> AxiosOutcome) : FetchRun :=
  axiosWithRetry get Config.HTTP_522_MAX_RETRIES.

End Solvers.

(** ** api/solve_task/route.ts: the resolver chain and the link processor *)

Record HubCloudOk := mkHubCloudOk {
  hc_best_download_link : string;
  hc_best_button_name : option string;
  hc_all_available_buttons : option (list Button)
}.

(** What [fetchWithTimeout] on the timer service does: it returns the
    parsed body, or throws (HTTP error, abort, network failure). *)
Inductive TimerFetch :=
| TimerJson (status : string) (extracted_link : option string)
| TimerThrow (message : string).

(** The network as one chain execution sees it.  The two resolvers called
    inside the bypass loop are indexed by the value of [loopCount] at the
    call, so that repeated calls may answer differently.
    [net_chainDuration] is the time [solveWork] needs to settle and
    [net_logsAtTimeout] the number of log lines it has pushed when the
    per-link timer fires. *)
Record Net := mkNet {
  net_solveHubCDN : string -> Resp string;
  net_solveGadgetsWebNative : nat -> string -> Resp string;
  net_fetchTimerApi : nat -> string -> TimerFetch;
  net_solveHBLinks : string -> Resp string;
  net_solveHubDrive : string -> Resp string;
  net_solveHubCloudNative : string -> Resp HubCloudOk;
  net_chainDuration : Z;
  net_logsAtTimeout : nat
}.

(** A record of one iteration of the bypass loop that reached a resolver
    call: the hop counter and the url at the call. *)
Record Hop := mkHop {
  hop_loopCount : nat;
  hop_url : string;
  hop_resolver : string
}.

Inductive LoopExit :=
| LoopDone (currentLink : string) (loopCount : nat) (logs : list LogEntry) (hops : list Hop)
| LoopThrow (message : string) (logs : list LogEntry) (hops : list Hop).

Inductive WorkOutcome :=
| WorkReturn (r : SaveResult) (hops : list Hop)
| WorkThrow (message : string) (logs : list LogEntry) (hops : list Hop).

(** One call of [saveResultToFirestore] as issued by a caller. *)
Record SaveCall := mkSaveCall {
  sc_taskId : string;
  sc_lid : nat;
  sc_linkUrl : string;
  sc_result : SaveResult;
  sc_extractedBy : option string;
  sc_now : Z
}.

Inductive Event :=
| EvCacheLookup (url : string) (hit : bool)
| EvChain (attempt : nat) (hops : list Hop)
| EvSave (call : SaveCall)
| EvCacheStore (url finalLink : string).

Record PLResult := mkPLResult {
  pl_lid : nat;
  pl_status : string;
  pl_finalLink : option string
}.

(** What one [processLink] call sees: the cache contents when it starts,
    and the clock and the network during attempt [n]. *)
Record LinkEnv := mkLinkEnv {
  env_cache : gmap string CachedLink;
  env_now : nat -> Z;
  env_net : nat -> Net
}.

Record PLRun := mkPLRun {
  run_result : PLResult;
  run_events : list Event;
  run_cache : gmap string CachedLink
}.

Module LinkProcessor.

Definition isTimerUrl (url : string) : bool :=
  JS.some_includes Config.TIMER_DOMAINS url.

Definition isTargetUrl (url : string) : bool :=
  JS.some_includes Config.TARGET_DOMAINS url.

(** [`${r.message}`] *)
Definition show_message (m : option string) : string :=
  JS.from_nullish m "undefined".

Definition errorResult (message : option string) (logs : list LogEntry) : SaveResult :=
  {| r_status := Some "error"; r_finalLink := None; r_error := message;
     r_logs := Some logs; r_best_button_name := None;
     r_all_available_buttons := None |}.

Definition doneResult (finalLink : string) (logs : list LogEntry) : SaveResult :=
  {| r_status := Some "done"; r_finalLink := Some finalLink; r_error := None;
     r_logs := Some logs; r_best_button_name := None;
     r_all_available_buttons := None |}.

(** 4b, the [while] loop.  [fuel] bounds the iterations left; it is
    3 at the call made by [solveWork], where [loopCount] is 0. *)
Fixpoint bypassLoop (net : Net) (fuel loopCount : nat) (currentLink : string)
    (logs : list LogEntry) (hops : list Hop) : LoopExit :=
  if negb ((loopCount <? 3)%nat && negb (isTargetUrl currentLink)) then
    LoopDone currentLink loopCount logs hops
  else
    match fuel with
    | O => LoopDone currentLink loopCount logs hops
    | S fuel' =>
        if negb (isTimerUrl currentLink) && (loopCount =? 0)%nat then
          LoopDone currentLink loopCount logs hops
        else if JS.includes currentLink "gadgetsweb" then
          let logs1 := logs ++
            [mkLog ("🔁 GadgetsWeb native solve (loop " +:+ pretty (loopCount + 1)%nat +:+ ")") "info"] in
          let hops1 := hops ++ [mkHop loopCount currentLink "solveGadgetsWebNative"] in
          match net_solveGadgetsWebNative net loopCount currentLink with
          | RespSuccess link => bypassLoop net fuel' (S loopCount) link logs1 hops1
          | RespFailure _ message =>
              LoopDone currentLink loopCount
                (logs1 ++ [mkLog ("❌ GadgetsWeb failed: " +:+ show_message message) "error"])
                hops1
          end
        else
          let logs1 := logs ++
            [mkLog ("⏱ Timer bypass via VPS (loop " +:+ pretty (loopCount + 1)%nat +:+ ")") "info"] in
          let hops1 := hops ++ [mkHop loopCount currentLink "fetchWithTimeout"] in
          match net_fetchTimerApi net loopCount currentLink with
          | TimerThrow message => LoopThrow message logs1 hops1
          | TimerJson status extracted_link =>
              if String.eqb status "success" && JS.truthy extracted_link then
                bypassLoop net fuel' (S loopCount) (JS.from_nullish extracted_link "") logs1 hops1
              else
                LoopDone currentLink loopCount
                  (logs1 ++ [mkLog "❌ Timer bypass failed" "error"]) hops1
          end
    end.

(** 4e and 4f *)
Definition stageFinal (net : Net) (currentLink : string) (logs : list LogEntry)
    : SaveResult :=
  if JS.includes currentLink "hubcloud" || JS.includes currentLink "hubcdn" then
    let logs1 := logs ++ [mkLog "☁️ HubCloud solving..." "info"] in
    match net_solveHubCloudNative net currentLink with
    | RespSuccess r =>
        let logs2 := logs1 ++
          [mkLog ("✅ HubCloud done: " +:+ hc_best_download_link r) "success"] in
        {| r_status := Some "done";
           r_finalLink := Some (hc_best_download_link r);
           r_error := None;
           r_logs := Some logs2;
           r_best_button_name := hc_best_button_name r;
           r_all_available_buttons :=
             Some (JS.from_nullish (hc_all_available_buttons r) []) |}
    | RespFailure _ message => errorResult message logs1
    end
  else if JS.includes currentLink "gdflix" || JS.includes currentLink "drivehub" then
    doneResult currentLink
      (logs ++ [mkLog ("✅ GDflix/DriveHub resolved: " +:+ currentLink) "success"])
  else
    errorResult (Some "No solver matched for this URL") logs.

(** 4d *)
Definition stageHubDrive (net : Net) (currentLink : string) (logs : list LogEntry)
    : SaveResult :=
  if JS.includes currentLink "hubdrive" then
    let logs1 := logs ++ [mkLog "💾 HubDrive solving..." "info"] in
    match net_solveHubDrive net currentLink with
    | RespSuccess link => stageFinal net link logs1
    | RespFailure _ message => errorResult message logs1
    end
  else stageFinal net currentLink logs.

(** 4c *)
Definition stageHBLinks (net : Net) (currentLink : string) (logs : list LogEntry)
    : SaveResult :=
  if JS.includes currentLink "hblinks" then
    let logs1 := logs ++ [mkLog "🔗 HBLinks solving..." "info"] in
    match net_solveHBLinks net currentLink with
    | RespSuccess link => stageHubDrive net link logs1
    | RespFailure _ message => errorResult message logs1
    end
  else stageHubDrive net currentLink logs.

Definition solveWork (net : Net) (originalUrl : string) : WorkOutcome :=
  if JS.includes originalUrl "hubcdn.fans" then
    let logs := [mkLog "⚡ HubCDN.fans detected — direct solve" "info"] in
    match net_solveHubCDN net originalUrl with
    | RespSuccess final_link => WorkReturn (doneResult final_link logs) []
    | RespFailure _ message => WorkReturn (errorResult message logs) []
    end
  else
    match bypassLoop net 3 0 originalUrl [] [] with
    | LoopThrow message logs hops => WorkThrow message logs hops
    | LoopDone currentLink _ logs hops =>
        WorkReturn (stageHBLinks net currentLink logs) hops
    end.

Definition exitHops (e : LoopExit) : list Hop :=
  match e with
  | LoopDone _ _ _ hops => hops
  | LoopThrow _ _ hops => hops
  end.

(** The next url the resolver called at hop [h] answers with, when it
    reports success. *)
Definition hopAnswer (net : Net) (h : Hop) : option string :=
  if JS.includes (hop_url h) "gadgetsweb" then
    match net_solveGadgetsWebNative net (hop_loopCount h) (hop_url h) with
    | RespSuccess link => Some link
    | RespFailure _ _ => None
    end
  else
    match net_fetchTimerApi net (hop_loopCount h) (hop_url h) with
    | TimerJson status extracted_link =>
        if String.eqb status "success" && JS.truthy extracted_link
        then Some (JS.from_nullish extracted_link "") else None
    | TimerThrow _ => None
    end.

(** What holds of the hops made from a loop state [(loopCount, cur)]
    and of the state the loop is left in. *)
Definition loop_summary (net : Net) (loopCount : nat) (cur : string)
    (new : list Hop) (exit : LoopExit) : Prop :=
  (length new <= 3 - loopCount)%nat /\
  (forall i h, new !! i = Some h ->
     hop_loopCount h = (loopCount + i)%nat /\ (hop_loopCount h < 3)%nat /\
     isTargetUrl (hop_url h) = false /\
     (hop_loopCount h = 0%nat -> isTimerUrl (hop_url h) = true) /\
     (i = 0%nat -> hop_url h = cur)) /\
  (forall i h h', new !! i = Some h -> new !! S i = Some h' ->
     hopAnswer net h = Some (hop_url h')) /\
  match exit with
  | LoopDone cur' n _ _ =>
      match last new with
      | None => cur' = cur /\ n = loopCount
      | Some h =>
          match hopAnswer net h with
          | Some link => cur' = link /\ n = S (hop_loopCount h)
          | None => cur' = hop_url h /\ n = hop_loopCount h
          end
      end
  | LoopThrow message _ _ =>
      exists h, last new = Some h /\
        JS.includes (hop_url h) "gadgetsweb" = false /\
        net_fetchTimerApi net (hop_loopCount h) (hop_url h) = TimerThrow message
  end.

(** The host words tested by the stages after the loop. *)
Definition STAGE_HOSTS : list string :=
  ["hblinks"; "hubdrive"; "hubcloud"; "hubcdn"; "gdflix"; "drivehub"].

Definition workLogs (w : WorkOutcome) : list LogEntry :=
  match w with
  | WorkReturn r _ => JS.from_nullish (r_logs r) []
  | WorkThrow _ logs _ => logs
  end.

Definition workHops (w : WorkOutcome) : list Hop :=
  match w with
  | WorkReturn _ hops => hops
  | WorkThrow _ _ hops => hops
  end.

(** The race of [solveWork()] against the per-link timer: the chain wins
    when it settles before [LINK_TIMEOUT_MS] have elapsed.  On a timeout
    [logs] holds what the chain has pushed so far. *)
Definition raceWithTimeout (net : Net) (originalUrl : string) : SaveResult :=
  let w := solveWork net originalUrl in
  if (net_chainDuration net <? Config.LINK_TIMEOUT_MS)%Z then
    match w with
    | WorkReturn r _ => r
    | WorkThrow message logs _ => errorResult (Some message) logs
    end
  else
    errorResult
      (Some ("Timed out after " +:+ pretty (Config.LINK_TIMEOUT_MS / 1000)%Z +:+ "s"))
      (take (net_logsAtTimeout net) (workLogs w)).

Section WithDigest.

Context (md5 : string -> string).

(** The part of [processLink] below the cache check: the timeout race,
    the automatic retry, the save and the cache write.  [retry] is the
    recursive call [processLink(linkData, lid, taskId, extractedBy, 2)];
    [cache1] is the cache as the lookup left it and [lookup] the record
    of that lookup. *)
Definition solveAndSave (retry : gmap string CachedLink -> PLRun)
    (env : LinkEnv) (linkData : Link) (lid : nat) (taskId : string)
    (extractedBy : string) (attempt : nat) (cache1 : gmap string CachedLink)
    (lookup : Event) : PLRun :=
  let originalUrl := l_link linkData in
  let now := env_now env attempt in
  let net := env_net env attempt in
  let result := raceWithTimeout net originalUrl in
  let chain := EvChain attempt (workHops (solveWork net originalUrl)) in
  let status := JS.from_nullish (r_status result) "" in
  if String.eqb status "error" && (attempt =? 1)%nat then
    let again := retry cache1 in
    mkPLRun (run_result again) (lookup :: chain :: run_events again) (run_cache again)
  else
    let save := EvSave (mkSaveCall taskId lid originalUrl result (Some extractedBy) now) in
    if String.eqb status "done" && JS.truthy (r_finalLink result) then
      let finalLink := JS.from_nullish (r_finalLink result) "" in
      mkPLRun (mkPLResult lid status (r_finalLink result))
        [lookup; chain; save; EvCacheStore originalUrl finalLink]
        (Cache.setCachedLink md5 now cache1 originalUrl finalLink "solve_task"
           (r_best_button_name result) (r_all_available_buttons result))
    else
      mkPLRun (mkPLResult lid status (r_finalLink result)) [lookup; chain; save] cache1.

(** The save issued on a cache hit; [extractedBy] is not passed. *)
Definition cacheHitSave (now : Z) (taskId : string) (lid : nat) (originalUrl : string)
    (c : CachedLink) : SaveCall :=
  mkSaveCall taskId lid originalUrl
    {| r_status := Some "done";
       r_finalLink := Some (c_finalLink c);
       r_error := None;
       r_logs := Some [mkLog "⚡ CACHE HIT — resolved in 0ms" "success"];
       r_best_button_name := c_best_button_name c;
       r_all_available_buttons := Some (c_all_available_buttons c) |}
    None now.

(** One pass through the body of [processLink] for the given [attempt],
    starting from the cache contents [cache]. *)
Definition processLinkBody (retry : gmap string CachedLink -> PLRun)
    (env : LinkEnv) (linkData : Link) (lid : nat) (taskId : string)
    (extractedBy : string) (attempt : nat) (cache : gmap string CachedLink) : PLRun :=
  let originalUrl := l_link linkData in
  let now := env_now env attempt in
  let '(cached, cache1) := Cache.getCachedLink md5 now cache originalUrl in
  let lookup := EvCacheLookup originalUrl (bool_decide (is_Some cached)) in
  match cached with
  | Some c =>
      if JS.truthy (Some (c_finalLink c)) then
        mkPLRun (mkPLResult lid "done" (Some (c_finalLink c)))
          [lookup; EvSave (cacheHitSave now taskId lid originalUrl c)]
          cache1
      else solveAndSave retry env linkData lid taskId extractedBy attempt cache1 lookup
  | None => solveAndSave retry env linkData lid taskId extractedBy attempt cache1 lookup
  end.

(** The entry a lookup serves to [processLink]: a live hit whose final
    link is not empty. *)
Definition servedFromCache (now : Z) (cache : gmap string CachedLink) (url : string)
    : option CachedLink :=
  match fst (Cache.getCachedLink md5 now cache url) with
  | Some c => if JS.truthy (Some (c_finalLink c)) then Some c else None
  | None => None
  end.

(** The run that stands for a third nested call; [processLink] never
    reaches it, since the call for attempt 2 does not retry. *)
Definition noRun (lid : nat) (cache : gmap string CachedLink) : PLRun :=
  mkPLRun (mkPLResult lid "error" None) [] cache.

Definition processLink (env : LinkEnv) (linkData : Link) (lid : nat)
    (taskId : string) (extractedBy : string) (attempt : nat) : PLRun :=
  processLinkBody
    (processLinkBody (noRun lid) env linkData lid taskId extractedBy 2)
    env linkData lid taskId extractedBy attempt (env_cache env).

End WithDigest.

Definition cacheLookups (events : list Event) : nat :=
  length (List.filter (fun e => match e with EvCacheLookup _ _ => true | _ => false end) events).

Definition chainRuns (events : list Event) : nat :=
  length (List.filter (fun e => match e with EvChain _ _ => true | _ => false end) events).

Definition savesOf (events : list Event) : list SaveCall :=
  flat_map (fun e => match e with EvSave c => [c] | _ => [] end) events.

End LinkProcessor.

(** ** api/cron/process-queue/route.ts *)

(** A document of [movies_queue] or [webseries_queue]. *)
Record QueueItem := mkQueueItem {
  q_url : string;
  q_status : string;
  q_retryCount : option nat;
  q_lockedAt : option Z;
  q_updatedAt : option Z;
  q_createdAt : option Z;
  q_taskId : option string;
  q_extractedBy : option string;
  q_error : option string;
  q_lastError : option string;
  q_failedAt : option Z;
  q_processedAt : option Z;
  q_lastRecoveredAt : option Z;
  q_lastPartialRunAt : option Z
}.

Record Store := mkStore {
  movies_queue : gmap string QueueItem;
  webseries_queue : gmap string QueueItem;
  scraping_tasks : gmap string TaskDoc
}.

Module Recovery.

(** [(data.retryCount || 0)] *)
Definition retriesOf (q : QueueItem) : nat := JS.from_nullish (q_retryCount q) 0%nat.

(** [lockedAt ? now - new Date(lockedAt).getTime() : Infinity >
    STUCK_TASK_THRESHOLD_MS] *)
Definition queueItemStuck (now : Z) (q : QueueItem) : bool :=
  match JS.nullish_or (q_lockedAt q) (JS.nullish_or (q_updatedAt q) (q_createdAt q)) with
  | Some lockedAt => (now - lockedAt >? Config.STUCK_TASK_THRESHOLD_MS)%Z
  | None => true
  end.

Definition failQueueItem (now : Z) (q : QueueItem) : QueueItem :=
  {| q_url := q_url q;
     q_status := "failed";
     q_retryCount := q_retryCount q;
     q_lockedAt := q_lockedAt q;
     q_updatedAt := q_updatedAt q;
     q_createdAt := q_createdAt q;
     q_taskId := q_taskId q;
     q_extractedBy := q_extractedBy q;
     q_error := Some ("Max retries exceeded " +:+ pretty Config.MAX_CRON_RETRIES
                        +:+ "/" +:+ pretty Config.MAX_CRON_RETRIES);
     q_lastError := q_lastError q;
     q_failedAt := Some now;
     q_processedAt := q_processedAt q;
     q_lastRecoveredAt := q_lastRecoveredAt q;
     q_lastPartialRunAt := q_lastPartialRunAt q |}.

Definition requeueQueueItem (now : Z) (retryCount : nat) (q : QueueItem) : QueueItem :=
  {| q_url := q_url q;
     q_status := "pending";
     q_retryCount := Some retryCount;
     q_lockedAt := None;
     q_updatedAt := q_updatedAt q;
     q_createdAt := q_createdAt q;
     q_taskId := q_taskId q;
     q_extractedBy := q_extractedBy q;
     q_error := q_error q;
     q_lastError := q_lastError q;
     q_failedAt := q_failedAt q;
     q_processedAt := q_processedAt q;
     q_lastRecoveredAt := Some now;
     q_lastPartialRunAt := q_lastPartialRunAt q |}.

(** Part A, one document of the [status == 'processing'] snapshot;
    [retryCount > MAX_CRON_RETRIES] is written [MAX_CRON_RETRIES < retryCount]. *)
Definition recoverQueueDoc (now : Z) (q : QueueItem) : QueueItem :=
  if queueItemStuck now q then
    let retryCount := (retriesOf q + 1)%nat in
    if (Config.MAX_CRON_RETRIES <? retryCount)%nat then failQueueItem now q
    else requeueQueueItem now retryCount q
  else q.

Definition recoverQueueItem (now : Z) (q : QueueItem) : QueueItem :=
  if String.eqb (q_status q) "processing" then recoverQueueDoc now q else q.

(** [startedAt ? now - new Date(startedAt).getTime() : 0] *)
Definition taskAgeMs (now : Z) (d : TaskDoc) : Z :=
  match JS.nullish_or (t_processingStartedAt d) (t_createdAt d) with
  | Some startedAt => (now - startedAt)%Z
  | None => 0%Z
  end.

Definition allTerminal (links : list Link) : bool :=
  (0 <? length links)%nat && forallb Persist.isTerminalLink links.

Definition allSuccess (links : list Link) : bool :=
  allTerminal links && forallb Persist.isSuccessLink links.

(** [!l.status || ['pending', 'processing', ''].includes(l.status)] *)
Definition needsReset (l : Link) : bool :=
  match l_status l with
  | None => true
  | Some s => String.eqb s "" || JS.arr_includes ["pending"; "processing"; ""] s
  end.

Definition resetLink (l : Link) : Link :=
  if needsReset l then
    {| l_id := l_id l;
       l_name := l_name l;
       l_link := l_link l;
       l_status := Some "error";
       l_finalLink := l_finalLink l;
       l_error := Some "Task stuck >10min — auto-recovered";
       l_logs := l_logs l ++ [mkLog "🔄 Auto-recovered (stuck >10min)" "warn"];
       l_best_button_name := l_best_button_name l;
       l_all_available_buttons := l_all_available_buttons l;
       l_solvedAt := l_solvedAt l |}
  else l.

(** [Math.round(ageMs / 60000)] for a positive age *)
Definition roundMinutes (ageMs : Z) : Z := ((ageMs + 30000) / 60000)%Z.

(** Part B, one document of the [status == 'processing'] snapshot. *)
Definition recoverTaskDoc (now : Z) (d : TaskDoc) : TaskDoc :=
  let ageMs := taskAgeMs now d in
  if (ageMs >? Config.STUCK_TASK_THRESHOLD_MS)%Z then
    let links := t_links d in
    if allTerminal links then
      {| t_url := t_url d;
         t_status := if allSuccess links then "completed" else "failed";
         t_links := t_links d;
         t_extractedBy := t_extractedBy d;
         t_metadata := t_metadata d;
         t_preview := t_preview d;
         t_createdAt := t_createdAt d;
         t_updatedAt := t_updatedAt d;
         t_processingStartedAt := t_processingStartedAt d;
         t_completedAt := if allSuccess links then Some now else t_completedAt d;
         t_recoveredAt := Some now;
         t_recoveryReason := Some "Vercel timeout — task status not updated";
         t_error := t_error d |}
    else
      {| t_url := t_url d;
         t_status := "failed";
         t_links := map resetLink links;
         t_extractedBy := t_extractedBy d;
         t_metadata := t_metadata d;
         t_preview := t_preview d;
         t_createdAt := t_createdAt d;
         t_updatedAt := t_updatedAt d;
         t_processingStartedAt := t_processingStartedAt d;
         t_completedAt := t_completedAt d;
         t_recoveredAt := Some now;
         t_recoveryReason :=
           Some ("Task stuck in processing for " +:+ pretty (roundMinutes ageMs) +:+ "min");
         t_error := t_error d |}
  else d.

Definition recoverTask (now : Z) (d : TaskDoc) : TaskDoc :=
  if String.eqb (t_status d) "processing" then recoverTaskDoc now d else d.

Definition queueRecovered (now : Z) (q : QueueItem) : bool :=
  String.eqb (q_status q) "processing" && queueItemStuck now q.

Definition taskRecovered (now : Z) (d : TaskDoc) : bool :=
  String.eqb (t_status d) "processing" &&
  (taskAgeMs now d >? Config.STUCK_TASK_THRESHOLD_MS)%Z.

Definition countWhere {A} (p : A -> bool) (m : gmap string A) : nat :=
  length (List.filter (fun kv => p (snd kv)) (map_to_list m)).

(** [recoverStuckTasks]: the store afterwards and the number recovered. *)
Definition recoverStuckTasks (now : Z) (st : Store) : Store * nat :=
  ({| movies_queue := recoverQueueItem now <$> movies_queue st;
      webseries_queue := recoverQueueItem now <$> webseries_queue st;
      scraping_tasks := recoverTask now <$> scraping_tasks st |},
   (countWhere (queueRecovered now) (movies_queue st)
    + countWhere (queueRecovered now) (webseries_queue st)
    + countWhere (taskRecovered now) (scraping_tasks st))%nat).

(** The lifecycle statuses that end a document's life in a queue or in
    [scraping_tasks] until something outside recovery touches it. *)
Definition reconciled (status : string) : Prop := status <> "processing".

(** A link that recovery resets: its status is missing, empty,
    "pending" or "processing". *)
Definition unresolved (l : Link) : Prop :=
  l_status l = None \/ l_status l = Some "" \/
  l_status l = Some "pending" \/ l_status l = Some "processing".

End Recovery.

(** What [extractMovieLinks] returns. *)
Record RawLink := mkRawLink { raw_name : string; raw_link : string }.

Record ExtractResult := mkExtractResult {
  ex_status : string;
  ex_links : option (list RawLink);
  ex_metadata : option string;
  ex_preview : option string;
  ex_message : option string
}.

(** An entry of [Promise.allSettled]. *)
Inductive Settled :=
| Fulfilled (value : PLResult)
| RejectedPromise.

(** The sequential loop over the timer links: what it returns, the
    [saveResultToFirestore] calls it makes or causes, in order, and the
    flag it sets. *)
Record TimerRun := mkTimerRun {
  tr_results : list PLResult;
  tr_writes : list SaveCall;
  tr_deferred : bool;
  tr_started : nat
}.

(** What one cron invocation sees. *)
Record CronEnv := mkCronEnv {
  cron_start : Z;                      (* overallStart; also stamps the writes *)
  cron_clock : nat -> Z;               (* Date.now() at the i-th budget check *)
  cron_extract : string -> ExtractResult;
  cron_linkEnv : Link -> LinkEnv;
  cron_newTaskId : string;             (* the id generated by [add] *)
  cron_schedule : list bool            (* order in which concurrent writes commit *)
}.

Inductive CronResponse :=
| RespIdle (recovered : nat)
| RespOk (taskId : string) (recovered : nat) (doneCount : nat) (hasDeferredLinks : bool)
| RespError (message : string).

Module Orchestrator.

Definition TIME_BUDGET_MS : Z := 45000.

Definition applyWrite (tasks : gmap string TaskDoc) (w : SaveCall) : gmap string TaskDoc :=
  Persist.saveResultToFirestore (sc_now w) tasks (sc_taskId w) (sc_lid w)
    (sc_linkUrl w) (sc_result w) (sc_extractedBy w).

Definition applyWrites (tasks : gmap string TaskDoc) (ws : list SaveCall)
    : gmap string TaskDoc :=
  fold_left applyWrite ws tasks.

(** Concurrent writers commit one transaction at a time; [sched] picks
    which of the two groups commits next. *)
Fixpoint interleave {A} (sched : list bool) (xs ys : list A) : list A :=
  match sched with
  | [] => xs ++ ys
  | b :: sched' =>
      match xs, ys with
      | [], _ => ys
      | _, [] => xs
      | x :: xs', y :: ys' =>
          if b then x :: interleave sched' xs' ys
          else y :: interleave sched' xs ys'
      end
  end.

(** The transaction of a write, on a Task document. *)
Definition applyToDoc (d : TaskDoc) (w : SaveCall) : TaskDoc :=
  Persist.saveTransaction (sc_now w) (sc_lid w) (sc_linkUrl w) (sc_result w)
    (sc_extractedBy w) d.

(** A write touches the links it matches by id or by url. *)
Definition writeFor (l : Link) (w : SaveCall) : bool :=
  Persist.matches (sc_lid w) (sc_linkUrl w) l.

(** What a write does to one link of the array. *)
Definition writeLink (l : Link) (w : SaveCall) : Link :=
  if writeFor l w then Persist.updateLink (sc_now w) (sc_result w) l else l.

(** A write issued for Task [taskId] on behalf of link [l]: it is
    addressed by the id and the url of [l]. *)
Definition issuedFor (taskId : string) (l : Link) (w : SaveCall) : Prop :=
  sc_taskId w = taskId /\ sc_lid w = l_id l /\ sc_linkUrl w = l_link l.

(** The checkpoint written for a link that was not started. *)
Definition deferredResult (message : string) : SaveResult :=
  {| r_status := Some "pending";
     r_finalLink := None;
     r_error := None;
     r_logs := Some [mkLog message "warn"];
     r_best_button_name := None;
     r_all_available_buttons := None |}.

Definition deferredWrite (taskId : string) (extractedBy : string) (message : string)
    (now : Z) (deferred : Link) : SaveCall :=
  mkSaveCall taskId (l_id deferred) (l_link deferred) (deferredResult message)
    (Some extractedBy) now.

Section WithDigest.

Context (md5 : string -> string).

(** The [for] loop of [timerPromise], from index [i], over
    [timerLinks.slice(i)]. *)
Fixpoint timerLoop (clock : nat -> Z) (overallStart : Z) (linkEnv : Link -> LinkEnv)
    (taskId extractedBy message : string) (i : nat) (rest : list Link) : TimerRun :=
  match rest with
  | [] => mkTimerRun [] [] false 0
  | l :: rest' =>
      if (clock i - overallStart >? TIME_BUDGET_MS)%Z then
        mkTimerRun [] (map (deferredWrite taskId extractedBy message (clock i)) rest)
          true 0
      else
        let r := LinkProcessor.processLink md5 (linkEnv l) l (l_id l) taskId extractedBy 1 in
        let run := timerLoop clock overallStart linkEnv taskId extractedBy message (S i) rest' in
        mkTimerRun (run_result r :: tr_results run)
          (LinkProcessor.savesOf (run_events r) ++ tr_writes run)
          (tr_deferred run) (S (tr_started run))
  end.

Definition isTimerLink (l : Link) : bool := LinkProcessor.isTimerUrl (l_link l).

(** [!l.status || ['pending', 'processing'].includes(l.status)] *)
Definition isPendingLink (l : Link) : bool :=
  match l_status l with
  | None => true
  | Some s => String.eqb s "" || JS.arr_includes ["pending"; "processing"] s
  end.

Definition countDirectDone (settled : list Settled) : nat :=
  length (List.filter (fun r => match r with
                                | Fulfilled v => String.eqb (pl_status v) "done"
                                | RejectedPromise => false end) settled).

Definition countDirectErrors (settled : list Settled) : nat :=
  length (List.filter (fun r => match r with
                                | Fulfilled v => String.eqb (pl_status v) "error"
                                | RejectedPromise => true end) settled).

Definition countTimerDone (results : list PLResult) : nat :=
  length (List.filter (fun r => String.eqb (pl_status r) "done"
                                || String.eqb (pl_status r) "success") results).

Definition countTimerErrors (results : list PLResult) : nat :=
  length (List.filter (fun r => String.eqb (pl_status r) "error"
                                || String.eqb (pl_status r) "failed") results).

(** [!hasDeferredLinks && errorCount === 0 && doneCount === pendingLinks.length] *)
Definition allLinksSucceeded (hasDeferredLinks : bool) (errorCount doneCount pending : nat)
    : bool :=
  negb hasDeferredLinks && (errorCount =? 0)%nat && (doneCount =? pending)%nat.

(** Step 4, the claim write. *)
Definition lockItem (now : Z) (item : QueueItem) : QueueItem :=
  {| q_url := q_url item;
     q_status := "processing";
     q_retryCount := Some (Recovery.retriesOf item);
     q_lockedAt := Some now;
     q_updatedAt := q_updatedAt item;
     q_createdAt := q_createdAt item;
     q_taskId := q_taskId item;
     q_extractedBy := q_extractedBy item;
     q_error := q_error item;
     q_lastError := q_lastError item;
     q_failedAt := q_failedAt item;
     q_processedAt := q_processedAt item;
     q_lastRecoveredAt := q_lastRecoveredAt item;
     q_lastPartialRunAt := q_lastPartialRunAt item |}.

(** Step 5, the write of the extraction [catch] block.  [item] is the
    document as read before the claim, [stored] the claimed document. *)
Definition extractionFailed (now : Z) (item stored : QueueItem) (message : string)
    : QueueItem :=
  let currentRetries := Recovery.retriesOf item in
  let isFinalFail := (Config.MAX_CRON_RETRIES <=? currentRetries)%nat in
  {| q_url := q_url stored;
     q_status := if isFinalFail then "failed" else "pending";
     q_retryCount := Some (currentRetries + 1)%nat;
     q_lockedAt := None;
     q_updatedAt := q_updatedAt stored;
     q_createdAt := q_createdAt stored;
     q_taskId := q_taskId stored;
     q_extractedBy := q_extractedBy stored;
     q_error := Some ("Extraction failed: " +:+ message);
     q_lastError := q_lastError stored;
     q_failedAt := if isFinalFail then Some now else None;
     q_processedAt := q_processedAt stored;
     q_lastRecoveredAt := q_lastRecoveredAt stored;
     q_lastPartialRunAt := q_lastPartialRunAt stored |}.

(** Step 8, the three branches of the final queue write. *)
Definition finishItem (now : Z) (item stored : QueueItem) (taskId : string)
    (hasDeferredLinks succeeded : bool) (errorCount pending : nat) : QueueItem :=
  if hasDeferredLinks then
    {| q_url := q_url stored;
       q_status := "pending";
       q_retryCount := Some (Recovery.retriesOf item);
       q_lockedAt := None;
       q_updatedAt := q_updatedAt stored;
       q_createdAt := q_createdAt stored;
       q_taskId := Some taskId;
       q_extractedBy := Some "Server/Auto-Pilot";
       q_error := q_error stored;
       q_lastError := q_lastError stored;
       q_failedAt := q_failedAt stored;
       q_processedAt := q_processedAt stored;
       q_lastRecoveredAt := q_lastRecoveredAt stored;
       q_lastPartialRunAt := Some now |}
  else if succeeded then
    {| q_url := q_url stored;
       q_status := "completed";
       q_retryCount := Some (Recovery.retriesOf item);
       q_lockedAt := q_lockedAt stored;
       q_updatedAt := q_updatedAt stored;
       q_createdAt := q_createdAt stored;
       q_taskId := Some taskId;
       q_extractedBy := Some "Server/Auto-Pilot";
       q_error := q_error stored;
       q_lastError := q_lastError stored;
       q_failedAt := q_failedAt stored;
       q_processedAt := Some now;
       q_lastRecoveredAt := q_lastRecoveredAt stored;
       q_lastPartialRunAt := q_lastPartialRunAt stored |}
  else
    {| q_url := q_url stored;
       q_status := "failed";
       q_retryCount := Some (Recovery.retriesOf item);
       q_lockedAt := q_lockedAt stored;
       q_updatedAt := q_updatedAt stored;
       q_createdAt := q_createdAt stored;
       q_taskId := Some taskId;
       q_extractedBy := Some "Server/Auto-Pilot";
       q_error := q_error stored;
       q_lastError := Some (pretty errorCount +:+ " link(s) failed out of " +:+ pretty pending);
       q_failedAt := q_failedAt stored;
       q_processedAt := Some now;
       q_lastRecoveredAt := q_lastRecoveredAt stored;
       q_lastPartialRunAt := q_lastPartialRunAt stored |}.

(** [where('status', '==', 'pending').orderBy('createdAt', 'asc').limit(1)]:
    documents without the ordering field are not returned; among equal
    timestamps the first in enumeration order is taken. *)
Definition earlier (best : option (string * QueueItem)) (kv : string * QueueItem)
    : option (string * QueueItem) :=
  match best with
  | None => Some kv
  | Some b =>
      match q_createdAt (snd kv), q_createdAt (snd b) with
      | Some c, Some cb => if (c <? cb)%Z then Some kv else best
      | _, _ => best
      end
  end.

Definition pickPending (queue : gmap string QueueItem) : option (string * QueueItem) :=
  fold_left earlier
    (List.filter (fun kv => String.eqb (q_status (snd kv)) "pending"
                            && bool_decide (is_Some (q_createdAt (snd kv))))
                 (map_to_list queue))
    None.

(** [linksWithIds] *)
Definition linksWithIds (links : list RawLink) : list Link :=
  imap (fun i l =>
          {| l_id := i;
             l_name := raw_name l;
             l_link := raw_link l;
             l_status := Some "pending";
             l_finalLink := None;
             l_error := None;
             l_logs := [mkLog "🔍 Queued for processing..." "info"];
             l_best_button_name := None;
             l_all_available_buttons := [];
             l_solvedAt := None |}) links.

Definition newTask (now : Z) (url : string) (listResult : ExtractResult)
    (links : list Link) : TaskDoc :=
  {| t_url := url;
     t_status := "processing";
     t_links := links;
     t_extractedBy := Some "Server/Auto-Pilot";
     t_metadata := ex_metadata listResult;
     t_preview := ex_preview listResult;
     t_createdAt := Some now;
     t_updatedAt := None;
     t_processingStartedAt := None;
     t_completedAt := None;
     t_recoveredAt := None;
     t_recoveryReason := None;
     t_error := None |}.

Definition extractionOk (listResult : ExtractResult) : bool :=
  String.eqb (ex_status listResult) "success"
  && (0 <? length (JS.from_nullish (ex_links listResult) []))%nat.

Definition DEFER_MESSAGE : string :=
  "⏳ Time budget exceeded — deferred to next cron run".

(** What steps 6 to 8 compute for the claimed item. *)
Record Resolution := mkResolution {
  res_tasks : gmap string TaskDoc;
  res_item : QueueItem;
  res_doneCount : nat;
  res_errorCount : nat;
  res_deferred : bool;
  res_timer : TimerRun;
  res_direct : list PLRun
}.

Definition resolveLinks (env : CronEnv) (tasks : gmap string TaskDoc)
    (item stored : QueueItem) (taskId : string) (links : list Link) : Resolution :=
  let pendingLinks := List.filter isPendingLink links in
  let timerLinks := List.filter isTimerLink pendingLinks in
  let directLinks := List.filter (fun l => negb (isTimerLink l)) pendingLinks in
  let directRuns :=
    map (fun l => LinkProcessor.processLink md5 (cron_linkEnv env l) l (l_id l)
                    taskId "Server/Auto-Pilot" 1) directLinks in
  let timer :=
    timerLoop (cron_clock env) (cron_start env) (cron_linkEnv env)
      taskId "Server/Auto-Pilot" DEFER_MESSAGE 0 timerLinks in
  let directWrites := flat_map (fun r => LinkProcessor.savesOf (run_events r)) directRuns in
  let tasks' :=
    applyWrites tasks (interleave (cron_schedule env) directWrites (tr_writes timer)) in
  let directSettled := map (fun r => Fulfilled (run_result r)) directRuns in
  let doneCount := (countDirectDone directSettled + countTimerDone (tr_results timer))%nat in
  let errorCount := (countDirectErrors directSettled + countTimerErrors (tr_results timer))%nat in
  let hasDeferredLinks := tr_deferred timer in
  let succeeded :=
    allLinksSucceeded hasDeferredLinks errorCount doneCount (length pendingLinks) in
  mkResolution tasks'
    (finishItem (cron_start env) item stored taskId hasDeferredLinks succeeded
       errorCount (length pendingLinks))
    doneCount errorCount hasDeferredLinks timer directRuns.

Definition setQueue (st : Store) (movies : bool) (id : string) (q : QueueItem) : Store :=
  if movies then
    mkStore (<[id := q]> (movies_queue st)) (webseries_queue st) (scraping_tasks st)
  else
    mkStore (movies_queue st) (<[id := q]> (webseries_queue st)) (scraping_tasks st).

Definition queueOf (movies : bool) (st : Store) : gmap string QueueItem :=
  if movies then movies_queue st else webseries_queue st.

(** The claimed item: movies first, then webseries. *)
Definition pickItem (st : Store) : option (bool * (string * QueueItem)) :=
  match pickPending (movies_queue st) with
  | Some kv => Some (true, kv)
  | None =>
      match pickPending (webseries_queue st) with
      | Some kv => Some (false, kv)
      | None => None
      end
  end.

(** [GET], from [overallStart] on, for a request that has passed the
    guard on the secret ([CronRoute.GET] below has the guard): the store
    afterwards and the JSON body returned.  The heartbeat, the
    notifications and the cache sweep write elsewhere and are left
    out. *)
Definition GET (env : CronEnv) (st0 : Store) : Store * CronResponse :=
  let now := cron_start env in
  let '(st, recovered) := Recovery.recoverStuckTasks now st0 in
  match pickItem st with
  | None => (st, RespIdle recovered)
  | Some (movies, (id, item)) =>
      let stored := lockItem now item in
      let st1 := setQueue st movies id stored in
      let listResult := cron_extract env (q_url item) in
      if negb (extractionOk listResult) then
        let message :=
          JS.from_nullish (JS.or_truthy (ex_message listResult) None)
            "Link extraction failed or returned 0 links" in
        (setQueue st1 movies id (extractionFailed now item stored message),
         RespError message)
      else
        let links := linksWithIds (JS.from_nullish (ex_links listResult) []) in
        let taskId := cron_newTaskId env in
        let tasks1 := <[taskId := newTask now (q_url item) listResult links]> (scraping_tasks st1) in
        let res := resolveLinks env tasks1 item stored taskId links in
        (setQueue (mkStore (movies_queue st1) (webseries_queue st1) (res_tasks res))
                  movies id (res_item res),
         RespOk taskId recovered (res_doneCount res) (res_deferred res))
  end.

End WithDigest.

End Orchestrator.

(** ** The dashboard component: shield, polling and submission *)

(** A task as the client holds it: [{ id, ...doc.data() }]. *)
Record Task := mkClientTask { task_id : string; task_doc : TaskDoc }.

(** An entry of [completedLinksRef.current[taskId]]. *)
Record ShieldEntry := mkShield {
  sh_status : string;
  sh_finalLink : option string;
  sh_best_button_name : option string;
  sh_logs : option (list LogEntry)
}.

(** One parsed line of the NDJSON stream. *)
Record StreamMsg := mkStreamMsg {
  m_id : nat;
  m_msg : option string;
  m_type : option string;
  m_final : option string;
  m_status : option string;
  m_best_button_name : option string
}.

(** The state and refs of the component that the modelled functions use. *)
Record Client := mkClient {
  tasks : list Task;
  activeTaskId : option string;
  liveLogs : gmap nat (list LogEntry);
  liveLinks : gmap nat (option string);
  liveStatuses : gmap nat string;
  streamStarted : gset string;               (* streamStartedRef *)
  streamEndedAt : gmap string Z;             (* streamEndedAtRef *)
  completedLinks : gmap string (gmap nat ShieldEntry)   (* completedLinksRef *)
}.

Module Overlay.

Definition GRACE_MS : Z := 15000.

(** [endedAt && now - endedAt < 15000] *)
Definition isRecentlyEnded (c : Client) (now : Z) (taskId : string) : bool :=
  match streamEndedAt c !! taskId with
  | Some endedAt => negb (endedAt =? 0)%Z && (now - endedAt <? GRACE_MS)%Z
  | None => false
  end.

(** [completedLinksRef.current[id] || {}] *)
Definition shieldOf (c : Client) (taskId : string) : gmap nat ShieldEntry :=
  default ∅ (completedLinks c !! taskId).

Definition isFbPending (fbLink : Link) : bool :=
  let fbStatus := status_lc fbLink in
  String.eqb fbStatus "pending" || String.eqb fbStatus "processing"
  || String.eqb fbStatus "".

Definition shielded (protectedLink : ShieldEntry) (fbLink : Link) : Link :=
  {| l_id := l_id fbLink;
     l_name := l_name fbLink;
     l_link := l_link fbLink;
     l_status := Some (sh_status protectedLink);
     l_finalLink := JS.or_truthy (sh_finalLink protectedLink) (l_finalLink fbLink);
     l_error := l_error fbLink;
     l_logs := JS.from_nullish (sh_logs protectedLink) (l_logs fbLink);
     l_best_button_name :=
       JS.or_truthy (sh_best_button_name protectedLink) (l_best_button_name fbLink);
     l_all_available_buttons := l_all_available_buttons fbLink;
     l_solvedAt := l_solvedAt fbLink |}.

(** SHIELD CHECK 2, the callback of [links.map]. *)
Definition mergeLink (shieldData : gmap nat ShieldEntry) (recentlyEnded : bool)
    (idx : nat) (fbLink : Link) : Link :=
  match shieldData !! idx with
  | Some protectedLink =>
      if isFbPending fbLink || recentlyEnded then shielded protectedLink fbLink
      else fbLink
  | None => fbLink
  end.

Definition withStatusAndLinks (d : TaskDoc) (status : string) (links : list Link)
    : TaskDoc :=
  {| t_url := t_url d;
     t_status := status;
     t_links := links;
     t_extractedBy := t_extractedBy d;
     t_metadata := t_metadata d;
     t_preview := t_preview d;
     t_createdAt := t_createdAt d;
     t_updatedAt := t_updatedAt d;
     t_processingStartedAt := t_processingStartedAt d;
     t_completedAt := t_completedAt d;
     t_recoveredAt := t_recoveredAt d;
     t_recoveryReason := t_recoveryReason d;
     t_error := t_error d |}.

(** The part of the [data.map] callback below SHIELD CHECK 1. *)
Definition overlayTask (c : Client) (now : Z) (serverTask : Task) : Task :=
  let recentlyEnded := isRecentlyEnded c now (task_id serverTask) in
  let shieldData := shieldOf c (task_id serverTask) in
  let mergedLinks := imap (mergeLink shieldData recentlyEnded) (t_links (task_doc serverTask)) in
  let allDone := (0 <? length mergedLinks)%nat && forallb Persist.isTerminalLink mergedLinks in
  let anySuccess := existsb Persist.isSuccessLink mergedLinks in
  let newTaskStatus :=
    if allDone then (if anySuccess then "completed" else "failed")
    else if recentlyEnded then "processing"
    else t_status (task_doc serverTask) in
  mkClientTask (task_id serverTask)
    (withStatusAndLinks (task_doc serverTask) newTaskStatus mergedLinks).

(** [prevTasks.find((t) => t.id === serverTask.id)] *)
Definition findTask (ts : list Task) (id : string) : option Task :=
  List.find (fun t => String.eqb (task_id t) id) ts.

(** The callback of [data.map] in [fetchTasks]. *)
Definition mergeTask (c : Client) (now : Z) (serverTask : Task) : Task :=
  match (if bool_decide (task_id serverTask ∈ streamStarted c)
         then findTask (tasks c) (task_id serverTask) else None) with
  | Some localTask => localTask
  | None => overlayTask c now serverTask
  end.

Definition withTasks (c : Client) (ts : list Task) : Client :=
  mkClient ts (activeTaskId c) (liveLogs c) (liveLinks c) (liveStatuses c)
    (streamStarted c) (streamEndedAt c) (completedLinks c).

(** [fetchTasks] once the poll has returned [data]. *)
Definition fetchTasks (c : Client) (now : Z) (data : list Task) : Client :=
  withTasks c (map (mergeTask c now) data).

(** The closure variables of one [startLiveStream] call. *)
Record StreamLocal := mkStreamLocal {
  currentLogs : gmap nat (list LogEntry);
  currentLinks : gmap nat (option string);
  currentStatus : gmap nat string
}.

Definition logsOf (s : StreamLocal) (lid : nat) : list LogEntry :=
  default [] (currentLogs s !! lid).

Definition isTerminalWord (o : option string) : bool :=
  match o with
  | Some s => String.eqb s "done" || String.eqb s "error"
  | None => false
  end.

(** [completedLinksRef.current[taskId][lid] = entry]; it throws when the
    task has no shield object. *)
Definition shieldStore (c : Client) (taskId : string) (lid : nat) (e : ShieldEntry)
    : option Client :=
  match completedLinks c !! taskId with
  | Some m =>
      Some (mkClient (tasks c) (activeTaskId c) (liveLogs c) (liveLinks c)
              (liveStatuses c) (streamStarted c) (streamEndedAt c)
              (<[taskId := <[lid := e]> m]> (completedLinks c)))
  | None => None
  end.

Definition setLive (c : Client) (logs : gmap nat (list LogEntry))
    (links : gmap nat (option string)) (statuses : gmap nat string) : Client :=
  mkClient (tasks c) (activeTaskId c) logs links statuses
    (streamStarted c) (streamEndedAt c) (completedLinks c).

(** The body of the [for (const line of lines)] loop for one parsed
    line.  A throw inside the [try] abandons the rest of the line and
    keeps what was already assigned. *)
Definition handleLine (taskId : string) (data : StreamMsg) (c : Client) (s : StreamLocal)
    : Client * StreamLocal :=
  let lid := m_id data in
  (* log message *)
  let '(c1, s1) :=
    if JS.truthy (m_msg data) && JS.truthy (m_type data) then
      let newLog := mkLog (JS.from_nullish (m_msg data) "") (JS.from_nullish (m_type data) "") in
      let logs := logsOf s lid ++ [newLog] in
      (setLive c (<[lid := logs]> (liveLogs c)) (liveLinks c) (liveStatuses c),
       mkStreamLocal (<[lid := logs]> (currentLogs s)) (currentLinks s) (currentStatus s))
    else (c, s) in
  (* final link *)
  let '(c2, s2) :=
    if JS.truthy (m_final data) then
      (setLive c1 (liveLogs c1) (<[lid := m_final data]> (liveLinks c1)) (liveStatuses c1),
       mkStreamLocal (currentLogs s1) (<[lid := m_final data]> (currentLinks s1)) (currentStatus s1))
    else (c1, s1) in
  (* done / error *)
  if isTerminalWord (m_status data) then
    let status := JS.from_nullish (m_status data) "" in
    let s3 := mkStreamLocal (currentLogs s2) (currentLinks s2) (<[lid := status]> (currentStatus s2)) in
    let c3 := setLive c2 (liveLogs c2) (liveLinks c2) (<[lid := status]> (liveStatuses c2)) in
    let entry :=
      mkShield status
        (JS.or_truthy (m_final data) (default None (currentLinks s3 !! lid)))
        (m_best_button_name data)
        (Some (logsOf s3 lid)) in
    match shieldStore c3 taskId lid entry with
    | Some c4 => (c4, s3)
    | None => (c3, s3)
    end
  else if bool_decide (m_status data = Some "finished") then
    if isTerminalWord (currentStatus s2 !! lid) then (c2, s2)
    else
      match shieldStore c2 taskId lid (mkShield "error" None None (Some (logsOf s2 lid))) with
      | Some c3 =>
          (setLive c3 (liveLogs c3) (liveLinks c3) (<[lid := "error"]> (liveStatuses c3)), s2)
      | None => (c2, s2)
      end
  else (c2, s2).

(** The [finally] block of [startLiveStream]. *)
Definition streamFinally (taskId : string) (now : Z) (c : Client) : Client :=
  mkClient (tasks c) None (liveLogs c) (liveLinks c) (liveStatuses c)
    (streamStarted c ∖ {[taskId]}) (<[taskId := now]> (streamEndedAt c))
    (completedLinks c).

Record Stats := mkStats { total : nat; done : nat; failed : nat; pending : nat }.

(** The status [getEffectiveStats] counts for position [i]. *)
Definition effectiveStatus (c : Client) (task : Task) (i : nat) (l : Link) : string :=
  let isLive := bool_decide (activeTaskId c = Some (task_id task)) in
  let status :=
    if isLive && JS.truthy (liveStatuses c !! i) then default "" (liveStatuses c !! i)
    else match shieldOf c (task_id task) !! i with
         | Some e => sh_status e
         | None => JS.from_nullish (JS.or_truthy (l_status l) None) ""
         end in
  JS.toLowerCase status.

Definition getEffectiveStats (c : Client) (task : Task) : Stats :=
  let statuses := imap (effectiveStatus c task) (t_links (task_doc task)) in
  let isDone s := String.eqb s "done" || String.eqb s "success" in
  let isFailed s := String.eqb s "error" || String.eqb s "failed" in
  mkStats (length statuses)
    (length (List.filter isDone statuses))
    (length (List.filter (fun s => negb (isDone s) && isFailed s) statuses))
    (length (List.filter (fun s => negb (isDone s) && negb (isFailed s)) statuses)).

Definition getTrueTaskStatus (c : Client) (task : Task) (stats : Stats) : string :=
  if bool_decide (activeTaskId c = Some (task_id task)) then "processing"
  else if (0 <? total stats)%nat && (pending stats =? 0)%nat then
    (if (0 <? done stats)%nat then "completed" else "failed")
  else t_status (task_doc task).

End Overlay.

(** ** api/tasks/route.ts and [startProcess] *)

Inductive PostResponse :=
| PostBadRequest (error : string)
| PostMerged (taskId : string) (newLinksAdded : nat) (reset : bool)
| PostCreated (taskId : string).

Inductive SubmitOutcome :=
| SubmitIgnored
| SubmitAlreadyCompleted (taskId : string)
| SubmitStillProcessing (taskId : string)
| SubmitPosted (response : PostResponse) (dispatched : option (list Link)).

Module Intake.

(** [.where('url', '==', trimmedUrl).limit(5)] *)
Definition dupSnap (tasks : gmap string TaskDoc) (trimmedUrl : string)
    : list (string * TaskDoc) :=
  take 5 (List.filter (fun kv => String.eqb (t_url (snd kv)) trimmedUrl)
                      (map_to_list tasks)).

(** [(b.createdAt || '').localeCompare(a.createdAt || '') < 0]: [a] is
    strictly more recent than [b]; a missing timestamp sorts last. *)
Definition moreRecent (a b : option Z) : bool :=
  match a, b with
  | Some x, Some y => (y <? x)%Z
  | Some _, None => true
  | None, _ => false
  end.

(** [sorted[0]] after the stable descending sort. *)
Definition newer (best : option (string * TaskDoc)) (kv : string * TaskDoc)
    : option (string * TaskDoc) :=
  match best with
  | None => Some kv
  | Some b => if moreRecent (t_createdAt (snd kv)) (t_createdAt (snd b))
              then Some kv else best
  end.

Definition latest (docs : list (string * TaskDoc)) : option (string * TaskDoc) :=
  fold_left newer docs None.

Definition retryLink (l : Link) : Link :=
  if JS.arr_includes ["error"; "failed"] (JS.from_nullish (l_status l) "") then
    {| l_id := l_id l;
       l_name := l_name l;
       l_link := l_link l;
       l_status := Some "pending";
       l_finalLink := l_finalLink l;
       l_error := l_error l;
       l_logs := [mkLog "🔄 Retrying..." "info"];
       l_best_button_name := l_best_button_name l;
       l_all_available_buttons := l_all_available_buttons l;
       l_solvedAt := l_solvedAt l |}
  else l.

(** [maxExistingId + 1], with [maxExistingId = -1] for no links *)
Definition nextId (existingLinks : list Link) : nat :=
  match existingLinks with
  | [] => 0
  | _ => S (fold_right Nat.max 0 (map l_id existingLinks))
  end.

Definition freshLink (firstId : nat) (logs : list LogEntry) (i : nat) (l : RawLink) : Link :=
  {| l_id := firstId + i;
     l_name := raw_name l;
     l_link := raw_link l;
     l_status := Some "pending";
     l_finalLink := None;
     l_error := None;
     l_logs := logs;
     l_best_button_name := None;
     l_all_available_buttons := [];
     l_solvedAt := None |}.

Definition trulyNewLinks (existingLinks : list Link) (found : list RawLink) : list RawLink :=
  List.filter (fun l => negb (JS.arr_includes (map l_link existingLinks) (raw_link l))) found.

Definition mergedLinks (existingLinks : list Link) (found : list RawLink) : list Link :=
  map retryLink existingLinks
  ++ imap (freshLink (nextId existingLinks) []) (trulyNewLinks existingLinks found).

(** Step 4, the update of the existing document. *)
Definition mergeInto (now : Z) (existing : TaskDoc) (listResult : ExtractResult) : TaskDoc :=
  {| t_url := t_url existing;
     t_status := "pending";
     t_links := mergedLinks (t_links existing) (JS.from_nullish (ex_links listResult) []);
     t_extractedBy := t_extractedBy existing;
     t_metadata := JS.nullish_or (ex_metadata listResult) (t_metadata existing);
     t_preview := JS.nullish_or (ex_preview listResult) (t_preview existing);
     t_createdAt := t_createdAt existing;
     t_updatedAt := Some now;
     t_processingStartedAt := t_processingStartedAt existing;
     t_completedAt := t_completedAt existing;
     t_recoveredAt := t_recoveredAt existing;
     t_recoveryReason := t_recoveryReason existing;
     t_error := None |}.

(** Step 5, the document added for a url seen for the first time. *)
Definition createdTask (now : Z) (trimmedUrl : string) (listResult : ExtractResult)
    : TaskDoc :=
  let hasLinks := Orchestrator.extractionOk listResult in
  {| t_url := trimmedUrl;
     t_status := if hasLinks then "pending" else "failed";
     t_links :=
       if hasLinks then
         imap (freshLink 0 [mkLog "🔍 Queued for processing..." "info"])
              (JS.from_nullish (ex_links listResult) [])
       else [];
     t_extractedBy := Some "Browser/Live";
     t_metadata := ex_metadata listResult;
     t_preview := ex_preview listResult;
     t_createdAt := Some now;
     t_updatedAt := None;
     t_processingStartedAt := None;
     t_completedAt := None;
     t_recoveredAt := None;
     t_recoveryReason := None;
     t_error :=
       if hasLinks then None
       else Some (JS.from_nullish (JS.or_truthy (ex_message listResult) None)
                    "Extraction failed — 0 links found") |}.

(** [POST /api/tasks]: the collection afterwards and the response.
    [newId] is the id generated by [add]. *)
Definition POST (now : Z) (extract : string -> ExtractResult) (newId : string)
    (tasks : gmap string TaskDoc) (url : option string)
    : gmap string TaskDoc * PostResponse :=
  if negb (JS.truthy url) then (tasks, PostBadRequest "URL is required")
  else
    let trimmedUrl := JS.trim (JS.from_nullish url "") in
    let listResult := extract trimmedUrl in
    match latest (dupSnap tasks trimmedUrl) with
    | Some (existingTaskId, existingTaskData) =>
        if Orchestrator.extractionOk listResult then
          (<[existingTaskId := mergeInto now existingTaskData listResult]> tasks,
           PostMerged existingTaskId
             (length (trulyNewLinks (t_links existingTaskData)
                        (JS.from_nullish (ex_links listResult) [])))
             true)
        else (tasks, PostMerged existingTaskId 0 false)
    | None =>
        (<[newId := createdTask now trimmedUrl listResult]> tasks, PostCreated newId)
    end.

Definition stripPrefix (p s : string) : string :=
  if String.prefix p s then String.substring (String.length p) (String.length s - String.length p) s
  else s.

(** [u.toLowerCase().replace(/^https?:\/\//, '').replace(/\/$/, '')] *)
Definition normalize (u : string) : string :=
  let lower := JS.toLowerCase u in
  let bare :=
    if String.prefix "https://" lower then stripPrefix "https://" lower
    else stripPrefix "http://" lower in
  match rev (list_ascii_of_string bare) with
  | c :: rest => if Ascii.eqb c "/"%char then string_of_list_ascii (rev rest) else bare
  | [] => bare
  end.

(** [tasks.find((t) => normalize(t.url) === normalizedInput)] *)
Definition findDuplicate (c : Client) (url : string) : option Task :=
  List.find (fun t => String.eqb (normalize (t_url (task_doc t))) (normalize (JS.trim url)))
            (tasks c).

(** [links.filter((_, idx) => s !== 'done' && s !== 'success')] with
    [s = shieldData[idx]?.status] *)
Definition linksToSend (shieldData : gmap nat ShieldEntry) (links : list Link) : list Link :=
  omap id
    (imap (fun idx l =>
             match shieldData !! idx with
             | Some e => if String.eqb (sh_status e) "done" || String.eqb (sh_status e) "success"
                         then None else Some l
             | None => Some l
             end) links).

(** [startProcess], up to the request the stream is opened with.  The
    server is the [scraping_tasks] collection behind [/api/tasks]. *)
Definition startProcess (c : Client) (now : Z) (extract : string -> ExtractResult)
    (newId : string) (server : gmap string TaskDoc) (url : string)
    : gmap string TaskDoc * SubmitOutcome :=
  if String.eqb (JS.trim url) "" then (server, SubmitIgnored)
  else
    let post (_ : unit) :=
      let '(server', response) := POST now extract newId server (Some (JS.trim url)) in
      let dispatched :=
        match response with
        | PostBadRequest _ => None
        | PostMerged taskId _ _ | PostCreated taskId =>
            if bool_decide (taskId ∈ streamStarted c) then None
            else (fun d => linksToSend ∅ (t_links d)) <$> (server' !! taskId)
        end in
      (server', SubmitPosted response dispatched) in
    match findDuplicate c url with
    | Some duplicate =>
        let dupStatus :=
          Overlay.getTrueTaskStatus c duplicate (Overlay.getEffectiveStats c duplicate) in
        if String.eqb dupStatus "completed" then
          (server, SubmitAlreadyCompleted (task_id duplicate))
        else if String.eqb dupStatus "processing" then
          (server, SubmitStillProcessing (task_id duplicate))
        else post tt
    | None => post tt
    end.

End Intake.

(** ** Concrete inputs used by the examples below *)

Module Samples.

Definition link (id : nat) (url : string) (status : string) : Link :=
  mkLink id ("Link " +:+ pretty id) url (Some status) None None [] None [] None.

Definition task (url status : string) (links : list Link) : TaskDoc :=
  mkTask url status links None None None (Some 0%Z) None None None None None None.

Definition result (status : string) (finalLink : option string) : SaveResult :=
  mkSaveResult (Some status) finalLink None (Some []) None None.

Definition two_links : list Link :=
  [ link 0 "https://hubcloud.example/a" "done";
    link 1 "https://gdflix.example/b" "pending" ].

Definition tasks1 : gmap string TaskDoc :=
  {[ "t1" := task "https://site.example/movie" "processing" two_links ]}.

Definition saved1 : TaskDoc :=
  Persist.saveTransaction 1000 1 "https://gdflix.example/b"
    (result "error" None) (Some "Browser/Live")
    (task "https://site.example/movie" "processing" two_links).

(** A page that answers 522 twice and then 200. *)
Definition flaky_page (n : nat) : AxiosOutcome :=
  match n with
  | 0 | 1 => Rejected (mkAxiosError (Some 522%Z) "Request failed with status code 522")
  | _ => Resolved 200 "<a href='https://hubcloud.foo/x'>x</a>"
  end.

Definition find_any (page : string) : option (string * string) :=
  Some ("https://hubcloud.foo/x", "HubCloud.foo (P1)").

Definition cache1 : gmap string CachedLink :=
  Cache.setCachedLink (fun s => s) 1000 ∅ "https://Site.example/A " "https://cdn.example/f"
    "solve_task" None None.

Definition no_answer {A} : Resp A := RespFailure "error" (Some "unreachable").

(** A network where the GadgetsWeb resolver answers with a url of an
    unknown host and the timer service reports failure. *)
Definition net_leaves_timer_family : Net :=
  mkNet (fun _ => no_answer)
        (fun _ _ => RespSuccess "https://example.org/next")
        (fun _ _ => TimerJson "error" None)
        (fun _ => no_answer) (fun _ => no_answer) (fun _ => no_answer)
        1000 0.

Definition gadgets_url : string := "https://gadgetsweb.xyz/?id=abc".

(** An environment with an empty cache in which every resolver fails. *)
Definition dead_net : Net :=
  mkNet (fun _ => no_answer) (fun _ _ => no_answer) (fun _ _ => TimerJson "error" None)
        (fun _ => no_answer) (fun _ => no_answer) (fun _ => no_answer) 1000 0.

Definition dead_env : LinkEnv := mkLinkEnv ∅ (fun a => (1000 * Z.of_nat a)%Z) (fun _ => dead_net).

Definition unknown_link : Link := link 0 "https://unknown.example/file" "pending".

Definition queue_item (status : string) (retries : nat) (lockedAt : Z) (taskId : string)
    : QueueItem :=
  mkQueueItem "https://site.example/movie" status (Some retries) (Some lockedAt) None
    (Some 0%Z) (Some taskId) None None None None None None None.

(** A store left behind by a killed run: two claimed queue items that
    point at the same Task, all of whose links are done, and a second
    Task with a link still pending. *)
Definition stuck_store : Store :=
  mkStore
    {[ "q1" := queue_item "processing" 0 0 "t1";
       "q2" := queue_item "processing" 3 0 "t1" ]}
    ∅
    {[ "t1" := task "https://site.example/movie" "processing"
                 [ link 0 "https://hubcloud.example/a" "done";
                   link 1 "https://gdflix.example/b" "done" ];
       "t2" := task "https://site.example/other" "processing"
                 [ link 0 "https://hubcloud.example/c" "done";
                   link 1 "https://gadgetsweb.example/d" "pending" ] ]}.

Definition pending_store : Store :=
  mkStore {[ "q1" := queue_item "pending" 0 0 "" ]} ∅ ∅.

Definition found (links : list RawLink) : ExtractResult :=
  mkExtractResult "success" (Some links) None None None.

(** A run whose page yields one link of a terminal host. *)
Definition cron_env_done : CronEnv :=
  mkCronEnv 1000 (fun _ => 1000%Z)
    (fun _ => found [mkRawLink "720p" "https://gdflix.example/b"])
    (fun _ => dead_env) "task-new" [].

(** A run whose page yields one link of a timer host and whose clock is
    past the budget at the first check. *)
Definition cron_env_late : CronEnv :=
  mkCronEnv 1000 (fun _ => 100000%Z)
    (fun _ => found [mkRawLink "720p" "https://gadgetsweb.example/d"])
    (fun _ => dead_env) "task-new" [].


Definition timer_links : list Link :=
  [ link 0 "https://gadgetsweb.example/a" "pending";
    link 1 "https://gadgetsweb.example/b" "pending" ].

Definition timer_tasks : gmap string TaskDoc :=
  {[ "t9" := task "https://site.example/series" "processing" timer_links ]}.


(** A dashboard that has opened a stream for Task "t1" and holds an
    empty shield for it. *)
Definition client0 : Client :=
  mkClient [] (Some "t1") ∅ ∅ ∅ {[ "t1" ]} ∅ {[ "t1" := ∅ ]}.

Definition stream0 : Overlay.StreamLocal := Overlay.mkStreamLocal ∅ ∅ ∅.

Definition done_line : StreamMsg :=
  mkStreamMsg 1 None None (Some "https://cdn.example/f") (Some "done") None.

(** A poll issued before link 1 finished, answered afterwards. *)
Definition stale_poll : list Task :=
  [ mkClientTask "t1" (task "https://site.example/movie" "processing" two_links) ].

(** A dashboard that has not loaded any task yet. *)
Definition fresh_client : Client := mkClient [] None ∅ ∅ ∅ ∅ ∅ ∅.

Definition same_page (url : string) : ExtractResult :=
  found [ mkRawLink "720p" "https://hubcloud.example/a";
          mkRawLink "1080p" "https://gdflix.example/b" ].

(** A dashboard whose task list holds the in-flight Task of [tasks1]. *)
Definition informed_client : Client :=
  mkClient [ mkClientTask "t1" (task "https://site.example/movie" "processing" two_links) ]
    None ∅ ∅ ∅ ∅ ∅ ∅.

End Samples.

(** ** lib/config.ts: host and junk filters *)

Module Filters.

(** The strings of the model are byte strings.  On text made of ASCII
    characters the case mappings, [trim], [length] and [substring] of
    the model are those of the code; a byte outside ASCII is left as it
    is by the case mappings and by [trim], and counts as one character,
    which is not what the code does with the character it belongs to. *)
Definition isAscii (s : string) : bool :=
  forallb (fun c => (nat_of_ascii c <? 128)%nat) (list_ascii_of_string s).

Definition upper_ascii (c : ascii) : ascii :=
  let n := nat_of_ascii c in
  if (97 <=? n)%nat && (n <=? 122)%nat then ascii_of_nat (n - 32) else c.

(** [s.toUpperCase()] on ASCII text. *)
Fixpoint toUpperCase (s : string) : string :=
  match s with
  | EmptyString => EmptyString
  | String c s' => String (upper_ascii c) (toUpperCase s')
  end.

Definition JUNK_DOMAINS : list string :=
  [ "catimages"; "imdb.com"; "googleusercontent"; "instagram.com";
    "facebook.com"; "wp-content"; "wpshopmart" ].

Definition JUNK_LINK_TEXTS : list string :=
  [ "how to download"; "[how to download]"; "how to watch"; "[how to watch]";
    "join telegram"; "join our telegram"; "request movie";
    "4k | sdr | hevc"; "4k | sdr"; "sdr | hevc" ].

Definition JUNK_LINK_EXACT_TEXTS : list string :=
  [ "4k"; "sdr"; "hevc"; "download"; "watch"; "click here"; "link" ].

(** [TIMER_DOMAINS.some((d) => url.toLowerCase().includes(d))] *)
Definition isTimerDomain (url : string) : bool :=
  JS.some_includes Config.TIMER_DOMAINS (JS.toLowerCase url).

Definition isTargetDomain (url : string) : bool :=
  JS.some_includes Config.TARGET_DOMAINS (JS.toLowerCase url).

Definition isJunkLinkText (text : string) : bool :=
  let lower := JS.trim (JS.toLowerCase text) in
  if JS.some_includes JUNK_LINK_TEXTS lower then true
  else if existsb (fun j => String.eqb lower j) JUNK_LINK_EXACT_TEXTS then true
  else false.

Definition isJunkDomain (url : string) : bool :=
  JS.some_includes JUNK_DOMAINS (JS.toLowerCase url).

End Filters.

(** ** lib/solvers.ts: link discovery *)

(** What the loop of [extractMovieLinks] reads from one candidate
    element: its two link attributes, its text, the text of the closest
    [p, div, h3, h4, li] container, the text of the heading that
    precedes that container, if there is one, and the container's own
    text without its children. *)
Record Candidate := mkCandidate {
  cand_href : option string;
  cand_dataHref : option string;
  cand_text : string;
  cand_parentText : string;
  cand_prevHeading : option string;
  cand_containerOwnText : string
}.

(** The parsed page: the candidate elements of STEP 1 in the order they
    are collected, and the two summaries computed from the markup. *)
Record Page := mkPage {
  page_candidates : list Candidate;
  page_preview : string;
  page_metadata : string
}.

(** The object [extractMovieLinks] returns. *)
Record Discovered := mkDiscovered {
  d_status : string;
  d_total : option nat;
  d_links : option (list RawLink);
  d_metadata : option string;
  d_preview : option string;
  d_message : option string
}.

Module Discovery.

Definition DOWNLOAD_KEYWORDS : list string :=
  [ "DOWNLOAD"; "720P"; "480P"; "1080P"; "4K"; "DIRECT"; "GDRIVE" ].

Definition TARGET_DOMAINS_LIST : list string :=
  [ "hblinks"; "hubdrive"; "hubcdn"; "hubcloud"; "gdflix"; "drivehub" ].

Section WithPage.

(** [new URL(rawLink, url).href], [None] when it throws; and the removal
    of the emoji code points. *)
Context (resolveUrl : string -> string -> option string).
Context (stripEmoji : string -> string).

(** [hrefRaw || dataHrefRaw] *)
Definition rawLink (c : Candidate) : string :=
  let hrefRaw := JS.trim (JS.from_nullish (JS.or_truthy (cand_href c) None) "") in
  let dataHrefRaw := JS.trim (JS.from_nullish (JS.or_truthy (cand_dataHref c) None) "") in
  if negb (String.eqb hrefRaw "") then hrefRaw else dataHrefRaw.

(** STEPS 2a to 2g: the resolved url of a candidate that is not skipped
    before the duplicate check. *)
Definition relevant (url : string) (c : Candidate) : option string :=
  let raw := rawLink c in
  if String.eqb raw "" then None
  else if String.prefix "#" raw then None
  else if String.prefix "javascript:" raw then None
  else
    match resolveUrl raw url with
    | None => None
    | Some resolvedLink =>
        if Filters.isJunkDomain resolvedLink then None
        else
          let text := JS.trim (cand_text c) in
          if Filters.isJunkLinkText text then None
          else if Filters.isJunkLinkText (JS.trim (cand_parentText c)) then None
          else
            let isTargetDomainLink :=
              JS.some_includes TARGET_DOMAINS_LIST (JS.toLowerCase resolvedLink) in
            let isDownloadKeywordText :=
              JS.some_includes DOWNLOAD_KEYWORDS (Filters.toUpperCase text) in
            if negb isTargetDomainLink && negb isDownloadKeywordText then None
            else Some resolvedLink
    end.

(** [!name || name.length < 2]; the length counts bytes, which on
    ASCII text is the length of the code. *)
Definition tooShort (name : string) : bool :=
  String.eqb name "" || (String.length name <? 2)%nat.

(** STEPS 3a to 3c; [substring(0, 50)] cuts after 50 bytes, which on
    ASCII text is the cut of the code. *)
Definition cleanName (c : Candidate) : string :=
  let text := JS.trim (cand_text c) in
  let name := JS.trim (stripEmoji text) in
  let name :=
    if tooShort name then
      match cand_prevHeading c with
      | Some heading => JS.trim (stripEmoji heading)
      | None =>
          let containerOwnText := JS.trim (cand_containerOwnText c) in
          if negb (String.eqb containerOwnText "") then containerOwnText
          else "Download Link"
      end
    else name in
  JS.trim (String.substring 0 50 name).

(** The [for (const $el of candidateElements)] loop, on the links found
    and the urls seen so far. *)
Fixpoint scan (url : string) (cs : list Candidate)
    (foundLinks : list RawLink) (seenUrls : gset string) : list RawLink :=
  match cs with
  | [] => foundLinks
  | c :: cs' =>
      match relevant url c with
      | None => scan url cs' foundLinks seenUrls
      | Some resolvedLink =>
          if bool_decide (resolvedLink ∈ seenUrls) then scan url cs' foundLinks seenUrls
          else
            let seenUrls' := {[resolvedLink]} ∪ seenUrls in
            let name := cleanName c in
            if Filters.isJunkLinkText name then scan url cs' foundLinks seenUrls'
            else
              let name := if tooShort name then "Download Link" else name in
              scan url cs' (foundLinks ++ [mkRawLink name resolvedLink]) seenUrls'
      end
  end.

(** Everything the loop reads from a candidate is ASCII text: its
    attributes and texts, what the emoji removal makes of its text and
    of its heading, and the url its link resolves to. *)
Definition asciiCandidate (url : string) (c : Candidate) : bool :=
  Filters.isAscii (JS.from_nullish (cand_href c) "")
  && Filters.isAscii (JS.from_nullish (cand_dataHref c) "")
  && Filters.isAscii (cand_text c)
  && Filters.isAscii (cand_parentText c)
  && Filters.isAscii (JS.from_nullish (cand_prevHeading c) "")
  && Filters.isAscii (cand_containerOwnText c)
  && Filters.isAscii (stripEmoji (JS.trim (cand_text c)))
  && Filters.isAscii (stripEmoji (JS.from_nullish (cand_prevHeading c) ""))
  && match resolveUrl (rawLink c) url with
     | Some resolvedLink => Filters.isAscii resolvedLink
     | None => true
     end.

(** What the loop pushes for a candidate it accepts: the candidate is
    not skipped before the duplicate check, its cleaned name is not
    junk, and the name pushed is the cleaned name or the fallback. *)
Definition pushed (url : string) (c : Candidate) (l : RawLink) : Prop :=
  relevant url c = Some (raw_link l) /\
  Filters.isJunkLinkText (cleanName c) = false /\
  raw_name l = (if tooShort (cleanName c) then "Download Link" else cleanName c).

Definition failure (message : string) : Discovered :=
  mkDiscovered "error" None None None None (Some message).

(** [extractMovieLinks]: the object returned and the requests made. *)
Definition extractMovieLinks (get : nat -> AxiosOutcome) (parse : string -> Page)
    (url : string) : Discovered * Solvers.FetchRun :=
  let run := Solvers.extractMovieLinks_fetch get in
  match Solvers.fr_outcome run with
  | Rejected e => (failure (err_message e), run)
  | Resolved _ html =>
      let page := parse html in
      let foundLinks := scan url (page_candidates page) [] ∅ in
      if (length foundLinks =? 0)%nat then
        (failure "No download links found. Page structure may have changed.", run)
      else
        (mkDiscovered "success" (Some (length foundLinks)) (Some foundLinks)
           (Some (page_metadata page)) (Some (page_preview page)) None,
         run)
  end.

End WithPage.

(** The fields of the result that the callers read. *)
Definition listResult (d : Discovered) : ExtractResult :=
  mkExtractResult (d_status d) (d_links d) (d_metadata d) (d_preview d) (d_message d).

End Discovery.
(** ** Sample pages and stores for the properties below *)

Module Cases.

(** Absolute links resolve to themselves and root-relative ones against
    a fixed origin; nothing else resolves. *)
Definition resolve (raw base : string) : option string :=
  if String.prefix "http" raw then Some raw
  else if String.prefix "/" raw then Some ("https://site.example" +:+ raw)
  else None.

(** A stand-in for the emoji removal: it drops the character [*]. *)
Fixpoint drop_stars (s : string) : string :=
  match s with
  | EmptyString => EmptyString
  | String c s' => if Ascii.eqb c "*"%char then drop_stars s' else String c (drop_stars s')
  end.

Definition button (href text : string) : Candidate :=
  mkCandidate (Some href) None text text None "".

(** Two buttons for the same file, the first with a decorated bare
    word as its label; a button for a second file; an in-page anchor. *)
Definition page1 : list Candidate :=
  [ button "https://hubcloud.example/a" "* Download";
    button "https://hubcloud.example/a" "720p WEB-DL";
    button "/go/gdflix?id=b" "1080p x264";
    button "#comments" "Download 4K now" ].

Definition parse1 (html : string) : Page := mkPage page1 "preview" "metadata".

Definition page_ok (n : nat) : AxiosOutcome := Resolved 200 "<html>".

End Cases.

(** ** lib/cache.ts: statistics *)

Record CacheStats := mkCacheStats {
  totalEntries : nat;
  validEntries : nat;
  expiredEntries : nat;
  totalHits : nat
}.

Module CacheStatsOf.

Definition isValid (data : CachedLink) : bool := String.eqb (c_status data) "valid".

(** [getCacheStats]: every document that is not valid is counted as
    expired. *)
Definition getCacheStats (cache : gmap string CachedLink) : CacheStats :=
  let docs := map snd (map_to_list cache) in
  mkCacheStats (length docs)
    (length (List.filter isValid docs))
    (length (List.filter (fun d => negb (isValid d)) docs))
    (list_sum (map c_hitCount docs)).

End CacheStatsOf.

(** ** api/tasks/route.ts: listing and deleting *)

Inductive DeleteResponse :=
| DeleteBadRequest (error : string)
| DeleteAlready                       (* { success: true, note: 'already deleted' } *)
| DeleteDone (deletedId : string).

Module TasksApi.

(** [DELETE]: [queryId] is the [taskId] search parameter and [bodyId]
    the [taskId] of the JSON body, read only when the parameter is
    missing or empty. *)
Definition DELETE (tasks : gmap string TaskDoc) (queryId bodyId : option string)
    : gmap string TaskDoc * DeleteResponse :=
  let taskId := if JS.truthy queryId then queryId else bodyId in
  if negb (JS.truthy taskId) then (tasks, DeleteBadRequest "taskId is required")
  else
    let id := JS.from_nullish taskId "" in
    match tasks !! id with
    | None => (tasks, DeleteAlready)
    | Some _ => (delete id tasks, DeleteDone id)
    end.

(** The id a [POST] response carries. *)
Definition postedId (r : PostResponse) : option string :=
  match r with
  | PostBadRequest _ => None
  | PostMerged taskId _ _ => Some taskId
  | PostCreated taskId => Some taskId
  end.

End TasksApi.

(** ** The dashboard: deleting and retrying a task *)

Module TaskActions.

(** The local cleanup shared by [handleDeleteTask] and
    [handleRetryTask]: the task leaves the list and its shield and
    stream-end entries are deleted. *)
Definition forget (c : Client) (taskId : string) : Client :=
  mkClient (List.filter (fun t => negb (String.eqb (task_id t) taskId)) (tasks c))
    (activeTaskId c) (liveLogs c) (liveLinks c) (liveStatuses c)
    (streamStarted c) (delete taskId (streamEndedAt c))
    (delete taskId (completedLinks c)).

(** [handleDeleteTask]: the response of the request is not read. *)
Definition handleDeleteTask (c : Client) (server : gmap string TaskDoc) (taskId : string)
    : gmap string TaskDoc * Client :=
  (fst (TasksApi.DELETE server None (Some taskId)), forget c taskId).

(** [completedLinksRef.current[newTaskId] = {}] *)
Definition initShield (c : Client) (taskId : string) : Client :=
  mkClient (tasks c) (activeTaskId c) (liveLogs c) (liveLinks c) (liveStatuses c)
    (streamStarted c) (streamEndedAt c) (<[taskId := ∅]> (completedLinks c)).

(** [handleRetryTask], up to the request the stream is opened with: the
    server afterwards, the refs of the client afterwards, and the links
    sent to the stream, if one is opened.  The refresh of the task list
    from the server ([fetchTasks], [setTasks]) that precedes the stream
    is not followed. *)
Definition handleRetryTask (c : Client) (now : Z) (extract : string -> ExtractResult)
    (newId : string) (server : gmap string TaskDoc) (task : Task)
    : gmap string TaskDoc * Client * option (list Link) :=
  let server1 := fst (TasksApi.DELETE server None (Some (task_id task))) in
  let c1 := forget c (task_id task) in
  let '(server2, response) :=
    Intake.POST now extract newId server1 (Some (t_url (task_doc task))) in
  match TasksApi.postedId response with
  | None => (server2, c1, None)
  | Some newTaskId =>
      let c2 := initShield c1 newTaskId in
      let dispatched :=
        if bool_decide (newTaskId ∈ streamStarted c2) then None
        else (fun d => Intake.linksToSend (Overlay.shieldOf c2 newTaskId) (t_links d))
               <$> (server2 !! newTaskId) in
      (server2, c2, dispatched)
  end.

End TaskActions.

(** ** Sample runs of the orchestrator *)

Module Runs.

(** A movies queue with one pending item and a web-series queue with
    one item claimed 100 ms before the run starts. *)
Definition busy_store : Store :=
  mkStore {[ "q1" := Samples.queue_item "pending" 0 0 "" ]}
          {[ "w1" := Samples.queue_item "processing" 0 900 "t1" ]}
          ∅.

(** The collaborators of a link: the first url is in the cache, every
    other resolution fails. *)
Definition half_linkEnv (l : Link) : LinkEnv :=
  if String.eqb (l_link l) "https://site.example/a"
  then mkLinkEnv Samples.cache1 (fun _ => 2000%Z) (fun _ => Samples.dead_net)
  else Samples.dead_env.

(** A run whose page yields two links, of which one resolves. *)
Definition half_env : CronEnv :=
  mkCronEnv 1000 (fun _ => 1000%Z)
    (fun _ => Samples.found [ mkRawLink "720p" "https://site.example/a";
                              mkRawLink "1080p" "https://unknown.example/file" ])
    half_linkEnv "task-new" [].

End Runs.

(** ** The dashboard component: counters, link cards and tabs *)

(** [TabType] *)
Inductive Tab := TabHome | TabProcessing | TabCompleted | TabFailed | TabHistory.

(** What [getEffectiveLinkData] returns for a link card. *)
Record LinkView := mkLinkView {
  v_logs : list LogEntry;
  v_finalLink : option string;
  v_status : string
}.

Module Dashboard.

(** [getLinkStats] *)
Definition getLinkStats (links : list Link) : Overlay.Stats :=
  match links with
  | [] => Overlay.mkStats 0 0 0 0
  | _ =>
      let statuses := map status_lc links in
      let isDone s := String.eqb s "done" || String.eqb s "success" in
      let isFailed s := String.eqb s "error" || String.eqb s "failed" in
      Overlay.mkStats (length links)
        (length (List.filter isDone statuses))
        (length (List.filter (fun s => negb (isDone s) && isFailed s) statuses))
        (length (List.filter (fun s => negb (isDone s) && negb (isFailed s)) statuses))
  end.

(** [getEffectiveLinkData]: live stream, then shield, then the polled
    link. *)
Definition getEffectiveLinkData (c : Client) (task : Task) (linkIdx : nat) (link : Link)
    : LinkView :=
  let isLive := bool_decide (activeTaskId c = Some (task_id task)) in
  if isLive && JS.truthy (liveStatuses c !! linkIdx) then
    mkLinkView (default [] (liveLogs c !! linkIdx))
      (JS.or_truthy (default None (liveLinks c !! linkIdx)) None)
      (default "" (liveStatuses c !! linkIdx))
  else
    match Overlay.shieldOf c (task_id task) !! linkIdx with
    | Some shield =>
        mkLinkView (JS.from_nullish (sh_logs shield) [])
          (JS.or_truthy (sh_finalLink shield) (JS.or_truthy (l_finalLink link) None))
          (sh_status shield)
    | None =>
        mkLinkView (l_logs link)
          (JS.or_truthy (l_finalLink link) None)
          (JS.from_nullish (JS.or_truthy (l_status link) None) "processing")
    end.

(** [getTrueTaskStatus(t, getEffectiveStats(t))] *)
Definition trueStatus (c : Client) (t : Task) : string :=
  Overlay.getTrueTaskStatus c t (Overlay.getEffectiveStats c t).

Definition inTab (c : Client) (word : string) (t : Task) : bool :=
  String.eqb (trueStatus c t) word.

Section WithSort.

(** [[...tasks].sort(...)] by creation time, newest first, as the
    engine sorts. *)
Context (sortNewestFirst : list Task -> list Task).

(** [getFilteredTasks] for the tab that is open. *)
Definition getFilteredTasks (c : Client) (activeTab : Tab) : list Task :=
  match activeTab with
  | TabProcessing => List.filter (inTab c "processing") (tasks c)
  | TabCompleted => List.filter (inTab c "completed") (tasks c)
  | TabFailed => List.filter (inTab c "failed") (tasks c)
  | TabHistory => sortNewestFirst (tasks c)
  | TabHome => tasks c
  end.

End WithSort.

(** The tab badge counts. *)
Definition processingCount (c : Client) : nat :=
  length (List.filter (inTab c "processing") (tasks c)).

Definition completedCount (c : Client) : nat :=
  length (List.filter (inTab c "completed") (tasks c)).

Definition failedCount (c : Client) : nat :=
  length (List.filter (inTab c "failed") (tasks c)).

Definition historyCount (c : Client) : nat := length (tasks c).

End Dashboard.

(** ** The dashboard component: reading the stream *)

Module Stream.

Definition newline : ascii := ascii_of_nat 10.

(** [s.split('\n')]: the pieces between line feeds, never an empty
    array. *)
Fixpoint splitLines (s : string) : list string :=
  match s with
  | EmptyString => [""]
  | String ch s' =>
      if Ascii.eqb ch newline then "" :: splitLines s'
      else match splitLines s' with
           | l :: ls => String ch l :: ls
           | [] => [String ch ""]
           end
  end.

(** One turn of the read loop: [buffer += chunk], [lines =
    buffer.split('\n')], [buffer = lines.pop() || '']. *)
Definition takeLines (buffer chunk : string) : list string * string :=
  let lines := splitLines (buffer +:+ chunk) in
  (List.removelast lines, JS.from_nullish (JS.or_truthy (last lines) None) "").

(** What [links.forEach] puts into [initStatuses], [initLinks] and
    [initLogs] for one link. *)
Definition initStatus (l : Link) : string :=
  let s := status_lc l in
  if String.eqb s "done" || String.eqb s "success" then "done" else "processing".

Definition initLink (l : Link) : option string :=
  let s := status_lc l in
  if String.eqb s "done" || String.eqb s "success" then JS.or_truthy (l_finalLink l) None
  else None.

Definition initLog (l : Link) : list LogEntry :=
  let s := status_lc l in
  if String.eqb s "done" || String.eqb s "success" then l_logs l
  else if String.eqb s "error" || String.eqb s "failed" then [mkLog "Retrying..." "warn"]
  else [].

Definition byIndex {A} (f : Link -> A) (links : list Link) : gmap nat A :=
  list_to_map (imap (fun idx l => (idx, f l)) links).

Section WithParser.

(** [JSON.parse]; [None] when it throws. *)
Context (parse : string -> option StreamMsg).

(** The body of [for (const line of lines)]: blank lines and lines
    that do not parse are skipped. *)
Definition handleText (taskId : string) (cs : Client * Overlay.StreamLocal) (line : string)
    : Client * Overlay.StreamLocal :=
  if String.eqb (JS.trim line) "" then cs
  else match parse line with
       | Some data => Overlay.handleLine taskId data (fst cs) (snd cs)
       | None => cs
       end.

(** The [while (true)] loop over the chunks the reader delivers
    before it reports the end of the stream. *)
Fixpoint readLoop (taskId : string) (buffer : string) (chunks : list string)
    (cs : Client * Overlay.StreamLocal) : (Client * Overlay.StreamLocal) * string :=
  match chunks with
  | [] => (cs, buffer)
  | chunk :: rest =>
      let '(lines, buffer') := takeLines buffer chunk in
      readLoop taskId buffer' rest (fold_left (handleText taskId) lines cs)
  end.

(** [startLiveStream]: the client when the stream has ended and its
    [finally] block has run, and the links sent with the request, if
    one was made.  [respond] gives the decoded chunks of the response to
    a request ([[]] when the request fails); polls that arrive while
    the stream is read are not followed. *)
Definition startLiveStream (respond : list Link -> list string)
    (c : Client) (now : Z) (taskId : string) (links : list Link)
    : Client * option (list Link) :=
  if bool_decide (taskId ∈ streamStarted c) then (c, None)
  else
    let shieldData := Overlay.shieldOf c taskId in
    let linksToSend := Intake.linksToSend shieldData links in
    let initLogs := byIndex initLog links in
    let initLinks := byIndex initLink links in
    let initStatuses := byIndex initStatus links in
    let c1 :=
      mkClient (tasks c) (Some taskId) initLogs initLinks initStatuses
        ({[taskId]} ∪ streamStarted c) (streamEndedAt c) (completedLinks c) in
    let s1 := Overlay.mkStreamLocal initLogs initLinks initStatuses in
    let '(c2, _, _) := readLoop taskId "" (respond linksToSend) (c1, s1) in
    (Overlay.streamFinally taskId now c2, Some linksToSend).

End WithParser.

(** Every entry of every shield reports "done" or "error". *)
Definition shieldsFinal (c : Client) : Prop :=
  forall id m i e, completedLinks c !! id = Some m -> m !! i = Some e ->
    sh_status e = "done" \/ sh_status e = "error".

(** What reading the stream of [taskId] may change between [c] and
    [c']: the live maps, and positions of the shield of [taskId], which
    receive "done" or "error". *)
Definition wroteOnly (taskId : string) (c c' : Client) : Prop :=
  tasks c' = tasks c /\ activeTaskId c' = activeTaskId c /\
  streamStarted c' = streamStarted c /\ streamEndedAt c' = streamEndedAt c /\
  (forall id, id <> taskId -> completedLinks c' !! id = completedLinks c !! id) /\
  (completedLinks c !! taskId = None -> completedLinks c' !! taskId = None) /\
  (forall m, completedLinks c !! taskId = Some m ->
     exists m', completedLinks c' !! taskId = Some m' /\
       forall i, m' !! i = m !! i \/
                 exists e, m' !! i = Some e /\
                   (sh_status e = "done" \/ sh_status e = "error")).

End Stream.

(** ** POST /api/solve_task *)

(** The JSON body of the request; every field may be missing. *)
Record SolveBody := mkSolveBody {
  sb_taskId : option string;
  sb_links : option (list Link);
  sb_extractedBy : option string
}.

(** The request: two headers and the body, [None] when it is not
    JSON. *)
Record SolveRequest := mkSolveRequest {
  sr_authorization : option string;
  sr_internal : option string;
  sr_body : option SolveBody
}.

(** What one invocation of the route sees. *)
Record SolveEnv := mkSolveEnv {
  se_cronSecret : option string;       (* process.env.CRON_SECRET *)
  se_now : Z;                          (* the time written with the mark *)
  se_start : Z;                        (* overallStart *)
  se_clock : nat -> Z;                 (* Date.now() at the i-th budget check *)
  se_linkEnv : Link -> LinkEnv;
  se_schedule : list bool              (* order in which concurrent writes commit *)
}.

Inductive SolveResponse :=
| SolveUnauthorized
| SolveBadRequest (error : string)
| SolveNotFound
| SolveIdle (taskId : string)
| SolveOk (taskId : string) (processed done errors directCount timerCount : nat).

Module SolveTask.

Definition TIME_BUDGET_MS : Z := 45000.

Definition DEFER_MESSAGE : string :=
  "⏳ Time budget exceeded (45s) — deferred to next cron run".

(** The guard on the two headers; without a configured secret every
    request passes. *)
Definition authorized (env : SolveEnv) (req : SolveRequest) : bool :=
  if JS.truthy (se_cronSecret env) then
    let cronSecret := JS.from_nullish (se_cronSecret env) "" in
    let authHeader := JS.from_nullish (JS.or_truthy (sr_authorization req) None) "" in
    let internalHeader := JS.from_nullish (JS.or_truthy (sr_internal req) None) "" in
    let isBearer := String.eqb authHeader ("Bearer " +:+ cronSecret) in
    let isInternal := String.eqb internalHeader "true" in
    isBearer || isInternal
  else true.

(** Step 1, the mark written before any link is started. *)
Definition markProcessing (now : Z) (extractedBy : string) (d : TaskDoc) : TaskDoc :=
  {| t_url := t_url d;
     t_status := "processing";
     t_links := t_links d;
     t_extractedBy := Some (JS.from_nullish (JS.or_truthy (Some extractedBy) None) "Unknown");
     t_metadata := t_metadata d;
     t_preview := t_preview d;
     t_createdAt := t_createdAt d;
     t_updatedAt := t_updatedAt d;
     t_processingStartedAt := Some now;
     t_completedAt := t_completedAt d;
     t_recoveredAt := t_recoveredAt d;
     t_recoveryReason := t_recoveryReason d;
     t_error := t_error d |}.

(** [(bodyLinks && bodyLinks.length > 0) ? bodyLinks : (data.links || [])] *)
Definition allLinks (bodyLinks : option (list Link)) (data : TaskDoc) : list Link :=
  match bodyLinks with
  | Some (l :: ls) => l :: ls
  | _ => t_links data
  end.

Section WithDigest.

Context (md5 : string -> string).

(** What the route computes once the Task has been found. *)
Record Solved := mkSolved {
  sv_tasks : gmap string TaskDoc;
  sv_pending : list Link;
  sv_direct : list PLRun;
  sv_timer : TimerRun
}.

Definition solve (env : SolveEnv) (tasks : gmap string TaskDoc) (taskId extractedBy : string)
    (data : TaskDoc) (links : list Link) : Solved :=
  let pendingLinks := List.filter Orchestrator.isPendingLink links in
  let tasks1 := <[taskId := markProcessing (se_now env) extractedBy data]> tasks in
  let timerLinks := List.filter Orchestrator.isTimerLink pendingLinks in
  let directLinks := List.filter (fun l => negb (Orchestrator.isTimerLink l)) pendingLinks in
  let directRuns :=
    map (fun l => LinkProcessor.processLink md5 (se_linkEnv env l) l (l_id l)
                    taskId extractedBy 1) directLinks in
  let timer :=
    Orchestrator.timerLoop md5 (se_clock env) (se_start env) (se_linkEnv env)
      taskId extractedBy DEFER_MESSAGE 0 timerLinks in
  let directWrites := flat_map (fun r => LinkProcessor.savesOf (run_events r)) directRuns in
  mkSolved
    (Orchestrator.applyWrites tasks1
       (Orchestrator.interleave (se_schedule env) directWrites (tr_writes timer)))
    pendingLinks directRuns timer.

(** [POST]: the collection afterwards and the response.  The reads and
    writes of the collection are taken to succeed, so the answer of the
    [catch] block does not occur. *)
Definition POST (env : SolveEnv) (tasks : gmap string TaskDoc) (req : SolveRequest)
    : gmap string TaskDoc * SolveResponse :=
  if negb (authorized env req) then (tasks, SolveUnauthorized)
  else
    match sr_body req with
    | None => (tasks, SolveBadRequest "Invalid JSON in request body")
    | Some body =>
        let extractedBy :=
          JS.from_nullish (JS.or_truthy (sb_extractedBy body) None) "Browser/Live" in
        match JS.or_truthy (sb_taskId body) None with
        | None => (tasks, SolveBadRequest "taskId is required")
        | Some taskId =>
            match tasks !! taskId with
            | None => (tasks, SolveNotFound)
            | Some data =>
                let links := allLinks (sb_links body) data in
                let pendingLinks := List.filter Orchestrator.isPendingLink links in
                if (length pendingLinks =? 0)%nat then (tasks, SolveIdle taskId)
                else
                  let s := solve env tasks taskId extractedBy data links in
                  let directSettled := map (fun r => Fulfilled (run_result r)) (sv_direct s) in
                  let doneCount :=
                    (Orchestrator.countDirectDone directSettled
                     + Orchestrator.countTimerDone (tr_results (sv_timer s)))%nat in
                  let errorCount := (length pendingLinks - doneCount)%nat in
                  (sv_tasks s,
                   SolveOk taskId (length pendingLinks) doneCount errorCount
                     (length (List.filter (fun l => negb (Orchestrator.isTimerLink l))
                                pendingLinks))
                     (length (List.filter Orchestrator.isTimerLink pendingLinks)))
            end
        end
    end.

End WithDigest.

End SolveTask.

(** ** Sample requests to the solve route *)

Module SolveRuns.

(** No secret configured; every resolver fails; the clock stands at the
    start of the run. *)
Definition open_env : SolveEnv :=
  mkSolveEnv None 500 1000 (fun _ => 1000%Z) (fun _ => Samples.dead_env) [].

(** The same, with the clock past the budget at the first check. *)
Definition late_env : SolveEnv :=
  mkSolveEnv None 500 1000 (fun _ => 100000%Z) (fun _ => Samples.dead_env) [].

(** A request that names a Task and no links. *)
Definition request (taskId : string) : SolveRequest :=
  mkSolveRequest None None (Some (mkSolveBody (Some taskId) None None)).




End SolveRuns.

(** ** POST /api/tasks/bulk *)

Inductive BulkResponse :=
| BulkBadRequest (error : string)
| BulkOk (added duplicates skipped total : nat).

Module Bulk.

(** [url.toLowerCase().trim()], the form under which urls are
    compared. *)
Definition key (url : string) : string := JS.trim (JS.toLowerCase url).

(** [urls.map(u => u.trim()).filter(u => u.startsWith('http'))] *)
Definition normalized (urls : list string) : list string :=
  List.filter (String.prefix "http") (map JS.trim urls).

(** What [forEach] adds to [existingUrls] for one collection: the key
    of every document that has a url. *)
Definition keysOf {A} (url : A -> string) (docs : gmap string A) : gset string :=
  list_to_set
    (map key (List.filter (fun u => negb (String.eqb u ""))
                          (map (fun kv => url (snd kv)) (map_to_list docs)))).

Definition existingUrls (st : Store) : gset string :=
  keysOf t_url (scraping_tasks st) ∪ keysOf q_url (movies_queue st)
  ∪ keysOf q_url (webseries_queue st).

(** Step 3, the loop that sorts the urls into [unique] and
    [duplicates]; a url that is kept is added to the set. *)
Fixpoint sift (seen : gset string) (urls : list string) : list string * list string :=
  match urls with
  | [] => ([], [])
  | url :: rest =>
      if bool_decide (key url ∈ seen) then
        let '(unique, duplicates) := sift seen rest in (unique, url :: duplicates)
      else
        let '(unique, duplicates) := sift ({[key url]} ∪ seen) rest in
        (url :: unique, duplicates)
  end.

(** The document written for a url.  The fields [priority] and
    [source], which no other route reads, are left out. *)
Definition queued (now : Z) (url : string) : QueueItem :=
  {| q_url := url;
     q_status := "pending";
     q_retryCount := Some 0%nat;
     q_lockedAt := None;
     q_updatedAt := Some now;
     q_createdAt := Some now;
     q_taskId := None;
     q_extractedBy := None;
     q_error := None;
     q_lastError := None;
     q_failedAt := None;
     q_processedAt := None;
     q_lastRecoveredAt := None;
     q_lastPartialRunAt := None |}.

(** Step 4, the batch: the [i]-th document gets the [i]-th generated
    id. *)
Fixpoint commit (now : Z) (newIds : nat -> string) (i : nat) (unique : list string)
    (queue : gmap string QueueItem) : gmap string QueueItem :=
  match unique with
  | [] => queue
  | url :: rest => commit now newIds (S i) rest (<[newIds i := queued now url]> queue)
  end.

(** [POST]: the store afterwards and the response.  [newIds] gives
    the ids that [doc()] generates; the reads and the batch are taken to
    succeed, so the answer of the [catch] block does not occur. *)
Definition POST (now : Z) (newIds : nat -> string) (st : Store)
    (bodyUrls : option (list string)) : Store * BulkResponse :=
  let urls := JS.from_nullish bodyUrls [] in
  if (length urls =? 0)%nat then (st, BulkBadRequest "No URLs provided")
  else if (100 <? length urls)%nat then (st, BulkBadRequest "Max 100 URLs per batch")
  else
    let norm := normalized urls in
    let '(unique, duplicates) := sift (existingUrls st) norm in
    (mkStore (commit now newIds 0 unique (movies_queue st))
             (webseries_queue st) (scraping_tasks st),
     BulkOk (length unique) (length duplicates) (length urls - length norm)
            (length urls)).

End Bulk.

(** ** GET /api/cron/process-queue: the guard ahead of the handler *)

Inductive CronAnswer :=
| CronUnauthorized
| CronAnswered (response : CronResponse).

Module CronRoute.

(** With a secret configured the request must carry it as a bearer
    token; without one every request passes. *)
Definition authorized (cronSecret authorization : option string) : bool :=
  if JS.truthy cronSecret then
    String.eqb (JS.from_nullish (JS.or_truthy authorization None) "")
               ("Bearer " +:+ JS.from_nullish cronSecret "")
  else true.

(** The route: a refused request is answered before anything is read
    or written; an accepted one runs the handler [Orchestrator.GET]. *)
Definition GET (md5 : string -> string) (cronSecret authorization : option string)
    (env : CronEnv) (st0 : Store) : Store * CronAnswer :=
  if authorized cronSecret authorization then
    (fst (Orchestrator.GET md5 env st0), CronAnswered (snd (Orchestrator.GET md5 env st0)))
  else (st0, CronUnauthorized).

End CronRoute.

(** * Properties *)

(** ** Membership tests *)

Lemma arr_includes_In arr x : JS.arr_includes arr x = true <-> In x arr.
Proof.
  unfold JS.arr_includes. rewrite existsb_exists. split.
  - intros (y & Hy & He). apply String.eqb_eq in He. now subst.
  - intros H. exists x. split; [assumption | apply String.eqb_refl].
Qed.

Lemma isTerminalLink_spec l : Persist.isTerminalLink l = true <-> Persist.terminal l.
Proof.
  unfold Persist.isTerminalLink, Persist.terminal. rewrite arr_includes_In.
  simpl. intuition congruence.
Qed.

Lemma isSuccessLink_spec l : Persist.isSuccessLink l = true <-> Persist.succeeded l.
Proof.
  unfold Persist.isSuccessLink, Persist.succeeded. rewrite arr_includes_In.
  simpl. intuition congruence.
Qed.

Lemma forallb_terminal ls :
  forallb Persist.isTerminalLink ls = true <-> Forall Persist.terminal ls.
Proof.
  rewrite forallb_forall, List.Forall_forall.
  split; intros H l Hl; apply isTerminalLink_spec; auto.
Qed.


Lemma not_forallb_terminal ls :
  forallb Persist.isTerminalLink ls = false <->
  Exists (fun l => ~ Persist.terminal l) ls.
Proof.
  induction ls as [|l ls IH]; simpl.
  - split; [discriminate | intros H; inversion H].
  - rewrite andb_false_iff, IH, List.Exists_cons.
    rewrite <- isTerminalLink_spec, not_true_iff_false. tauto.
Qed.


(** ** The aggregate status of a Task *)




Lemma saveResultToFirestore_lookup now tasks taskId lid linkUrl result extractedBy :
  Persist.saveResultToFirestore now tasks taskId lid linkUrl result extractedBy !! taskId
  = Persist.saveTransaction now lid linkUrl result extractedBy <$> tasks !! taskId.
Proof.
  unfold Persist.saveResultToFirestore.
  destruct (tasks !! taskId) as [d|] eqn:E; simpl.
  - apply lookup_insert_eq.
  - now rewrite E.
Qed.



(** ** The result cache *)

Lemma getCachedLink_absent md5 now cache url :
  cache !! Cache.hashUrl md5 url = None ->
  Cache.getCachedLink md5 now cache url = (None, cache).
Proof. intros H. unfold Cache.getCachedLink. now rewrite H. Qed.

Lemma getCachedLink_expired md5 now (cache : gmap string CachedLink) url data :
  cache !! Cache.hashUrl md5 url = Some data ->
  (c_expiresAt data < now)%Z ->
  Cache.getCachedLink md5 now cache url
  = (None, <[Cache.hashUrl md5 url := Cache.markExpired data]> cache).
Proof.
  intros H Hlt. unfold Cache.getCachedLink. rewrite H.
  apply Z.ltb_lt in Hlt. now rewrite Hlt.
Qed.

Lemma getCachedLink_not_valid md5 now (cache : gmap string CachedLink) url data :
  cache !! Cache.hashUrl md5 url = Some data ->
  c_status data <> "valid" ->
  fst (Cache.getCachedLink md5 now cache url) = None.
Proof.
  intros H Hs. unfold Cache.getCachedLink. rewrite H.
  destruct (c_expiresAt data <? now)%Z; [reflexivity|].
  apply String.eqb_neq in Hs. now rewrite Hs.
Qed.

Lemma getCachedLink_hit md5 now (cache : gmap string CachedLink) url data :
  cache !! Cache.hashUrl md5 url = Some data ->
  (now <= c_expiresAt data)%Z ->
  c_status data = "valid" ->
  Cache.getCachedLink md5 now cache url
  = (Some data, <[Cache.hashUrl md5 url := Cache.recordHit now data]> cache).
Proof.
  intros H Hle Hs. unfold Cache.getCachedLink. rewrite H.
  assert ((c_expiresAt data <? now)%Z = false) as -> by (apply Z.ltb_ge; lia).
  rewrite Hs. reflexivity.
Qed.

(** C4.  A lookup that follows a store of the same url before the entry
    expires returns the stored final link and leaves the entry with its
    hit count raised by exactly one (from 0 to 1).  A lookup that finds
    an entry past its expiry, or one marked broken, returns nothing, and
    the expired entry is left marked "expired". *)
Theorem cache_round_trip_and_miss
    (md5 : string -> string) (now now' : Z) (cache : gmap string CachedLink)
    (url finalLink solverUsed : string) (bb : option string) (ab : option (list Button)) :
  (now' <= now + Config.CACHE_EXPIRY_MS)%Z ->
  let stored := Cache.setCachedLink md5 now cache url finalLink solverUsed bb ab in
  let looked := Cache.getCachedLink md5 now' stored url in
  (c_finalLink <$> fst looked = Some finalLink /\
   c_hitCount <$> stored !! Cache.hashUrl md5 url = Some 0%nat /\
   c_hitCount <$> snd looked !! Cache.hashUrl md5 url = Some 1%nat) /\
  (forall (t : Z) (any : gmap string CachedLink) (data : CachedLink),
     any !! Cache.hashUrl md5 url = Some data ->
     ((c_expiresAt data < t)%Z ->
        fst (Cache.getCachedLink md5 t any url) = None /\
        c_status <$> snd (Cache.getCachedLink md5 t any url) !! Cache.hashUrl md5 url
          = Some "expired") /\
     (c_status data = "broken" ->
        fst (Cache.getCachedLink md5 t any url) = None) /\
     fst (Cache.getCachedLink md5 t (Cache.markCacheBroken md5 t any url) url) = None).
Proof.
  intros Hfresh stored looked. split.
  - subst looked stored. unfold Cache.setCachedLink.
    erewrite getCachedLink_hit; [| apply lookup_insert_eq | simpl; lia | reflexivity ].
    simpl. rewrite !lookup_insert_eq. simpl. auto.
  - intros t any data Hdata. repeat split.
    + erewrite getCachedLink_expired by eassumption. reflexivity.
    + erewrite getCachedLink_expired by eassumption. simpl.
      now rewrite lookup_insert_eq.
    + intros Hb. eapply getCachedLink_not_valid; [eassumption|].
      rewrite Hb. discriminate.
    + eapply getCachedLink_not_valid.
      * unfold Cache.markCacheBroken. rewrite lookup_alter_eq, Hdata. reflexivity.
      * simpl. discriminate.
Qed.

Lemma cache_round_trip_and_miss_witness :
  (c_finalLink <$> fst (Cache.getCachedLink (fun s => s) 2000 Samples.cache1
                          "https://site.example/a")
     = Some "https://cdn.example/f") /\
  (c_hitCount <$> snd (Cache.getCachedLink (fun s => s) 2000 Samples.cache1
                         "https://site.example/a")
                  !! Cache.hashUrl (fun s => s) "https://site.example/a"
     = Some 1%nat).
Proof.
  assert (Hfresh : (2000 <= 1000 + Config.CACHE_EXPIRY_MS)%Z) by (vm_compute; discriminate).
  pose proof (cache_round_trip_and_miss (fun s => s) 1000 2000 ∅
                "https://site.example/a" "https://cdn.example/f" "solve_task"
                None None Hfresh) as [(Hf & _ & Hh) _].
  split; [exact Hf | exact Hh].
Defined.

(** ** Page fetches and the transient-error retry *)

Lemma axiosWithRetry_loop_last get fuel err :
  Solvers.axiosWithRetry_loop get 2 (S fuel) 2 err
  = Solvers.mkFetchRun (get 2%nat) [] 1.
Proof.
  simpl. destruct (get 2%nat) as [st data | e]; [reflexivity|].
  rewrite andb_false_r. reflexivity.
Qed.

(** A fetch through [axiosWithRetry] that is answered 522 twice and then
    200 resolves after the two waits of 2 s and 4 s, with three
    requests. *)
Example axiosWithRetry_522_522_200 :
  Solvers.axiosWithRetry Samples.flaky_page 2
  = Solvers.mkFetchRun (Resolved 200 "<a href='https://hubcloud.foo/x'>x</a>")
      [2000; 4000]%Z 3.
Proof. reflexivity. Qed.

Lemma axiosWithRetry_cases get :
  Solvers.axiosWithRetry get 2 =
  match get 0%nat with
  | Resolved st data => Solvers.mkFetchRun (Resolved st data) [] 1
  | Rejected e0 =>
      if Solvers.isTransient (err_status e0) then
        match get 1%nat with
        | Resolved st data => Solvers.mkFetchRun (Resolved st data) [2000]%Z 2
        | Rejected e1 =>
            if Solvers.isTransient (err_status e1) then
              Solvers.mkFetchRun (get 2%nat) [2000; 4000]%Z 3
            else Solvers.mkFetchRun (Rejected e1) [2000]%Z 2
        end
      else Solvers.mkFetchRun (Rejected e0) [] 1
  end.
Proof.
  unfold Solvers.axiosWithRetry. simpl.
  destruct (get 0%nat) as [st0 d0 | e0]; [reflexivity|].
  destruct (Solvers.isTransient (err_status e0)); [|reflexivity]. simpl.
  destruct (get 1%nat) as [st1 d1 | e1]; [reflexivity|].
  destruct (Solvers.isTransient (err_status e1)); [|reflexivity]. simpl.
  destruct (get 2%nat) as [st2 d2 | e2]; [reflexivity|].
  rewrite andb_false_r. reflexivity.
Qed.

Lemma solveHBLinks_one_request get find :
  Solvers.fr_gets (snd (Solvers.solveHBLinks get find)) = 1%nat /\
  Solvers.fr_waits (snd (Solvers.solveHBLinks get find)) = [] /\
  (forall e, get 0%nat = Rejected e ->
     fst (Solvers.solveHBLinks get find) = RespFailure "error" (Some (err_message e))).
Proof.
  unfold Solvers.solveHBLinks, Solvers.axiosGet; simpl.
  destruct (get 0%nat) as [st data | e] eqn:E0; simpl.
  - destruct (negb (st =? 200)%Z); [|destruct (find data)];
      simpl; repeat split; intros; discriminate.
  - repeat split. intros e' [= <-]. reflexivity.
Qed.

Lemma solveHubDrive_one_request get find :
  Solvers.fr_gets (snd (Solvers.solveHubDrive get find)) = 1%nat /\
  Solvers.fr_waits (snd (Solvers.solveHubDrive get find)) = [] /\
  (forall e, get 0%nat = Rejected e ->
     fst (Solvers.solveHubDrive get find) = RespFailure "error" (Some (err_message e))).
Proof.
  unfold Solvers.solveHubDrive, Solvers.axiosGet; simpl.
  destruct (get 0%nat) as [st data | e] eqn:E0; simpl.
  - destruct (find data); simpl; repeat split; intros; discriminate.
  - repeat split. intros e' [= <-]. reflexivity.
Qed.

(** C6, as the code has it.  Only the page fetch of the discovery step
    goes through the retry wrapper: it issues at most three requests,
    every request but the last failed with 522, 502, 503 or 504, the
    waits slept between them are 2 s then 4 s, the outcome is that of
    the last request, and it stops before the third request only on a
    response or on an error of another class.  The fetch of a resolver
    hop ([solveHBLinks], [solveHubDrive]) is a single request with no
    wait, and any error of that request fails the hop. *)
Theorem fetch_retry_policy (get : nat -> AxiosOutcome) :
  let run := Solvers.extractMovieLinks_fetch get in
  (1 <= Solvers.fr_gets run <= 3)%nat /\
  Solvers.fr_waits run = take (Solvers.fr_gets run - 1) [2000; 4000]%Z /\
  Solvers.fr_outcome run = get (Solvers.fr_gets run - 1)%nat /\
  (forall k, (k < Solvers.fr_gets run - 1)%nat ->
     exists e, get k = Rejected e /\ Solvers.isTransient (err_status e) = true) /\
  ((Solvers.fr_gets run < 3)%nat ->
     match get (Solvers.fr_gets run - 1)%nat with
     | Resolved _ _ => True
     | Rejected e => Solvers.isTransient (err_status e) = false
     end) /\
  (forall find,
     Solvers.fr_gets (snd (Solvers.solveHBLinks get find)) = 1%nat /\
     Solvers.fr_waits (snd (Solvers.solveHBLinks get find)) = [] /\
     (forall e, get 0%nat = Rejected e ->
        fst (Solvers.solveHBLinks get find)
        = RespFailure "error" (Some (err_message e)))) /\
  (forall find,
     Solvers.fr_gets (snd (Solvers.solveHubDrive get find)) = 1%nat /\
     Solvers.fr_waits (snd (Solvers.solveHubDrive get find)) = [] /\
     (forall e, get 0%nat = Rejected e ->
        fst (Solvers.solveHubDrive get find)
        = RespFailure "error" (Some (err_message e)))).
Proof.
  intros run.
  assert (Hrun : run = Solvers.axiosWithRetry get 2) by reflexivity.
  clearbody run.
  split; [|split; [|split; [|split; [|split; [|split]]]]];
    try (intros find; first [apply solveHBLinks_one_request
                            | apply solveHubDrive_one_request]).
  all: pose proof (axiosWithRetry_cases get) as Hc; rewrite <- Hrun in Hc; clear Hrun.
  all: destruct (get 0%nat) as [st0 d0 | e0] eqn:E0;
       [| destruct (Solvers.isTransient (err_status e0)) eqn:T0;
          [ destruct (get 1%nat) as [st1 d1 | e1] eqn:E1;
            [| destruct (Solvers.isTransient (err_status e1)) eqn:T1 ] |] ];
       subst run; simpl.
  all: rewrite ?E0, ?E1, ?T0, ?T1; try reflexivity; try lia; auto.
  all: try (intros k Hk; destruct k as [|[|k]]; [eauto | eauto; lia | lia]).
  all: try (intros; lia).
Qed.

(** The claim of C6 fails on a resolver hop: on a page answering 522,
    522, 200 the fetch of [solveHBLinks] is not retried; the hop fails
    on the first 522, after one request and no wait. *)
Lemma hop_fetch_is_not_retried :
  fst (Solvers.solveHBLinks Samples.flaky_page Samples.find_any)
    = RespFailure "error" (Some "Request failed with status code 522") /\
  Solvers.fr_gets (snd (Solvers.solveHBLinks Samples.flaky_page Samples.find_any)) = 1%nat /\
  Solvers.fr_waits (snd (Solvers.solveHBLinks Samples.flaky_page Samples.find_any))
    <> [2000; 4000]%Z.
Proof. repeat split. discriminate. Qed.

(** ** The resolver chain *)

Lemma bypassLoop_unfold net fuel loopCount currentLink logs hops :
  LinkProcessor.bypassLoop net (S fuel) loopCount currentLink logs hops =
  if negb ((loopCount <? 3)%nat && negb (LinkProcessor.isTargetUrl currentLink)) then
    LoopDone currentLink loopCount logs hops
  else if negb (LinkProcessor.isTimerUrl currentLink) && (loopCount =? 0)%nat then
    LoopDone currentLink loopCount logs hops
  else if JS.includes currentLink "gadgetsweb" then
    match net_solveGadgetsWebNative net loopCount currentLink with
    | RespSuccess link =>
        LinkProcessor.bypassLoop net fuel (S loopCount) link
          (logs ++ [mkLog ("🔁 GadgetsWeb native solve (loop " +:+ pretty (loopCount + 1)%nat +:+ ")") "info"])
          (hops ++ [mkHop loopCount currentLink "solveGadgetsWebNative"])
    | RespFailure _ message =>
        LoopDone currentLink loopCount
          ((logs ++ [mkLog ("🔁 GadgetsWeb native solve (loop " +:+ pretty (loopCount + 1)%nat +:+ ")") "info"])
             ++ [mkLog ("❌ GadgetsWeb failed: " +:+ LinkProcessor.show_message message) "error"])
          (hops ++ [mkHop loopCount currentLink "solveGadgetsWebNative"])
    end
  else
    match net_fetchTimerApi net loopCount currentLink with
    | TimerThrow message =>
        LoopThrow message
          (logs ++ [mkLog ("⏱ Timer bypass via VPS (loop " +:+ pretty (loopCount + 1)%nat +:+ ")") "info"])
          (hops ++ [mkHop loopCount currentLink "fetchWithTimeout"])
    | TimerJson status extracted_link =>
        if String.eqb status "success" && JS.truthy extracted_link then
          LinkProcessor.bypassLoop net fuel (S loopCount) (JS.from_nullish extracted_link "")
            (logs ++ [mkLog ("⏱ Timer bypass via VPS (loop " +:+ pretty (loopCount + 1)%nat +:+ ")") "info"])
            (hops ++ [mkHop loopCount currentLink "fetchWithTimeout"])
        else
          LoopDone currentLink loopCount
            ((logs ++ [mkLog ("⏱ Timer bypass via VPS (loop " +:+ pretty (loopCount + 1)%nat +:+ ")") "info"])
               ++ [mkLog "❌ Timer bypass failed" "error"])
            (hops ++ [mkHop loopCount currentLink "fetchWithTimeout"])
    end.
Proof. reflexivity. Qed.


Lemma loop_summary_nil net loopCount cur logs hops :
  LinkProcessor.loop_summary net loopCount cur [] (LoopDone cur loopCount logs hops).
Proof.
  unfold LinkProcessor.loop_summary. simpl.
  repeat split; try lia; intros; discriminate.
Qed.

Lemma loop_summary_stop net loopCount cur h logs hops :
  hop_loopCount h = loopCount -> hop_url h = cur -> (loopCount < 3)%nat ->
  LinkProcessor.isTargetUrl cur = false ->
  (loopCount = 0%nat -> LinkProcessor.isTimerUrl cur = true) ->
  LinkProcessor.hopAnswer net h = None ->
  LinkProcessor.loop_summary net loopCount cur [h] (LoopDone cur loopCount logs hops).
Proof.
  intros Hc Hu Hlt Ht Htm Ha. unfold LinkProcessor.loop_summary. simpl.
  rewrite Ha. split; [lia|]. split; [|split; [|auto]].
  - intros [|i] h' Hh; [|discriminate]. injection Hh as <-.
    rewrite Hc, Hu. repeat split; auto; lia.
  - intros [|i] h1 h2 H1 H2; discriminate.
Qed.

Lemma loop_summary_throw net loopCount cur h message logs hops :
  hop_loopCount h = loopCount -> hop_url h = cur -> (loopCount < 3)%nat ->
  LinkProcessor.isTargetUrl cur = false ->
  (loopCount = 0%nat -> LinkProcessor.isTimerUrl cur = true) ->
  JS.includes cur "gadgetsweb" = false ->
  net_fetchTimerApi net loopCount cur = TimerThrow message ->
  LinkProcessor.loop_summary net loopCount cur [h] (LoopThrow message logs hops).
Proof.
  intros Hc Hu Hlt Ht Htm Hg Hf. unfold LinkProcessor.loop_summary. simpl.
  split; [lia|]. split; [|split].
  - intros [|i] h' Hh; [|discriminate]. injection Hh as <-.
    rewrite Hc, Hu. repeat split; auto; lia.
  - intros [|i] h1 h2 H1 H2; discriminate.
  - exists h. rewrite Hc, Hu. auto.
Qed.

Lemma loop_summary_cons net loopCount cur h link new exit :
  hop_loopCount h = loopCount -> hop_url h = cur -> (loopCount < 3)%nat ->
  LinkProcessor.isTargetUrl cur = false ->
  (loopCount = 0%nat -> LinkProcessor.isTimerUrl cur = true) ->
  LinkProcessor.hopAnswer net h = Some link ->
  LinkProcessor.loop_summary net (S loopCount) link new exit ->
  LinkProcessor.loop_summary net loopCount cur (h :: new) exit.
Proof.
  intros Hc Hu Hlt Ht Htm Ha (Hlen & Hall & Hnext & Hexit).
  unfold LinkProcessor.loop_summary. split; [simpl; lia|]. split; [|split].
  - intros [|i] h' Hh.
    + injection Hh as <-. rewrite Hc, Hu. repeat split; auto; lia.
    + simpl in Hh. destruct (Hall i h' Hh) as (H1 & H2 & H3 & H4 & H5).
      repeat split; auto; try lia; try (intros; lia).
  - intros [|i] h1 h2 H1 H2.
    + injection H1 as <-. simpl in H2.
      destruct (Hall 0%nat h2 H2) as (_ & _ & _ & _ & H5).
      rewrite Ha, H5; auto.
    + simpl in H1, H2. eauto.
  - rewrite last_cons. destruct exit as [cur' n lg hp | message lg hp].
    + destruct (last new) as [hl|] eqn:El; [exact Hexit|].
      rewrite Ha. destruct Hexit as [-> ->]. rewrite Hc. auto.
    + destruct Hexit as (hl & El & Hrest). rewrite El. eauto.
Qed.

Lemma bypassLoop_summary net fuel :
  forall loopCount cur logs hops0,
    (3 <= loopCount + fuel)%nat ->
    exists new,
      LinkProcessor.exitHops (LinkProcessor.bypassLoop net fuel loopCount cur logs hops0)
        = hops0 ++ new /\
      LinkProcessor.loop_summary net loopCount cur new
        (LinkProcessor.bypassLoop net fuel loopCount cur logs hops0).
Proof.
  induction fuel as [|fuel IH]; intros loopCount cur logs hops0 Hfuel.
  - exists []. simpl.
    destruct (negb _); simpl; rewrite app_nil_r; split; auto using loop_summary_nil.
  - rewrite bypassLoop_unfold.
    destruct ((loopCount <? 3)%nat && negb (LinkProcessor.isTargetUrl cur)) eqn:Hw; simpl.
    2:{ exists []. simpl. rewrite app_nil_r. auto using loop_summary_nil. }
    apply andb_true_iff in Hw as [Hlt Htgt].
    apply Nat.ltb_lt in Hlt. apply negb_true_iff in Htgt.
    destruct (negb (LinkProcessor.isTimerUrl cur) && (loopCount =? 0)%nat) eqn:Hb; simpl.
    { exists []. simpl. rewrite app_nil_r. auto using loop_summary_nil. }
    assert (Htm : loopCount = 0%nat -> LinkProcessor.isTimerUrl cur = true).
    { intros ->. rewrite andb_true_r in Hb. now apply negb_false_iff in Hb. }
    destruct (JS.includes cur "gadgetsweb") eqn:Hg.
    + set (h := mkHop loopCount cur "solveGadgetsWebNative").
      destruct (net_solveGadgetsWebNative net loopCount cur) as [link | st message] eqn:Hr.
      * destruct (IH (S loopCount) link
                    (logs ++ [mkLog ("🔁 GadgetsWeb native solve (loop " +:+ pretty (loopCount + 1)%nat +:+ ")") "info"])
                    (hops0 ++ [h])) as (new & Hh & Hs); [lia|].
        exists (h :: new). split.
        { rewrite Hh, <- app_assoc. reflexivity. }
        eapply loop_summary_cons; eauto.
        unfold LinkProcessor.hopAnswer; simpl. now rewrite Hg, Hr.
      * exists [h]. split; [reflexivity|].
        apply loop_summary_stop; auto.
        unfold LinkProcessor.hopAnswer; simpl. now rewrite Hg, Hr.
    + set (h := mkHop loopCount cur "fetchWithTimeout").
      destruct (net_fetchTimerApi net loopCount cur) as [st ext | message] eqn:Hr.
      * destruct (String.eqb st "success" && JS.truthy ext) eqn:Hok.
        -- destruct (IH (S loopCount) (JS.from_nullish ext "")
                      (logs ++ [mkLog ("⏱ Timer bypass via VPS (loop " +:+ pretty (loopCount + 1)%nat +:+ ")") "info"])
                      (hops0 ++ [h])) as (new & Hh & Hs); [lia|].
           exists (h :: new). split.
           { rewrite Hh, <- app_assoc. reflexivity. }
           eapply loop_summary_cons; eauto.
           unfold LinkProcessor.hopAnswer; simpl. now rewrite Hg, Hr, Hok.
        -- exists [h]. split; [reflexivity|].
           apply loop_summary_stop; auto.
           unfold LinkProcessor.hopAnswer; simpl. now rewrite Hg, Hr, Hok.
      * exists [h]. split; [reflexivity|].
        apply loop_summary_throw; auto.
Qed.

Lemma stages_no_match net cur logs :
  Forall (fun host => JS.includes cur host = false) LinkProcessor.STAGE_HOSTS ->
  LinkProcessor.stageHBLinks net cur logs
  = LinkProcessor.errorResult (Some "No solver matched for this URL") logs.
Proof.
  intros H. repeat (apply List.Forall_cons_iff in H as [? H]).
  unfold LinkProcessor.stageHBLinks, LinkProcessor.stageHubDrive, LinkProcessor.stageFinal.
  repeat match goal with E : JS.includes cur _ = false |- _ => rewrite E; clear E end.
  reflexivity.
Qed.

(** The hops the loop does make: a first hop from a state the guard
    lets through, a next hop after every hop that answered with a url
    the guard lets through; the resolver each hop calls; and the exit
    when the fetch of a hop throws. *)
Lemma bypassLoop_progress net fuel :
  forall loopCount cur logs hops0,
    (3 <= loopCount + fuel)%nat ->
    exists new,
      LinkProcessor.exitHops (LinkProcessor.bypassLoop net fuel loopCount cur logs hops0)
        = hops0 ++ new /\
      ((loopCount < 3)%nat -> LinkProcessor.isTargetUrl cur = false ->
       (loopCount = 0%nat -> LinkProcessor.isTimerUrl cur = true) ->
       exists h, new !! 0%nat = Some h) /\
      (forall i h link, new !! i = Some h -> LinkProcessor.hopAnswer net h = Some link ->
         (S (hop_loopCount h) < 3)%nat -> LinkProcessor.isTargetUrl link = false ->
         exists h', new !! S i = Some h') /\
      (forall i h, new !! i = Some h ->
         hop_resolver h = if JS.includes (hop_url h) "gadgetsweb"
                          then "solveGadgetsWebNative" else "fetchWithTimeout") /\
      (forall i h message, new !! i = Some h ->
         JS.includes (hop_url h) "gadgetsweb" = false ->
         net_fetchTimerApi net (hop_loopCount h) (hop_url h) = TimerThrow message ->
         exists logs',
           LinkProcessor.bypassLoop net fuel loopCount cur logs hops0
           = LoopThrow message logs' (hops0 ++ new)).
Proof.
  induction fuel as [|fuel IH]; intros loopCount cur logs hops0 Hfuel.
  - exists []. simpl.
    assert (Hlt : (loopCount <? 3)%nat = false) by (apply Nat.ltb_ge; lia).
    rewrite Hlt. simpl. rewrite app_nil_r. split; [reflexivity|].
    split; [intros; lia|]. repeat split; intros; discriminate.
  - rewrite bypassLoop_unfold.
    destruct ((loopCount <? 3)%nat && negb (LinkProcessor.isTargetUrl cur)) eqn:Hw; simpl.
    2:{ exists []. simpl. rewrite app_nil_r. split; [reflexivity|]. split.
        - intros Hlt Ht _. apply Nat.ltb_lt in Hlt. rewrite Hlt, Ht in Hw. discriminate.
        - repeat split; intros; discriminate. }
    apply andb_true_iff in Hw as [Hlt Htgt].
    apply Nat.ltb_lt in Hlt. apply negb_true_iff in Htgt.
    destruct (negb (LinkProcessor.isTimerUrl cur) && (loopCount =? 0)%nat) eqn:Hb; simpl.
    { exists []. simpl. rewrite app_nil_r. split; [reflexivity|]. split.
      - intros _ _ Htm. apply andb_true_iff in Hb as [Hb1 Hb2].
        apply Nat.eqb_eq in Hb2. rewrite (Htm Hb2) in Hb1. discriminate.
      - repeat split; intros; discriminate. }
    destruct (JS.includes cur "gadgetsweb") eqn:Hg.
    + set (h := mkHop loopCount cur "solveGadgetsWebNative").
      destruct (net_solveGadgetsWebNative net loopCount cur) as [link | st message] eqn:Hr.
      * destruct (IH (S loopCount) link
                    (logs ++ [mkLog ("🔁 GadgetsWeb native solve (loop " +:+ pretty (loopCount + 1)%nat +:+ ")") "info"])
                    (hops0 ++ [h])) as (new & Hh & Hfirst & Hnext & Hres & Hthrow); [lia|].
        assert (Ha : LinkProcessor.hopAnswer net h = Some link).
        { unfold LinkProcessor.hopAnswer; simpl. now rewrite Hg, Hr. }
        exists (h :: new). split; [rewrite Hh, <- app_assoc; reflexivity|].
        split; [intros; exists h; reflexivity|]. split; [|split].
        -- intros [|i] h0 link0 Hi Ha0 Hlt0 Ht0.
           ++ injection Hi as <-. rewrite Ha in Ha0. injection Ha0 as <-.
              simpl in Hlt0. apply Hfirst; [exact Hlt0 | exact Ht0 | intros; lia].
           ++ simpl in Hi |- *. eapply Hnext; eauto.
        -- intros [|i] h0 Hi.
           ++ injection Hi as <-. simpl. now rewrite Hg.
           ++ simpl in Hi. eapply Hres; eauto.
        -- intros [|i] h0 message Hi Hg0 Hf.
           ++ injection Hi as <-. simpl in Hg0. congruence.
           ++ simpl in Hi. destruct (Hthrow i h0 message Hi Hg0 Hf) as [logs' E].
              exists logs'. rewrite E, <- app_assoc. reflexivity.
      * exists [h]. split; [reflexivity|].
        split; [intros; exists h; reflexivity|]. split; [|split].
        -- intros [|i] h0 link0 Hi Ha0; [|discriminate]. injection Hi as <-.
           unfold LinkProcessor.hopAnswer in Ha0; simpl in Ha0.
           rewrite Hg, Hr in Ha0. discriminate.
        -- intros [|i] h0 Hi; [|discriminate]. injection Hi as <-. simpl. now rewrite Hg.
        -- intros [|i] h0 message0 Hi Hg0; [|discriminate]. injection Hi as <-.
           simpl in Hg0. congruence.
    + set (h := mkHop loopCount cur "fetchWithTimeout").
      destruct (net_fetchTimerApi net loopCount cur) as [status extracted | message] eqn:Hr.
      * destruct (String.eqb status "success" && JS.truthy extracted) eqn:Hs.
        -- destruct (IH (S loopCount) (JS.from_nullish extracted "")
                      (logs ++ [mkLog ("⏱ Timer bypass via VPS (loop " +:+ pretty (loopCount + 1)%nat +:+ ")") "info"])
                      (hops0 ++ [h])) as (new & Hh & Hfirst & Hnext & Hres & Hthrow); [lia|].
           assert (Ha : LinkProcessor.hopAnswer net h = Some (JS.from_nullish extracted "")).
           { unfold LinkProcessor.hopAnswer; simpl. now rewrite Hg, Hr, Hs. }
           exists (h :: new). split; [rewrite Hh, <- app_assoc; reflexivity|].
           split; [intros; exists h; reflexivity|]. split; [|split].
           ++ intros [|i] h0 link0 Hi Ha0 Hlt0 Ht0.
              ** injection Hi as <-. rewrite Ha in Ha0. injection Ha0 as <-.
                 simpl in Hlt0. apply Hfirst; [exact Hlt0 | exact Ht0 | intros; lia].
              ** simpl in Hi |- *. eapply Hnext; eauto.
           ++ intros [|i] h0 Hi.
              ** injection Hi as <-. simpl. now rewrite Hg.
              ** simpl in Hi. eapply Hres; eauto.
           ++ intros [|i] h0 message Hi Hg0 Hf.
              ** injection Hi as <-. simpl in Hf. congruence.
              ** simpl in Hi. destruct (Hthrow i h0 message Hi Hg0 Hf) as [logs' E].
                 exists logs'. rewrite E, <- app_assoc. reflexivity.
        -- exists [h]. split; [reflexivity|].
           split; [intros; exists h; reflexivity|]. split; [|split].
           ++ intros [|i] h0 link0 Hi Ha0; [|discriminate]. injection Hi as <-.
              unfold LinkProcessor.hopAnswer in Ha0; simpl in Ha0.
              rewrite Hg, Hr, Hs in Ha0. discriminate.
           ++ intros [|i] h0 Hi; [|discriminate]. injection Hi as <-. simpl. now rewrite Hg.
           ++ intros [|i] h0 message0 Hi Hg0 Hf; [|discriminate]. injection Hi as <-.
              simpl in Hf. congruence.
      * exists [h]. split; [reflexivity|].
        split; [intros; exists h; reflexivity|]. split; [|split].
        -- intros [|i] h0 link0 Hi Ha0; [|discriminate]. injection Hi as <-.
           unfold LinkProcessor.hopAnswer in Ha0; simpl in Ha0.
           rewrite Hg, Hr in Ha0. discriminate.
        -- intros [|i] h0 Hi; [|discriminate]. injection Hi as <-. simpl. now rewrite Hg.
        -- intros [|i] h0 message0 Hi Hg0 Hf; [|discriminate]. injection Hi as <-.
           simpl in Hf. rewrite Hr in Hf. injection Hf as <-. eexists. reflexivity.
Qed.

(** C5, as the code has it.  The bypass loop makes at most three hops,
    numbered 0, 1, 2 by the hop counter.  A hop is made only while the
    counter is below 3 and the current url matches no target host, and
    the first hop only when the url matches a timer host; the first hop
    is on the input url and every later hop is on the url the previous
    hop answered with.  When the loop ends normally after a hop that
    answered, the current url is that answer and the counter is one more
    than the hop's; after a hop that reported failure the url and the
    counter are those of that hop, unchanged; with no hop they are the
    input url and 0.  A fetch of the timer service that throws ends the
    chain with that error.  When the url left by the loop contains none
    of the host words of the later stages, the chain returns the error
    "No solver matched for this URL".  And the hops are made: the first
    hop whenever the input url matches a timer host and no target host,
    a next hop whenever a hop below the third answers with a url that
    matches no target host, and none after a hop that reports failure;
    a GadgetsWeb url is resolved natively and any other url through the
    timer service; and whenever the fetch of a hop throws, the loop, the
    chain and, within the per-link time limit, the race all end with
    the message thrown. *)
Theorem bypass_loop_policy (net : Net) (url : string) :
  let exit := LinkProcessor.bypassLoop net 3 0 url [] [] in
  let hops := LinkProcessor.exitHops exit in
  (length hops <= 3)%nat /\
  (forall i h, hops !! i = Some h ->
     hop_loopCount h = i /\ (i < 3)%nat /\
     LinkProcessor.isTargetUrl (hop_url h) = false /\
     (i = 0%nat -> LinkProcessor.isTimerUrl (hop_url h) = true /\ hop_url h = url)) /\
  (forall i h h', hops !! i = Some h -> hops !! S i = Some h' ->
     LinkProcessor.hopAnswer net h = Some (hop_url h')) /\
  match exit with
  | LoopDone cur n _ _ =>
      match last hops with
      | None => cur = url /\ n = 0%nat
      | Some h =>
          match LinkProcessor.hopAnswer net h with
          | Some link => cur = link /\ n = S (hop_loopCount h)
          | None => cur = hop_url h /\ n = hop_loopCount h
          end
      end
  | LoopThrow message _ _ =>
      exists h, last hops = Some h /\
        JS.includes (hop_url h) "gadgetsweb" = false /\
        net_fetchTimerApi net (hop_loopCount h) (hop_url h) = TimerThrow message
  end /\
  (forall cur n logs hs,
     JS.includes url "hubcdn.fans" = false ->
     exit = LoopDone cur n logs hs ->
     Forall (fun host => JS.includes cur host = false) LinkProcessor.STAGE_HOSTS ->
     LinkProcessor.solveWork net url
     = WorkReturn (LinkProcessor.errorResult (Some "No solver matched for this URL") logs) hs) /\
  (LinkProcessor.isTargetUrl url = false -> LinkProcessor.isTimerUrl url = true ->
     exists h, hops !! 0%nat = Some h) /\
  (forall i h link, hops !! i = Some h -> LinkProcessor.hopAnswer net h = Some link ->
     (S i < 3)%nat -> LinkProcessor.isTargetUrl link = false ->
     exists h', hops !! S i = Some h' /\ hop_url h' = link) /\
  (forall i h, hops !! i = Some h -> LinkProcessor.hopAnswer net h = None ->
     hops !! S i = None) /\
  (forall i h, hops !! i = Some h ->
     hop_resolver h = if JS.includes (hop_url h) "gadgetsweb"
                      then "solveGadgetsWebNative" else "fetchWithTimeout") /\
  (forall i h message, hops !! i = Some h ->
     JS.includes (hop_url h) "gadgetsweb" = false ->
     net_fetchTimerApi net (hop_loopCount h) (hop_url h) = TimerThrow message ->
     exists logs, exit = LoopThrow message logs hops /\
       (JS.includes url "hubcdn.fans" = false ->
          LinkProcessor.solveWork net url = WorkThrow message logs hops /\
          ((net_chainDuration net < Config.LINK_TIMEOUT_MS)%Z ->
             LinkProcessor.raceWithTimeout net url
             = LinkProcessor.errorResult (Some message) logs))).
Proof.
  intros exit hops.
  destruct (bypassLoop_summary net 3 0 url [] []) as (new & Hh & Hlen & Hall & Hnext & Hexit);
    [lia|].
  change ([] ++ new) with new in Hh. fold exit in Hh, Hexit. fold hops in Hh.
  subst new.
  destruct (bypassLoop_progress net 3 0 url [] [])
    as (new & Hh' & Hfirst & Hmore & Hres & Hthrow); [lia|].
  change ([] ++ new) with new in Hh', Hthrow. fold exit in Hh', Hthrow. fold hops in Hh'.
  subst new.
  split; [simpl in Hlen; lia|]. split; [|split; [|split; [|split]]].
  - intros i h Hi. destruct (Hall i h Hi) as (H1 & H2 & H3 & H4 & H5).
    simpl in H1. split; [lia|]. split; [lia|]. split; [exact H3|].
    intros ->. split; [apply H4; lia | auto].
  - exact Hnext.
  - exact Hexit.
  - intros cur n logs hs Hcdn He Hnone.
    unfold LinkProcessor.solveWork. rewrite Hcdn. fold exit. rewrite He.
    now rewrite stages_no_match.
  - split; [|split; [|split; [|split]]].
    + intros Ht Htm. apply Hfirst; [lia | exact Ht | intros _; exact Htm].
    + intros i h link Hi Ha Hlt Ht.
      destruct (Hall i h Hi) as (H1 & _). simpl in H1.
      destruct (Hmore i h link Hi Ha) as [h' Hh']; [lia | exact Ht |].
      exists h'. split; [exact Hh'|].
      pose proof (Hnext i h h' Hi Hh') as Ha'. congruence.
    + intros i h Hi Ha. destruct (hops !! S i) as [h'|] eqn:E; [|reflexivity].
      pose proof (Hnext i h h' Hi E) as Ha'. congruence.
    + exact Hres.
    + intros i h message Hi Hg Hf.
      destruct (Hthrow i h message Hi Hg Hf) as [logs E].
      exists logs. split; [exact E|]. intros Hcdn.
      assert (Hw : LinkProcessor.solveWork net url = WorkThrow message logs hops).
      { unfold LinkProcessor.solveWork. rewrite Hcdn. fold exit. now rewrite E. }
      split; [exact Hw|]. intros Hin.
      unfold LinkProcessor.raceWithTimeout. apply Z.ltb_lt in Hin. now rewrite Hin, Hw.
Qed.

(** The claim of C5 fails after the first hop: from a GadgetsWeb url
    whose resolver answers with a url of no known host, the loop makes a
    second hop on that url, which matches no timer host. *)
Lemma hop_outside_timer_family :
  LinkProcessor.workHops
    (LinkProcessor.solveWork Samples.net_leaves_timer_family Samples.gadgets_url)
  = [ mkHop 0 Samples.gadgets_url "solveGadgetsWebNative";
      mkHop 1 "https://example.org/next" "fetchWithTimeout" ] /\
  LinkProcessor.isTimerUrl "https://example.org/next" = false.
Proof. split; vm_compute; reflexivity. Qed.

(** ** The link processor *)

Lemma stageFinal_status net cur logs :
  r_status (LinkProcessor.stageFinal net cur logs) = Some "done" \/
  r_status (LinkProcessor.stageFinal net cur logs) = Some "error".
Proof.
  unfold LinkProcessor.stageFinal.
  destruct (_ || _); [destruct (net_solveHubCloudNative net cur); simpl; auto|].
  destruct (_ || _); simpl; auto.
Qed.

Lemma stageHBLinks_status net cur logs :
  r_status (LinkProcessor.stageHBLinks net cur logs) = Some "done" \/
  r_status (LinkProcessor.stageHBLinks net cur logs) = Some "error".
Proof.
  unfold LinkProcessor.stageHBLinks, LinkProcessor.stageHubDrive.
  repeat match goal with
         | |- context [if ?b then _ else _] => destruct b
         | |- context [match ?r with RespSuccess _ => _ | RespFailure _ _ => _ end] =>
             destruct r
         end; simpl; auto using stageFinal_status.
Qed.

Lemma raceWithTimeout_status net url :
  r_status (LinkProcessor.raceWithTimeout net url) = Some "done" \/
  r_status (LinkProcessor.raceWithTimeout net url) = Some "error".
Proof.
  unfold LinkProcessor.raceWithTimeout, LinkProcessor.solveWork.
  destruct (_ <? _)%Z; [|simpl; auto].
  destruct (JS.includes url "hubcdn.fans").
  - destruct (net_solveHubCDN net url); simpl; auto.
  - destruct (LinkProcessor.bypassLoop net 3 0 url [] []); simpl;
      auto using stageHBLinks_status.
Qed.

Lemma raceWithTimeout_timeout net url :
  (Config.LINK_TIMEOUT_MS <= net_chainDuration net)%Z ->
  LinkProcessor.raceWithTimeout net url
  = LinkProcessor.errorResult (Some "Timed out after 20s")
      (take (net_logsAtTimeout net)
         (LinkProcessor.workLogs (LinkProcessor.solveWork net url))).
Proof.
  intros H. unfold LinkProcessor.raceWithTimeout.
  assert ((net_chainDuration net <? Config.LINK_TIMEOUT_MS)%Z = false) as ->
    by (apply Z.ltb_ge; exact H).
  reflexivity.
Qed.

Lemma raceWithTimeout_in_time net url :
  (net_chainDuration net < Config.LINK_TIMEOUT_MS)%Z ->
  LinkProcessor.raceWithTimeout net url
  = match LinkProcessor.solveWork net url with
    | WorkReturn r _ => r
    | WorkThrow message logs _ => LinkProcessor.errorResult (Some message) logs
    end.
Proof.
  intros H. unfold LinkProcessor.raceWithTimeout.
  apply Z.ltb_lt in H. now rewrite H.
Qed.

Lemma processLinkBody_eq md5 retry env link lid taskId extractedBy attempt cache :
  LinkProcessor.processLinkBody md5 retry env link lid taskId extractedBy attempt cache =
  let looked := Cache.getCachedLink md5 (env_now env attempt) cache (l_link link) in
  let lookup := EvCacheLookup (l_link link) (bool_decide (is_Some (fst looked))) in
  match LinkProcessor.servedFromCache md5 (env_now env attempt) cache (l_link link) with
  | Some c =>
      mkPLRun (mkPLResult lid "done" (Some (c_finalLink c)))
        [lookup;
         EvSave (LinkProcessor.cacheHitSave (env_now env attempt) taskId lid (l_link link) c)]
        (snd looked)
  | None =>
      LinkProcessor.solveAndSave md5 retry env link lid taskId extractedBy attempt
        (snd looked) lookup
  end.
Proof.
  unfold LinkProcessor.processLinkBody, LinkProcessor.servedFromCache.
  destruct (Cache.getCachedLink md5 (env_now env attempt) cache (l_link link))
    as [[c|] cache1]; simpl; [|reflexivity].
  destruct (negb (String.eqb (c_finalLink c) "")); reflexivity.
Qed.

Lemma status_word_cases (o : option string) :
  o = Some "done" \/ o = Some "error" ->
  (String.eqb (JS.from_nullish o "") "error" = true /\ o = Some "error") \/
  (String.eqb (JS.from_nullish o "") "error" = false /\ o = Some "done").
Proof. intros [-> | ->]; simpl; auto. Qed.

Lemma solveAndSave_final md5 retry env link lid taskId extractedBy attempt cache1 lookup :
  String.eqb (JS.from_nullish
                (r_status (LinkProcessor.raceWithTimeout (env_net env attempt) (l_link link)))
                "") "error" && (attempt =? 1)%nat = false ->
  let result := LinkProcessor.raceWithTimeout (env_net env attempt) (l_link link) in
  let run := LinkProcessor.solveAndSave md5 retry env link lid taskId extractedBy
               attempt cache1 lookup in
  run_result run = mkPLResult lid (JS.from_nullish (r_status result) "") (r_finalLink result) /\
  LinkProcessor.savesOf (run_events run)
    = LinkProcessor.savesOf [lookup] ++
      [mkSaveCall taskId lid (l_link link) result (Some extractedBy) (env_now env attempt)] /\
  LinkProcessor.chainRuns (run_events run) = S (LinkProcessor.chainRuns [lookup]) /\
  LinkProcessor.cacheLookups (run_events run) = LinkProcessor.cacheLookups [lookup].
Proof.
  intros Hno result run. subst run. unfold LinkProcessor.solveAndSave.
  fold result. fold result in Hno. rewrite Hno.
  destruct (String.eqb (JS.from_nullish (r_status result) "") "done"
            && JS.truthy (r_finalLink result));
    simpl; destruct lookup; simpl; auto.
Qed.

Lemma solveAndSave_retry md5 retry env link lid taskId extractedBy cache1 lookup :
  r_status (LinkProcessor.raceWithTimeout (env_net env 1) (l_link link)) = Some "error" ->
  LinkProcessor.solveAndSave md5 retry env link lid taskId extractedBy 1 cache1 lookup
  = mkPLRun (run_result (retry cache1))
      (lookup :: EvChain 1 (LinkProcessor.workHops
                              (LinkProcessor.solveWork (env_net env 1) (l_link link)))
         :: run_events (retry cache1))
      (run_cache (retry cache1)).
Proof.
  intros H. unfold LinkProcessor.solveAndSave. rewrite H. reflexivity.
Qed.

(** C3, as the code has it.  (a) A lookup that serves a cached final
    link ends the call with a "done" result, one save and no chain
    execution.  (b) The chain is raced against the 20 s timer, and a
    chain that has not settled by then counts as failed with the error
    "Timed out after 20s".  (c) When the first chain execution fails,
    [processLink] is run once more from its start: the cache is looked
    up a second time, and unless that lookup serves a final link the
    chain is executed a second and last time.  In every case the chain
    is executed at most twice, exactly one result is saved, and the
    returned status is "done" or "error". *)
Theorem link_processor_policy
    (md5 : string -> string) (env : LinkEnv) (link : Link) (lid : nat)
    (taskId extractedBy : string) :
  let url := l_link link in
  let run := LinkProcessor.processLink md5 env link lid taskId extractedBy 1 in
  let events := run_events run in
  let first := LinkProcessor.raceWithTimeout (env_net env 1) url in
  let second := LinkProcessor.raceWithTimeout (env_net env 2) url in
  let served1 := LinkProcessor.servedFromCache md5 (env_now env 1) (env_cache env) url in
  let cache1 := snd (Cache.getCachedLink md5 (env_now env 1) (env_cache env) url) in
  let served2 := LinkProcessor.servedFromCache md5 (env_now env 2) cache1 url in
  (forall c, served1 = Some c ->
     run_result run = mkPLResult lid "done" (Some (c_finalLink c)) /\
     LinkProcessor.chainRuns events = 0%nat /\
     LinkProcessor.savesOf events
       = [LinkProcessor.cacheHitSave (env_now env 1) taskId lid url c]) /\
  (forall net, (Config.LINK_TIMEOUT_MS <= net_chainDuration net)%Z ->
     r_status (LinkProcessor.raceWithTimeout net url) = Some "error" /\
     r_error (LinkProcessor.raceWithTimeout net url) = Some "Timed out after 20s") /\
  (served1 = None -> r_status first = Some "done" ->
     LinkProcessor.cacheLookups events = 1%nat /\
     LinkProcessor.chainRuns events = 1%nat /\
     pl_status (run_result run) = "done" /\
     LinkProcessor.savesOf events
       = [mkSaveCall taskId lid url first (Some extractedBy) (env_now env 1)]) /\
  (served1 = None -> r_status first = Some "error" ->
     LinkProcessor.cacheLookups events = 2%nat /\
     (forall c, served2 = Some c ->
        LinkProcessor.chainRuns events = 1%nat /\
        run_result run = mkPLResult lid "done" (Some (c_finalLink c))) /\
     (served2 = None ->
        LinkProcessor.chainRuns events = 2%nat /\
        pl_status (run_result run) = JS.from_nullish (r_status second) "" /\
        LinkProcessor.savesOf events
          = [mkSaveCall taskId lid url second (Some extractedBy) (env_now env 2)])) /\
  (LinkProcessor.chainRuns events <= 2)%nat /\
  length (LinkProcessor.savesOf events) = 1%nat /\
  (pl_status (run_result run) = "done" \/ pl_status (run_result run) = "error").
Proof.
  intros url run events first second served1 cache1 served2.
  assert (Htimeout : forall net, (Config.LINK_TIMEOUT_MS <= net_chainDuration net)%Z ->
     r_status (LinkProcessor.raceWithTimeout net url) = Some "error" /\
     r_error (LinkProcessor.raceWithTimeout net url) = Some "Timed out after 20s").
  { intros net H. rewrite raceWithTimeout_timeout by exact H. split; reflexivity. }
  assert (Hrun : run =
    match served1 with
    | Some c =>
        mkPLRun (mkPLResult lid "done" (Some (c_finalLink c)))
          [EvCacheLookup url
             (bool_decide (is_Some (fst (Cache.getCachedLink md5 (env_now env 1)
                                           (env_cache env) url))));
           EvSave (LinkProcessor.cacheHitSave (env_now env 1) taskId lid url c)]
          cache1
    | None =>
        LinkProcessor.solveAndSave md5
          (LinkProcessor.processLinkBody md5 (LinkProcessor.noRun lid) env link lid
             taskId extractedBy 2)
          env link lid taskId extractedBy 1 cache1
          (EvCacheLookup url
             (bool_decide (is_Some (fst (Cache.getCachedLink md5 (env_now env 1)
                                           (env_cache env) url)))))
    end).
  { subst run. unfold LinkProcessor.processLink. now rewrite processLinkBody_eq. }
  destruct served1 as [c1|] eqn:E1.
  { (* served from the cache at the first attempt *)
    subst events. rewrite Hrun. simpl.
    repeat split; intros; auto; try discriminate; try lia; try congruence;
      try (apply Htimeout; assumption). }
  destruct (raceWithTimeout_status (env_net env 1) url) as [Hd | He];
    [fold first in Hd | fold first in He].
  { (* the first chain execution succeeds *)
    destruct (solveAndSave_final md5
                (LinkProcessor.processLinkBody md5 (LinkProcessor.noRun lid) env link lid
                   taskId extractedBy 2)
                env link lid taskId extractedBy 1 cache1
                (EvCacheLookup url
                   (bool_decide (is_Some (fst (Cache.getCachedLink md5 (env_now env 1)
                                                 (env_cache env) url))))))
      as (Hres & Hsaves & Hchains & Hlooks).
    { fold url first. rewrite Hd. reflexivity. }
    rewrite <- Hrun in Hres, Hsaves, Hchains, Hlooks.
    fold url first events in Hres, Hsaves, Hchains, Hlooks.
    simpl in Hsaves, Hchains, Hlooks. rewrite Hd in Hres. simpl in Hres.
    rewrite Hres, Hsaves, Hchains, Hlooks. simpl.
    repeat split; intros; auto; try discriminate; try lia; try congruence;
      try (apply Htimeout; assumption). }
  (* the first chain execution fails: the whole call is made again *)
  rewrite solveAndSave_retry in Hrun by exact He.
  rewrite processLinkBody_eq in Hrun. cbv zeta in Hrun.
  fold url cache1 served2 in Hrun.
  destruct served2 as [c2|] eqn:E2.
  { subst events. rewrite Hrun. simpl.
    repeat split; intros; auto; try discriminate; try lia; try congruence;
      try (apply Htimeout; assumption). }
  destruct (solveAndSave_final md5 (LinkProcessor.noRun lid)
              env link lid taskId extractedBy 2
              (snd (Cache.getCachedLink md5 (env_now env 2) cache1 url))
              (EvCacheLookup url
                 (bool_decide (is_Some (fst (Cache.getCachedLink md5 (env_now env 2)
                                               cache1 url))))))
    as (Hres & Hsaves & Hchains & Hlooks).
  { apply andb_false_r. }
  fold url second in Hres, Hsaves, Hchains, Hlooks.
  simpl in Hsaves, Hchains, Hlooks.
  subst events. rewrite Hrun. simpl.
  unfold LinkProcessor.chainRuns, LinkProcessor.cacheLookups, LinkProcessor.savesOf in *.
  simpl. rewrite Hres, Hsaves, Hchains, Hlooks. simpl.
  repeat split; intros; auto; try discriminate; try lia; try congruence;
    try (apply Htimeout; assumption).
  destruct (raceWithTimeout_status (env_net env 2) url) as [H2 | H2];
    fold second in H2; rewrite H2; auto.
Qed.

(** The claim of C3 fails on the retry: for a link that no resolver
    matches and an empty cache, the call looks the cache up twice, once
    before each of its two chain executions. *)
Lemma retry_consults_cache_again :
  LinkProcessor.cacheLookups
    (run_events (LinkProcessor.processLink (fun s => s) Samples.dead_env
                   Samples.unknown_link 0 "t1" "Browser/Live" 1)) = 2%nat /\
  map (fun e => match e with
                | EvCacheLookup _ _ => "lookup"
                | EvChain _ _ => "chain"
                | EvSave _ => "save"
                | EvCacheStore _ _ => "store"
                end)
      (run_events (LinkProcessor.processLink (fun s => s) Samples.dead_env
                     Samples.unknown_link 0 "t1" "Browser/Live" 1))
  = ["lookup"; "chain"; "lookup"; "chain"; "save"].
Proof. split; vm_compute; reflexivity. Qed.

(** ** Stuck-work recovery *)

Lemma needsReset_spec l : Recovery.needsReset l = true <-> Recovery.unresolved l.
Proof.
  unfold Recovery.needsReset, Recovery.unresolved.
  destruct (l_status l) as [s|]; [|intuition].
  rewrite orb_true_iff, arr_includes_In, String.eqb_eq. simpl.
  split.
  - intros [-> | [<- | [<- | [<- | []]]]]; auto.
  - intros [H | [H | [H | H]]]; try discriminate; injection H as <-; auto.
Qed.

Lemma resetLink_unresolved l :
  Recovery.unresolved l ->
  l_status (Recovery.resetLink l) = Some "error" /\
  l_error (Recovery.resetLink l) = Some "Task stuck >10min — auto-recovered" /\
  l_id (Recovery.resetLink l) = l_id l /\ l_link (Recovery.resetLink l) = l_link l /\
  l_finalLink (Recovery.resetLink l) = l_finalLink l.
Proof.
  intros H. apply needsReset_spec in H. unfold Recovery.resetLink. rewrite H.
  simpl. auto.
Qed.

Lemma resetLink_other l : ~ Recovery.unresolved l -> Recovery.resetLink l = l.
Proof.
  intros H. unfold Recovery.resetLink.
  destruct (Recovery.needsReset l) eqn:E; [|reflexivity].
  apply needsReset_spec in E. contradiction.
Qed.

Lemma terminal_not_unresolved l : Persist.terminal l -> ~ Recovery.unresolved l.
Proof.
  unfold Persist.terminal, Recovery.unresolved, status_lc.
  intros Ht [H | [H | [H | H]]]; rewrite H in Ht; simpl in Ht;
    intuition discriminate.
Qed.

Lemma recoverQueueItem_stuck now q :
  q_status q = "processing" -> Recovery.queueItemStuck now q = true ->
  Recovery.recoverQueueItem now q =
  if (Config.MAX_CRON_RETRIES <? Recovery.retriesOf q + 1)%nat
  then Recovery.failQueueItem now q
  else Recovery.requeueQueueItem now (Recovery.retriesOf q + 1) q.
Proof.
  intros Hs Hk. unfold Recovery.recoverQueueItem, Recovery.recoverQueueDoc.
  rewrite Hs, Hk. reflexivity.
Qed.

Lemma recoverQueueItem_not_processing now q :
  q_status q <> "processing" -> Recovery.recoverQueueItem now q = q.
Proof.
  intros H. unfold Recovery.recoverQueueItem.
  apply String.eqb_neq in H. now rewrite H.
Qed.

Lemma recoverTask_not_processing now d :
  t_status d <> "processing" -> Recovery.recoverTask now d = d.
Proof.
  intros H. unfold Recovery.recoverTask.
  apply String.eqb_neq in H. now rewrite H.
Qed.

Lemma recoverQueueItem_reconciles now q :
  Recovery.queueRecovered now q = true ->
  q_status (Recovery.recoverQueueItem now q) <> "processing".
Proof.
  unfold Recovery.queueRecovered. intros [Hs Hk]%andb_true_iff.
  apply String.eqb_eq in Hs. rewrite recoverQueueItem_stuck by assumption.
  destruct (_ <? _)%nat; simpl; discriminate.
Qed.

Lemma recoverTask_reconciles now d :
  Recovery.taskRecovered now d = true ->
  t_status (Recovery.recoverTask now d) <> "processing".
Proof.
  unfold Recovery.taskRecovered. intros [Hs Hk]%andb_true_iff.
  unfold Recovery.recoverTask, Recovery.recoverTaskDoc. rewrite Hs, Hk.
  destruct (Recovery.allTerminal (t_links d)); simpl; [|discriminate].
  destruct (Recovery.allSuccess (t_links d)); discriminate.
Qed.

Lemma recoverQueueItem_idem now now' q :
  Recovery.recoverQueueItem now' (Recovery.recoverQueueItem now q)
  = Recovery.recoverQueueItem now q \/
  Recovery.queueRecovered now q = false.
Proof.
  destruct (Recovery.queueRecovered now q) eqn:E; [left | now right].
  apply recoverQueueItem_not_processing, recoverQueueItem_reconciles, E.
Qed.

Lemma recoverQueueItem_same_now now q :
  Recovery.recoverQueueItem now (Recovery.recoverQueueItem now q)
  = Recovery.recoverQueueItem now q.
Proof.
  destruct (recoverQueueItem_idem now now q) as [H | H]; [exact H|].
  assert (Recovery.recoverQueueItem now q = q) as Hq.
  { unfold Recovery.queueRecovered in H.
    unfold Recovery.recoverQueueItem, Recovery.recoverQueueDoc.
    destruct (String.eqb (q_status q) "processing"); [|reflexivity].
    simpl in H. now rewrite H. }
  now rewrite !Hq.
Qed.

Lemma recoverTask_same_now now d :
  Recovery.recoverTask now (Recovery.recoverTask now d) = Recovery.recoverTask now d.
Proof.
  destruct (Recovery.taskRecovered now d) eqn:E.
  - apply recoverTask_not_processing, recoverTask_reconciles, E.
  - assert (Recovery.recoverTask now d = d) as Hd.
    { unfold Recovery.taskRecovered in E. unfold Recovery.recoverTask, Recovery.recoverTaskDoc.
      destruct (String.eqb (t_status d) "processing"); [|reflexivity].
      simpl in E. now rewrite E. }
    now rewrite !Hd.
Qed.

Lemma forallb_success ls :
  forallb Persist.isSuccessLink ls = true <-> Forall Persist.succeeded ls.
Proof.
  rewrite forallb_forall, List.Forall_forall.
  split; intros H l Hl; apply isSuccessLink_spec; auto.
Qed.

Lemma allTerminal_spec ls :
  Recovery.allTerminal ls = true <-> ls <> [] /\ Forall Persist.terminal ls.
Proof.
  unfold Recovery.allTerminal. rewrite andb_true_iff, forallb_terminal, Nat.ltb_lt.
  destruct ls; simpl; split; intros [H1 H2]; split; auto; try lia; congruence.
Qed.

Lemma allTerminal_false ls :
  Recovery.allTerminal ls = false <->
  ls = [] \/ Exists (fun l => ~ Persist.terminal l) ls.
Proof.
  unfold Recovery.allTerminal. rewrite andb_false_iff, not_forallb_terminal, Nat.ltb_ge.
  destruct ls; simpl; split; intros [H|H]; auto; try lia; try discriminate.
Qed.

Lemma filter_none {A} (p : A -> bool) (l : list A) :
  (forall x, In x l -> p x = false) -> List.filter p l = [].
Proof.
  induction l as [|x l IH]; simpl; intros H; [reflexivity|].
  rewrite (H x) by auto. apply IH. auto.
Qed.

Lemma countWhere_zero {A} (p : A -> bool) (m : gmap string A) :
  (forall k x, m !! k = Some x -> p x = false) -> Recovery.countWhere p m = 0%nat.
Proof.
  intros H. unfold Recovery.countWhere. rewrite filter_none; [reflexivity|].
  intros [k x] Hin. apply list_elem_of_In, elem_of_map_to_list in Hin.
  simpl. eauto.
Qed.

Lemma queueRecovered_after now q :
  Recovery.queueRecovered now (Recovery.recoverQueueItem now q) = false.
Proof.
  destruct (Recovery.queueRecovered now q) eqn:E.
  - apply recoverQueueItem_reconciles in E. unfold Recovery.queueRecovered.
    apply String.eqb_neq in E. now rewrite E.
  - assert (Recovery.recoverQueueItem now q = q) as ->; [|exact E].
    unfold Recovery.queueRecovered in E.
    unfold Recovery.recoverQueueItem, Recovery.recoverQueueDoc.
    destruct (String.eqb (q_status q) "processing"); [|reflexivity].
    simpl in E. now rewrite E.
Qed.

Lemma taskRecovered_after now d :
  Recovery.taskRecovered now (Recovery.recoverTask now d) = false.
Proof.
  destruct (Recovery.taskRecovered now d) eqn:E.
  - apply recoverTask_reconciles in E. unfold Recovery.taskRecovered.
    apply String.eqb_neq in E. now rewrite E.
  - assert (Recovery.recoverTask now d = d) as ->; [|exact E].
    unfold Recovery.taskRecovered in E.
    unfold Recovery.recoverTask, Recovery.recoverTaskDoc.
    destruct (String.eqb (t_status d) "processing"); [|reflexivity].
    simpl in E. now rewrite E.
Qed.

Lemma recoverStuckTasks_twice now st :
  Recovery.recoverStuckTasks now (fst (Recovery.recoverStuckTasks now st))
  = (fst (Recovery.recoverStuckTasks now st), 0%nat).
Proof.
  unfold Recovery.recoverStuckTasks. simpl. f_equal.
  - f_equal; rewrite <- map_fmap_compose; apply map_fmap_ext; intros k x _; simpl;
      auto using recoverQueueItem_same_now, recoverTask_same_now.
  - rewrite !countWhere_zero; [reflexivity| | |];
      intros k x Hx; apply lookup_fmap_Some in Hx as (y & <- & _);
      auto using queueRecovered_after, taskRecovered_after.
Qed.

(** C8, as the code has it.  A Task left in "processing" beyond the
    threshold is finalized from its links alone when it has links and
    all are terminal: the links are kept as they are and the status
    becomes "completed" when every link succeeded and "failed"
    otherwise.  In the other case every link whose status is missing,
    empty, "pending" or "processing" is set to "error" with the recovery
    annotation, the other links are kept, and the Task is marked
    "failed".  A QueueItem left in "processing" beyond the threshold is
    requeued as "pending" with its retry count raised by one while the
    count is below the cap of 3, and is marked "failed" otherwise; its
    Task's links play no part.  Recovering an item that has been
    recovered changes nothing, at any later time, and a second run over
    the whole store at the same time changes nothing and recovers
    nothing. *)
Theorem stuck_recovery_policy :
  (forall now d, Recovery.taskRecovered now d = true ->
     let d' := Recovery.recoverTask now d in
     (t_links d <> [] -> Forall Persist.terminal (t_links d) ->
        t_links d' = t_links d /\
        (Forall Persist.succeeded (t_links d) -> t_status d' = "completed") /\
        (Exists (fun l => ~ Persist.succeeded l) (t_links d) -> t_status d' = "failed")) /\
     (t_links d = [] \/ Exists (fun l => ~ Persist.terminal l) (t_links d) ->
        t_status d' = "failed" /\
        t_links d' = map Recovery.resetLink (t_links d))) /\
  (forall l,
     (Recovery.unresolved l ->
        l_status (Recovery.resetLink l) = Some "error" /\
        l_error (Recovery.resetLink l) = Some "Task stuck >10min — auto-recovered") /\
     (~ Recovery.unresolved l -> Recovery.resetLink l = l) /\
     (Persist.terminal l -> Recovery.resetLink l = l)) /\
  (forall now q, Recovery.queueRecovered now q = true ->
     let q' := Recovery.recoverQueueItem now q in
     ((Recovery.retriesOf q < Config.MAX_CRON_RETRIES)%nat ->
        q_status q' = "pending" /\
        q_retryCount q' = Some (Recovery.retriesOf q + 1)%nat /\
        q_lockedAt q' = None) /\
     ((Config.MAX_CRON_RETRIES <= Recovery.retriesOf q)%nat ->
        q_status q' = "failed" /\ q_retryCount q' = q_retryCount q)) /\
  (forall now now' q, Recovery.queueRecovered now q = true ->
     Recovery.recoverQueueItem now' (Recovery.recoverQueueItem now q)
     = Recovery.recoverQueueItem now q) /\
  (forall now now' d, Recovery.taskRecovered now d = true ->
     Recovery.recoverTask now' (Recovery.recoverTask now d)
     = Recovery.recoverTask now d) /\
  (forall now st,
     Recovery.recoverStuckTasks now (fst (Recovery.recoverStuckTasks now st))
     = (fst (Recovery.recoverStuckTasks now st), 0%nat)).
Proof.
  split; [|split; [|split; [|split; [|split]]]].
  - intros now d Hrec d'. subst d'.
    unfold Recovery.taskRecovered in Hrec. apply andb_true_iff in Hrec as [Hs Hage].
    unfold Recovery.recoverTask, Recovery.recoverTaskDoc. rewrite Hs, Hage. split.
    + intros Hne Hall.
      assert (Recovery.allTerminal (t_links d) = true) as Ht
        by (apply allTerminal_spec; auto).
      rewrite Ht. simpl. split; [reflexivity|]. split.
      * intros Hsucc. unfold Recovery.allSuccess. rewrite Ht.
        apply forallb_success in Hsucc. now rewrite Hsucc.
      * intros Hex. unfold Recovery.allSuccess. rewrite Ht.
        destruct (forallb Persist.isSuccessLink (t_links d)) eqn:E; [|reflexivity].
        apply forallb_success in E. apply List.Exists_exists in Hex as (l & Hl & Hn).
        rewrite List.Forall_forall in E. exfalso. auto.
    + intros Hnot. apply allTerminal_false in Hnot. rewrite Hnot. simpl. auto.
  - intros l. split; [|split].
    + intros H. destruct (resetLink_unresolved l H) as (? & ? & _). auto.
    + apply resetLink_other.
    + intros H. apply resetLink_other, terminal_not_unresolved, H.
  - intros now q Hrec q'. subst q'.
    unfold Recovery.queueRecovered in Hrec. apply andb_true_iff in Hrec as [Hs Hk].
    apply String.eqb_eq in Hs. rewrite recoverQueueItem_stuck by assumption.
    split; intros Hr.
    + assert ((Config.MAX_CRON_RETRIES <? Recovery.retriesOf q + 1)%nat = false) as ->
        by (apply Nat.ltb_ge; lia).
      simpl. auto.
    + assert ((Config.MAX_CRON_RETRIES <? Recovery.retriesOf q + 1)%nat = true) as ->
        by (apply Nat.ltb_lt; lia).
      simpl. auto.
  - intros now now' q Hrec.
    apply recoverQueueItem_not_processing, recoverQueueItem_reconciles, Hrec.
  - intros now now' d Hrec.
    apply recoverTask_not_processing, recoverTask_reconciles, Hrec.
  - apply recoverStuckTasks_twice.
Qed.

(** The claim of C8 fails for queue items: two claimed items past the
    threshold whose Task has every link done are not finalized from
    those links; one is requeued for a new resolution and the other is
    failed, by their retry counts alone. *)
Lemma stuck_queue_item_ignores_links :
  let st' := fst (Recovery.recoverStuckTasks 700000 Samples.stuck_store) in
  (t_status <$> scraping_tasks st' !! "t1" = Some "completed") /\
  (q_taskId <$> movies_queue st' !! "q1" = Some (Some "t1")) /\
  (q_taskId <$> movies_queue st' !! "q2" = Some (Some "t1")) /\
  (q_status <$> movies_queue st' !! "q1" = Some "pending") /\
  (q_retryCount <$> movies_queue st' !! "q1" = Some (Some 1%nat)) /\
  (q_status <$> movies_queue st' !! "q2" = Some "failed").
Proof. vm_compute. repeat split. Qed.

(** A run over the sample store recovers both queue items and both
    Tasks; the Task with a pending link is failed and that link is set
    to "error". *)
Example recovery_of_sample_store :
  snd (Recovery.recoverStuckTasks 700000 Samples.stuck_store) = 4%nat /\
  (t_status <$> scraping_tasks (fst (Recovery.recoverStuckTasks 700000 Samples.stuck_store))
                  !! "t2" = Some "failed") /\
  (map l_status <$> (t_links <$> scraping_tasks
                       (fst (Recovery.recoverStuckTasks 700000 Samples.stuck_store)) !! "t2")
   = Some [Some "done"; Some "error"]).
Proof. vm_compute. repeat split. Qed.

(** ** The batch orchestrator *)

(** What every [processLink] call leaves behind: one save, addressed to
    the link by its id and url, whose status is the status returned. *)
Lemma processLink_shape md5 env link lid taskId extractedBy :
  let run := LinkProcessor.processLink md5 env link lid taskId extractedBy 1 in
  (pl_status (run_result run) = "done" \/ pl_status (run_result run) = "error") /\
  pl_lid (run_result run) = lid /\
  exists w, LinkProcessor.savesOf (run_events run) = [w] /\
    sc_taskId w = taskId /\ sc_lid w = lid /\ sc_linkUrl w = l_link link /\
    r_status (sc_result w) = Some (pl_status (run_result run)) /\
    (pl_status (run_result run) = "done" ->
       r_finalLink (sc_result w) = pl_finalLink (run_result run)).
Proof.
  intros run. subst run. unfold LinkProcessor.processLink.
  rewrite processLinkBody_eq. cbv zeta.
  destruct (LinkProcessor.servedFromCache md5 (env_now env 1) (env_cache env) (l_link link))
    as [c1|].
  { simpl. repeat split; auto. eexists. repeat split; reflexivity. }
  destruct (raceWithTimeout_status (env_net env 1) (l_link link)) as [Hd | He].
  - match goal with
    | |- context [LinkProcessor.solveAndSave md5 ?rt env link lid taskId extractedBy 1 ?c ?lk] =>
        destruct (solveAndSave_final md5 rt env link lid taskId extractedBy 1 c lk)
          as (Hres & Hsaves & _)
    end.
    { rewrite Hd. reflexivity. }
    rewrite Hres, Hsaves, Hd. simpl.
    repeat split; auto. eexists. repeat split; simpl; auto.
  - rewrite solveAndSave_retry by exact He. simpl.
    rewrite processLinkBody_eq. cbv zeta.
    destruct (LinkProcessor.servedFromCache md5 (env_now env 2) _ (l_link link)) as [c2|].
    { simpl. repeat split; auto. eexists. repeat split; reflexivity. }
    match goal with
    | |- context [LinkProcessor.solveAndSave md5 ?rt env link lid taskId extractedBy 2 ?c ?lk] =>
        destruct (solveAndSave_final md5 rt env link lid taskId extractedBy 2 c lk)
          as (Hres & Hsaves & _)
    end.
    { apply andb_false_r. }
    unfold LinkProcessor.savesOf in *. simpl. rewrite Hres, Hsaves. simpl.
    destruct (raceWithTimeout_status (env_net env 2) (l_link link)) as [H2 | H2];
      rewrite H2; simpl; repeat split; auto;
      eexists; repeat split; simpl; auto; try (rewrite H2; reflexivity);
      intros; discriminate.
Qed.

Lemma filter_length_le {A} (p : A -> bool) (l : list A) :
  (length (List.filter p l) <= length l)%nat.
Proof. induction l as [|x l IH]; simpl; [lia|]. destruct (p x); simpl; lia. Qed.

Lemma filter_length_all {A} (p : A -> bool) (l : list A) :
  length (List.filter p l) = length l <-> Forall (fun x => p x = true) l.
Proof.
  induction l as [|x l IH]; simpl.
  - split; [constructor | reflexivity].
  - pose proof (filter_length_le p l). rewrite List.Forall_cons_iff.
    destruct (p x) eqn:E; simpl.
    + rewrite <- IH. split; [intros H'; split; [reflexivity|lia] | intros [_ H']; lia].
    + split; [intros H'; lia | intros [H' _]; discriminate].
Qed.

Lemma filter_split_length {A} (p : A -> bool) (l : list A) :
  (length (List.filter p l) + length (List.filter (fun x => negb (p x)) l))%nat = length l.
Proof. induction l as [|x l IH]; simpl; [reflexivity|]. destruct (p x); simpl; lia. Qed.

Lemma timerLoop_counts md5 clock start linkEnv taskId extractedBy message links :
  forall i,
    let run := Orchestrator.timerLoop md5 clock start linkEnv taskId extractedBy message i links in
    length (tr_results run) = tr_started run /\
    (tr_started run <= length links)%nat /\
    (tr_deferred run = false -> tr_started run = length links) /\
    (tr_deferred run = true -> (tr_started run < length links)%nat) /\
    Forall (fun r => pl_status r = "done" \/ pl_status r = "error") (tr_results run).
Proof.
  induction links as [|l rest IH]; intros i; simpl.
  - repeat split; auto; discriminate.
  - destruct (_ >? _)%Z; simpl.
    + repeat split; auto; try lia; discriminate.
    + destruct (IH (S i)) as (H1 & H2 & H3 & H4 & H5).
      split; [lia|]. split; [lia|].
      split; [intros Hd; specialize (H3 Hd); lia|].
      split; [intros Hd; specialize (H4 Hd); lia|].
      constructor; [|exact H5].
      apply (processLink_shape md5 (linkEnv l) l (l_id l) taskId extractedBy).
Qed.

Lemma finishItem_status now item stored taskId deferred succeeded errorCount pending :
  q_status (Orchestrator.finishItem now item stored taskId deferred succeeded errorCount pending)
  = (if deferred then "pending" else if succeeded then "completed" else "failed") /\
  q_retryCount (Orchestrator.finishItem now item stored taskId deferred succeeded errorCount pending)
  = Some (Recovery.retriesOf item) /\
  (deferred = true ->
   q_lockedAt (Orchestrator.finishItem now item stored taskId deferred succeeded errorCount pending)
   = None).
Proof.
  unfold Orchestrator.finishItem. destruct deferred; [|destruct succeeded]; simpl;
    repeat split; auto; discriminate.
Qed.

Lemma direct_done_count (runs : list PLRun) :
  Orchestrator.countDirectDone (map (fun r => Fulfilled (run_result r)) runs) = length runs
  <-> Forall (fun r => pl_status (run_result r) = "done") runs.
Proof.
  unfold Orchestrator.countDirectDone.
  rewrite <- (length_map (fun r => Fulfilled (run_result r)) runs).
  rewrite filter_length_all, List.Forall_map.
  split; intros H; eapply List.Forall_impl; try exact H; simpl; intros r Hr.
  - now apply String.eqb_eq.
  - now apply String.eqb_eq.
Qed.

Lemma direct_done_le (runs : list PLRun) :
  (Orchestrator.countDirectDone (map (fun r => Fulfilled (run_result r)) runs)
   <= length runs)%nat.
Proof.
  unfold Orchestrator.countDirectDone.
  rewrite <- (length_map (fun r => Fulfilled (run_result r)) runs).
  apply filter_length_le.
Qed.

Lemma direct_errors_none (runs : list PLRun) :
  Forall (fun r => pl_status (run_result r) = "done") runs ->
  Orchestrator.countDirectErrors (map (fun r => Fulfilled (run_result r)) runs) = 0%nat.
Proof.
  intros H. unfold Orchestrator.countDirectErrors. rewrite filter_none; [reflexivity|].
  intros s Hs. apply in_map_iff in Hs as (r & <- & Hr).
  rewrite List.Forall_forall in H. rewrite (H r Hr). reflexivity.
Qed.

Lemma timer_done_count (results : list PLResult) :
  Forall (fun r => pl_status r = "done" \/ pl_status r = "error") results ->
  (Orchestrator.countTimerDone results = length results
   <-> Forall (fun r => pl_status r = "done") results).
Proof.
  intros Hshape. unfold Orchestrator.countTimerDone. rewrite filter_length_all.
  rewrite !List.Forall_forall in *. split; intros H r Hr.
  - specialize (H r Hr). destruct (Hshape r Hr) as [E | E]; [exact E|].
    rewrite E in H. discriminate.
  - rewrite (H r Hr). reflexivity.
Qed.

Lemma timer_errors_none (results : list PLResult) :
  Forall (fun r => pl_status r = "done") results ->
  Orchestrator.countTimerErrors results = 0%nat.
Proof.
  intros H. unfold Orchestrator.countTimerErrors. rewrite filter_none; [reflexivity|].
  intros r Hr. rewrite List.Forall_forall in H. rewrite (H r Hr). reflexivity.
Qed.

(** The final write to the claimed queue item, from the outcome of the
    links. *)
Lemma resolveLinks_item md5 env tasks item stored taskId links :
  let res := Orchestrator.resolveLinks md5 env tasks item stored taskId links in
  q_retryCount (Orchestrator.res_item res) = Some (Recovery.retriesOf item) /\
  (Orchestrator.res_deferred res = true ->
     q_status (Orchestrator.res_item res) = "pending" /\ q_lockedAt (Orchestrator.res_item res) = None) /\
  (Orchestrator.res_deferred res = false ->
     (length (Orchestrator.res_direct res) + length (tr_results (Orchestrator.res_timer res)))%nat
       = length (List.filter Orchestrator.isPendingLink links) /\
     (q_status (Orchestrator.res_item res) = "completed" <->
        Forall (fun r => pl_status (run_result r) = "done") (Orchestrator.res_direct res) /\
        Forall (fun r => pl_status r = "done") (tr_results (Orchestrator.res_timer res))) /\
     (q_status (Orchestrator.res_item res) <> "completed" -> q_status (Orchestrator.res_item res) = "failed")).
Proof.
  intros res. subst res. unfold Orchestrator.resolveLinks. cbv zeta. simpl.
  set (P := List.filter Orchestrator.isPendingLink links).
  set (T := List.filter Orchestrator.isTimerLink P).
  set (D := List.filter (fun l => negb (Orchestrator.isTimerLink l)) P).
  set (timer := Orchestrator.timerLoop md5 (cron_clock env) (cron_start env)
                  (cron_linkEnv env) taskId "Server/Auto-Pilot"
                  Orchestrator.DEFER_MESSAGE 0 T).
  set (runs := map (fun l => LinkProcessor.processLink md5 (cron_linkEnv env l) l (l_id l)
                               taskId "Server/Auto-Pilot" 1) D).
  match goal with
  | |- context [Orchestrator.finishItem ?n item stored taskId ?d ?s ?e ?p] =>
      destruct (finishItem_status n item stored taskId d s e p) as (Hst & Hrc & Hlk);
      rewrite Hst, Hrc
  end.
  split; [reflexivity|]. split.
  { intros Hd. rewrite Hd in *. split; [reflexivity | apply Hlk; reflexivity]. }
  intros Hd. rewrite Hd. clear Hst Hrc Hlk.
  destruct (timerLoop_counts md5 (cron_clock env) (cron_start env) (cron_linkEnv env)
              taskId "Server/Auto-Pilot" Orchestrator.DEFER_MESSAGE T 0)
    as (Hlen & _ & Hall & _ & Hshape).
  fold timer in Hlen, Hall, Hshape. specialize (Hall Hd).
  assert (HP : (length T + length D)%nat = length P) by apply filter_split_length.
  assert (Hruns : length runs = length D) by apply length_map.
  pose proof (direct_done_le runs) as Hdle.
  pose proof (filter_length_le
                (fun r => String.eqb (pl_status r) "done" || String.eqb (pl_status r) "success")
                (tr_results timer)) as Htle.
  fold (Orchestrator.countTimerDone (tr_results timer)) in Htle.
  split; [lia|].
  unfold Orchestrator.allLinksSucceeded. simpl.
  split.
  - split.
    + intros Hc.
      destruct ((_ =? 0)%nat && (_ =? length P)%nat) eqn:E; [|discriminate].
      apply andb_true_iff in E as [_ E]. apply Nat.eqb_eq in E.
      split; [apply direct_done_count | apply (timer_done_count _ Hshape)]; lia.
    + intros [Hdir Htim].
      rewrite (direct_errors_none _ Hdir), (timer_errors_none _ Htim).
      apply direct_done_count in Hdir. apply (timer_done_count _ Hshape) in Htim.
      assert ((Orchestrator.countDirectDone (map (fun r => Fulfilled (run_result r)) runs)
               + Orchestrator.countTimerDone (tr_results timer) =? length P)%nat = true) as ->
        by (apply Nat.eqb_eq; lia).
      reflexivity.
  - destruct ((_ =? 0)%nat && (_ =? length P)%nat); [intros H; congruence | reflexivity].
Qed.

Lemma fold_earlier_In l :
  forall best kv,
    fold_left Orchestrator.earlier l best = Some kv -> In kv l \/ best = Some kv.
Proof.
  induction l as [|x l IH]; simpl; intros best kv H; [auto|].
  apply IH in H as [H | H]; [auto|].
  unfold Orchestrator.earlier in H. destruct best as [b|].
  - destruct (q_createdAt (snd x)), (q_createdAt (snd b)); auto.
    destruct (_ <? _)%Z; auto. injection H as <-. auto.
  - injection H as <-. auto.
Qed.

Lemma pickPending_pending queue id q :
  Orchestrator.pickPending queue = Some (id, q) ->
  queue !! id = Some q /\ q_status q = "pending".
Proof.
  unfold Orchestrator.pickPending. intros H.
  apply fold_earlier_In in H as [H | H]; [|discriminate].
  apply filter_In in H as [Hin Hc]. simpl in Hc.
  apply andb_true_iff in Hc as [Hs _]. apply String.eqb_eq in Hs.
  apply list_elem_of_In, elem_of_map_to_list in Hin. auto.
Qed.

Lemma pickItem_pending st movies id q :
  Orchestrator.pickItem st = Some (movies, (id, q)) ->
  Orchestrator.queueOf movies st !! id = Some q /\ q_status q = "pending".
Proof.
  unfold Orchestrator.pickItem.
  destruct (Orchestrator.pickPending (movies_queue st)) as [[k v]|] eqn:E1.
  - intros [= <- <- <-]. now apply pickPending_pending.
  - destruct (Orchestrator.pickPending (webseries_queue st)) as [[k v]|] eqn:E2;
      [|discriminate].
    intros [= <- <- <-]. now apply pickPending_pending.
Qed.

Lemma queueOf_setQueue st movies id q :
  Orchestrator.queueOf movies (Orchestrator.setQueue st movies id q) !! id = Some q.
Proof. destruct movies; simpl; apply lookup_insert_eq. Qed.

(** C2, as the code has it.  The item an invocation claims was
    "pending".  When link extraction fails the item is unlocked with its
    retry count raised by one, "pending" again while the count it had
    was below the cap of 3 and "failed" otherwise.  When links were
    resolved and some were deferred the item is unlocked and "pending"
    again, with its retry count as it was.  When none was deferred,
    every originally-pending link has a result and the item is
    "completed" exactly when all of them are "done", and "failed"
    otherwise.  Stuck recovery requeues an item with its retry count
    raised by one while that count was below the cap and fails it
    otherwise; an item that is "failed" is not changed by recovery and
    is never claimed. *)
Theorem queue_item_outcome :
  (forall md5 env st0 movies id item,
     let now := cron_start env in
     let st := fst (Recovery.recoverStuckTasks now st0) in
     let listResult := cron_extract env (q_url item) in
     let links := Orchestrator.linksWithIds (JS.from_nullish (ex_links listResult) []) in
     let res :=
       Orchestrator.resolveLinks md5 env
         (<[cron_newTaskId env := Orchestrator.newTask now (q_url item) listResult links]>
            (scraping_tasks st))
         item (Orchestrator.lockItem now item) (cron_newTaskId env) links in
     Orchestrator.pickItem st = Some (movies, (id, item)) ->
     q_status item = "pending" /\
     exists q',
       Orchestrator.queueOf movies (fst (Orchestrator.GET md5 env st0)) !! id = Some q' /\
       (Orchestrator.extractionOk listResult = false ->
          q_status q' = (if (Config.MAX_CRON_RETRIES <=? Recovery.retriesOf item)%nat
                         then "failed" else "pending") /\
          q_retryCount q' = Some (Recovery.retriesOf item + 1)%nat /\
          q_lockedAt q' = None) /\
       (Orchestrator.extractionOk listResult = true ->
          (Orchestrator.res_deferred res = true ->
             q_status q' = "pending" /\ q_lockedAt q' = None /\
             q_retryCount q' = Some (Recovery.retriesOf item)) /\
          (Orchestrator.res_deferred res = false ->
             (length (Orchestrator.res_direct res)
              + length (tr_results (Orchestrator.res_timer res)))%nat
               = length (List.filter Orchestrator.isPendingLink links) /\
             (q_status q' = "completed" <->
                Forall (fun r => pl_status (run_result r) = "done")
                       (Orchestrator.res_direct res) /\
                Forall (fun r => pl_status r = "done")
                       (tr_results (Orchestrator.res_timer res))) /\
             (q_status q' <> "completed" -> q_status q' = "failed")))) /\
  (forall now q, Recovery.queueRecovered now q = true ->
     ((Recovery.retriesOf q < Config.MAX_CRON_RETRIES)%nat ->
        q_status (Recovery.recoverQueueItem now q) = "pending" /\
        q_retryCount (Recovery.recoverQueueItem now q) = Some (Recovery.retriesOf q + 1)%nat) /\
     ((Config.MAX_CRON_RETRIES <= Recovery.retriesOf q)%nat ->
        q_status (Recovery.recoverQueueItem now q) = "failed")) /\
  (forall now q, q_status q = "failed" -> Recovery.recoverQueueItem now q = q) /\
  (forall st movies id q,
     Orchestrator.pickItem st = Some (movies, (id, q)) -> q_status q <> "failed").
Proof.
  split; [|split; [|split]].
  - intros md5 env st0 movies id item now st listResult links res Hpick.
    destruct (pickItem_pending _ _ _ _ Hpick) as [_ Hpending].
    split; [exact Hpending|].
    unfold Orchestrator.GET. fold now.
    destruct (Recovery.recoverStuckTasks now st0) as [st' recovered] eqn:Erec.
    simpl in st. subst st. rewrite Hpick. fold listResult.
    destruct (Orchestrator.extractionOk listResult) eqn:Eok; simpl.
    + fold links. fold res. eexists. split; [apply queueOf_setQueue|].
      split; [discriminate|]. intros _.
      destruct (resolveLinks_item md5 env
                  (<[cron_newTaskId env := Orchestrator.newTask now (q_url item) listResult links]>
                     (scraping_tasks st'))
                  item (Orchestrator.lockItem now item) (cron_newTaskId env) links)
        as (Hrc & Hdef & Hnot).
      fold res in Hrc, Hdef, Hnot. split.
      * intros Hd. destruct (Hdef Hd). auto.
      * exact Hnot.
    + eexists. split; [apply queueOf_setQueue|].
      split; [|discriminate]. intros _. simpl. auto.
  - intros now q Hrec.
    unfold Recovery.queueRecovered in Hrec. apply andb_true_iff in Hrec as [Hs Hk].
    apply String.eqb_eq in Hs. rewrite recoverQueueItem_stuck by assumption.
    split; intros Hr.
    + assert ((Config.MAX_CRON_RETRIES <? Recovery.retriesOf q + 1)%nat = false) as ->
        by (apply Nat.ltb_ge; lia).
      simpl. auto.
    + assert ((Config.MAX_CRON_RETRIES <? Recovery.retriesOf q + 1)%nat = true) as ->
        by (apply Nat.ltb_lt; lia).
      reflexivity.
  - intros now q Hs. apply recoverQueueItem_not_processing. rewrite Hs. discriminate.
  - intros st movies id q Hpick.
    destruct (pickItem_pending _ _ _ _ Hpick) as [_ ->]. discriminate.
Qed.

(** The claim of C2 fails on a deferred link: a run whose only link is
    deferred for the time budget leaves the claimed item "pending", not
    "failed", with its retry count unchanged. *)
Lemma deferred_item_is_requeued :
  let st' := fst (Orchestrator.GET (fun s => s) Samples.cron_env_late Samples.pending_store) in
  snd (Orchestrator.GET (fun s => s) Samples.cron_env_late Samples.pending_store)
    = RespOk "task-new" 0 0 true /\
  (q_status <$> movies_queue st' !! "q1" = Some "pending") /\
  (q_retryCount <$> movies_queue st' !! "q1" = Some (Some 0%nat)) /\
  (map l_status <$> (t_links <$> scraping_tasks st' !! "task-new")
   = Some [Some "pending"]).
Proof. vm_compute. repeat split. Qed.

Lemma queue_item_outcome_witness :
  exists q',
    movies_queue (fst (Orchestrator.GET (fun s => s) Samples.cron_env_done
                         Samples.pending_store)) !! "q1" = Some q' /\
    q_status q' = "completed".
Proof.
  destruct (proj1 queue_item_outcome (fun s => s) Samples.cron_env_done
              Samples.pending_store true "q1" (Samples.queue_item "pending" 0 0 ""))
    as (_ & q' & Hq & _ & Hok); [vm_compute; reflexivity|].
  exists q'. split; [exact Hq|].
  destruct Hok as (_ & Hnd); [vm_compute; reflexivity|].
  destruct Hnd as (_ & Hiff & _); [vm_compute; reflexivity|].
  apply Hiff. split; vm_compute; repeat constructor.
Defined.

(** ** Writes to the shared Task document *)

Lemma applyWrite_lookup tasks taskId d w :
  tasks !! taskId = Some d -> sc_taskId w = taskId ->
  Orchestrator.applyWrite tasks w !! taskId = Some (Orchestrator.applyToDoc d w).
Proof.
  intros Hd Hw. unfold Orchestrator.applyWrite. rewrite Hw.
  rewrite saveResultToFirestore_lookup, Hd. reflexivity.
Qed.

Lemma applyWrites_lookup ws :
  forall tasks taskId d,
    tasks !! taskId = Some d ->
    Forall (fun w => sc_taskId w = taskId) ws ->
    Orchestrator.applyWrites tasks ws !! taskId
    = Some (fold_left Orchestrator.applyToDoc ws d).
Proof.
  induction ws as [|w ws IH]; intros tasks taskId d Hd Hall; simpl; [exact Hd|].
  apply List.Forall_cons_iff in Hall as [Hw Hall].
  apply IH; [|exact Hall]. now apply applyWrite_lookup.
Qed.

Lemma applyToDoc_links d w :
  t_links (Orchestrator.applyToDoc d w)
  = map (fun l => Orchestrator.writeLink l w) (t_links d).
Proof. reflexivity. Qed.

Lemma fold_applyToDoc_links ws :
  forall d,
    t_links (fold_left Orchestrator.applyToDoc ws d)
    = map (fun l => fold_left Orchestrator.writeLink ws l) (t_links d).
Proof.
  induction ws as [|w ws IH]; intros d; simpl.
  - now rewrite map_id.
  - rewrite IH, applyToDoc_links, map_map. reflexivity.
Qed.

Lemma writeLink_key l w :
  l_id (Orchestrator.writeLink l w) = l_id l /\
  l_link (Orchestrator.writeLink l w) = l_link l.
Proof. unfold Orchestrator.writeLink. destruct (Orchestrator.writeFor l w); auto. Qed.

Lemma writeFor_writeLink l w w' :
  Orchestrator.writeFor (Orchestrator.writeLink l w) w' = Orchestrator.writeFor l w'.
Proof.
  unfold Orchestrator.writeFor at 1 2, Persist.matches.
  destruct (writeLink_key l w) as [-> ->]. reflexivity.
Qed.



Lemma interleave_Forall {A} (P : A -> Prop) sched :
  forall xs ys, Forall P xs -> Forall P ys -> Forall P (Orchestrator.interleave sched xs ys).
Proof.
  induction sched as [|b sched IH]; intros xs ys Hxs Hys; simpl.
  - apply List.Forall_app. auto.
  - destruct xs as [|x xs]; [exact Hys|]. destruct ys as [|y ys]; [exact Hxs|].
    apply List.Forall_cons_iff in Hxs as [Hx Hxs'].
    apply List.Forall_cons_iff in Hys as [Hy Hys'].
    destruct b; constructor; auto; apply IH; auto.
Qed.

Lemma NoDup_map_inj_on {A B} (f : A -> B) (l : list A) a b :
  NoDup (map f l) -> In a l -> In b l -> f a = f b -> a = b.
Proof.
  induction l as [|x l IH]; simpl; [contradiction|].
  intros Hnd Ha Hb Hab. apply NoDup_cons in Hnd as [Hx Hnd'].
  rewrite list_elem_of_In in Hx.
  destruct Ha as [<- | Ha], Hb as [<- | Hb]; auto.
  - exfalso. apply Hx. rewrite Hab. now apply in_map.
  - exfalso. apply Hx. rewrite <- Hab. now apply in_map.
Qed.

Lemma writeFor_issued taskId l l' w :
  Orchestrator.issuedFor taskId l' w ->
  Orchestrator.writeFor l w = Nat.eqb (l_id l) (l_id l') || String.eqb (l_link l) (l_link l').
Proof.
  intros (_ & Hid & Hurl). unfold Orchestrator.writeFor, Persist.matches.
  now rewrite Hid, Hurl.
Qed.

Lemma writeFor_foreign taskId ls ws l :
  Forall2 (Orchestrator.issuedFor taskId) ls ws ->
  (forall l', In l' ls -> l_id l' <> l_id l /\ l_link l' <> l_link l) ->
  Forall (fun w => Orchestrator.writeFor l w = false) ws.
Proof.
  induction 1 as [|l' w ls ws Hw _ IH]; intros Hkeys; constructor.
  - rewrite (writeFor_issued _ _ _ _ Hw).
    destruct (Hkeys l' (or_introl eq_refl)) as [Hi Hu].
    apply orb_false_iff. split.
    + apply Nat.eqb_neq. congruence.
    + apply String.eqb_neq. congruence.
  - apply IH. intros l'' Hin. apply Hkeys. now right.
Qed.

Lemma writeFor_unique taskId ls ws :
  Forall2 (Orchestrator.issuedFor taskId) ls ws ->
  NoDup (map l_id ls) -> NoDup (map l_link ls) ->
  forall k l w, ls !! k = Some l -> ws !! k = Some w ->
    List.filter (Orchestrator.writeFor l) ws = [w].
Proof.
  induction 1 as [|l' w' ls ws Hw Hrest IH]; intros Hids Hurls k l w Hl Hwk;
    [discriminate|].
  simpl in Hids, Hurls.
  apply NoDup_cons in Hids as [Hi Hids'].
  apply NoDup_cons in Hurls as [Hu Hurls'].
  rewrite list_elem_of_In in Hi. rewrite list_elem_of_In in Hu.
  destruct k as [|k]; simpl in Hl, Hwk.
  - injection Hl as ->. injection Hwk as ->. simpl.
    rewrite (writeFor_issued _ _ _ _ Hw), Nat.eqb_refl. simpl. f_equal.
    apply filter_none. intros w'' Hin.
    assert (Hf : Forall (fun w => Orchestrator.writeFor l w = false) ws).
    { eapply writeFor_foreign; [exact Hrest|]. intros l'' Hl''. split; intros E.
      - apply Hi. rewrite <- E. now apply in_map.
      - apply Hu. rewrite <- E. now apply in_map. }
    rewrite List.Forall_forall in Hf. auto.
  - simpl. rewrite (writeFor_issued _ _ _ _ Hw).
    assert (Hin : In l ls) by (apply list_elem_of_In; eapply list_elem_of_lookup_2; eauto).
    assert (Nat.eqb (l_id l) (l_id l') = false) as ->.
    { apply Nat.eqb_neq. intros E. apply Hi. rewrite <- E. now apply in_map. }
    assert (String.eqb (l_link l) (l_link l') = false) as ->.
    { apply String.eqb_neq. intros E. apply Hu. rewrite <- E. now apply in_map. }
    simpl. eapply IH; eauto.
Qed.

Lemma deferredWrite_issued taskId extractedBy message now ls :
  Forall2 (Orchestrator.issuedFor taskId) ls
    (map (Orchestrator.deferredWrite taskId extractedBy message now) ls).
Proof. induction ls; constructor; auto. repeat split. Qed.

(** The writes of the sequential loop, one per timer link, in order:
    the save of [processLink] for a link that was started, the
    checkpoint for a link that was not. *)
Lemma timerLoop_writes md5 clock start linkEnv taskId extractedBy message links :
  forall i,
    let run := Orchestrator.timerLoop md5 clock start linkEnv taskId extractedBy message i links in
    Forall2 (Orchestrator.issuedFor taskId) links (tr_writes run) /\
    (forall k w, tr_writes run !! k = Some w ->
       ((k < tr_started run)%nat ->
          exists r, tr_results run !! k = Some r /\
            r_status (sc_result w) = Some (pl_status r) /\
            (pl_status r = "done" -> r_finalLink (sc_result w) = pl_finalLink r)) /\
       ((tr_started run <= k)%nat ->
          r_status (sc_result w) = Some "pending" /\ r_finalLink (sc_result w) = None)).
Proof.
  induction links as [|l rest IH]; intros i; simpl.
  - split; [constructor|]. intros k w Hk. discriminate.
  - destruct (_ >? _)%Z; simpl.
    + split; [apply (deferredWrite_issued taskId extractedBy message (clock i) (l :: rest))|].
      intros k w Hk. split; [lia|]. intros _.
      change (map (Orchestrator.deferredWrite taskId extractedBy message (clock i)) (l :: rest) !! k
              = Some w) in Hk.
      rewrite list_lookup_fmap in Hk. destruct ((l :: rest) !! k); [|discriminate].
      injection Hk as <-. auto.
    + destruct (IH (S i)) as (Hrel & Hst).
      destruct (processLink_shape md5 (linkEnv l) l (l_id l) taskId extractedBy)
        as (_ & _ & w0 & Hsaves & Ht & Hid & Hurl & Hstat & Hfin).
      rewrite Hsaves. simpl. split.
      * constructor; [repeat split; assumption | exact Hrel].
      * intros [|k] w Hk; simpl in Hk.
        -- injection Hk as <-. split; [|lia]. intros _. eexists. repeat split; eauto.
        -- destruct (Hst k w Hk) as [H1 H2]. split.
           ++ intros Hlt. apply H1. lia.
           ++ intros Hge. apply H2. lia.
Qed.

Lemma direct_writes_issued md5 (linkEnv : Link -> LinkEnv) taskId extractedBy ls :
  Forall2 (Orchestrator.issuedFor taskId) ls
    (flat_map (fun r => LinkProcessor.savesOf (run_events r))
       (map (fun l => LinkProcessor.processLink md5 (linkEnv l) l (l_id l) taskId extractedBy 1)
            ls)).
Proof.
  induction ls as [|l ls IH]; simpl; [constructor|].
  destruct (processLink_shape md5 (linkEnv l) l (l_id l) taskId extractedBy)
    as (_ & _ & w0 & Hsaves & Ht & Hid & Hurl & _).
  rewrite Hsaves. simpl. constructor; [repeat split; assumption | exact IH].
Qed.

Lemma issuedFor_taskId taskId ls ws :
  Forall2 (Orchestrator.issuedFor taskId) ls ws ->
  Forall (fun w => sc_taskId w = taskId) ws.
Proof. induction 1 as [|l w ls ws (Ht & _) _ IH]; constructor; auto. Qed.

Lemma NoDup_map_filter {A B} (f : A -> B) (p : A -> bool) (l : list A) :
  NoDup (map f l) -> NoDup (map f (List.filter p l)).
Proof.
  induction l as [|x l IH]; simpl; intros H; [constructor|].
  apply NoDup_cons in H as [Hx H]. destruct (p x); simpl; auto.
  apply NoDup_cons. split; auto.
  rewrite list_elem_of_In in *. intros Hin. apply Hx.
  apply in_map_iff in Hin as (y & Hy & Hin). apply filter_In in Hin as [Hin _].
  rewrite <- Hy. now apply in_map.
Qed.







(** ** Commit orders of a run's writes *)

Lemma List_filter_Permutation {A} (p : A -> bool) (xs ys : list A) :
  Permutation xs ys -> Permutation (List.filter p xs) (List.filter p ys).
Proof.
  induction 1 as [|x xs ys _ IH|x y xs|xs ys zs _ IH1 _ IH2]; simpl.
  - constructor.
  - destruct (p x); [constructor|]; exact IH.
  - destruct (p x), (p y); try reflexivity. constructor.
  - etransitivity; eauto.
Qed.

Lemma interleave_Permutation {A} sched :
  forall xs ys : list A, Permutation (Orchestrator.interleave sched xs ys) (xs ++ ys).
Proof.
  induction sched as [|b sched IH]; intros xs ys; simpl; [reflexivity|].
  destruct xs as [|x xs]; [reflexivity|].
  destruct ys as [|y ys]; [now rewrite app_nil_r|].
  destruct b.
  - simpl. constructor. apply IH.
  - etransitivity; [constructor; apply IH|]. apply (Permutation_middle (x :: xs) ys y).
Qed.

(** What a sequence of writes does to a link depends on the writes
    addressed to it only. *)
Lemma fold_writeLink_filter ws :
  forall l,
    fold_left Orchestrator.writeLink ws l
    = fold_left Orchestrator.writeLink (List.filter (Orchestrator.writeFor l) ws) l.
Proof.
  induction ws as [|w ws IH]; intros l; simpl; [reflexivity|].
  rewrite IH.
  assert (Hf : List.filter (Orchestrator.writeFor (Orchestrator.writeLink l w)) ws
               = List.filter (Orchestrator.writeFor l) ws).
  { apply filter_ext. intros w'. apply writeFor_writeLink. }
  rewrite Hf.
  destruct (Orchestrator.writeFor l w) eqn:E; simpl; [reflexivity|].
  unfold Orchestrator.writeLink at 2. now rewrite E.
Qed.


Lemma distinct_keys (links : list Link) l l' :
  NoDup (map l_id links) -> NoDup (map l_link links) ->
  In l links -> In l' links -> l' <> l ->
  l_id l' <> l_id l /\ l_link l' <> l_link l.
Proof.
  intros Hids Hurls Hl Hl' Hne. split; intros E; apply Hne.
  - eapply (NoDup_map_inj_on l_id); eauto.
  - eapply (NoDup_map_inj_on l_link); eauto.
Qed.


Lemma writeFor_none taskId ls ws l :
  Forall2 (Orchestrator.issuedFor taskId) ls ws ->
  (forall l', In l' ls -> l_id l' <> l_id l /\ l_link l' <> l_link l) ->
  List.filter (Orchestrator.writeFor l) ws = [].
Proof.
  intros Hrel Hkeys. apply filter_none. intros w Hw.
  pose proof (writeFor_foreign taskId ls ws l Hrel Hkeys) as Hf.
  rewrite List.Forall_forall in Hf. auto.
Qed.



(** ** The consistency overlay *)

(** A stream line with status "done" or "error" puts that status under
    the link's position in the shield of the Task, when the Task has a
    shield object. *)
Lemma handleLine_shields taskId data c s status :
  is_Some (completedLinks c !! taskId) ->
  m_status data = Some status -> status = "done" \/ status = "error" ->
  exists e,
    Overlay.shieldOf (fst (Overlay.handleLine taskId data c s)) taskId !! m_id data = Some e /\
    sh_status e = status.
Proof.
  intros [m Hm] Hst Hterm. unfold Overlay.handleLine.
  match goal with
  | |- context [let '(c1, s1) := ?pre in @?k c1 s1] =>
      destruct pre as [c1 s1] eqn:E1
  end.
  match goal with
  | |- context [let '(c2, s2) := ?pre in _] => destruct pre as [c2 s2] eqn:E2
  end.
  assert (Hc : completedLinks c2 = completedLinks c).
  { destruct (JS.truthy (m_msg data) && JS.truthy (m_type data)) in E1;
      injection E1 as <- <-;
      destruct (JS.truthy (m_final data)) in E2; injection E2 as <- <-; reflexivity. }
  assert (Overlay.isTerminalWord (m_status data) = true) as ->.
  { rewrite Hst. destruct Hterm as [-> | ->]; reflexivity. }
  unfold Overlay.shieldStore. simpl. rewrite Hc, Hm. simpl.
  unfold Overlay.shieldOf. simpl. rewrite lookup_insert_eq. simpl.
  rewrite lookup_insert_eq. eexists. split; [reflexivity|]. simpl.
  now rewrite Hst.
Qed.

Lemma mergeLink_shielded shieldData recentlyEnded idx fb e :
  shieldData !! idx = Some e ->
  (Overlay.isFbPending fb || recentlyEnded = true ->
     l_status (Overlay.mergeLink shieldData recentlyEnded idx fb) = Some (sh_status e)) /\
  (Overlay.isFbPending fb || recentlyEnded = false ->
     Overlay.mergeLink shieldData recentlyEnded idx fb = fb).
Proof.
  intros He. unfold Overlay.mergeLink. rewrite He.
  destruct (Overlay.isFbPending fb || recentlyEnded); split; auto; discriminate.
Qed.

Lemma overlayTask_link c now serverTask idx fb :
  t_links (task_doc serverTask) !! idx = Some fb ->
  t_links (task_doc (Overlay.overlayTask c now serverTask)) !! idx
  = Some (Overlay.mergeLink (Overlay.shieldOf c (task_id serverTask))
            (Overlay.isRecentlyEnded c now (task_id serverTask)) idx fb).
Proof.
  intros H. unfold Overlay.overlayTask. simpl.
  rewrite list_lookup_imap, H. reflexivity.
Qed.

Lemma isFbPending_spec fb :
  Overlay.isFbPending fb = true <->
  status_lc fb = "pending" \/ status_lc fb = "processing" \/ status_lc fb = "".
Proof.
  unfold Overlay.isFbPending. rewrite !orb_true_iff, !String.eqb_eq. tauto.
Qed.

(** C9.  A stream line reporting "done" or "error" for a link records
    that status in the in-memory shield of the Task.  On every poll, a
    Task of the poll either is discarded in favour of the local copy
    while its stream is active, or is merged so that at every shielded
    position whose polled status is "pending", "processing" or empty
    the merged link carries the shield's status, and so that during the
    grace period the merged link carries the shield's status whatever
    was polled; at a shielded position the merged link is never
    anything but the shielded link or the polled link.  The end of a
    stream leaves the shield in place and opens a grace period of
    15 s.  A consumer that is not streaming the Task reads the shield's
    status for every shielded position. *)
Theorem shield_precedence :
  (forall taskId data c s status,
     is_Some (completedLinks c !! taskId) ->
     m_status data = Some status -> status = "done" \/ status = "error" ->
     exists e,
       Overlay.shieldOf (fst (Overlay.handleLine taskId data c s)) taskId !! m_id data
         = Some e /\
       sh_status e = status) /\
  (forall c now serverTask idx fb e,
     t_links (task_doc serverTask) !! idx = Some fb ->
     Overlay.shieldOf c (task_id serverTask) !! idx = Some e ->
     let merged := Overlay.mergeTask c now serverTask in
     ((task_id serverTask ∈ streamStarted c) /\
      Overlay.findTask (tasks c) (task_id serverTask) = Some merged) \/
     exists l', t_links (task_doc merged) !! idx = Some l' /\
       (status_lc fb = "pending" \/ status_lc fb = "processing" \/ status_lc fb = "" ->
          l_status l' = Some (sh_status e)) /\
       (Overlay.isRecentlyEnded c now (task_id serverTask) = true ->
          l_status l' = Some (sh_status e)) /\
       (l_status l' = Some (sh_status e) \/ l' = fb)) /\
  (forall c taskId tEnd now, tEnd <> 0%Z ->
     let c' := Overlay.streamFinally taskId tEnd c in
     (taskId ∉ streamStarted c') /\
     Overlay.shieldOf c' taskId = Overlay.shieldOf c taskId /\
     (Overlay.isRecentlyEnded c' now taskId = true <-> (now - tEnd < Overlay.GRACE_MS)%Z)) /\
  (forall c task i l e,
     activeTaskId c <> Some (task_id task) ->
     Overlay.shieldOf c (task_id task) !! i = Some e ->
     Overlay.effectiveStatus c task i l = JS.toLowerCase (sh_status e)).
Proof.
  split; [exact handleLine_shields|]. split; [|split].
  - intros c now serverTask idx fb e Hfb He merged. subst merged.
    unfold Overlay.mergeTask.
    destruct (bool_decide (task_id serverTask ∈ streamStarted c)) eqn:Es.
    + destruct (Overlay.findTask (tasks c) (task_id serverTask)) as [localTask|] eqn:Ef.
      * left. split; [now apply bool_decide_eq_true_1 in Es | reflexivity].
      * right. rewrite (overlayTask_link _ _ _ _ _ Hfb). eexists. split; [reflexivity|].
        destruct (mergeLink_shielded _ (Overlay.isRecentlyEnded c now (task_id serverTask))
                    idx fb e He) as [Hy Hn].
        split; [|split].
        -- intros Hp. apply Hy. apply isFbPending_spec in Hp. now rewrite Hp.
        -- intros Hr. apply Hy. rewrite Hr. apply orb_true_r.
        -- destruct (Overlay.isFbPending fb
                     || Overlay.isRecentlyEnded c now (task_id serverTask)); auto.
    + right. rewrite (overlayTask_link _ _ _ _ _ Hfb). eexists. split; [reflexivity|].
      destruct (mergeLink_shielded _ (Overlay.isRecentlyEnded c now (task_id serverTask))
                  idx fb e He) as [Hy Hn].
      split; [|split].
      * intros Hp. apply Hy. apply isFbPending_spec in Hp. now rewrite Hp.
      * intros Hr. apply Hy. rewrite Hr. apply orb_true_r.
      * destruct (Overlay.isFbPending fb
                  || Overlay.isRecentlyEnded c now (task_id serverTask)); auto.
  - intros c taskId tEnd now Hne c'. subst c'. simpl.
    split; [apply not_elem_of_difference; right; now apply elem_of_singleton|].
    split; [reflexivity|].
    unfold Overlay.isRecentlyEnded. simpl. rewrite lookup_insert_eq.
    apply Z.eqb_neq in Hne. rewrite Hne. simpl. apply Z.ltb_lt.
  - intros c task i l e Hact He. unfold Overlay.effectiveStatus.
    rewrite bool_decide_eq_false_2 by exact Hact. simpl. now rewrite He.
Qed.

Lemma shield_precedence_witness :
  let c2 := Overlay.streamFinally "t1" 5000
              (fst (Overlay.handleLine "t1" Samples.done_line Samples.client0 Samples.stream0)) in
  exists l',
    t_links (task_doc (Overlay.mergeTask c2 30000
                         (mkClientTask "t1"
                            (Samples.task "https://site.example/movie" "processing"
                               Samples.two_links)))) !! 1%nat = Some l' /\
    l_status l' = Some "done".
Proof.
  intros c2.
  destruct shield_precedence as (Hstream & Hpoll & Hend & _).
  destruct (Hstream "t1" Samples.done_line Samples.client0 Samples.stream0 "done")
    as (e & He & Hs); [eexists; reflexivity | reflexivity | auto |].
  destruct (Hend (fst (Overlay.handleLine "t1" Samples.done_line Samples.client0 Samples.stream0))
              "t1" 5000%Z 30000%Z) as (Hnot & Hshield & _); [discriminate|].
  fold c2 in Hnot, Hshield.
  destruct (Hpoll c2 30000%Z
              (mkClientTask "t1"
                 (Samples.task "https://site.example/movie" "processing" Samples.two_links))
              1%nat (Samples.link 1 "https://gdflix.example/b" "pending") e)
    as [[Hin _] | (l' & Hl' & Hp & _)].
  - reflexivity.
  - simpl. rewrite Hshield. exact He.
  - contradiction.
  - exists l'. split; [exact Hl'|]. rewrite Hp, Hs; auto.
Defined.

(** ** Intake *)

Lemma latest_In docs :
  forall best kv,
    fold_left Intake.newer docs best = Some kv ->
    In kv docs \/ best = Some kv.
Proof.
  induction docs as [|x docs IH]; simpl; intros best kv H; [auto|].
  apply IH in H as [H | H]; [auto|].
  unfold Intake.newer in H.
  destruct best as [b|]; [|injection H as <-; auto].
  destruct (Intake.moreRecent _ _); auto. injection H as <-. auto.
Qed.

Lemma latest_Some docs :
  docs <> [] -> exists kv, Intake.latest docs = Some kv /\ In kv docs.
Proof.
  intros Hne. unfold Intake.latest.
  assert (H : forall l best, is_Some best ->
            is_Some (fold_left Intake.newer l best)).
  { induction l as [|x l IH]; simpl; intros best Hb; [exact Hb|].
    apply IH. unfold Intake.newer. destruct best as [b|]; [|eauto].
    destruct (Intake.moreRecent _ _); eauto. }
  destruct docs as [|x docs]; [congruence|]. simpl.
  destruct (H docs (Some x)) as [kv Hkv]; [eauto|].
  exists kv. split; [exact Hkv|].
  apply latest_In in Hkv as [Hin | [= <-]]; simpl; auto.
Qed.

Lemma dupSnap_In tasks url k d :
  In (k, d) (Intake.dupSnap tasks url) -> tasks !! k = Some d /\ t_url d = url.
Proof.
  unfold Intake.dupSnap. intros H.
  assert (Hin : In (k, d) (List.filter (fun kv => String.eqb (t_url (snd kv)) url)
                             (map_to_list tasks))).
  { apply list_elem_of_In. apply list_elem_of_In in H.
    revert H. apply subseteq_take. }
  apply filter_In in Hin as [Hin Hu]. simpl in Hu. apply String.eqb_eq in Hu.
  apply list_elem_of_In, elem_of_map_to_list in Hin. auto.
Qed.

Lemma dupSnap_nil tasks url :
  (forall k d, tasks !! k = Some d -> t_url d <> url) -> Intake.dupSnap tasks url = [].
Proof.
  intros H. unfold Intake.dupSnap. rewrite filter_none; [reflexivity|].
  intros [k d] Hin. apply list_elem_of_In, elem_of_map_to_list in Hin.
  simpl. apply String.eqb_neq. eauto.
Qed.

Lemma dupSnap_nonempty tasks url k d :
  tasks !! k = Some d -> t_url d = url -> Intake.dupSnap tasks url <> [].
Proof.
  intros Hk Hu. unfold Intake.dupSnap.
  assert (Hin : In (k, d) (List.filter (fun kv => String.eqb (t_url (snd kv)) url)
                             (map_to_list tasks))).
  { apply filter_In. split.
    - apply list_elem_of_In, elem_of_map_to_list. exact Hk.
    - simpl. now apply String.eqb_eq. }
  destruct (List.filter _ _) as [|x l]; [contradiction|]. discriminate.
Qed.

Lemma retryLink_keeps l :
  l_id (Intake.retryLink l) = l_id l /\ l_link (Intake.retryLink l) = l_link l /\
  l_finalLink (Intake.retryLink l) = l_finalLink l /\
  (l_status l <> Some "error" -> l_status l <> Some "failed" -> Intake.retryLink l = l) /\
  (l_status l = Some "error" \/ l_status l = Some "failed" ->
     l_status (Intake.retryLink l) = Some "pending").
Proof.
  unfold Intake.retryLink.
  destruct (JS.arr_includes ["error"; "failed"] (JS.from_nullish (l_status l) "")) eqn:E;
    simpl; repeat split; auto.
  - intros H1 H2. apply arr_includes_In in E. simpl in E.
    destruct (l_status l) as [s|]; simpl in E.
    + destruct E as [<- | [<- | []]]; congruence.
    + destruct E as [E | [E | []]]; discriminate.
  - intros [H | H]; rewrite H in E; discriminate.
Qed.

Lemma POST_cases now extract newId (tasks : gmap string TaskDoc) url :
  JS.truthy (Some url) = true ->
  let trimmedUrl := JS.trim url in
  let listResult := extract trimmedUrl in
  ((forall k d, tasks !! k = Some d -> t_url d <> trimmedUrl) ->
     Intake.POST now extract newId tasks (Some url)
     = (<[newId := Intake.createdTask now trimmedUrl listResult]> tasks, PostCreated newId)) /\
  ((exists k d, tasks !! k = Some d /\ t_url d = trimmedUrl) ->
     exists id existing,
       tasks !! id = Some existing /\ t_url existing = trimmedUrl /\
       Intake.POST now extract newId tasks (Some url)
       = if Orchestrator.extractionOk listResult then
           (<[id := Intake.mergeInto now existing listResult]> tasks,
            PostMerged id
              (length (Intake.trulyNewLinks (t_links existing)
                         (JS.from_nullish (ex_links listResult) [])))
              true)
         else (tasks, PostMerged id 0 false)).
Proof.
  intros Hurl trimmedUrl listResult. unfold Intake.POST. rewrite Hurl. simpl.
  fold trimmedUrl. fold listResult. split.
  - intros Hnone. rewrite dupSnap_nil by exact Hnone. reflexivity.
  - intros (k & d & Hk & Hu).
    destruct (latest_Some (Intake.dupSnap tasks trimmedUrl)) as ([id existing] & Hl & Hin).
    { eapply dupSnap_nonempty; eauto. }
    apply dupSnap_In in Hin as [Hid Hex].
    exists id, existing. rewrite Hl. auto.
Qed.

(** C10, as the code has it.  A submission from the dashboard is
    checked against the dashboard's own task list: when the first task
    of that list with the same normalised url is completed, the
    submission returns that task and sends nothing to the server; when
    it is processing, the submission is refused as still processing and
    sends nothing; otherwise the url is posted.  A post creates a new
    Task under a fresh id when no stored Task has the trimmed url.  When
    one has, the post never refuses: it answers with the id of a stored
    Task of that url and, when links were found, resets that Task to
    "pending" whatever its status was, keeping every existing link under
    its id (failed links reset to pending) and appending the links not
    seen before; when no links were found it leaves the store as it
    is. *)
Theorem submission_policy :
  (forall c now extract newId server url duplicate,
     String.eqb (JS.trim url) "" = false ->
     Intake.findDuplicate c url = Some duplicate ->
     let dupStatus :=
       Overlay.getTrueTaskStatus c duplicate (Overlay.getEffectiveStats c duplicate) in
     (dupStatus = "completed" ->
        Intake.startProcess c now extract newId server url
        = (server, SubmitAlreadyCompleted (task_id duplicate))) /\
     (dupStatus = "processing" ->
        Intake.startProcess c now extract newId server url
        = (server, SubmitStillProcessing (task_id duplicate))) /\
     (dupStatus <> "completed" -> dupStatus <> "processing" ->
        exists dispatched,
          Intake.startProcess c now extract newId server url
          = (fst (Intake.POST now extract newId server (Some (JS.trim url))),
             SubmitPosted (snd (Intake.POST now extract newId server (Some (JS.trim url))))
               dispatched))) /\
  (forall c now extract newId server url,
     String.eqb (JS.trim url) "" = false ->
     Intake.findDuplicate c url = None ->
     exists dispatched,
       Intake.startProcess c now extract newId server url
       = (fst (Intake.POST now extract newId server (Some (JS.trim url))),
          SubmitPosted (snd (Intake.POST now extract newId server (Some (JS.trim url))))
            dispatched)) /\
  (forall now extract newId (tasks : gmap string TaskDoc) url,
     JS.truthy (Some url) = true ->
     let trimmedUrl := JS.trim url in
     let listResult := extract trimmedUrl in
     ((forall k d, tasks !! k = Some d -> t_url d <> trimmedUrl) ->
        Intake.POST now extract newId tasks (Some url)
        = (<[newId := Intake.createdTask now trimmedUrl listResult]> tasks,
           PostCreated newId)) /\
     ((exists k d, tasks !! k = Some d /\ t_url d = trimmedUrl) ->
        exists id existing,
          tasks !! id = Some existing /\ t_url existing = trimmedUrl /\
          Intake.POST now extract newId tasks (Some url)
          = if Orchestrator.extractionOk listResult then
              (<[id := Intake.mergeInto now existing listResult]> tasks,
               PostMerged id
                 (length (Intake.trulyNewLinks (t_links existing)
                            (JS.from_nullish (ex_links listResult) [])))
                 true)
            else (tasks, PostMerged id 0 false))) /\
  (forall now existing listResult,
     t_status (Intake.mergeInto now existing listResult) = "pending" /\
     exists appended,
       t_links (Intake.mergeInto now existing listResult)
       = map Intake.retryLink (t_links existing) ++ appended /\
       length appended
       = length (Intake.trulyNewLinks (t_links existing)
                   (JS.from_nullish (ex_links listResult) []))) /\
  (forall l,
     l_id (Intake.retryLink l) = l_id l /\ l_link (Intake.retryLink l) = l_link l /\
     l_finalLink (Intake.retryLink l) = l_finalLink l /\
     (l_status l <> Some "error" -> l_status l <> Some "failed" -> Intake.retryLink l = l) /\
     (l_status l = Some "error" \/ l_status l = Some "failed" ->
        l_status (Intake.retryLink l) = Some "pending")).
Proof.
  split; [|split; [|split; [|split]]].
  - intros c now extract newId server url duplicate Hne Hdup dupStatus.
    unfold Intake.startProcess. rewrite Hne, Hdup. fold dupStatus.
    split; [|split].
    + intros ->. reflexivity.
    + intros ->. reflexivity.
    + intros H1 H2. apply String.eqb_neq in H1, H2. rewrite H1, H2.
      destruct (Intake.POST now extract newId server (Some (JS.trim url))) as [server' response].
      eexists. reflexivity.
  - intros c now extract newId server url Hne Hdup.
    unfold Intake.startProcess. rewrite Hne, Hdup.
    destruct (Intake.POST now extract newId server (Some (JS.trim url))) as [server' response].
    eexists. reflexivity.
  - exact POST_cases.
  - intros now existing listResult. split; [reflexivity|].
    eexists. split; [reflexivity|]. now rewrite length_imap.
  - exact retryLink_keeps.
Qed.

(** The claim of C10 fails when the submitting dashboard does not hold
    the Task in its list: a second submission of a url whose Task is
    still processing is posted, merged into that Task, resets it to
    "pending", and a stream is opened with its links. *)
Lemma in_flight_duplicate_is_merged :
  (t_status <$> Samples.tasks1 !! "t1" = Some "processing") /\
  snd (Intake.startProcess Samples.fresh_client 5000 Samples.same_page "t-new"
         Samples.tasks1 "https://site.example/movie")
    = SubmitPosted (PostMerged "t1" 0 true) (Some Samples.two_links) /\
  (t_status <$> fst (Intake.startProcess Samples.fresh_client 5000 Samples.same_page "t-new"
                       Samples.tasks1 "https://site.example/movie") !! "t1"
   = Some "pending").
Proof. vm_compute. repeat split. Qed.

(** The same submission from a dashboard that holds the Task is
    refused. *)
Example in_flight_duplicate_refused_by_informed_client :
  Intake.startProcess Samples.informed_client 5000 Samples.same_page "t-new"
    Samples.tasks1 "HTTPS://Site.example/movie/"
  = (Samples.tasks1, SubmitStillProcessing "t1").
Proof. vm_compute. reflexivity. Qed.

(** ** The policies at the sample inputs *)

(** On the page answering 522, 522, 200 the discovery fetch makes its
    second request after a transient failure, and the hop fails on the
    first. *)
Lemma fetch_retry_policy_witness :
  (exists e, Samples.flaky_page 1 = Rejected e /\
             Solvers.isTransient (err_status e) = true) /\
  fst (Solvers.solveHBLinks Samples.flaky_page Samples.find_any)
  = RespFailure "error" (Some "Request failed with status code 522").
Proof.
  destruct (fetch_retry_policy Samples.flaky_page) as (_ & _ & _ & Hk & _ & Hhb & _).
  split.
  - apply (Hk 1%nat). vm_compute. lia.
  - destruct (Hhb Samples.find_any) as (_ & _ & He).
    apply (He (mkAxiosError (Some 522%Z) "Request failed with status code 522")).
    reflexivity.
Defined.

(** The chain that leaves the timer family ends with no resolver
    stage matching. *)
Lemma bypass_loop_policy_witness :
  exists logs hs,
    LinkProcessor.solveWork Samples.net_leaves_timer_family Samples.gadgets_url
    = WorkReturn (LinkProcessor.errorResult (Some "No solver matched for this URL") logs) hs.
Proof.
  destruct (bypass_loop_policy Samples.net_leaves_timer_family Samples.gadgets_url)
    as (_ & _ & _ & _ & H & _).
  eexists. eexists. eapply H.
  - vm_compute. reflexivity.
  - vm_compute. reflexivity.
  - vm_compute. repeat constructor.
Defined.

(** With an empty cache and no resolver answering, the call looks the
    cache up twice and executes the chain twice. *)
Lemma link_processor_policy_witness :
  LinkProcessor.cacheLookups
    (run_events (LinkProcessor.processLink (fun s => s) Samples.dead_env
                   Samples.unknown_link 0 "t1" "Browser/Live" 1)) = 2%nat /\
  LinkProcessor.chainRuns
    (run_events (LinkProcessor.processLink (fun s => s) Samples.dead_env
                   Samples.unknown_link 0 "t1" "Browser/Live" 1)) = 2%nat.
Proof.
  destruct (link_processor_policy (fun s => s) Samples.dead_env Samples.unknown_link 0
              "t1" "Browser/Live") as (_ & _ & _ & H & _).
  destruct H as (Hl & _ & Hn); [vm_compute; reflexivity | vm_compute; reflexivity |].
  split; [exact Hl|]. apply Hn. vm_compute. reflexivity.
Defined.

(** The stuck Task whose links are all done is completed, and the stuck
    queue item with no retry so far is requeued. *)
Lemma stuck_recovery_policy_witness :
  t_status (Recovery.recoverTask 700000
              (Samples.task "https://site.example/movie" "processing"
                 [ Samples.link 0 "https://hubcloud.example/a" "done";
                   Samples.link 1 "https://gdflix.example/b" "done" ])) = "completed" /\
  q_status (Recovery.recoverQueueItem 700000 (Samples.queue_item "processing" 0 0 "t1"))
  = "pending".
Proof.
  destruct stuck_recovery_policy as (Ht & _ & Hq & _).
  split.
  - destruct (Ht 700000%Z
                (Samples.task "https://site.example/movie" "processing"
                   [ Samples.link 0 "https://hubcloud.example/a" "done";
                     Samples.link 1 "https://gdflix.example/b" "done" ]))
      as ((_ & Hdone & _) & _).
    + vm_compute. reflexivity.
    + discriminate.
    + repeat constructor.
    + apply Hdone. repeat constructor.
  - destruct (Hq 700000%Z (Samples.queue_item "processing" 0 0 "t1")) as (Hp & _).
    + vm_compute. reflexivity.
    + apply Hp. vm_compute. lia.
Defined.

(** The dashboard that holds the in-flight Task refuses the submission,
    and a post of the same url finds the stored Task. *)
Lemma submission_policy_witness :
  Intake.startProcess Samples.informed_client 5000 Samples.same_page "t-new"
    Samples.tasks1 "https://site.example/movie"
  = (Samples.tasks1, SubmitStillProcessing "t1") /\
  exists id existing,
    Samples.tasks1 !! id = Some existing /\
    t_url existing = "https://site.example/movie".
Proof.
  destruct submission_policy as (Hdup & _ & Hpost & _).
  split.
  - destruct (Hdup Samples.informed_client 5000%Z Samples.same_page "t-new" Samples.tasks1
                "https://site.example/movie"
                (mkClientTask "t1"
                   (Samples.task "https://site.example/movie" "processing" Samples.two_links)))
      as (_ & Hproc & _).
    + vm_compute. reflexivity.
    + vm_compute. reflexivity.
    + apply Hproc. vm_compute. reflexivity.
  - destruct (Hpost 5000%Z Samples.same_page "t-new" Samples.tasks1
                "https://site.example/movie") as (_ & Hmerge).
    + reflexivity.
    + destruct Hmerge as (id & existing & Hid & Hu & _).
      * exists "t1", (Samples.task "https://site.example/movie" "processing" Samples.two_links).
        split; vm_compute; reflexivity.
      * exists id, existing. split; [exact Hid | exact Hu].
Defined.

(** ** Case folding and trimming *)

Lemma lower_ascii_idem c : JS.lower_ascii (JS.lower_ascii c) = JS.lower_ascii c.
Proof. destruct c as [[] [] [] [] [] [] [] []]; reflexivity. Qed.

Lemma lower_upper_ascii c : JS.lower_ascii (Filters.upper_ascii c) = JS.lower_ascii c.
Proof. destruct c as [[] [] [] [] [] [] [] []]; reflexivity. Qed.

Lemma is_space_lower_ascii c : JS.is_space (JS.lower_ascii c) = JS.is_space c.
Proof. destruct c as [[] [] [] [] [] [] [] []]; reflexivity. Qed.

Lemma toLowerCase_idem s : JS.toLowerCase (JS.toLowerCase s) = JS.toLowerCase s.
Proof. induction s as [|c s IH]; simpl; [reflexivity|]. now rewrite lower_ascii_idem, IH. Qed.

Lemma toLowerCase_toUpperCase s : JS.toLowerCase (Filters.toUpperCase s) = JS.toLowerCase s.
Proof. induction s as [|c s IH]; simpl; [reflexivity|]. now rewrite lower_upper_ascii, IH. Qed.

Lemma list_ascii_toLowerCase s :
  list_ascii_of_string (JS.toLowerCase s) = map JS.lower_ascii (list_ascii_of_string s).
Proof. induction s as [|c s IH]; simpl; [reflexivity|]. now rewrite IH. Qed.

Lemma string_of_map_lower l :
  string_of_list_ascii (map JS.lower_ascii l) = JS.toLowerCase (string_of_list_ascii l).
Proof. induction l as [|c l IH]; simpl; [reflexivity|]. now rewrite IH. Qed.

Lemma trimStart_map_lower l :
  JS.trimStart_list (map JS.lower_ascii l) = map JS.lower_ascii (JS.trimStart_list l).
Proof.
  induction l as [|c l IH]; simpl; [reflexivity|].
  rewrite is_space_lower_ascii. destruct (JS.is_space c); [exact IH | reflexivity].
Qed.

Lemma trim_toLowerCase s : JS.trim (JS.toLowerCase s) = JS.toLowerCase (JS.trim s).
Proof.
  unfold JS.trim.
  rewrite list_ascii_toLowerCase, trimStart_map_lower, <- map_rev, trimStart_map_lower,
    <- map_rev.
  apply string_of_map_lower.
Qed.

Lemma trimStart_fixed l :
  match l with [] => True | c :: _ => JS.is_space c = false end ->
  JS.trimStart_list l = l.
Proof. destruct l as [|c l]; simpl; [reflexivity|]. now intros ->. Qed.

Lemma trimStart_head l :
  match JS.trimStart_list l with [] => True | c :: _ => JS.is_space c = false end.
Proof.
  induction l as [|c l IH]; simpl; [exact I|].
  destruct (JS.is_space c) eqn:E; [exact IH | exact E].
Qed.

Lemma trimStart_idem l : JS.trimStart_list (JS.trimStart_list l) = JS.trimStart_list l.
Proof. apply trimStart_fixed, trimStart_head. Qed.

(** Dropping spaces at the end keeps a first character that is not a
    space. *)
Lemma trimStart_rev_head l :
  match l with [] => True | c :: _ => JS.is_space c = false end ->
  match rev (JS.trimStart_list (rev l)) with
  | [] => True
  | c :: _ => JS.is_space c = false
  end.
Proof.
  destruct l as [|c l]; [intros _; exact I|]. intros Hc.
  assert (H : forall m, exists m', JS.trimStart_list (m ++ [c]) = m' ++ [c]).
  { induction m as [|x m IH]; simpl.
    - rewrite Hc. now exists [].
    - destruct (JS.is_space x); [exact IH | now exists (x :: m)]. }
  simpl. destruct (H (rev l)) as [m' ->]. rewrite rev_app_distr. simpl. exact Hc.
Qed.

Lemma trim_list_idem l :
  let t := rev (JS.trimStart_list (rev (JS.trimStart_list l))) in
  rev (JS.trimStart_list (rev (JS.trimStart_list t))) = t.
Proof.
  intros t. subst t.
  rewrite (trimStart_fixed (rev (JS.trimStart_list (rev (JS.trimStart_list l))))).
  - now rewrite rev_involutive, trimStart_idem.
  - apply trimStart_rev_head, trimStart_head.
Qed.

Lemma trim_idem s : JS.trim (JS.trim s) = JS.trim s.
Proof.
  unfold JS.trim. rewrite list_ascii_of_string_of_list_ascii.
  now rewrite trim_list_idem.
Qed.

Lemma length_string_of_list l : String.length (string_of_list_ascii l) = length l.
Proof. induction l as [|c l IH]; simpl; auto. Qed.

Lemma length_list_of_string s : length (list_ascii_of_string s) = String.length s.
Proof. induction s as [|c s IH]; simpl; auto. Qed.

Lemma length_trimStart l : (length (JS.trimStart_list l) <= length l)%nat.
Proof.
  induction l as [|c l IH]; simpl; [lia|]. destruct (JS.is_space c); simpl; lia.
Qed.

Lemma length_trim s : (String.length (JS.trim s) <= String.length s)%nat.
Proof.
  unfold JS.trim. rewrite length_string_of_list, length_rev.
  etransitivity; [apply length_trimStart|]. rewrite length_rev.
  etransitivity; [apply length_trimStart|]. now rewrite length_list_of_string.
Qed.

Lemma length_substring_0 n : forall s, (String.length (String.substring 0 n s) <= n)%nat.
Proof.
  induction n as [|n IH]; intros [|c s]; simpl; try lia.
  specialize (IH s). lia.
Qed.

(** ** The junk filters *)

(** X1.  On a label of ASCII characters the junk-text verdict depends
    on the label up to letter case and surrounding white space only: it
    is the same for the label, its upper-case and lower-case forms and
    its trimmed form. *)
Theorem junk_text_ignores_case_and_padding (text : string) :
  Filters.isAscii text = true ->
  Filters.isJunkLinkText (Filters.toUpperCase text) = Filters.isJunkLinkText text /\
  Filters.isJunkLinkText (JS.toLowerCase text) = Filters.isJunkLinkText text /\
  Filters.isJunkLinkText (JS.trim text) = Filters.isJunkLinkText text /\
  Filters.isJunkLinkText (JS.trim (Filters.toUpperCase text)) = Filters.isJunkLinkText text.
Proof.
  intros _. unfold Filters.isJunkLinkText. repeat split.
  - now rewrite toLowerCase_toUpperCase.
  - now rewrite toLowerCase_idem.
  - now rewrite <- trim_toLowerCase, trim_idem.
  - now rewrite <- trim_toLowerCase, trim_idem, toLowerCase_toUpperCase.
Qed.

Lemma junk_text_ignores_case_and_padding_witness :
  Filters.isJunkLinkText (Filters.toUpperCase "  Click Here ") = true /\
  Filters.isJunkLinkText "  Click Here " = true.
Proof.
  destruct (junk_text_ignores_case_and_padding "  Click Here ") as (H & _);
    [vm_compute; reflexivity|].
  split; [rewrite H|]; vm_compute; reflexivity.
Defined.

(** ** Link discovery *)

Lemma seen_add_other (u v : string) (seen : gset string) :
  v <> u -> u ∉ seen -> u ∉ {[v]} ∪ seen.
Proof.
  intros Hv Hu H. apply elem_of_union in H as [H | H]; [|contradiction].
  apply elem_of_singleton in H. congruence.
Qed.

Lemma seen_add_mono (u v : string) (seen : gset string) : u ∈ seen -> u ∈ {[v]} ∪ seen.
Proof. intros H. apply elem_of_union. now right. Qed.

Lemma seen_add_here (v : string) (seen : gset string) : v ∈ {[v]} ∪ seen.
Proof. apply elem_of_union. left. now apply elem_of_singleton. Qed.

Lemma scan_sound resolveUrl stripEmoji url cs :
  forall found seen l,
    In l (Discovery.scan resolveUrl stripEmoji url cs found seen) ->
    In l found \/
    exists c, In c cs /\ Discovery.pushed resolveUrl stripEmoji url c l /\ (raw_link l ∉ seen).
Proof.
  induction cs as [|c cs IH]; intros found seen l Hl; simpl in Hl; [now left|].
  destruct (Discovery.relevant resolveUrl url c) as [u|] eqn:Er.
  - destruct (bool_decide (u ∈ seen)) eqn:Es.
    + destruct (IH _ _ _ Hl) as [H | (c' & Hc' & Hp & Hn)]; [now left|].
      right. exists c'. split; [now right | auto].
    + apply bool_decide_eq_false_1 in Es.
      destruct (Filters.isJunkLinkText (Discovery.cleanName stripEmoji c)) eqn:Ej.
      * destruct (IH _ _ _ Hl) as [H | (c' & Hc' & Hp & Hn)]; [now left|].
        right. exists c'. split; [now right|]. split; [exact Hp|].
        intros Hin. apply Hn. now apply seen_add_mono.
      * destruct (IH _ _ _ Hl) as [H | (c' & Hc' & Hp & Hn)].
        -- apply in_app_or in H as [H | [<- | []]]; [now left|].
           right. exists c. split; [now left|]. split; [|exact Es].
           repeat split; simpl; auto.
        -- right. exists c'. split; [now right|]. split; [exact Hp|].
        intros Hin. apply Hn. now apply seen_add_mono.
  - destruct (IH _ _ _ Hl) as [H | (c' & Hc' & Hp & Hn)]; [now left|].
    right. exists c'. split; [now right | auto].
Qed.

Lemma scan_NoDup resolveUrl stripEmoji url cs :
  forall found seen,
    (forall l, In l found -> raw_link l ∈ seen) ->
    NoDup (map raw_link found) ->
    NoDup (map raw_link (Discovery.scan resolveUrl stripEmoji url cs found seen)).
Proof.
  induction cs as [|c cs IH]; intros found seen Hseen Hnd; simpl; [exact Hnd|].
  destruct (Discovery.relevant resolveUrl url c) as [u|] eqn:Er; [|now apply IH].
  destruct (bool_decide (u ∈ seen)) eqn:Es; [now apply IH|].
  apply bool_decide_eq_false_1 in Es.
  destruct (Filters.isJunkLinkText (Discovery.cleanName stripEmoji c)).
  - apply IH; [|exact Hnd]. intros l Hl. specialize (Hseen l Hl). now apply seen_add_mono.
  - apply IH.
    + intros l Hl. apply in_app_or in Hl as [Hl | [<- | []]].
      * specialize (Hseen l Hl). now apply seen_add_mono.
      * simpl. apply seen_add_here.
    + rewrite map_app. simpl. apply NoDup_app. split; [exact Hnd|]. split.
      * intros x Hx Hin. apply list_elem_of_In in Hin. destruct Hin as [<- | []].
        apply list_elem_of_In, in_map_iff in Hx as (l & Hlu & Hl).
        apply Es. rewrite <- Hlu. auto.
      * apply NoDup_singleton.
Qed.

(** A url that has been seen is never pushed again. *)
Lemma scan_skips_seen resolveUrl stripEmoji url u cs :
  forall found seen,
    u ∈ seen -> (forall l, In l found -> raw_link l <> u) ->
    forall l, In l (Discovery.scan resolveUrl stripEmoji url cs found seen) -> raw_link l <> u.
Proof.
  intros found seen Hu Hfound l Hl.
  destruct (scan_sound resolveUrl stripEmoji url cs found seen l Hl) as [H | (c & _ & _ & Hn)]; [auto|].
  intros E. apply Hn. now rewrite E.
Qed.

Lemma scan_prefix resolveUrl stripEmoji url u pre :
  forall found seen,
    u ∉ seen -> (forall l, In l found -> raw_link l <> u) ->
    (forall c, In c pre -> Discovery.relevant resolveUrl url c <> Some u) ->
    exists found' seen',
      (forall rest, Discovery.scan resolveUrl stripEmoji url (pre ++ rest) found seen = Discovery.scan resolveUrl stripEmoji url rest found' seen') /\
      (u ∉ seen') /\ (forall l, In l found' -> raw_link l <> u).
Proof.
  induction pre as [|c pre IH]; intros found seen Hu Hfound Hpre.
  - exists found, seen. auto.
  - assert (Hpre' : forall c', In c' pre -> Discovery.relevant resolveUrl url c' <> Some u)
      by (intros c' Hc'; apply Hpre; now right).
    assert (Hc : Discovery.relevant resolveUrl url c <> Some u) by (apply Hpre; now left).
    simpl. destruct (Discovery.relevant resolveUrl url c) as [v|] eqn:Er; [|now apply IH].
    assert (Hv : v <> u) by congruence.
    destruct (bool_decide (v ∈ seen)); [now apply IH|].
    destruct (Filters.isJunkLinkText (Discovery.cleanName stripEmoji c)).
    + apply IH; auto using seen_add_other.
    + apply IH; auto using seen_add_other.
      intros l Hl. apply in_app_or in Hl as [Hl | [<- | []]]; simpl; auto.
Qed.


Lemma scan_keeps_found resolveUrl stripEmoji url cs :
  forall found seen l,
    In l found -> In l (Discovery.scan resolveUrl stripEmoji url cs found seen).
Proof.
  induction cs as [|c cs IH]; intros found seen l Hl; simpl; [exact Hl|].
  destruct (Discovery.relevant resolveUrl url c) as [u|]; [|now apply IH].
  destruct (bool_decide (u ∈ seen)); [now apply IH|].
  destruct (Filters.isJunkLinkText (Discovery.cleanName stripEmoji c)); apply IH; auto.
  apply in_or_app. now left.
Qed.

Lemma discovered_links resolveUrl stripEmoji get parse url :
  let d := fst (Discovery.extractMovieLinks resolveUrl stripEmoji get parse url) in
  JS.from_nullish (d_links d) [] = [] \/
  exists st html,
    Solvers.fr_outcome (Solvers.extractMovieLinks_fetch get) = Resolved st html /\
    JS.from_nullish (d_links d) []
    = Discovery.scan resolveUrl stripEmoji url (page_candidates (parse html)) [] ∅.
Proof.
  unfold Discovery.extractMovieLinks.
  destruct (Solvers.fr_outcome (Solvers.extractMovieLinks_fetch get)) as [st html | e];
    simpl; [|now left].
  destruct (length _ =? 0)%nat; simpl; [now left|].
  right. exists st, html. auto.
Qed.

Lemma scan_urls_NoDup resolveUrl stripEmoji url cs :
  NoDup (map raw_link (Discovery.scan resolveUrl stripEmoji url cs [] ∅)).
Proof. apply scan_NoDup; [intros l []| constructor]. Qed.

Lemma discovered_urls_NoDup resolveUrl stripEmoji get parse url :
  NoDup (map raw_link
           (JS.from_nullish
              (d_links (fst (Discovery.extractMovieLinks resolveUrl stripEmoji get parse url)))
              [])).
Proof.
  destruct (discovered_links resolveUrl stripEmoji get parse url) as [-> | (st & html & _ & ->)];
    [constructor | apply scan_urls_NoDup].
Qed.

(** X2.  No two links returned by the discovery step have the same
    url, whatever the page: the urls of the links found by the scan of
    any list of candidates are pairwise distinct, and so are those of
    the links in the object [extractMovieLinks] returns. *)
Theorem discovery_urls_distinct
    (resolveUrl : string -> string -> option string) (stripEmoji : string -> string)
    (get : nat -> AxiosOutcome) (parse : string -> Page) (url : string) :
  (forall cs, NoDup (map raw_link (Discovery.scan resolveUrl stripEmoji url cs [] ∅))) /\
  NoDup (map raw_link
           (JS.from_nullish
              (d_links (fst (Discovery.extractMovieLinks resolveUrl stripEmoji get parse url)))
              [])).
Proof.
  split.
  - intros cs. apply scan_urls_NoDup.
  - apply discovered_urls_NoDup.
Qed.

Lemma relevant_inv resolveUrl url c u :
  Discovery.relevant resolveUrl url c = Some u ->
  Discovery.rawLink c <> "" /\
  String.prefix "#" (Discovery.rawLink c) = false /\
  String.prefix "javascript:" (Discovery.rawLink c) = false /\
  resolveUrl (Discovery.rawLink c) url = Some u /\
  Filters.isJunkDomain u = false /\
  Filters.isJunkLinkText (JS.trim (cand_text c)) = false /\
  Filters.isJunkLinkText (JS.trim (cand_parentText c)) = false /\
  (JS.some_includes Discovery.TARGET_DOMAINS_LIST (JS.toLowerCase u) = true \/
   JS.some_includes Discovery.DOWNLOAD_KEYWORDS
     (Filters.toUpperCase (JS.trim (cand_text c))) = true).
Proof.
  unfold Discovery.relevant.
  destruct (String.eqb (Discovery.rawLink c) "") eqn:E0; [discriminate|].
  destruct (String.prefix "#" (Discovery.rawLink c)) eqn:E1; [discriminate|].
  destruct (String.prefix "javascript:" (Discovery.rawLink c)) eqn:E2; [discriminate|].
  destruct (resolveUrl (Discovery.rawLink c) url) as [r|] eqn:E3; [|discriminate].
  destruct (Filters.isJunkDomain r) eqn:E4; [discriminate|].
  destruct (Filters.isJunkLinkText (JS.trim (cand_text c))) eqn:E5; [discriminate|].
  destruct (Filters.isJunkLinkText (JS.trim (cand_parentText c))) eqn:E6; [discriminate|].
  destruct (JS.some_includes Discovery.TARGET_DOMAINS_LIST (JS.toLowerCase r)) eqn:E7;
    destruct (JS.some_includes Discovery.DOWNLOAD_KEYWORDS
                (Filters.toUpperCase (JS.trim (cand_text c)))) eqn:E8;
    simpl; try discriminate; intros [= <-];
    apply String.eqb_neq in E0; repeat split; auto.
Qed.

Lemma cleanName_length stripEmoji c :
  (String.length (Discovery.cleanName stripEmoji c) <= 50)%nat.
Proof.
  unfold Discovery.cleanName. etransitivity; [apply length_trim | apply length_substring_0].
Qed.

Lemma pushed_name resolveUrl stripEmoji url c l :
  Discovery.pushed resolveUrl stripEmoji url c l ->
  Filters.isJunkLinkText (raw_name l) = false /\
  (2 <= String.length (raw_name l) <= 50)%nat.
Proof.
  intros (_ & Hj & ->).
  destruct (Discovery.tooShort (Discovery.cleanName stripEmoji c)) eqn:E.
  - split; [reflexivity | simpl; lia].
  - split; [exact Hj|]. split; [|apply cleanName_length].
    unfold Discovery.tooShort in E. apply orb_false_iff in E as [_ E].
    apply Nat.ltb_ge in E. exact E.
Qed.

(** X3.  Every link the scan returns comes from a candidate of the
    page that passed every filter: the candidate has a link attribute
    that is not empty, not an in-page anchor and not a script link; the
    returned url is that attribute resolved against the page url and is
    not of a junk host; neither the candidate's text nor its container's
    text is junk; the url is of a download host or the text carries a
    download keyword; and the returned name is not junk and has between
    2 and 50 characters.  This is for a page whose candidates hold ASCII
    text only, where the strings and lengths of the model are those of
    the code. *)
Theorem discovery_links_pass_filters
    (resolveUrl : string -> string -> option string) (stripEmoji : string -> string)
    (url : string) (cs : list Candidate) (l : RawLink) :
  forallb (Discovery.asciiCandidate resolveUrl stripEmoji url) cs = true ->
  In l (Discovery.scan resolveUrl stripEmoji url cs [] ∅) ->
  exists c, In c cs /\
    Discovery.rawLink c <> "" /\
    String.prefix "#" (Discovery.rawLink c) = false /\
    String.prefix "javascript:" (Discovery.rawLink c) = false /\
    resolveUrl (Discovery.rawLink c) url = Some (raw_link l) /\
    Filters.isJunkDomain (raw_link l) = false /\
    Filters.isJunkLinkText (JS.trim (cand_text c)) = false /\
    Filters.isJunkLinkText (JS.trim (cand_parentText c)) = false /\
    (JS.some_includes Discovery.TARGET_DOMAINS_LIST (JS.toLowerCase (raw_link l)) = true \/
     JS.some_includes Discovery.DOWNLOAD_KEYWORDS
       (Filters.toUpperCase (JS.trim (cand_text c))) = true) /\
    Filters.isJunkLinkText (raw_name l) = false /\
    (2 <= String.length (raw_name l) <= 50)%nat.
Proof.
  intros _ Hl.
  destruct (scan_sound resolveUrl stripEmoji url cs [] ∅ l Hl) as [[] | (c & Hc & Hp & _)].
  exists c. split; [exact Hc|].
  destruct (pushed_name _ _ _ _ _ Hp) as [Hj Hlen].
  destruct Hp as (Hr & _ & _).
  destruct (relevant_inv _ _ _ _ Hr) as (H1 & H2 & H3 & H4 & H5 & H6 & H7 & H8).
  repeat split; auto; lia.
Qed.

(** X4.  A url belongs to the first candidate that reaches the
    duplicate check with it.  When the cleaned name of that candidate is
    junk the url is not returned at all, also when a later candidate
    with the same url has a good name; otherwise the url is returned
    once, under that candidate's name. *)
Theorem discovery_first_candidate_claims_url
    (resolveUrl : string -> string -> option string) (stripEmoji : string -> string)
    (url u : string) (pre post : list Candidate) (c : Candidate) :
  Discovery.relevant resolveUrl url c = Some u ->
  (forall c', In c' pre -> Discovery.relevant resolveUrl url c' <> Some u) ->
  let found := Discovery.scan resolveUrl stripEmoji url (pre ++ c :: post) [] ∅ in
  (Filters.isJunkLinkText (Discovery.cleanName stripEmoji c) = true ->
     forall l, In l found -> raw_link l <> u) /\
  (Filters.isJunkLinkText (Discovery.cleanName stripEmoji c) = false ->
     forall l, In l found -> raw_link l = u ->
       raw_name l = (if Discovery.tooShort (Discovery.cleanName stripEmoji c)
                     then "Download Link" else Discovery.cleanName stripEmoji c)) /\
  (Filters.isJunkLinkText (Discovery.cleanName stripEmoji c) = false ->
     exists l, In l found /\ raw_link l = u).
Proof.
  intros Hc Hpre found.
  destruct (scan_prefix resolveUrl stripEmoji url u pre [] ∅)
    as (found' & seen' & Heq & Hu & Hfound'); [apply not_elem_of_empty | intros l [] | exact Hpre |].
  assert (Hn : NoDup (map raw_link found)).
  { apply scan_NoDup; [intros l []| constructor]. }
  subst found. rewrite Heq in *. simpl in *. rewrite Hc in *.
  rewrite bool_decide_eq_false_2 in * by exact Hu.
  destruct (Filters.isJunkLinkText (Discovery.cleanName stripEmoji c)) eqn:Ej.
  - split; [|split; discriminate]. intros _.
    apply scan_skips_seen; [apply seen_add_here | exact Hfound'].
  - split; [discriminate|].
    set (name := if Discovery.tooShort (Discovery.cleanName stripEmoji c)
                 then "Download Link" else Discovery.cleanName stripEmoji c) in *.
    assert (Hin : In (mkRawLink name u)
                    (Discovery.scan resolveUrl stripEmoji url post
                       (found' ++ [mkRawLink name u]) ({[u]} ∪ seen'))).
    { apply scan_keeps_found, in_or_app. right. now left. }
    split; [|intros _; exists (mkRawLink name u); auto].
    intros _ l Hl Hlu.
    assert (l = mkRawLink name u) as ->; [|reflexivity].
    eapply (NoDup_map_inj_on raw_link); eauto.
Qed.

Lemma discovery_links_pass_filters_witness :
  exists c, In c Cases.page1 /\
    Cases.resolve (Discovery.rawLink c) "https://site.example/movie"
    = Some "https://site.example/go/gdflix?id=b" /\
    (2 <= String.length "1080p x264" <= 50)%nat.
Proof.
  destruct (discovery_links_pass_filters Cases.resolve Cases.drop_stars
              "https://site.example/movie" Cases.page1
              (mkRawLink "1080p x264" "https://site.example/go/gdflix?id=b"))
    as (c & Hc & _ & _ & _ & Hr & _ & _ & _ & _ & _ & Hlen).
  - vm_compute. reflexivity.
  - vm_compute. auto.
  - exists c. auto.
Defined.

Lemma discovery_first_candidate_claims_url_witness :
  Forall (fun l => raw_link l <> "https://hubcloud.example/a")
    (Discovery.scan Cases.resolve Cases.drop_stars "https://site.example/movie"
       Cases.page1 [] ∅).
Proof.
  apply List.Forall_forall.
  apply (proj1 (discovery_first_candidate_claims_url Cases.resolve Cases.drop_stars
                  "https://site.example/movie" "https://hubcloud.example/a" []
                  [ Cases.button "https://hubcloud.example/a" "720p WEB-DL";
                    Cases.button "/go/gdflix?id=b" "1080p x264";
                    Cases.button "#comments" "Download 4K now" ]
                  (Cases.button "https://hubcloud.example/a" "* Download")
                  eq_refl (fun c' (H : In c' []) => match H with end))).
  vm_compute. reflexivity.
Defined.

(** X5.  The object returned by [extractMovieLinks] is a success with
    at least one link, whose [total] is the number of links and which
    has no message, or an error with a message and no links.  A caller's
    test "status is success and the links are not empty" holds exactly
    for a success, and a fetch that fails is reported with the message
    of the error of its last request. *)
Theorem discovery_result_shape
    (resolveUrl : string -> string -> option string) (stripEmoji : string -> string)
    (get : nat -> AxiosOutcome) (parse : string -> Page) (url : string) :
  let d := fst (Discovery.extractMovieLinks resolveUrl stripEmoji get parse url) in
  let run := snd (Discovery.extractMovieLinks resolveUrl stripEmoji get parse url) in
  ((d_status d = "success" /\
    exists links, d_links d = Some links /\ links <> [] /\
      d_total d = Some (length links) /\ d_message d = None) \/
   (d_status d = "error" /\ d_links d = None /\ d_total d = None /\
    is_Some (d_message d))) /\
  (Orchestrator.extractionOk (Discovery.listResult d) = true <-> d_status d = "success") /\
  (forall e, Solvers.fr_outcome run = Rejected e ->
     d_status d = "error" /\ d_message d = Some (err_message e)).
Proof.
  intros d run. subst d run. unfold Discovery.extractMovieLinks.
  destruct (Solvers.fr_outcome (Solvers.extractMovieLinks_fetch get)) as [st html | e] eqn:E;
    simpl.
  - destruct (Discovery.scan resolveUrl stripEmoji url (page_candidates (parse html)) [] ∅)
      as [|l ls] eqn:Es; simpl.
    + split; [right; repeat split; eauto|]. split; [split; discriminate|].
      rewrite E. discriminate.
    + split; [left; split; [reflexivity|]; eexists; repeat split; eauto; discriminate|].
      split; [split; reflexivity|]. rewrite E. discriminate.
  - split; [right; repeat split; eauto|]. split; [split; discriminate|].
    rewrite E. intros e' [= <-]. auto.
Qed.

Lemma discovery_result_shape_witness :
  d_total (fst (Discovery.extractMovieLinks Cases.resolve Cases.drop_stars
                  Cases.page_ok Cases.parse1 "https://site.example/movie")) = Some 1%nat.
Proof.
  destruct (discovery_result_shape Cases.resolve Cases.drop_stars Cases.page_ok Cases.parse1
              "https://site.example/movie") as ([(_ & links & Hl & _ & Ht & _) | (He & _)] & _).
  - rewrite Ht. revert Hl. vm_compute. intros [= <-]. reflexivity.
  - revert He. vm_compute. discriminate.
Defined.

(** ** Links created from a discovery result *)

Lemma imap_ids (g : nat -> RawLink -> Link) :
  forall raws k, (forall i r, l_id (g i r) = (k + i)%nat) ->
    map l_id (imap g raws) = seq k (length raws).
Proof.
  intros raws. revert g.
  induction raws as [|r raws IH]; intros g k Hg; simpl; [reflexivity|].
  rewrite Hg, Nat.add_0_r. f_equal. apply IH.
  intros i r'. simpl. rewrite Hg. lia.
Qed.

Lemma imap_urls (g : nat -> RawLink -> Link) :
  forall raws, (forall i r, l_link (g i r) = raw_link r) ->
    map l_link (imap g raws) = map raw_link raws.
Proof.
  intros raws. revert g.
  induction raws as [|r raws IH]; intros g Hg; simpl; [reflexivity|].
  rewrite Hg. f_equal. apply IH. intros i r'. apply Hg.
Qed.

Lemma imap_Forall {A B} (P : B -> Prop) (g : nat -> A -> B) :
  forall l, (forall i x, P (g i x)) -> Forall P (imap g l).
Proof.
  intros l. revert g. induction l as [|x l IH]; intros g Hg; simpl; constructor; auto.
  apply IH. intros i y. apply Hg.
Qed.

Lemma discovery_shape_links resolveUrl stripEmoji get parse url :
  let listResult :=
    Discovery.listResult
      (fst (Discovery.extractMovieLinks resolveUrl stripEmoji get parse url)) in
  JS.from_nullish (ex_links listResult) [] = [] \/
  (ex_status listResult = "success" /\ JS.from_nullish (ex_links listResult) [] <> []).
Proof.
  unfold Discovery.extractMovieLinks.
  destruct (Solvers.fr_outcome (Solvers.extractMovieLinks_fetch get)) as [st html | e];
    simpl; [|now left].
  destruct (Discovery.scan resolveUrl stripEmoji url (page_candidates (parse html)) [] ∅)
    as [|l ls]; simpl; [now left|].
  right. split; [reflexivity | discriminate].
Qed.

Lemma linksWithIds_fresh raws :
  Orchestrator.linksWithIds raws
  = imap (Intake.freshLink 0 [mkLog "🔍 Queued for processing..." "info"]) raws.
Proof. unfold Orchestrator.linksWithIds. apply imap_ext. reflexivity. Qed.

(** X6.  The links of a Task created from a discovery result are the
    same whether the orchestrator or the intake route creates it: they
    are numbered by their position, all pending, and no two of them have
    the same id or the same url. *)
Theorem created_links_distinct
    (resolveUrl : string -> string -> option string) (stripEmoji : string -> string)
    (get : nat -> AxiosOutcome) (parse : string -> Page) (url : string) (now : Z) :
  let listResult :=
    Discovery.listResult
      (fst (Discovery.extractMovieLinks resolveUrl stripEmoji get parse url)) in
  let queued := Orchestrator.linksWithIds (JS.from_nullish (ex_links listResult) []) in
  let posted := t_links (Intake.createdTask now url listResult) in
  posted = queued /\
  map l_id queued = seq 0 (length queued) /\
  NoDup (map l_id queued) /\ NoDup (map l_link queued) /\
  Forall (fun l => l_status l = Some "pending") queued.
Proof.
  intros listResult queued posted.
  pose proof (discovered_urls_NoDup resolveUrl stripEmoji get parse url) as Hurls.
  change (d_links (fst (Discovery.extractMovieLinks resolveUrl stripEmoji get parse url)))
    with (ex_links listResult) in Hurls.
  assert (Hids : map l_id queued = seq 0 (length queued)).
  { subst queued. rewrite linksWithIds_fresh, length_imap. now apply imap_ids. }
  split; [|split; [exact Hids|split; [|split]]].
  - subst posted queued. unfold Intake.createdTask. simpl.
    destruct (Orchestrator.extractionOk listResult) eqn:E;
      [symmetry; apply linksWithIds_fresh|].
    change (d_links (fst (Discovery.extractMovieLinks resolveUrl stripEmoji get parse url)))
      with (ex_links listResult).
    destruct (discovery_shape_links resolveUrl stripEmoji get parse url) as [H | [Hs Hne]];
      fold listResult in H || fold listResult in Hs, Hne.
    + now rewrite H.
    + unfold Orchestrator.extractionOk in E. rewrite Hs in E.
      destruct (JS.from_nullish (ex_links listResult) []) as [|r rs] eqn:El;
        [reflexivity | discriminate].
  - rewrite Hids. apply NoDup_seq.
  - subst queued. rewrite linksWithIds_fresh, imap_urls; [exact Hurls | reflexivity].
  - subst queued. rewrite linksWithIds_fresh. apply imap_Forall. reflexivity.
Qed.

(** ** The cache: sweeping, lookups and keys *)

Lemma fold_delete_in (snap : list (string * CachedLink)) (cache : gmap string CachedLink) k :
  In k (map fst snap) ->
  fold_right (fun kv m => delete (fst kv) m) cache snap !! k = None.
Proof.
  induction snap as [|[k' d] snap IH]; simpl; [contradiction|].
  intros H. destruct (decide (k = k')) as [-> | Hne].
  - apply lookup_delete_eq.
  - rewrite lookup_delete_ne by congruence. apply IH. destruct H; [congruence | assumption].
Qed.

Lemma fold_delete_notin (snap : list (string * CachedLink)) (cache : gmap string CachedLink) k :
  ~ In k (map fst snap) ->
  fold_right (fun kv m => delete (fst kv) m) cache snap !! k = cache !! k.
Proof.
  induction snap as [|[k' d] snap IH]; simpl; [reflexivity|].
  intros H. rewrite lookup_delete_ne by (intros ->; apply H; now left).
  apply IH. intros Hin. apply H. now right.
Qed.

Lemma fold_delete_size (snap : list (string * CachedLink)) (cache : gmap string CachedLink) :
  NoDup (map fst snap) ->
  (forall kv, In kv snap -> cache !! fst kv = Some (snd kv)) ->
  (size (fold_right (fun kv m => delete (fst kv) m) cache snap) + length snap)%nat
  = size cache.
Proof.
  induction snap as [|[k d] snap IH]; simpl; intros Hnd Hin; [lia|].
  apply NoDup_cons in Hnd as [Hk Hnd].
  rewrite map_size_delete.
  assert (fold_right (fun kv m => delete (fst kv) m) cache snap !! k = Some d) as ->.
  { rewrite fold_delete_notin; [apply (Hin (k, d)); now left|].
    intros H. apply Hk, list_elem_of_In, H. }
  specialize (IH Hnd (fun kv H => Hin kv (or_intror H))).
  assert (size (fold_right (fun kv m => delete (fst kv) m) cache snap) <> 0)%nat.
  { apply map_size_non_empty_iff. intros E.
    assert (fold_right (fun kv m => delete (fst kv) m) cache snap !! k = Some d) as Hs.
    { rewrite fold_delete_notin; [apply (Hin (k, d)); now left|].
      intros H. apply Hk, list_elem_of_In, H. }
    rewrite E in Hs. rewrite lookup_empty in Hs. discriminate. }
  lia.
Qed.

Lemma NoDup_fst_take {A} (l : list (string * A)) n :
  NoDup (map fst l) -> NoDup (map fst (take n l)).
Proof.
  intros H. change (map fst (take n l)) with (fst <$> take n l).
  rewrite fmap_take. eapply sublist_NoDup; [exact H | apply sublist_take].
Qed.

Lemma NoDup_fst_filter {A} (p : string * A -> bool) (l : list (string * A)) :
  NoDup (map fst l) -> NoDup (map fst (List.filter p l)).
Proof.
  induction l as [|x l IH]; simpl; intros H; [constructor|].
  apply NoDup_cons in H as [Hx H]. destruct (p x); simpl; auto.
  apply NoDup_cons. split; auto.
  rewrite list_elem_of_In in *. intros Hin. apply Hx.
  apply in_map_iff in Hin as (y & Hy & Hin). apply filter_In in Hin as [Hin _].
  rewrite <- Hy. now apply in_map.
Qed.

Lemma In_take {A} (x : A) n l : In x (take n l) -> In x l.
Proof.
  intros H. apply list_elem_of_In. apply list_elem_of_In in H.
  eapply subseteq_take; eauto.
Qed.

Lemma getCachedLink_Some md5 t (cache : gmap string CachedLink) url c :
  fst (Cache.getCachedLink md5 t cache url) = Some c ->
  cache !! Cache.hashUrl md5 url = Some c /\ (t <= c_expiresAt c)%Z /\
  c_status c = "valid".
Proof.
  unfold Cache.getCachedLink.
  destruct (cache !! Cache.hashUrl md5 url) as [data|]; [|discriminate].
  destruct (c_expiresAt data <? t)%Z eqn:E; [discriminate|].
  destruct (String.eqb (c_status data) "valid") eqn:Es; simpl; [|discriminate].
  intros [= <-]. apply Z.ltb_ge in E. apply String.eqb_eq in Es. auto.
Qed.

(** X7.  A sweep of the cache deletes at most 100 entries and returns
    the number it deleted; every entry it deletes had expired; entries
    that have not expired are kept as they are, and nothing is added or
    changed; when fewer than 100 were deleted no expired entry is left;
    and a lookup that would have been served before the sweep is served
    the same entry after it. *)
Theorem cleanup_removes_only_expired (now : Z) (cache : gmap string CachedLink) :
  let n := fst (Cache.cleanupExpiredCache now cache) in
  let cache' := snd (Cache.cleanupExpiredCache now cache) in
  (n <= 100)%nat /\
  (size cache' + n)%nat = size cache /\
  (forall k d, cache' !! k = Some d -> cache !! k = Some d) /\
  (forall k d, cache !! k = Some d -> cache' !! k = None -> (c_expiresAt d < now)%Z) /\
  ((n < 100)%nat -> forall k d, cache' !! k = Some d -> (now <= c_expiresAt d)%Z) /\
  (forall md5 t url c,
     (now <= t)%Z ->
     fst (Cache.getCachedLink md5 t cache url) = Some c ->
     fst (Cache.getCachedLink md5 t cache' url) = Some c).
Proof.
  intros n cache'. subst n cache'. unfold Cache.cleanupExpiredCache. simpl.
  set (expired := List.filter (fun kv : string * CachedLink => Z.ltb (c_expiresAt (snd kv)) now)
                    (map_to_list cache)).
  set (snap := take 100 expired).
  assert (Hsnap : forall kv, In kv snap ->
            cache !! fst kv = Some (snd kv) /\ (c_expiresAt (snd kv) < now)%Z).
  { intros [k d] H. apply In_take, filter_In in H as [H1 H2].
    apply list_elem_of_In, elem_of_map_to_list in H1. apply Z.ltb_lt in H2. auto. }
  assert (Hnd : NoDup (map fst snap)).
  { apply NoDup_fst_take, NoDup_fst_filter, NoDup_fst_map_to_list. }
  assert (Hkept : forall k d, cache !! k = Some d ->
            fold_right (fun kv m => delete (fst kv) m) cache snap !! k = None ->
            In k (map fst snap)).
  { intros k d Hk Hnone. destruct (in_dec string_dec k (map fst snap)) as [H | H]; [exact H|].
    rewrite fold_delete_notin in Hnone by exact H. congruence. }
  assert (Hsub : forall k d,
            fold_right (fun kv m => delete (fst kv) m) cache snap !! k = Some d ->
            cache !! k = Some d /\ ~ In k (map fst snap)).
  { intros k d Hk. destruct (in_dec string_dec k (map fst snap)) as [H | H].
    - rewrite fold_delete_in in Hk by exact H. discriminate.
    - rewrite fold_delete_notin in Hk by exact H. auto. }
  split; [|split; [|split; [|split; [|split]]]].
  - unfold snap. rewrite length_take. lia.
  - apply fold_delete_size; [exact Hnd|]. intros kv H. apply Hsnap, H.
  - intros k d Hk. apply Hsub, Hk.
  - intros k d Hk Hnone. specialize (Hkept k d Hk Hnone).
    apply in_map_iff in Hkept as ([k' d'] & <- & Hin).
    destruct (Hsnap _ Hin) as [Hl Hlt]. simpl in *. congruence.
  - intros Hlt k d Hk. destruct (Hsub k d Hk) as [Hc Hnot].
    assert (Hall : snap = expired).
    { unfold snap in *. rewrite length_take in Hlt. apply take_ge. lia. }
    destruct (Z.ltb (c_expiresAt d) now) eqn:E; [|apply Z.ltb_ge in E; exact E].
    exfalso. apply Hnot. rewrite Hall. apply in_map_iff. exists (k, d). split; [reflexivity|].
    apply filter_In. split; [|exact E]. apply list_elem_of_In, elem_of_map_to_list, Hc.
  - intros md5 t url c Ht Hhit.
    apply getCachedLink_Some in Hhit as (Hc & Hexp & Hs).
    rewrite (getCachedLink_hit md5 t _ url c); auto.
    rewrite fold_delete_notin; [exact Hc|].
    intros Hin. apply in_map_iff in Hin as ([k' d'] & Hk' & Hin).
    destruct (Hsnap _ Hin) as [Hl Hlt]. simpl in *. subst k'.
    rewrite Hc in Hl. injection Hl as <-. lia.
Qed.

Lemma cleanup_removes_only_expired_witness :
  fst (Cache.getCachedLink (fun s => s) 2000
         (snd (Cache.cleanupExpiredCache 1500 Samples.cache1)) "https://site.example/a")
  = fst (Cache.getCachedLink (fun s => s) 2000 Samples.cache1 "https://site.example/a").
Proof.
  destruct (cleanup_removes_only_expired 1500 Samples.cache1) as (_ & _ & _ & _ & _ & H).
  destruct (fst (Cache.getCachedLink (fun s => s) 2000 Samples.cache1
                   "https://site.example/a")) as [c|] eqn:E.
  - apply (H (fun s => s) 2000%Z "https://site.example/a" c); [lia | exact E].
  - revert E. vm_compute. discriminate.
Defined.

Lemma hashUrl_normal md5 url url' :
  JS.trim (JS.toLowerCase url') = JS.trim (JS.toLowerCase url) ->
  Cache.hashUrl md5 url' = Cache.hashUrl md5 url.
Proof. unfold Cache.hashUrl. now intros ->. Qed.

Lemma setCachedLink_then_get md5 now now' cache url url' finalLink solverUsed bb ab :
  (now' <= now + Config.CACHE_EXPIRY_MS)%Z ->
  Cache.hashUrl md5 url' = Cache.hashUrl md5 url ->
  c_finalLink <$>
    fst (Cache.getCachedLink md5 now'
           (Cache.setCachedLink md5 now cache url finalLink solverUsed bb ab) url')
  = Some finalLink.
Proof.
  intros Hfresh Hkey. unfold Cache.setCachedLink.
  erewrite getCachedLink_hit;
    [| rewrite Hkey; apply lookup_insert_eq | simpl; lia | reflexivity].
  reflexivity.
Qed.

(** X8.  On urls of ASCII characters the cache key ignores letter
    case and surrounding white space: after a store under such a url, a
    lookup before expiry under its upper-case form, its lower-case form,
    its trimmed form, or any ASCII url with the same lower-cased trimmed
    form returns the stored final link. *)
Theorem cache_key_ignores_case_and_padding
    (md5 : string -> string) (now now' : Z) (cache : gmap string CachedLink)
    (url finalLink solverUsed : string) (bb : option string) (ab : option (list Button)) :
  Filters.isAscii url = true ->
  (now' <= now + Config.CACHE_EXPIRY_MS)%Z ->
  let stored := Cache.setCachedLink md5 now cache url finalLink solverUsed bb ab in
  (c_finalLink <$> fst (Cache.getCachedLink md5 now' stored (Filters.toUpperCase url))
   = Some finalLink) /\
  (c_finalLink <$> fst (Cache.getCachedLink md5 now' stored (JS.toLowerCase url))
   = Some finalLink) /\
  (c_finalLink <$> fst (Cache.getCachedLink md5 now' stored (JS.trim url))
   = Some finalLink) /\
  (forall url', Filters.isAscii url' = true ->
     JS.trim (JS.toLowerCase url') = JS.trim (JS.toLowerCase url) ->
     c_finalLink <$> fst (Cache.getCachedLink md5 now' stored url') = Some finalLink).
Proof.
  intros _ Hfresh stored. subst stored.
  repeat split; [| | |intros url' _ Hn];
    apply setCachedLink_then_get; auto; apply hashUrl_normal.
  - now rewrite toLowerCase_toUpperCase.
  - now rewrite toLowerCase_idem.
  - now rewrite <- trim_toLowerCase, trim_idem.
  - exact Hn.
Qed.

Lemma cache_key_ignores_case_and_padding_witness :
  c_finalLink <$> fst (Cache.getCachedLink (fun s => s) 2000 Samples.cache1
                         "HTTPS://SITE.EXAMPLE/A ")
  = Some "https://cdn.example/f".
Proof.
  assert (Hascii : Filters.isAscii "https://Site.example/A " = true)
    by (vm_compute; reflexivity).
  assert (Hfresh : (2000 <= 1000 + Config.CACHE_EXPIRY_MS)%Z) by (vm_compute; discriminate).
  exact (proj1 (cache_key_ignores_case_and_padding (fun s => s) 1000 2000 ∅
                  "https://Site.example/A " "https://cdn.example/f" "solve_task"
                  None None Hascii Hfresh)).
Defined.

(** X9.  Neither a lookup nor marking a url broken ever adds or
    removes an entry, touches the entry of another url, or changes the
    final link or the expiry time of any entry; on a url with no entry
    both leave the cache as it is.  Hits add up: a lookup that follows a
    served lookup of the same url, before expiry, is served with the hit
    count one higher. *)
Theorem lookup_keeps_entries
    (md5 : string -> string) (now : Z) (cache : gmap string CachedLink) (url : string) :
  let after := snd (Cache.getCachedLink md5 now cache url) in
  let broken := Cache.markCacheBroken md5 now cache url in
  (forall k, k <> Cache.hashUrl md5 url ->
     after !! k = cache !! k /\ broken !! k = cache !! k) /\
  (forall k,
     (c_finalLink <$> after !! k) = (c_finalLink <$> cache !! k) /\
     (c_expiresAt <$> after !! k) = (c_expiresAt <$> cache !! k) /\
     (c_finalLink <$> broken !! k) = (c_finalLink <$> cache !! k) /\
     (c_expiresAt <$> broken !! k) = (c_expiresAt <$> cache !! k)) /\
  (cache !! Cache.hashUrl md5 url = None -> after = cache /\ broken = cache) /\
  (forall c t,
     fst (Cache.getCachedLink md5 now cache url) = Some c ->
     (t <= c_expiresAt c)%Z ->
     c_hitCount <$> fst (Cache.getCachedLink md5 t after url) = Some (c_hitCount c + 1)%nat).
Proof.
  intros after broken. subst after broken.
  unfold Cache.markCacheBroken.
  assert (Hafter : snd (Cache.getCachedLink md5 now cache url) = cache \/
            exists data data',
              cache !! Cache.hashUrl md5 url = Some data /\
              snd (Cache.getCachedLink md5 now cache url)
              = <[Cache.hashUrl md5 url := data']> cache /\
              c_finalLink data' = c_finalLink data /\
              c_expiresAt data' = c_expiresAt data).
  { unfold Cache.getCachedLink.
    destruct (cache !! Cache.hashUrl md5 url) as [data|] eqn:E; [|now left].
    destruct (c_expiresAt data <? now)%Z; [right; eexists _, _; eauto|].
    destruct (negb _); [now left | right; eexists _, _; eauto]. }
  split; [|split; [|split]].
  - intros k Hk. split.
    + destruct Hafter as [-> | (data & data' & _ & -> & _)]; [reflexivity|].
      now apply lookup_insert_ne.
    + now apply lookup_alter_ne.
  - intros k.
    assert (Hb : (c_finalLink <$> alter (Cache.markBroken now) (Cache.hashUrl md5 url) cache !! k)
                 = (c_finalLink <$> cache !! k) /\
                 (c_expiresAt <$> alter (Cache.markBroken now) (Cache.hashUrl md5 url) cache !! k)
                 = (c_expiresAt <$> cache !! k)).
    { destruct (decide (k = Cache.hashUrl md5 url)) as [-> | Hne].
      - rewrite lookup_alter_eq. destruct (cache !! Cache.hashUrl md5 url); auto.
      - rewrite lookup_alter_ne by congruence. auto. }
    destruct Hb as [Hb1 Hb2].
    destruct Hafter as [-> | (data & data' & Hd & -> & Hf & He)]; [auto|].
    destruct (decide (k = Cache.hashUrl md5 url)) as [-> | Hne].
    + rewrite lookup_insert_eq, Hd. simpl. rewrite Hf, He. rewrite Hd in Hb1, Hb2. auto.
    + rewrite lookup_insert_ne by congruence. auto.
  - intros Hnone. split.
    + now rewrite getCachedLink_absent.
    + apply map_eq. intros k. destruct (decide (k = Cache.hashUrl md5 url)) as [-> | Hne].
      * rewrite lookup_alter_eq, Hnone. reflexivity.
      * now apply lookup_alter_ne.
  - intros c t Hhit Ht.
    apply getCachedLink_Some in Hhit as (Hc & Hexp & Hs).
    rewrite (getCachedLink_hit md5 now cache url c) by auto. simpl.
    erewrite getCachedLink_hit; [| apply lookup_insert_eq | exact Ht | exact Hs].
    reflexivity.
Qed.

Lemma lookup_keeps_entries_witness :
  c_hitCount <$> fst (Cache.getCachedLink (fun s => s) 3000
                        (snd (Cache.getCachedLink (fun s => s) 2000 Samples.cache1
                                "https://site.example/a"))
                        "https://site.example/a")
  = Some 1%nat.
Proof.
  destruct (lookup_keeps_entries (fun s => s) 2000 Samples.cache1 "https://site.example/a")
    as (_ & _ & _ & H).
  destruct (fst (Cache.getCachedLink (fun s => s) 2000 Samples.cache1
                   "https://site.example/a")) as [c|] eqn:E.
  - rewrite (H c 3000%Z eq_refl).
    + revert E. vm_compute. intros [= <-]. reflexivity.
    + revert E. vm_compute. intros [= <-]. discriminate.
  - revert E. vm_compute. discriminate.
Defined.

(** ** Cache statistics *)

Lemma list_sum_Permutation (xs ys : list nat) :
  Permutation xs ys -> list_sum xs = list_sum ys.
Proof. induction 1; simpl; lia. Qed.

Lemma filter_split_count {A} (p : A -> bool) (l : list A) :
  (length (List.filter p l) + length (List.filter (fun x => negb (p x)) l))%nat = length l.
Proof. induction l as [|x l IH]; simpl; [reflexivity|]. destruct (p x); simpl; lia. Qed.

Lemma stats_of_Permutation (docs docs' : list CachedLink) :
  Permutation docs docs' ->
  length docs = length docs' /\
  length (List.filter CacheStatsOf.isValid docs)
  = length (List.filter CacheStatsOf.isValid docs') /\
  list_sum (map c_hitCount docs) = list_sum (map c_hitCount docs').
Proof.
  intros H. split; [now apply Permutation_length|]. split.
  - now apply Permutation_length, List_filter_Permutation.
  - now apply list_sum_Permutation, Permutation_map.
Qed.

Lemma docs_of_insert (cache : gmap string CachedLink) k d d' :
  cache !! k = Some d ->
  exists rest,
    Permutation (map snd (map_to_list cache)) (d :: rest) /\
    Permutation (map snd (map_to_list (<[k := d']> cache))) (d' :: rest).
Proof.
  intros Hk. exists (map snd (map_to_list (delete k cache))). split.
  - change (d :: map snd (map_to_list (delete k cache)))
      with (map snd ((k, d) :: map_to_list (delete k cache))).
    apply Permutation_map. symmetry. now apply map_to_list_delete.
  - change (d' :: map snd (map_to_list (delete k cache)))
      with (map snd ((k, d') :: map_to_list (delete k cache))).
    apply Permutation_map. rewrite <- insert_delete_eq.
    apply map_to_list_insert, lookup_delete_eq.
Qed.

(** X10.  The cache statistics count every entry once, as valid or as
    expired (an entry marked broken counts as expired), and start from
    zero on an empty cache.  A served lookup raises the total of hits by
    exactly one and changes no count; a lookup that finds a valid entry
    past its expiry moves one entry from valid to expired. *)
Theorem cache_stats_account
    (md5 : string -> string) (now : Z) (cache : gmap string CachedLink) (url : string) :
  let s := CacheStatsOf.getCacheStats cache in
  let s' := CacheStatsOf.getCacheStats (snd (Cache.getCachedLink md5 now cache url)) in
  totalEntries s = (validEntries s + expiredEntries s)%nat /\
  totalEntries s = size cache /\
  CacheStatsOf.getCacheStats ∅ = mkCacheStats 0 0 0 0 /\
  totalEntries s' = totalEntries s /\
  (forall c, fst (Cache.getCachedLink md5 now cache url) = Some c ->
     totalHits s' = (totalHits s + 1)%nat /\ validEntries s' = validEntries s) /\
  (forall data, cache !! Cache.hashUrl md5 url = Some data ->
     c_status data = "valid" -> (c_expiresAt data < now)%Z ->
     (validEntries s' + 1)%nat = validEntries s /\
     expiredEntries s' = (expiredEntries s + 1)%nat /\
     totalHits s' = totalHits s).
Proof.
  intros s s'.
  assert (Hsplit : forall m, totalEntries (CacheStatsOf.getCacheStats m)
            = (validEntries (CacheStatsOf.getCacheStats m)
               + expiredEntries (CacheStatsOf.getCacheStats m))%nat).
  { intros m. simpl. symmetry. apply filter_split_count. }
  split; [apply Hsplit|]. split.
  { subst s. simpl. rewrite length_map. apply length_map_to_list. }
  split; [reflexivity|].
  assert (Hcases : snd (Cache.getCachedLink md5 now cache url) = cache \/
            exists data data',
              cache !! Cache.hashUrl md5 url = Some data /\
              snd (Cache.getCachedLink md5 now cache url)
              = <[Cache.hashUrl md5 url := data']> cache).
  { unfold Cache.getCachedLink.
    destruct (cache !! Cache.hashUrl md5 url) as [data|] eqn:E; [|now left].
    destruct (c_expiresAt data <? now)%Z; [right; eexists _, _; eauto|].
    destruct (negb _); [now left | right; eexists _, _; eauto]. }
  split; [|split].
  - subst s s'. destruct Hcases as [-> | (data & data' & Hd & ->)]; [reflexivity|].
    destruct (docs_of_insert cache _ data data' Hd) as (rest & H1 & H2).
    simpl. rewrite (Permutation_length H1), (Permutation_length H2). reflexivity.
  - intros c Hhit. apply getCachedLink_Some in Hhit as (Hc & Hexp & Hs).
    subst s s'. rewrite (getCachedLink_hit md5 now cache url c) by auto.
    destruct (docs_of_insert cache _ c (Cache.recordHit now c) Hc) as (rest & H1 & H2).
    destruct (stats_of_Permutation _ _ H1) as (_ & Hv1 & Hh1).
    destruct (stats_of_Permutation _ _ H2) as (_ & Hv2 & Hh2).
    unfold CacheStatsOf.getCacheStats.
    cbn [snd totalEntries validEntries expiredEntries totalHits].
    rewrite Hv1, Hv2, Hh1, Hh2. simpl.
    unfold CacheStatsOf.isValid. simpl. rewrite Hs. simpl. split; [lia | reflexivity].
  - intros data Hd Hs Hlt.
    subst s s'. rewrite (getCachedLink_expired md5 now cache url data) by auto.
    pose proof (Hsplit cache) as Hs1.
    pose proof (Hsplit (<[Cache.hashUrl md5 url := Cache.markExpired data]> cache)) as Hs2.
    destruct (docs_of_insert cache _ data (Cache.markExpired data) Hd) as (rest & H1 & H2).
    destruct (stats_of_Permutation _ _ H1) as (Hl1 & Hv1 & Hh1).
    destruct (stats_of_Permutation _ _ H2) as (Hl2 & Hv2 & Hh2).
    unfold CacheStatsOf.getCacheStats in *.
    cbn [snd totalEntries validEntries expiredEntries totalHits] in *.
    rewrite Hl1, Hv1 in Hs1. rewrite Hl2, Hv2 in Hs2. rewrite Hv1, Hv2, Hh1, Hh2.
    simpl in *. unfold CacheStatsOf.isValid in *. simpl in *. rewrite Hs in *. simpl in *.
    repeat split; lia.
Qed.

Lemma cache_stats_account_witness :
  totalHits (CacheStatsOf.getCacheStats
               (snd (Cache.getCachedLink (fun s => s) 2000 Samples.cache1
                       "https://site.example/a")))
  = 1%nat.
Proof.
  destruct (cache_stats_account (fun s => s) 2000 Samples.cache1 "https://site.example/a")
    as (_ & _ & _ & _ & H & _).
  destruct (fst (Cache.getCachedLink (fun s => s) 2000 Samples.cache1
                   "https://site.example/a")) as [c|] eqn:E.
  - rewrite (proj1 (H c eq_refl)). vm_compute. reflexivity.
  - revert E. vm_compute. discriminate.
Defined.

(** ** Intake: merging into an existing Task *)

Lemma retryLink_idem l : Intake.retryLink (Intake.retryLink l) = Intake.retryLink l.
Proof.
  unfold Intake.retryLink at 2.
  destruct (JS.arr_includes ["error"; "failed"] (JS.from_nullish (l_status l) "")) eqn:E.
  - unfold Intake.retryLink at 1. simpl. unfold Intake.retryLink. now rewrite E.
  - unfold Intake.retryLink. now rewrite E.
Qed.

Lemma retryLink_fresh k logs raws :
  map Intake.retryLink (imap (Intake.freshLink k logs) raws)
  = imap (Intake.freshLink k logs) raws.
Proof.
  rewrite <- (map_id (imap (Intake.freshLink k logs) raws)) at 2.
  apply map_ext_in. intros l Hl.
  apply list_elem_of_In, list_elem_of_lookup_1 in Hl as [i Hi].
  rewrite list_lookup_imap in Hi. destruct (raws !! i); [|discriminate].
  injection Hi as <-. reflexivity.
Qed.

Lemma mergedLinks_urls ex found :
  map l_link (Intake.mergedLinks ex found)
  = map l_link ex ++ map raw_link (Intake.trulyNewLinks ex found).
Proof.
  unfold Intake.mergedLinks. rewrite map_app, map_map. f_equal.
  - apply map_ext. intros l. apply retryLink_keeps.
  - now apply imap_urls.
Qed.

Lemma mergedLinks_ids ex found :
  map l_id (Intake.mergedLinks ex found)
  = map l_id ex
    ++ seq (Intake.nextId ex) (length (Intake.trulyNewLinks ex found)).
Proof.
  unfold Intake.mergedLinks. rewrite map_app, map_map. f_equal.
  - apply map_ext. intros l. apply retryLink_keeps.
  - now apply imap_ids.
Qed.

Lemma nextId_above ex l : In l ex -> (l_id l < Intake.nextId ex)%nat.
Proof.
  unfold Intake.nextId. destruct ex as [|x ex]; [contradiction|].
  intros H. apply Nat.lt_succ_r.
  induction (x :: ex) as [|y ys IH]; [contradiction|]. simpl.
  destruct H as [-> | H]; [lia|]. specialize (IH H). lia.
Qed.

Lemma trulyNewLinks_again ex found :
  Intake.trulyNewLinks (Intake.mergedLinks ex found) found = [].
Proof.
  unfold Intake.trulyNewLinks at 1. apply filter_none. intros r Hr.
  apply negb_false_iff, arr_includes_In. rewrite mergedLinks_urls.
  apply in_or_app.
  destruct (JS.arr_includes (map l_link ex) (raw_link r)) eqn:E.
  - left. now apply arr_includes_In.
  - right. apply in_map. unfold Intake.trulyNewLinks. apply filter_In.
    split; [exact Hr | now rewrite E].
Qed.

(** X11.  Merging a page into an existing Task is idempotent on the
    links: a second post of the same page finds no new link and leaves
    the links array as the first post left it; and the merge never
    drops or reorders a stored link or changes its id, url or final
    link. *)
Theorem merge_is_idempotent (ex : list Link) (found : list RawLink) :
  Intake.trulyNewLinks (Intake.mergedLinks ex found) found = [] /\
  Intake.mergedLinks (Intake.mergedLinks ex found) found = Intake.mergedLinks ex found /\
  (length ex <= length (Intake.mergedLinks ex found))%nat /\
  (forall i l, ex !! i = Some l ->
     exists l', Intake.mergedLinks ex found !! i = Some l' /\
       l_id l' = l_id l /\ l_link l' = l_link l /\ l_finalLink l' = l_finalLink l /\
       (l_status l <> Some "error" -> l_status l <> Some "failed" -> l' = l)).
Proof.
  split; [apply trulyNewLinks_again|]. split; [|split].
  - unfold Intake.mergedLinks at 1. rewrite trulyNewLinks_again. simpl.
    rewrite app_nil_r. unfold Intake.mergedLinks.
    rewrite map_app, map_map, retryLink_fresh. f_equal.
    apply map_ext. intros l. apply retryLink_idem.
  - unfold Intake.mergedLinks. rewrite length_app, length_map. lia.
  - intros i l Hi. exists (Intake.retryLink l). split.
    + assert (Hlt : (i < length (map Intake.retryLink ex))%nat)
        by (rewrite length_map; eapply lookup_lt_Some; eauto).
      unfold Intake.mergedLinks. rewrite lookup_app_l by exact Hlt.
      change (map Intake.retryLink ex) with (Intake.retryLink <$> ex).
      now rewrite list_lookup_fmap, Hi.
    + destruct (retryLink_keeps l) as (H1 & H2 & H3 & H4 & _). auto.
Qed.

Lemma NoDup_app_seq (ids : list nat) k n :
  NoDup ids -> (forall i, In i ids -> (i < k)%nat) -> NoDup (ids ++ seq k n).
Proof.
  intros Hnd Hlt. apply NoDup_app. split; [exact Hnd|]. split; [|apply NoDup_seq].
  intros i Hi Hs. apply list_elem_of_In in Hi, Hs. apply in_seq in Hs.
  specialize (Hlt i Hi). lia.
Qed.

(** X12.  Merging keeps the links of a Task distinct: when no two
    stored links share an id or a url and no two links of the page share
    a url, no two links of the merged array share an id or a url. *)
Theorem merge_keeps_links_distinct (ex : list Link) (found : list RawLink) :
  NoDup (map l_id ex) -> NoDup (map l_link ex) -> NoDup (map raw_link found) ->
  NoDup (map l_id (Intake.mergedLinks ex found)) /\
  NoDup (map l_link (Intake.mergedLinks ex found)).
Proof.
  intros Hids Hurls Hfound. split.
  - rewrite mergedLinks_ids. apply NoDup_app_seq; [exact Hids|].
    intros i Hi. apply in_map_iff in Hi as (l & <- & Hl). now apply nextId_above.
  - rewrite mergedLinks_urls. apply NoDup_app. split; [exact Hurls|]. split.
    + intros u Hu Hn. apply list_elem_of_In, in_map_iff in Hn as (r & <- & Hr).
      unfold Intake.trulyNewLinks in Hr. apply filter_In in Hr as [_ Hr].
      apply negb_true_iff in Hr.
      assert (JS.arr_includes (map l_link ex) (raw_link r) = true)
        by (apply arr_includes_In, list_elem_of_In, Hu).
      congruence.
    + unfold Intake.trulyNewLinks. now apply NoDup_map_filter.
Qed.

Lemma merge_keeps_links_distinct_witness :
  NoDup (map l_id (Intake.mergedLinks Samples.two_links
                     [mkRawLink "480p" "https://hubcloud.example/z";
                      mkRawLink "720p" "https://hubcloud.example/a"])) /\
  NoDup (map l_link (Intake.mergedLinks Samples.two_links
                       [mkRawLink "480p" "https://hubcloud.example/z";
                        mkRawLink "720p" "https://hubcloud.example/a"])).
Proof.
  apply merge_keeps_links_distinct; apply (bool_decide_unpack _); vm_compute; exact I.
Defined.

(** ** Posting, deleting and retrying *)

Lemma latest_of_dupSnap tasks url id existing :
  Intake.latest (Intake.dupSnap tasks url) = Some (id, existing) ->
  tasks !! id = Some existing /\ t_url existing = url.
Proof.
  intros H. unfold Intake.latest in H.
  apply latest_In in H as [H | H]; [|discriminate]. now apply dupSnap_In.
Qed.

(** X13.  A post changes at most one Task document, the one whose id
    it answers with, and never removes a Task or changes the url or the
    creation time of a stored Task; the id it answers with names a
    stored Task; a post without a url changes nothing. *)
Theorem POST_touches_one_task
    (now : Z) (extract : string -> ExtractResult) (newId : string)
    (tasks : gmap string TaskDoc) (url : option string) :
  tasks !! newId = None ->
  let tasks' := fst (Intake.POST now extract newId tasks url) in
  let response := snd (Intake.POST now extract newId tasks url) in
  (forall k d, tasks !! k = Some d ->
     exists d', tasks' !! k = Some d' /\ t_url d' = t_url d /\
                t_createdAt d' = t_createdAt d) /\
  (forall k, TasksApi.postedId response <> Some k -> tasks' !! k = tasks !! k) /\
  (forall id, TasksApi.postedId response = Some id -> is_Some (tasks' !! id)) /\
  (JS.truthy url = false -> tasks' = tasks /\ TasksApi.postedId response = None).
Proof.
  intros Hfresh tasks' response. subst tasks' response. unfold Intake.POST.
  destruct (JS.truthy url) eqn:Eu; simpl.
  2:{ repeat split; eauto; intros id H; discriminate. }
  destruct (Intake.latest (Intake.dupSnap tasks (JS.trim (JS.from_nullish url ""))))
    as [[id existing]|] eqn:El.
  - apply latest_of_dupSnap in El as [Hid Hurl].
    destruct (Orchestrator.extractionOk _); simpl.
    + split; [|split; [|split]].
      * intros k d Hk. destruct (decide (k = id)) as [-> | Hne].
        -- rewrite lookup_insert_eq. eexists. split; [reflexivity|].
           rewrite Hid in Hk. injection Hk as <-. auto.
        -- rewrite lookup_insert_ne by congruence. eauto.
      * intros k Hk. apply lookup_insert_ne. congruence.
      * intros id' [= <-]. rewrite lookup_insert_eq. eauto.
      * discriminate.
    + split; [eauto|]. split; [auto|]. split; [|discriminate].
      intros id' [= <-]. eauto.
  - simpl. split; [|split; [|split]].
    + intros k d Hk. rewrite lookup_insert_ne by congruence. eauto.
    + intros k Hk. apply lookup_insert_ne. congruence.
    + intros id' [= <-]. rewrite lookup_insert_eq. eauto.
    + discriminate.
Qed.

Lemma POST_touches_one_task_witness :
  fst (Intake.POST 5000 Samples.same_page "t-new" Samples.tasks1
         (Some "https://site.example/other")) !! "t1"
  = Samples.tasks1 !! "t1".
Proof.
  destruct (POST_touches_one_task 5000 Samples.same_page "t-new" Samples.tasks1
              (Some "https://site.example/other")) as (_ & H & _); [reflexivity|].
  apply H. vm_compute. discriminate.
Defined.

Lemma DELETE_lookup tasks taskId k :
  fst (TasksApi.DELETE tasks None (Some taskId)) !! k
  = if bool_decide (k = taskId) && negb (String.eqb taskId "") then None else tasks !! k.
Proof.
  unfold TasksApi.DELETE. simpl.
  destruct (String.eqb taskId "") eqn:E; simpl; [now rewrite andb_false_r|].
  rewrite andb_true_r.
  destruct (tasks !! taskId) eqn:Et; simpl.
  - destruct (bool_decide (k = taskId)) eqn:Ek.
    + apply bool_decide_eq_true_1 in Ek as ->. apply lookup_delete_eq.
    + apply bool_decide_eq_false_1 in Ek. now apply lookup_delete_ne.
  - destruct (bool_decide (k = taskId)) eqn:Ek; [|reflexivity].
    apply bool_decide_eq_true_1 in Ek as ->. exact Et.
Qed.

(** X14.  Deleting a Task is idempotent and removes nothing else: a
    second delete of the same id finds the Task gone, answers "already
    deleted" and changes nothing; every other Task is kept as it is; a
    request that names no Task is refused and changes nothing. *)
Theorem DELETE_is_idempotent (tasks : gmap string TaskDoc) (queryId bodyId : option string) :
  let first := TasksApi.DELETE tasks queryId bodyId in
  let second := TasksApi.DELETE (fst first) queryId bodyId in
  fst second = fst first /\
  (forall k d, fst first !! k = Some d -> tasks !! k = Some d) /\
  (forall id, snd first = DeleteDone id ->
     is_Some (tasks !! id) /\ fst first !! id = None /\
     (forall k, k <> id -> fst first !! k = tasks !! k) /\
     snd second = DeleteAlready) /\
  (snd first = DeleteAlready -> fst first = tasks /\ snd second = DeleteAlready) /\
  (JS.truthy queryId = false -> JS.truthy bodyId = false ->
     first = (tasks, DeleteBadRequest "taskId is required")).
Proof.
  intros first second. subst first second. unfold TasksApi.DELETE.
  set (taskId := if JS.truthy queryId then queryId else bodyId).
  destruct (JS.truthy taskId) eqn:Et; simpl.
  - destruct (tasks !! JS.from_nullish taskId "") as [d0|] eqn:Ed; simpl.
    + rewrite lookup_delete_eq. simpl. split; [reflexivity|]. split.
      * intros k d Hk. apply lookup_delete_Some in Hk. tauto.
      * split; [|split; [discriminate|]].
        -- intros id [= <-]. rewrite lookup_delete_eq. repeat split; eauto.
           intros k Hk. now apply lookup_delete_ne.
        -- intros Hq Hb. subst taskId. rewrite Hq in Et. congruence.
    + rewrite Ed. simpl. split; [reflexivity|]. split; [auto|].
      split; [discriminate|]. split; [auto|].
      intros Hq Hb. subst taskId. rewrite Hq in Et. congruence.
  - split; [reflexivity|]. split; [auto|]. split; [discriminate|].
    split; [discriminate|]. reflexivity.
Qed.

Lemma DELETE_is_idempotent_witness :
  snd (TasksApi.DELETE (fst (TasksApi.DELETE Samples.tasks1 None (Some "t1")))
         None (Some "t1")) = DeleteAlready.
Proof.
  destruct (DELETE_is_idempotent Samples.tasks1 None (Some "t1")) as (_ & _ & H & _).
  apply (H "t1"). reflexivity.
Defined.

Lemma linksToSend_unshielded (shield : gmap nat ShieldEntry) links :
  (forall i, shield !! i = None) -> Intake.linksToSend shield links = links.
Proof.
  intros Hs. unfold Intake.linksToSend.
  assert (H : forall (ls : list Link) (f : nat -> nat),
            omap id (imap (fun idx l =>
                             match shield !! f idx with
                             | Some e => if String.eqb (sh_status e) "done"
                                            || String.eqb (sh_status e) "success"
                                         then None else Some l
                             | None => Some l
                             end) ls) = ls).
  { induction ls as [|l ls IH]; intros f; simpl; [reflexivity|].
    rewrite Hs. simpl. f_equal. apply (IH (fun i => f (S i))). }
  apply (H links (fun i => i)).
Qed.

(** X15.  Deleting a task from the dashboard removes the stored Task,
    its entry in the local list, its shield and its stream-end mark, and
    nothing of another task.  Retrying a task replaces it: the stored
    Task, its shield and its stream-end mark are gone afterwards; when
    no other stored Task has the same url, the server holds a new Task
    under the new id, created from a fresh discovery with none of the
    old results, the shield of the new id is empty, and, unless a stream
    for the new id is already open, every link of the new Task is sent
    to the stream. *)
Theorem retry_replaces_task
    (c : Client) (now : Z) (extract : string -> ExtractResult) (newId : string)
    (server : gmap string TaskDoc) (task : Task) :
  task_id task <> "" -> newId <> task_id task -> server !! newId = None ->
  t_url (task_doc task) <> "" ->
  let result := TaskActions.handleRetryTask c now extract newId server task in
  let server2 := fst (fst result) in
  let c2 := snd (fst result) in
  let url := JS.trim (t_url (task_doc task)) in
  let deleted := TaskActions.handleDeleteTask c server (task_id task) in
  (fst deleted !! task_id task = None /\
   (forall k, k <> task_id task ->
      fst deleted !! k = server !! k /\
      completedLinks (snd deleted) !! k = completedLinks c !! k) /\
   completedLinks (snd deleted) !! task_id task = None /\
   streamEndedAt (snd deleted) !! task_id task = None /\
   (forall t, In t (tasks (snd deleted)) <-> In t (tasks c) /\ task_id t <> task_id task)) /\
  server2 !! task_id task = None /\
  completedLinks c2 !! task_id task = None /\
  streamEndedAt c2 !! task_id task = None /\
  ((forall k d, server !! k = Some d -> k <> task_id task -> t_url d <> url) ->
     server2 = <[newId := Intake.createdTask now url (extract url)]>
                 (delete (task_id task) server) /\
     completedLinks c2 !! newId = Some ∅ /\
     (newId ∉ streamStarted c ->
        snd result = Some (t_links (Intake.createdTask now url (extract url))))).
Proof.
  intros Hid Hnew Hfresh Hurl result server2 c2 url deleted.
  set (server1 := fst (TasksApi.DELETE server None (Some (task_id task)))).
  assert (Hs1 : forall k, server1 !! k
                  = if bool_decide (k = task_id task) then None else server !! k).
  { intros k. unfold server1. rewrite DELETE_lookup.
    apply String.eqb_neq in Hid. rewrite Hid. now rewrite andb_true_r. }
  assert (Hs1new : server1 !! newId = None).
  { rewrite Hs1. destruct (bool_decide _); auto. }
  assert (Hs1old : server1 !! task_id task = None).
  { rewrite Hs1. now rewrite bool_decide_eq_true_2. }
  assert (Ht : JS.truthy (Some (t_url (task_doc task))) = true).
  { simpl. apply negb_true_iff, String.eqb_neq, Hurl. }
  destruct (POST_cases now extract newId server1 (t_url (task_doc task)) Ht)
    as [Hcreate Hmerge]. fold url in Hcreate, Hmerge.
  assert (Hposted : exists response,
            Intake.POST now extract newId server1 (Some (t_url (task_doc task)))
            = (fst (Intake.POST now extract newId server1 (Some (t_url (task_doc task)))),
               response) /\
            (forall id, TasksApi.postedId response = Some id -> id <> task_id task) /\
            fst (Intake.POST now extract newId server1 (Some (t_url (task_doc task))))
              !! task_id task = None).
  { eexists. split; [apply surjective_pairing|].
    unfold Intake.POST. rewrite Ht. simpl. fold url.
    destruct (Intake.latest (Intake.dupSnap server1 url)) as [[id existing]|] eqn:El.
    - apply latest_of_dupSnap in El as [Hi _].
      assert (id <> task_id task) by (intros ->; congruence).
      destruct (Orchestrator.extractionOk _); simpl.
      + split; [intros id' [= <-]; auto|]. now rewrite lookup_insert_ne.
      + split; [intros id' [= <-]; auto | exact Hs1old].
    - simpl. split; [intros id' [= <-]; auto|]. now rewrite lookup_insert_ne. }
  destruct Hposted as (response & HP & Hne & Hold).
  subst result server2 c2. unfold TaskActions.handleRetryTask. fold server1.
  rewrite HP. simpl.
  assert (Hforget : forall c', c' = TaskActions.forget c (task_id task) ->
            completedLinks c' !! task_id task = None /\
            streamEndedAt c' !! task_id task = None).
  { intros c' ->. simpl. split; apply lookup_delete_eq. }
  destruct (Hforget _ eq_refl) as [Hf1 Hf2].
  split; [|split; [|split; [|split]]].
  - subst deleted. unfold TaskActions.handleDeleteTask. simpl. fold server1.
    split; [exact Hs1old|]. split; [|split; [exact Hf1|split; [exact Hf2|]]].
    + intros k Hk. rewrite Hs1, bool_decide_eq_false_2 by exact Hk.
      split; [reflexivity | now apply lookup_delete_ne].
    + intros t. rewrite filter_In, negb_true_iff, String.eqb_neq. reflexivity.
  - destruct (TasksApi.postedId response); exact Hold.
  - destruct (TasksApi.postedId response) as [id|] eqn:Ep; simpl; [|exact Hf1].
    rewrite lookup_insert_ne; [exact Hf1 | apply Hne; reflexivity].
  - destruct (TasksApi.postedId response); exact Hf2.
  - intros Honly.
    assert (Hnone : forall k d, server1 !! k = Some d -> t_url d <> url).
    { intros k d Hk. rewrite Hs1 in Hk. destruct (bool_decide (k = task_id task)) eqn:E;
        [discriminate|]. apply bool_decide_eq_false_1 in E. eauto. }
    specialize (Hcreate Hnone). rewrite Hcreate in HP. injection HP as HP2.
    rewrite <- HP2. simpl.
    assert (Hserver : server1 = delete (task_id task) server).
    { apply map_eq. intros k. rewrite Hs1.
      destruct (bool_decide (k = task_id task)) eqn:E.
      - apply bool_decide_eq_true_1 in E as ->. now rewrite lookup_delete_eq.
      - apply bool_decide_eq_false_1 in E. now rewrite lookup_delete_ne. }
    rewrite Hcreate. simpl. rewrite Hserver. split; [reflexivity|].
    split; [apply lookup_insert_eq|].
    intros Hns. rewrite bool_decide_eq_false_2 by exact Hns.
    rewrite lookup_insert_eq. simpl. f_equal.
    apply linksToSend_unshielded. intros i.
    unfold Overlay.shieldOf. simpl. rewrite lookup_insert_eq. reflexivity.
Qed.

Lemma retry_replaces_task_witness :
  fst (fst (TaskActions.handleRetryTask Samples.informed_client 5000 Samples.same_page
              "t-new" Samples.tasks1
              (mkClientTask "t1"
                 (Samples.task "https://site.example/movie" "processing" Samples.two_links))))
    !! "t1" = None /\
  (t_status <$>
     fst (fst (TaskActions.handleRetryTask Samples.informed_client 5000 Samples.same_page
                 "t-new" Samples.tasks1
                 (mkClientTask "t1"
                    (Samples.task "https://site.example/movie" "processing"
                       Samples.two_links))))
       !! "t-new") = Some "pending".
Proof.
  destruct (retry_replaces_task Samples.informed_client 5000 Samples.same_page "t-new"
              Samples.tasks1
              (mkClientTask "t1"
                 (Samples.task "https://site.example/movie" "processing" Samples.two_links)))
    as (_ & Hgone & _ & _ & Hnew); try discriminate; [reflexivity|].
  split; [exact Hgone|].
  destruct Hnew as (-> & _).
  - intros k d Hk Hne. unfold Samples.tasks1 in Hk.
    apply lookup_singleton_Some in Hk as [<- _]. now contradict Hne.
  - rewrite lookup_insert_eq. reflexivity.
Defined.

(** ** One orchestrator invocation on the whole store *)

Lemma applyWrites_other ws :
  forall (tasks : gmap string TaskDoc) taskId k,
    Forall (fun w => sc_taskId w = taskId) ws -> k <> taskId ->
    Orchestrator.applyWrites tasks ws !! k = tasks !! k.
Proof.
  induction ws as [|w ws IH]; intros tasks taskId k Hall Hk; simpl; [reflexivity|].
  apply List.Forall_cons_iff in Hall as [Hw Hall].
  rewrite (IH _ taskId k Hall Hk).
  unfold Orchestrator.applyWrite, Persist.saveResultToFirestore. rewrite Hw.
  destruct (tasks !! taskId); [|reflexivity]. now apply lookup_insert_ne.
Qed.

Lemma resolveLinks_other md5 env tasks item stored taskId links k :
  k <> taskId ->
  Orchestrator.res_tasks (Orchestrator.resolveLinks md5 env tasks item stored taskId links) !! k
  = tasks !! k.
Proof.
  intros Hk. unfold Orchestrator.resolveLinks. cbv zeta. simpl.
  apply (applyWrites_other _ _ taskId); [|exact Hk].
  apply interleave_Forall.
  - eapply issuedFor_taskId. apply direct_writes_issued.
  - eapply issuedFor_taskId.
    apply (timerLoop_writes md5 (cron_clock env) (cron_start env) (cron_linkEnv env) taskId
             "Server/Auto-Pilot" Orchestrator.DEFER_MESSAGE _ 0).
Qed.

Lemma setQueue_lookup st m id q m' k :
  Orchestrator.queueOf m' (Orchestrator.setQueue st m id q) !! k
  = if Bool.eqb m' m && bool_decide (k = id) then Some q
    else Orchestrator.queueOf m' st !! k.
Proof.
  destruct m, m'; simpl; try reflexivity.
  - destruct (bool_decide (k = id)) eqn:E.
    + apply bool_decide_eq_true_1 in E as ->. apply lookup_insert_eq.
    + apply bool_decide_eq_false_1 in E. now apply lookup_insert_ne.
  - destruct (bool_decide (k = id)) eqn:E.
    + apply bool_decide_eq_true_1 in E as ->. apply lookup_insert_eq.
    + apply bool_decide_eq_false_1 in E. now apply lookup_insert_ne.
Qed.

Lemma setQueue_tasks st m id q :
  scraping_tasks (Orchestrator.setQueue st m id q) = scraping_tasks st.
Proof. destruct m; reflexivity. Qed.

Lemma extractionFailed_status now item stored message :
  q_status (Orchestrator.extractionFailed now item stored message) <> "processing".
Proof.
  unfold Orchestrator.extractionFailed. cbn [q_status].
  destruct (Config.MAX_CRON_RETRIES <=? Recovery.retriesOf item)%nat; intros H; discriminate H.
Qed.

Lemma res_item_status md5 env tasks item stored taskId links :
  q_status (Orchestrator.res_item
              (Orchestrator.resolveLinks md5 env tasks item stored taskId links))
  <> "processing".
Proof.
  unfold Orchestrator.resolveLinks. cbv zeta. simpl.
  match goal with
  | |- context [Orchestrator.finishItem ?n item stored taskId ?d ?s ?e ?p] =>
      destruct (finishItem_status n item stored taskId d s e p) as (-> & _)
  end.
  repeat match goal with
         | |- context [if ?b then _ else _] => destruct b
         end; intros H; discriminate H.
Qed.

(** What an invocation leaves in the store: the recovered store when
    nothing is pending; otherwise the recovered store with one queue
    item rewritten, to a status other than "processing", and at most
    the Task of the new id written. *)
Lemma GET_store md5 env st0 :
  let now := cron_start env in
  let st := fst (Recovery.recoverStuckTasks now st0) in
  let st' := fst (Orchestrator.GET md5 env st0) in
  match Orchestrator.pickItem st with
  | None =>
      Orchestrator.GET md5 env st0 = (st, RespIdle (snd (Recovery.recoverStuckTasks now st0)))
  | Some (m, (id, item)) =>
      exists final,
        q_status final <> "processing" /\
        (forall m' k, Orchestrator.queueOf m' st' !! k
                      = if Bool.eqb m' m && bool_decide (k = id) then Some final
                        else Orchestrator.queueOf m' st !! k) /\
        (forall k, k <> cron_newTaskId env ->
                   scraping_tasks st' !! k = scraping_tasks st !! k) /\
        (Orchestrator.extractionOk (cron_extract env (q_url item)) = false ->
           scraping_tasks st' = scraping_tasks st)
  end.
Proof.
  intros now st st'. subst st'. unfold Orchestrator.GET. fold now.
  destruct (Recovery.recoverStuckTasks now st0) as [st1 recovered] eqn:Er.
  simpl in st. subst st.
  destruct (Orchestrator.pickItem st1) as [[m [id item]]|]; [|reflexivity].
  assert (Hq : forall tasks' final m' k,
            Orchestrator.queueOf m'
              (Orchestrator.setQueue
                 (mkStore
                    (movies_queue (Orchestrator.setQueue st1 m id (Orchestrator.lockItem now item)))
                    (webseries_queue (Orchestrator.setQueue st1 m id (Orchestrator.lockItem now item)))
                    tasks') m id final) !! k
            = if Bool.eqb m' m && bool_decide (k = id) then Some final
              else Orchestrator.queueOf m' st1 !! k).
  { intros tasks' final m' k. rewrite setQueue_lookup.
    destruct (Bool.eqb m' m && bool_decide (k = id)) eqn:E; [reflexivity|].
    pose proof (setQueue_lookup st1 m id (Orchestrator.lockItem now item) m' k) as H.
    rewrite E in H. destruct m'; simpl in *; exact H. }
  destruct (Orchestrator.extractionOk (cron_extract env (q_url item))) eqn:Eok;
    cbn [negb fst snd].
  - eexists. split; [apply res_item_status|]. split; [|split; [|discriminate]].
    + intros m' k. apply Hq.
    + intros k Hk. rewrite setQueue_tasks. cbn [scraping_tasks].
      rewrite resolveLinks_other by exact Hk.
      rewrite lookup_insert_ne by congruence. now rewrite setQueue_tasks.
  - eexists. split; [apply extractionFailed_status|]. split; [|split].
    + intros m' k.
      pose proof (Hq (scraping_tasks (Orchestrator.setQueue st1 m id (Orchestrator.lockItem now item)))
                    (Orchestrator.extractionFailed now item (Orchestrator.lockItem now item)
                       (JS.from_nullish
                          (JS.or_truthy (ex_message (cron_extract env (q_url item))) None)
                          "Link extraction failed or returned 0 links")) m' k) as H.
      rewrite <- H.
      destruct (Orchestrator.setQueue st1 m id (Orchestrator.lockItem now item)); reflexivity.
    + intros k _. now rewrite !setQueue_tasks.
    + intros _. now rewrite !setQueue_tasks.
Qed.

Lemma recovered_queue now st0 m :
  Orchestrator.queueOf m (fst (Recovery.recoverStuckTasks now st0))
  = Recovery.recoverQueueItem now <$> Orchestrator.queueOf m st0.
Proof. destruct m; reflexivity. Qed.

Lemma recoverQueueItem_processing now q :
  q_status (Recovery.recoverQueueItem now q) = "processing" ->
  Recovery.recoverQueueItem now q = q /\ q_status q = "processing" /\
  Recovery.queueItemStuck now q = false.
Proof.
  unfold Recovery.recoverQueueItem, Recovery.recoverQueueDoc.
  destruct (String.eqb (q_status q) "processing") eqn:Es.
  - apply String.eqb_eq in Es.
    destruct (Recovery.queueItemStuck now q); [|auto].
    destruct (_ <? _)%nat; simpl; discriminate.
  - apply String.eqb_neq in Es. intros H. contradiction.
Qed.

(** The handler leaves no lock of its own behind: a queue item that
    is "processing" after it has run was "processing" before, was not
    yet stuck, and has not been touched. *)
Lemma handler_leaves_no_lock
    (md5 : string -> string) (env : CronEnv) (st0 : Store)
    (m : bool) (id : string) (q' : QueueItem) :
  Orchestrator.queueOf m (fst (Orchestrator.GET md5 env st0)) !! id = Some q' ->
  q_status q' = "processing" ->
  Orchestrator.queueOf m st0 !! id = Some q' /\
  Recovery.queueItemStuck (cron_start env) q' = false /\
  Orchestrator.pickItem (fst (Recovery.recoverStuckTasks (cron_start env) st0))
  <> Some (m, (id, q')).
Proof.
  intros Hq' Hs.
  pose proof (GET_store md5 env st0) as H. cbv zeta in H.
  assert (Hrec : Orchestrator.queueOf m (fst (Recovery.recoverStuckTasks (cron_start env) st0))
                   !! id = Some q' ->
                 Orchestrator.queueOf m st0 !! id = Some q' /\
                 Recovery.queueItemStuck (cron_start env) q' = false).
  { rewrite recovered_queue. intros Hr. apply lookup_fmap_Some in Hr as (q & Hq & Hk).
    subst q'. apply recoverQueueItem_processing in Hs as (Heq & _ & Hns).
    rewrite Heq in *. auto. }
  assert (Hpick : Orchestrator.pickItem (fst (Recovery.recoverStuckTasks (cron_start env) st0))
                  <> Some (m, (id, q'))).
  { intros Hp. apply pickItem_pending in Hp as [_ Hp]. congruence. }
  destruct (Orchestrator.pickItem (fst (Recovery.recoverStuckTasks (cron_start env) st0)))
    as [[m0 [id0 item]]|] eqn:Ep.
  - destruct H as (final & Hfinal & Hqueue & _).
    rewrite Hqueue in Hq'.
    destruct (Bool.eqb m m0 && bool_decide (id = id0)).
    + injection Hq' as <-. contradiction.
    + destruct (Hrec Hq'). auto.
  - rewrite H in Hq'. simpl in Hq'. destruct (Hrec Hq'). auto.
Qed.

Lemma fold_applyToDoc_url ws :
  forall d, t_url (fold_left Orchestrator.applyToDoc ws d) = t_url d /\
            t_createdAt (fold_left Orchestrator.applyToDoc ws d) = t_createdAt d.
Proof.
  induction ws as [|w ws IH]; intros d; simpl; [auto|].
  destruct (IH (Orchestrator.applyToDoc d w)) as [-> ->]. auto.
Qed.

(** The Task document of a run after its writes. *)
Lemma resolveLinks_doc md5 env tasks item stored taskId links d0 :
  tasks !! taskId = Some d0 -> t_links d0 = links ->
  exists W,
    Permutation W
      (flat_map (fun r => LinkProcessor.savesOf (run_events r))
         (Orchestrator.res_direct
            (Orchestrator.resolveLinks md5 env tasks item stored taskId links))
       ++ tr_writes (Orchestrator.res_timer
                       (Orchestrator.resolveLinks md5 env tasks item stored taskId links))) /\
    Orchestrator.res_tasks (Orchestrator.resolveLinks md5 env tasks item stored taskId links)
      !! taskId = Some (fold_left Orchestrator.applyToDoc W d0).
Proof.
  intros Hd0 Hlinks. unfold Orchestrator.resolveLinks. cbv zeta. simpl.
  eexists. split; [apply interleave_Permutation|].
  apply applyWrites_lookup; [exact Hd0|].
  apply interleave_Forall.
  - eapply issuedFor_taskId. apply direct_writes_issued.
  - eapply issuedFor_taskId.
    apply (timerLoop_writes md5 (cron_clock env) (cron_start env) (cron_linkEnv env) taskId
             "Server/Auto-Pilot" Orchestrator.DEFER_MESSAGE _ 0).
Qed.

(** What the handler writes: when no item is pending after recovery
    it answers idle and the store is the recovered store; when it claims
    an item, every other queue item and every Task other than the one
    under the new id is as recovery left it, and a failed extraction
    creates no Task at all. *)
Lemma handler_footprint (md5 : string -> string) (env : CronEnv) (st0 : Store) :
  let now := cron_start env in
  let st := fst (Recovery.recoverStuckTasks now st0) in
  let st' := fst (Orchestrator.GET md5 env st0) in
  (Orchestrator.pickItem st = None ->
     Orchestrator.GET md5 env st0
     = (st, RespIdle (snd (Recovery.recoverStuckTasks now st0)))) /\
  (forall m id item, Orchestrator.pickItem st = Some (m, (id, item)) ->
     (forall m' k, (m' <> m \/ k <> id) ->
        Orchestrator.queueOf m' st' !! k = Orchestrator.queueOf m' st !! k) /\
     (forall k, k <> cron_newTaskId env ->
        scraping_tasks st' !! k = scraping_tasks st !! k) /\
     (Orchestrator.extractionOk (cron_extract env (q_url item)) = false ->
        scraping_tasks st' = scraping_tasks st) /\
     (Orchestrator.extractionOk (cron_extract env (q_url item)) = true ->
        exists d, scraping_tasks st' !! cron_newTaskId env = Some d /\
          t_url d = q_url item /\
          length (t_links d)
          = length (JS.from_nullish (ex_links (cron_extract env (q_url item))) []))).
Proof.
  intros now st st'.
  pose proof (GET_store md5 env st0) as H. cbv zeta in H. fold now st st' in H.
  split.
  - intros Hp. now rewrite Hp in H.
  - intros m id item Hp. rewrite Hp in H.
    destruct H as (final & _ & Hqueue & Htasks & Hfail).
    split; [|split; [exact Htasks|split; [exact Hfail|]]].
    + intros m' k Hne. rewrite Hqueue.
      destruct (Bool.eqb m' m) eqn:Em; [|reflexivity].
      apply Bool.eqb_prop in Em. subst m'.
      destruct Hne as [Hne | Hne]; [contradiction|].
      now rewrite bool_decide_eq_false_2.
    + intros Hok. subst st'. unfold Orchestrator.GET. fold now.
      destruct (Recovery.recoverStuckTasks now st0) as [st1 recovered] eqn:Er.
      simpl in st. subst st. rewrite Hp, Hok. cbn [negb fst].
      rewrite setQueue_tasks. cbn [scraping_tasks].
      set (links := Orchestrator.linksWithIds
                      (JS.from_nullish (ex_links (cron_extract env (q_url item))) [])).
      set (d0 := Orchestrator.newTask now (q_url item) (cron_extract env (q_url item)) links).
      destruct (resolveLinks_doc md5 env
                  (<[cron_newTaskId env := d0]>
                     (scraping_tasks (Orchestrator.setQueue st1 m id
                                        (Orchestrator.lockItem now item))))
                  item (Orchestrator.lockItem now item) (cron_newTaskId env) links d0)
        as (W & _ & Hd); [apply lookup_insert_eq | reflexivity |].
      eexists. split; [exact Hd|].
      destruct (fold_applyToDoc_url W d0) as [Hu _].
      split; [exact Hu|].
      rewrite fold_applyToDoc_links, length_map. simpl.
      unfold links, Orchestrator.linksWithIds. apply length_imap.
Qed.

(** X17.  What an invocation writes.  With a secret configured, a
    request whose Authorization header is not the bearer token is
    answered as unauthorized and nothing is read or written, not even
    by recovery; without a secret, or with the token, the request is
    accepted.  An accepted invocation answers idle, with the store as
    recovery left it, when no item is pending after recovery; when it
    claims an item, every other queue item and every Task other than the
    one under the new id is as recovery left it, a failed extraction
    creates no Task at all, and a successful one stores a Task under the
    new id with the item's url and one link per link found. *)
Theorem GET_footprint
    (md5 : string -> string) (cronSecret authorization : option string)
    (env : CronEnv) (st0 : Store) :
  let now := cron_start env in
  let r := CronRoute.GET md5 cronSecret authorization env st0 in
  let st := fst (Recovery.recoverStuckTasks now st0) in
  let st' := fst r in
  (forall secret, cronSecret = Some secret -> secret <> "" ->
     authorization <> Some ("Bearer " +:+ secret) -> r = (st0, CronUnauthorized)) /\
  (JS.truthy cronSecret = false \/
   (exists secret, cronSecret = Some secret /\ authorization = Some ("Bearer " +:+ secret)) ->
   CronRoute.authorized cronSecret authorization = true) /\
  (CronRoute.authorized cronSecret authorization = false -> r = (st0, CronUnauthorized)) /\
  (CronRoute.authorized cronSecret authorization = true ->
     (Orchestrator.pickItem st = None ->
        r = (st, CronAnswered (RespIdle (snd (Recovery.recoverStuckTasks now st0))))) /\
     (forall m id item, Orchestrator.pickItem st = Some (m, (id, item)) ->
        (forall m' k, (m' <> m \/ k <> id) ->
           Orchestrator.queueOf m' st' !! k = Orchestrator.queueOf m' st !! k) /\
        (forall k, k <> cron_newTaskId env ->
           scraping_tasks st' !! k = scraping_tasks st !! k) /\
        (Orchestrator.extractionOk (cron_extract env (q_url item)) = false ->
           scraping_tasks st' = scraping_tasks st) /\
        (Orchestrator.extractionOk (cron_extract env (q_url item)) = true ->
           exists d, scraping_tasks st' !! cron_newTaskId env = Some d /\
             t_url d = q_url item /\
             length (t_links d)
             = length (JS.from_nullish (ex_links (cron_extract env (q_url item))) [])))).
Proof.
  intros now r st st'. subst r st'. unfold CronRoute.GET.
  split; [|split; [|split; [|]]].
  - intros secret Hs Hne Ha. unfold CronRoute.authorized. rewrite Hs.
    unfold JS.truthy at 1. apply String.eqb_neq in Hne. rewrite Hne.
    cbn [negb JS.from_nullish].
    assert (E : String.eqb (JS.from_nullish (JS.or_truthy authorization None) "")
                           ("Bearer " +:+ secret) = false).
    { apply String.eqb_neq. unfold JS.or_truthy, JS.truthy.
      destruct authorization as [a|]; [|discriminate].
      destruct (String.eqb a "") eqn:Ea; simpl; [discriminate | congruence]. }
    now rewrite E.
  - intros [E | (secret & Hs & Ha)]; unfold CronRoute.authorized; [now rewrite E|].
    rewrite Hs, Ha. destruct (JS.truthy (Some secret)); [|reflexivity].
    cbn [JS.from_nullish]. unfold JS.or_truthy, JS.truthy.
    change (String.eqb ("Bearer " +:+ secret) "") with false. cbn [negb JS.from_nullish].
    apply String.eqb_refl.
  - intros E. now rewrite E.
  - intros E. rewrite E. cbn [fst].
    destruct (handler_footprint md5 env st0) as [Hidle Hclaim]. split.
    + intros Hp. fold now in Hidle. rewrite (Hidle Hp). reflexivity.
    + exact Hclaim.
Qed.

(** ** The order in which items are claimed *)

Lemma fold_earlier_Some l :
  forall b, exists kv, fold_left Orchestrator.earlier l (Some b) = Some kv.
Proof.
  induction l as [|x l IH]; intros b; simpl; [eauto|].
  destruct (q_createdAt (snd x)), (q_createdAt (snd b)); try apply IH.
  destruct (_ <? _)%Z; apply IH.
Qed.

Lemma fold_earlier_min l :
  forall b cb kv,
    q_createdAt (snd b) = Some cb ->
    Forall (fun x => is_Some (q_createdAt (snd x))) l ->
    fold_left Orchestrator.earlier l (Some b) = Some kv ->
    exists c, q_createdAt (snd kv) = Some c /\ (c <= cb)%Z /\
      Forall (fun x => forall cx, q_createdAt (snd x) = Some cx -> (c <= cx)%Z) l.
Proof.
  induction l as [|x l IH]; intros b cb kv Hb Hall H; simpl in H.
  - injection H as <-. exists cb. split; [exact Hb|]. split; [lia | constructor].
  - apply List.Forall_cons_iff in Hall as [[cx Hx] Hall].
    rewrite Hx, Hb in H.
    destruct (cx <? cb)%Z eqn:E.
    + apply Z.ltb_lt in E.
      destruct (IH x cx kv Hx Hall H) as (c & Hc & Hle & Hrest).
      exists c. split; [exact Hc|]. split; [lia|].
      constructor; [|exact Hrest]. intros cx' Hx'. rewrite Hx in Hx'. injection Hx' as <-. lia.
    + apply Z.ltb_ge in E.
      destruct (IH b cb kv Hb Hall H) as (c & Hc & Hle & Hrest).
      exists c. split; [exact Hc|]. split; [lia|].
      constructor; [|exact Hrest]. intros cx' Hx'. rewrite Hx in Hx'. injection Hx' as <-. lia.
Qed.

Lemma pickPending_oldest queue id item :
  Orchestrator.pickPending queue = Some (id, item) ->
  exists c, q_createdAt item = Some c /\
    forall k q cq, queue !! k = Some q -> q_status q = "pending" ->
      q_createdAt q = Some cq -> (c <= cq)%Z.
Proof.
  unfold Orchestrator.pickPending.
  set (l := List.filter _ (map_to_list queue)).
  assert (Hall : Forall (fun x : string * QueueItem => is_Some (q_createdAt (snd x))) l).
  { apply List.Forall_forall. intros x Hx. apply filter_In in Hx as [_ Hx].
    apply andb_true_iff in Hx as [_ Hx]. now apply bool_decide_eq_true_1 in Hx. }
  assert (Hmem : forall k q cq, queue !! k = Some q -> q_status q = "pending" ->
            q_createdAt q = Some cq -> In (k, q) l).
  { intros k q cq Hk Hs Hc. apply filter_In. split.
    - now apply list_elem_of_In, elem_of_map_to_list.
    - cbn [snd]. apply andb_true_iff. split; [now apply String.eqb_eq|].
      apply bool_decide_eq_true_2. rewrite Hc. eauto. }
  clearbody l. destruct l as [|b l]; [discriminate|]. simpl. intros H.
  apply List.Forall_cons_iff in Hall as [[cb Hb] Hall].
  destruct (fold_earlier_min l b cb (id, item) Hb Hall H) as (c & Hc & Hle & Hrest).
  exists c. split; [exact Hc|]. intros k q cq Hk Hs Hq.
  destruct (Hmem k q cq Hk Hs Hq) as [Heq | Hin].
  - subst b. simpl in Hb. rewrite Hb in Hq. injection Hq as <-. exact Hle.
  - rewrite List.Forall_forall in Hrest. apply (Hrest _ Hin). exact Hq.
Qed.

Lemma pickPending_None queue :
  Orchestrator.pickPending queue = None ->
  forall k q, queue !! k = Some q -> q_status q = "pending" -> q_createdAt q = None.
Proof.
  unfold Orchestrator.pickPending. intros H k q Hk Hs.
  destruct (q_createdAt q) as [c|] eqn:Ec; [|reflexivity]. exfalso.
  assert (Hin : In (k, q) (List.filter
                  (fun kv : string * QueueItem =>
                     String.eqb (q_status (snd kv)) "pending"
                     && bool_decide (is_Some (q_createdAt (snd kv))))
                  (map_to_list queue))).
  { apply filter_In. split.
    - now apply list_elem_of_In, elem_of_map_to_list.
    - cbn [snd]. apply andb_true_iff. split; [now apply String.eqb_eq|].
      apply bool_decide_eq_true_2. rewrite Ec. eauto. }
  destruct (List.filter _ (map_to_list queue)) as [|b l]; [contradiction|].
  simpl in H. destruct (fold_earlier_Some l b) as [kv Hkv]. congruence.
Qed.

(** X18.  Items are claimed oldest first, movies before web series:
    the claimed item is pending and has a creation time, no pending item
    of its collection was created earlier, and an item of the web-series
    queue is claimed only when the movies queue holds no pending item
    with a creation time.  A pending item without a creation time is
    never claimed, and nothing is claimed only when every pending item
    lacks one. *)
Theorem pick_is_oldest_pending (st : Store) :
  (forall m id item, Orchestrator.pickItem st = Some (m, (id, item)) ->
     Orchestrator.queueOf m st !! id = Some item /\
     q_status item = "pending" /\
     exists c, q_createdAt item = Some c /\
       (forall k q cq, Orchestrator.queueOf m st !! k = Some q -> q_status q = "pending" ->
          q_createdAt q = Some cq -> (c <= cq)%Z) /\
       (m = false ->
          forall k q, movies_queue st !! k = Some q -> q_status q = "pending" ->
            q_createdAt q = None)) /\
  (Orchestrator.pickItem st = None ->
     forall m k q, Orchestrator.queueOf m st !! k = Some q -> q_status q = "pending" ->
       q_createdAt q = None).
Proof.
  split.
  - intros m id item Hp.
    destruct (pickItem_pending _ _ _ _ Hp) as [Hq Hs].
    split; [exact Hq|]. split; [exact Hs|].
    unfold Orchestrator.pickItem in Hp.
    destruct (Orchestrator.pickPending (movies_queue st)) as [[k v]|] eqn:E1.
    + injection Hp as <- <- <-.
      destruct (pickPending_oldest _ _ _ E1) as (c & Hc & Hmin).
      exists c. split; [exact Hc|]. split; [exact Hmin | discriminate].
    + destruct (Orchestrator.pickPending (webseries_queue st)) as [[k v]|] eqn:E2;
        [|discriminate].
      injection Hp as <- <- <-.
      destruct (pickPending_oldest _ _ _ E2) as (c & Hc & Hmin).
      exists c. split; [exact Hc|]. split; [exact Hmin|].
      intros _. now apply pickPending_None.
  - intros Hp m k q Hk Hs. unfold Orchestrator.pickItem in Hp.
    destruct (Orchestrator.pickPending (movies_queue st)) as [[k1 v1]|] eqn:E1;
      [discriminate|].
    destruct (Orchestrator.pickPending (webseries_queue st)) as [[k2 v2]|] eqn:E2;
      [discriminate|].
    destruct m; simpl in Hk;
      [apply (pickPending_None _ E1 k q Hk Hs) | apply (pickPending_None _ E2 k q Hk Hs)].
Qed.

(** ** The Task document after a run *)

Lemma fold_applyToDoc_status W :
  forall d0, W <> [] ->
    t_status (fold_left Orchestrator.applyToDoc W d0)
    = Persist.aggregateStatus (t_links (fold_left Orchestrator.applyToDoc W d0)).
Proof.
  induction W as [|w W IH] using rev_ind; intros d0 Hne; [contradiction|].
  rewrite fold_left_app. reflexivity.
Qed.

Lemma link_unwritten W l :
  List.filter (Orchestrator.writeFor l) W = [] ->
  fold_left Orchestrator.writeLink W l = l.
Proof. intros H. now rewrite fold_writeLink_filter, H. Qed.

Lemma link_written_once taskId ls ws others W l k w :
  Forall2 (Orchestrator.issuedFor taskId) ls ws ->
  NoDup (map l_id ls) -> NoDup (map l_link ls) ->
  ls !! k = Some l -> ws !! k = Some w ->
  List.filter (Orchestrator.writeFor l) others = [] ->
  Permutation W (others ++ ws) ->
  fold_left Orchestrator.writeLink W l = Persist.updateLink (sc_now w) (sc_result w) l.
Proof.
  intros Hrel Hids Hurls Hl Hw Hoth HW.
  pose proof (writeFor_unique taskId ls ws Hrel Hids Hurls k l w Hl Hw) as Hone.
  assert (Hf : List.filter (Orchestrator.writeFor l) W = [w]).
  { apply (List_filter_Permutation (Orchestrator.writeFor l)) in HW.
    rewrite List.filter_app, Hoth, Hone in HW. simpl in HW.
    symmetry in HW. now apply Permutation_length_1_inv in HW. }
  rewrite fold_writeLink_filter, Hf. simpl.
  assert (Hin : In w (List.filter (Orchestrator.writeFor l) ws))
    by (rewrite Hone; now left).
  apply filter_In in Hin as [_ Ht]. unfold Orchestrator.writeLink. now rewrite Ht.
Qed.

(** The write of each direct link carries the status its resolution
    returned. *)
Lemma direct_writes_status md5 (linkEnv : Link -> LinkEnv) taskId extractedBy ls :
  Forall2 (fun l w =>
             r_status (sc_result w)
             = Some (pl_status (run_result
                                  (LinkProcessor.processLink md5 (linkEnv l) l (l_id l)
                                     taskId extractedBy 1))))
    ls
    (flat_map (fun r => LinkProcessor.savesOf (run_events r))
       (map (fun l => LinkProcessor.processLink md5 (linkEnv l) l (l_id l) taskId extractedBy 1)
            ls)).
Proof.
  induction ls as [|l ls IH]; simpl; [constructor|].
  destruct (processLink_shape md5 (linkEnv l) l (l_id l) taskId extractedBy)
    as (_ & _ & w0 & Hsaves & _ & _ & _ & Hst & _).
  rewrite Hsaves. simpl. constructor; [exact Hst | exact IH].
Qed.

(** Every link of the Task after a run: a link that was not pending is
    untouched, a direct link carries the status its resolution
    returned, a timer link the status of the one write made for it. *)
Lemma resolveLinks_links md5 env tasks item stored taskId links d0 :
  tasks !! taskId = Some d0 -> t_links d0 = links ->
  NoDup (map l_id links) -> NoDup (map l_link links) ->
  let res := Orchestrator.resolveLinks md5 env tasks item stored taskId links in
  let P := List.filter Orchestrator.isPendingLink links in
  let T := List.filter Orchestrator.isTimerLink P in
  let D := List.filter (fun l => negb (Orchestrator.isTimerLink l)) P in
  exists d, Orchestrator.res_tasks res !! taskId = Some d /\
    (P <> [] -> t_status d = Persist.aggregateStatus (t_links d)) /\
    length (t_links d) = length links /\
    forall p l, links !! p = Some l ->
      exists l', t_links d !! p = Some l' /\
        (Orchestrator.isPendingLink l = false -> l' = l) /\
        (Orchestrator.isPendingLink l = true -> Orchestrator.isTimerLink l = false ->
           exists k run, D !! k = Some l /\ Orchestrator.res_direct res !! k = Some run /\
             l_status l' = Some (pl_status (run_result run))) /\
        (Orchestrator.isPendingLink l = true -> Orchestrator.isTimerLink l = true ->
           exists k w, T !! k = Some l /\
             tr_writes (Orchestrator.res_timer res) !! k = Some w /\
             l_status l' = Some (JS.from_nullish (r_status (sc_result w)) "error")).
Proof.
  intros Hd0 Hlinks Hids Hurls res P T D. subst res.
  unfold Orchestrator.resolveLinks. cbv zeta. simpl. fold P. fold T. fold D.
  set (timer := Orchestrator.timerLoop md5 (cron_clock env) (cron_start env)
                  (cron_linkEnv env) taskId "Server/Auto-Pilot"
                  Orchestrator.DEFER_MESSAGE 0 T).
  set (runs := map (fun l => LinkProcessor.processLink md5 (cron_linkEnv env l) l (l_id l)
                               taskId "Server/Auto-Pilot" 1) D).
  set (Dw := flat_map (fun r => LinkProcessor.savesOf (run_events r)) runs).
  set (Tw := tr_writes timer).
  set (W := Orchestrator.interleave (cron_schedule env) Dw Tw).
  destruct (timerLoop_writes md5 (cron_clock env) (cron_start env) (cron_linkEnv env)
              taskId "Server/Auto-Pilot" Orchestrator.DEFER_MESSAGE T 0) as (HrelT & _).
  fold timer in HrelT. fold Tw in HrelT.
  pose proof (direct_writes_issued md5 (cron_linkEnv env) taskId "Server/Auto-Pilot" D)
    as HrelD.
  fold runs in HrelD. fold Dw in HrelD.
  pose proof (direct_writes_status md5 (cron_linkEnv env) taskId "Server/Auto-Pilot" D)
    as HstD.
  fold runs in HstD. fold Dw in HstD.
  assert (HW : Permutation W (Dw ++ Tw)) by apply interleave_Permutation.
  assert (HWt : Forall (fun w => sc_taskId w = taskId) W).
  { apply interleave_Forall; eapply issuedFor_taskId; eauto. }
  assert (HP : forall l', In l' P -> In l' links /\ Orchestrator.isPendingLink l' = true)
    by (intros l' H; apply filter_In in H; exact H).
  assert (HT : forall l', In l' T -> In l' P /\ Orchestrator.isTimerLink l' = true)
    by (intros l' H; apply filter_In in H; exact H).
  assert (HD : forall l', In l' D -> In l' P /\ Orchestrator.isTimerLink l' = false).
  { intros l' H. apply filter_In in H as [H1 H2]. apply negb_true_iff in H2. auto. }
  assert (HidsP : NoDup (map l_id P) /\ NoDup (map l_link P))
    by (unfold P; auto using NoDup_map_filter).
  exists (fold_left Orchestrator.applyToDoc W d0).
  split; [now apply applyWrites_lookup|]. split; [|split].
  - intros HPne. apply fold_applyToDoc_status. intros HWnil.
    apply Permutation_length in HW. rewrite HWnil, length_app in HW. simpl in HW.
    apply Forall2_length in HrelT, HrelD.
    pose proof (filter_split_length Orchestrator.isTimerLink P) as Hsplit.
    fold T D in Hsplit. destruct P; [contradiction | simpl in Hsplit; lia].
  - rewrite fold_applyToDoc_links, length_map. now rewrite Hlinks.
  - intros p l Hp.
    assert (Hin : In l links) by (apply list_elem_of_In; eapply list_elem_of_lookup_2; eauto).
    exists (fold_left Orchestrator.writeLink W l). split.
    { rewrite fold_applyToDoc_links, Hlinks.
      change (map ?f links) with (f <$> links). now rewrite list_lookup_fmap, Hp. }
    assert (HnoD : Orchestrator.isPendingLink l = false \/ Orchestrator.isTimerLink l = true ->
              List.filter (Orchestrator.writeFor l) Dw = []).
    { intros Hc. apply (writeFor_none taskId D _ l HrelD). intros l' Hl'.
      destruct (HD l' Hl') as [Hl'P Hl't]. destruct (HP l' Hl'P) as [Hl'in Hp'].
      apply (distinct_keys links); auto. intros ->. destruct Hc; congruence. }
    assert (HnoT : Orchestrator.isPendingLink l = false \/ Orchestrator.isTimerLink l = false ->
              List.filter (Orchestrator.writeFor l) Tw = []).
    { intros Hc. apply (writeFor_none taskId T _ l HrelT). intros l' Hl'.
      destruct (HT l' Hl') as [Hl'P Hl't]. destruct (HP l' Hl'P) as [Hl'in Hp'].
      apply (distinct_keys links); auto. intros ->. destruct Hc; congruence. }
    split; [|split].
    + intros Hnp. apply link_unwritten.
      apply (List_filter_Permutation (Orchestrator.writeFor l)) in HW.
      rewrite List.filter_app, HnoD, HnoT in HW by auto. simpl in HW.
      now apply Permutation_nil_r in HW.
    + intros Hpend Hdir.
      assert (HinD : In l D).
      { apply filter_In. split; [apply filter_In; auto | now rewrite Hdir]. }
      apply list_elem_of_In, list_elem_of_lookup_1 in HinD as [k Hk].
      destruct (Forall2_lookup_l _ _ _ _ _ HrelD Hk) as (w & Hw & _).
      destruct (Forall2_lookup_l _ _ _ _ _ HstD Hk) as (w' & Hw' & Hst).
      assert (w' = w) as -> by congruence.
      exists k, (LinkProcessor.processLink md5 (cron_linkEnv env l) l (l_id l) taskId
                   "Server/Auto-Pilot" 1).
      split; [exact Hk|]. split.
      { unfold runs. change (map ?f D) with (f <$> D). now rewrite list_lookup_fmap, Hk. }
      rewrite (link_written_once taskId D Dw Tw W l k w); auto.
      * simpl. now rewrite Hst.
      * unfold D. destruct HidsP. auto using NoDup_map_filter.
      * unfold D. destruct HidsP. auto using NoDup_map_filter.
      * etransitivity; [exact HW | apply Permutation_app_comm].
    + intros Hpend Htim.
      assert (HinT : In l T).
      { apply filter_In. split; [apply filter_In; auto | exact Htim]. }
      apply list_elem_of_In, list_elem_of_lookup_1 in HinT as [k Hk].
      destruct (Forall2_lookup_l _ _ _ _ _ HrelT Hk) as (w & Hw & _).
      exists k, w. split; [exact Hk|]. split; [exact Hw|].
      rewrite (link_written_once taskId T Tw Dw W l k w); auto.
      * unfold T. destruct HidsP. auto using NoDup_map_filter.
      * unfold T. destruct HidsP. auto using NoDup_map_filter.
Qed.

(** When the budget holds, the timer loop resolves every link it was
    given, each with its own collaborators. *)
Lemma timerLoop_results_all md5 clock start linkEnv taskId extractedBy message links :
  forall i,
    let run := Orchestrator.timerLoop md5 clock start linkEnv taskId extractedBy message i links in
    tr_deferred run = false ->
    tr_results run
    = map (fun l => run_result (LinkProcessor.processLink md5 (linkEnv l) l (l_id l)
                                  taskId extractedBy 1)) links.
Proof.
  induction links as [|l rest IH]; intros i; simpl; [reflexivity|].
  destruct (_ >? _)%Z; simpl; [discriminate|].
  intros Hd. f_equal. now apply IH.
Qed.

Lemma filter_filter_split {A} (f g : A -> bool) (l : list A) :
  (length (List.filter f (List.filter g l))
   + length (List.filter f (List.filter (fun x => negb (g x)) l)))%nat
  = length (List.filter f l).
Proof.
  induction l as [|x l IH]; simpl; [reflexivity|].
  destruct (g x), (f x) eqn:Ef; simpl; rewrite ?Ef; simpl; lia.
Qed.

Lemma filter_length_ext_in {A} (f g : A -> bool) (l : list A) :
  (forall x, In x l -> f x = g x) ->
  length (List.filter f l) = length (List.filter g l).
Proof.
  induction l as [|x l IH]; simpl; intros H; [reflexivity|].
  rewrite (H x) by now left. destruct (g x); simpl; rewrite IH; auto.
Qed.

Lemma filter_length_Forall2 {A B} (f : A -> bool) (g : B -> bool) (R : A -> B -> Prop) l l' :
  (forall x y, R x y -> f x = g y) -> Forall2 R l l' ->
  length (List.filter f l) = length (List.filter g l').
Proof.
  intros H HF. induction HF as [|x y l l' Hxy HF IH]; simpl; [reflexivity|].
  rewrite (H x y Hxy). destruct (g y); simpl; rewrite IH; auto.
Qed.

Lemma filter_length_map {A B} (f : B -> bool) (h : A -> B) (l : list A) :
  length (List.filter f (map h l)) = length (List.filter (fun x => f (h x)) l).
Proof.
  induction l as [|x l IH]; simpl; [reflexivity|].
  destruct (f (h x)); simpl; rewrite IH; auto.
Qed.

Lemma done_or_error_link l s :
  s = "done" \/ s = "error" -> l_status l = Some s ->
  Persist.isTerminalLink l = true /\ Persist.isSuccessLink l = String.eqb s "done".
Proof.
  intros Hs Hl. unfold Persist.isTerminalLink, Persist.isSuccessLink, status_lc.
  rewrite Hl. destruct Hs as [-> | ->]; split; reflexivity.
Qed.

Lemma filter_Forall_id {A} (p : A -> bool) (l : list A) :
  Forall (fun x => p x = true) l -> List.filter p l = l.
Proof.
  induction 1 as [|x l Hx _ IH]; simpl; [reflexivity|]. now rewrite Hx, IH.
Qed.

(** The counters and the verdict of a run, in terms of the timer loop
    and the direct resolutions. *)
Lemma resolveLinks_fields md5 env tasks item stored taskId links :
  let res := Orchestrator.resolveLinks md5 env tasks item stored taskId links in
  let P := List.filter Orchestrator.isPendingLink links in
  let T := List.filter Orchestrator.isTimerLink P in
  let D := List.filter (fun l => negb (Orchestrator.isTimerLink l)) P in
  let proc := fun l => LinkProcessor.processLink md5 (cron_linkEnv env l) l (l_id l)
                         taskId "Server/Auto-Pilot" 1 in
  let timer := Orchestrator.timerLoop md5 (cron_clock env) (cron_start env)
                 (cron_linkEnv env) taskId "Server/Auto-Pilot"
                 Orchestrator.DEFER_MESSAGE 0 T in
  Orchestrator.res_timer res = timer /\
  Orchestrator.res_direct res = map proc D /\
  Orchestrator.res_deferred res = tr_deferred timer /\
  Orchestrator.res_doneCount res
  = (length (List.filter (fun l => String.eqb (pl_status (run_result (proc l))) "done") D)
     + Orchestrator.countTimerDone (tr_results timer))%nat /\
  Orchestrator.res_errorCount res
  = (length (List.filter (fun l => String.eqb (pl_status (run_result (proc l))) "error") D)
     + Orchestrator.countTimerErrors (tr_results timer))%nat /\
  q_status (Orchestrator.res_item res)
  = (if tr_deferred timer then "pending"
     else if Orchestrator.allLinksSucceeded (tr_deferred timer)
               (Orchestrator.res_errorCount res) (Orchestrator.res_doneCount res) (length P)
          then "completed" else "failed").
Proof.
  intros res P T D proc timer. subst res. unfold Orchestrator.resolveLinks. cbv zeta.
  cbn [Orchestrator.res_timer Orchestrator.res_direct Orchestrator.res_deferred
       Orchestrator.res_doneCount Orchestrator.res_errorCount Orchestrator.res_item].
  fold P. fold T. fold D. fold timer.
  split; [reflexivity|]. split; [reflexivity|]. split; [reflexivity|].
  split; [|split].
  - f_equal. unfold Orchestrator.countDirectDone. rewrite !map_map.
    rewrite filter_length_map. reflexivity.
  - f_equal. unfold Orchestrator.countDirectErrors. rewrite !map_map.
    rewrite filter_length_map. reflexivity.
  - match goal with
    | |- context [Orchestrator.finishItem ?n item stored taskId ?d ?s ?e ?p] =>
        destruct (finishItem_status n item stored taskId d s e p) as (-> & _)
    end.
    reflexivity.
Qed.

Lemma done_or_error_counts (s : string) :
  s = "done" \/ s = "error" ->
  (String.eqb s "done" || String.eqb s "success") = String.eqb s "done" /\
  (String.eqb s "error" || String.eqb s "failed") = String.eqb s "error" /\
  String.eqb s "error" = negb (String.eqb s "done").
Proof. intros [-> | ->]; repeat split. Qed.

(** The verdicts of a run over fresh links: what the Task document and
    the queue item say afterwards. *)
Lemma resolveLinks_verdict md5 env tasks item stored taskId links d0 :
  tasks !! taskId = Some d0 -> t_links d0 = links ->
  NoDup (map l_id links) -> NoDup (map l_link links) ->
  Forall (fun l => Orchestrator.isPendingLink l = true) links -> links <> [] ->
  let res := Orchestrator.resolveLinks md5 env tasks item stored taskId links in
  exists d, Orchestrator.res_tasks res !! taskId = Some d /\
    length (t_links d) = length links /\
    (Orchestrator.res_deferred res = true ->
       q_status (Orchestrator.res_item res) = "pending" /\ t_status d = "processing") /\
    (Orchestrator.res_deferred res = false ->
       forallb Persist.isTerminalLink (t_links d) = true /\
       Orchestrator.res_doneCount res
       = length (List.filter Persist.isSuccessLink (t_links d)) /\
       t_status d = (if (0 <? Orchestrator.res_doneCount res)%nat
                     then "completed" else "failed") /\
       q_status (Orchestrator.res_item res)
       = (if (Orchestrator.res_doneCount res =? length links)%nat
          then "completed" else "failed")).
Proof.
  intros Hd0 Hlinks Hids Hurls Hpend Hne res.
  destruct (resolveLinks_links md5 env tasks item stored taskId links d0 Hd0 Hlinks Hids Hurls)
    as (d & Hd & Hagg & Hlen & Hpt).
  destruct (resolveLinks_fields md5 env tasks item stored taskId links)
    as (Htimer & Hdirect & Hdef & Hdone & Herr & Hq).
  fold res in Hd, Hpt, Htimer, Hdirect, Hdef, Hdone, Herr, Hq.
  rewrite (filter_Forall_id _ links Hpend) in *.
  set (T := List.filter Orchestrator.isTimerLink links) in *.
  set (D := List.filter (fun l => negb (Orchestrator.isTimerLink l)) links) in *.
  set (proc := fun l => LinkProcessor.processLink md5 (cron_linkEnv env l) l (l_id l)
                          taskId "Server/Auto-Pilot" 1) in *.
  set (timer := Orchestrator.timerLoop md5 (cron_clock env) (cron_start env)
                  (cron_linkEnv env) taskId "Server/Auto-Pilot"
                  Orchestrator.DEFER_MESSAGE 0 T) in *.
  specialize (Hagg Hne).
  change (Orchestrator.res_doneCount res
          = (length (List.filter
                       (fun l => String.eqb (pl_status (run_result (proc l))) "done") D)
             + Orchestrator.countTimerDone (tr_results timer))%nat) in Hdone.
  change (Orchestrator.res_errorCount res
          = (length (List.filter
                       (fun l => String.eqb (pl_status (run_result (proc l))) "error") D)
             + Orchestrator.countTimerErrors (tr_results timer))%nat) in Herr.
  destruct (timerLoop_counts md5 (cron_clock env) (cron_start env) (cron_linkEnv env)
              taskId "Server/Auto-Pilot" Orchestrator.DEFER_MESSAGE T 0)
    as (Hcnt & _ & Hall & Hsome & _).
  destruct (timerLoop_writes md5 (cron_clock env) (cron_start env) (cron_linkEnv env)
              taskId "Server/Auto-Pilot" Orchestrator.DEFER_MESSAGE T 0) as (HrelT & HwT).
  fold timer in Hcnt, Hall, Hsome, HrelT, HwT.
  assert (Hshape : forall l, pl_status (run_result (proc l)) = "done"
                             \/ pl_status (run_result (proc l)) = "error").
  { intros l. apply (processLink_shape md5 (cron_linkEnv env l) l (l_id l) taskId
                       "Server/Auto-Pilot"). }
  exists d. split; [exact Hd|]. split; [exact Hlen|]. split.
  - (* some timer link was not started *)
    intros Hdf. rewrite Hdef in Hdf. split; [now rewrite Hq, Hdf|].
    rewrite Hagg. unfold Persist.aggregateStatus.
    specialize (Hsome Hdf).
    destruct (lookup_lt_is_Some_2 T (tr_started timer) Hsome) as [l Hl].
    assert (Hin : In l links).
    { apply list_elem_of_lookup_2, list_elem_of_In, filter_In in Hl. tauto. }
    assert (Htl : Orchestrator.isTimerLink l = true).
    { apply list_elem_of_lookup_2, list_elem_of_In, filter_In in Hl. tauto. }
    apply list_elem_of_In, list_elem_of_lookup_1 in Hin as [p Hp].
    destruct (Hpt p l Hp) as (l' & Hl' & _ & _ & Htim).
    assert (Hpl : Orchestrator.isPendingLink l = true).
    { rewrite List.Forall_forall in Hpend. apply Hpend.
      apply list_elem_of_In. eapply list_elem_of_lookup_2; eauto. }
    destruct (Htim Hpl Htl) as (k & w & Hk & Hw & Hst).
    rewrite Htimer in Hw.
    assert (k = tr_started timer) as ->.
    { eapply NoDup_lookup; [|exact Hk|exact Hl].
      eapply NoDup_fmap_1 with (f := l_id). unfold T. now apply NoDup_map_filter. }
    destruct (HwT _ w Hw) as (_ & Hlate). destruct Hlate as (Hpw & _); [lia|].
    rewrite Hpw in Hst. simpl in Hst.
    assert (Hnt : forallb Persist.isTerminalLink (t_links d) = false).
    { apply not_true_is_false. intros Hall'. rewrite forallb_forall in Hall'.
      assert (Hin' : In l' (t_links d))
        by (apply list_elem_of_In; eapply list_elem_of_lookup_2; eauto).
      specialize (Hall' l' Hin'). unfold Persist.isTerminalLink, status_lc in Hall'.
      rewrite Hst in Hall'. discriminate Hall'. }
    now rewrite Hnt.
  - intros Hdf. rewrite Hdef in Hdf.
    pose proof (timerLoop_results_all md5 (cron_clock env) (cron_start env) (cron_linkEnv env)
                  taskId "Server/Auto-Pilot" Orchestrator.DEFER_MESSAGE T 0 Hdf) as Hres.
    fold timer in Hres. specialize (Hall Hdf).
    change (tr_results timer = map (fun l => run_result (proc l)) T) in Hres.
    (* every link carries the status of its own resolution *)
    assert (Hrel : Forall2 (fun l l' => l_status l' = Some (pl_status (run_result (proc l))))
                     links (t_links d)).
    { apply Forall2_same_length_lookup_2; [now symmetry|].
      intros p l l' Hp Hl'.
      assert (Hpl : Orchestrator.isPendingLink l = true).
      { rewrite List.Forall_forall in Hpend. apply Hpend.
        apply list_elem_of_In. eapply list_elem_of_lookup_2; eauto. }
      destruct (Hpt p l Hp) as (l2 & Hl2 & _ & Hdir & Htim).
      assert (l2 = l') as -> by congruence.
      destruct (Orchestrator.isTimerLink l) eqn:Etl.
      - destruct (Htim Hpl eq_refl) as (k & w & Hk & Hw & Hst).
        rewrite Htimer in Hw.
        assert (Hkl : (k < tr_started timer)%nat).
        { rewrite Hall. eapply lookup_lt_Some; eauto. }
        destruct (HwT _ w Hw) as (Hearly & _).
        destruct (Hearly Hkl) as (r & Hr & Hrs & _).
        rewrite Hres in Hr. change (map ?f T) with (f <$> T) in Hr.
        rewrite list_lookup_fmap, Hk in Hr. injection Hr as <-.
        rewrite Hst, Hrs. reflexivity.
      - destruct (Hdir Hpl eq_refl) as (k & run & Hk & Hrun & Hst).
        rewrite Hdirect in Hrun. change (map ?f D) with (f <$> D) in Hrun.
        rewrite list_lookup_fmap, Hk in Hrun. injection Hrun as <-. exact Hst. }
    assert (Hterm : forallb Persist.isTerminalLink (t_links d) = true).
    { apply forallb_forall. intros l' Hin'.
      apply list_elem_of_In, list_elem_of_lookup_1 in Hin' as [p Hl'].
      destruct (Forall2_lookup_r _ _ _ _ _ Hrel Hl') as (l & _ & Hst).
      now apply (done_or_error_link l' _ (Hshape l)). }
    assert (Hcount : Orchestrator.res_doneCount res
                     = length (List.filter Persist.isSuccessLink (t_links d))).
    { rewrite Hdone. unfold Orchestrator.countTimerDone. rewrite Hres, filter_length_map.
      rewrite (filter_length_ext_in
                 (fun x => String.eqb (pl_status (run_result (proc x))) "done"
                           || String.eqb (pl_status (run_result (proc x))) "success")
                 (fun l => String.eqb (pl_status (run_result (proc l))) "done") T).
      2:{ intros l _. apply (done_or_error_counts _ (Hshape l)). }
      rewrite Nat.add_comm.
      pose proof (filter_filter_split
                    (fun l => String.eqb (pl_status (run_result (proc l))) "done")
                    Orchestrator.isTimerLink links) as Hsplit.
      fold T D in Hsplit. rewrite Hsplit.
      eapply filter_length_Forall2; [|exact Hrel].
      intros l l' Hst. cbv beta in Hst. symmetry.
      now apply (done_or_error_link l' _ (Hshape l)). }
    assert (Herrs : (Orchestrator.res_errorCount res + Orchestrator.res_doneCount res)%nat
                    = length links).
    { rewrite Herr, Hdone. unfold Orchestrator.countTimerErrors, Orchestrator.countTimerDone.
      rewrite Hres, !filter_length_map.
      rewrite (filter_length_ext_in
                 (fun x => String.eqb (pl_status (run_result (proc x))) "done"
                           || String.eqb (pl_status (run_result (proc x))) "success")
                 (fun l => String.eqb (pl_status (run_result (proc l))) "done") T).
      2:{ intros l _. apply (done_or_error_counts _ (Hshape l)). }
      rewrite (filter_length_ext_in
                 (fun x => String.eqb (pl_status (run_result (proc x))) "error"
                           || String.eqb (pl_status (run_result (proc x))) "failed")
                 (fun l => negb (String.eqb (pl_status (run_result (proc l))) "done")) T).
      2:{ intros l _. destruct (done_or_error_counts _ (Hshape l)) as (_ & -> & ->).
          reflexivity. }
      rewrite (filter_length_ext_in
                 (fun l => String.eqb (pl_status (run_result (proc l))) "error")
                 (fun l => negb (String.eqb (pl_status (run_result (proc l))) "done")) D).
      2:{ intros l _. apply (done_or_error_counts _ (Hshape l)). }
      pose proof (filter_split_length
                    (fun l => String.eqb (pl_status (run_result (proc l))) "done") T) as HT.
      pose proof (filter_split_length
                    (fun l => String.eqb (pl_status (run_result (proc l))) "done") D) as HD.
      pose proof (filter_split_length Orchestrator.isTimerLink links) as HL.
      fold T D in HL. lia. }
    split; [exact Hterm|]. split; [exact Hcount|]. split.
    + rewrite Hagg. unfold Persist.aggregateStatus. rewrite Hterm, Hcount.
      destruct (List.filter Persist.isSuccessLink (t_links d)) as [|x xs] eqn:Ef; simpl.
      * destruct (existsb Persist.isSuccessLink (t_links d)) eqn:Eex; [|reflexivity].
        apply existsb_exists in Eex as (x & Hx & Hs).
        assert (In x (List.filter Persist.isSuccessLink (t_links d)))
          by (apply filter_In; auto).
        rewrite Ef in H. contradiction.
      * assert (Hx : In x (List.filter Persist.isSuccessLink (t_links d)))
          by (rewrite Ef; now left).
        apply filter_In in Hx as [Hx Hs].
        assert (existsb Persist.isSuccessLink (t_links d) = true) as ->
          by (apply existsb_exists; eauto).
        reflexivity.
    + rewrite Hq, Hdf. unfold Orchestrator.allLinksSucceeded. cbn [negb andb].
      destruct (Orchestrator.res_doneCount res =? length links)%nat eqn:E1.
      * apply Nat.eqb_eq in E1.
        assert (Orchestrator.res_errorCount res = 0)%nat as -> by lia. reflexivity.
      * apply Nat.eqb_neq in E1. now rewrite andb_false_r.
Qed.

(** X19.  What a run that found links leaves behind, when the links it
    found have distinct urls.  The Task of the new id holds one link per
    link found.  When some link was deferred the queue item is "pending"
    again and the Task is still "processing".  Otherwise every link of
    the Task is terminal, the number of links reported done is the
    number stored as done, the Task is "completed" as soon as one link
    is done and "failed" when none is, while the queue item is
    "completed" only when all of them are done and "failed" otherwise:
    after a partly successful run the Task is "completed" and its queue
    item "failed". *)
Theorem GET_task_and_queue_verdicts
    (md5 : string -> string) (env : CronEnv) (st0 : Store)
    (m : bool) (id : string) (item : QueueItem) :
  let st := fst (Recovery.recoverStuckTasks (cron_start env) st0) in
  let found := JS.from_nullish (ex_links (cron_extract env (q_url item))) [] in
  let st' := fst (Orchestrator.GET md5 env st0) in
  Orchestrator.pickItem st = Some (m, (id, item)) ->
  Orchestrator.extractionOk (cron_extract env (q_url item)) = true ->
  NoDup (map raw_link found) ->
  exists d q' recovered doneCount deferred,
    snd (Orchestrator.GET md5 env st0)
    = RespOk (cron_newTaskId env) recovered doneCount deferred /\
    scraping_tasks st' !! cron_newTaskId env = Some d /\
    Orchestrator.queueOf m st' !! id = Some q' /\
    length (t_links d) = length found /\
    (deferred = true -> q_status q' = "pending" /\ t_status d = "processing") /\
    (deferred = false ->
       forallb Persist.isTerminalLink (t_links d) = true /\
       doneCount = length (List.filter Persist.isSuccessLink (t_links d)) /\
       t_status d = (if (0 <? doneCount)%nat then "completed" else "failed") /\
       q_status q' = (if (doneCount =? length found)%nat then "completed" else "failed")).
Proof.
  intros st found st' Hp Hok Hurls. subst st'. unfold Orchestrator.GET.
  destruct (Recovery.recoverStuckTasks (cron_start env) st0) as [st1 recovered] eqn:Er.
  simpl in st. subst st. rewrite Hp, Hok. cbn [negb fst snd]. fold found.
  set (links := Orchestrator.linksWithIds found).
  set (d0 := Orchestrator.newTask (cron_start env) (q_url item)
               (cron_extract env (q_url item)) links).
  set (stored := Orchestrator.lockItem (cron_start env) item).
  set (tasks1 := <[cron_newTaskId env := d0]>
                   (scraping_tasks (Orchestrator.setQueue st1 m id stored))).
  assert (Hlen : length links = length found) by apply length_imap.
  assert (Hne : links <> []).
  { unfold Orchestrator.extractionOk in Hok. apply andb_true_iff in Hok as [_ Hpos].
    apply Nat.ltb_lt in Hpos. fold found in Hpos.
    intros E. rewrite E in Hlen. simpl in Hlen. lia. }
  destruct (resolveLinks_verdict md5 env tasks1 item stored (cron_newTaskId env) links d0)
    as (d & Hd & Hdl & Hdef & Hfin).
  - apply lookup_insert_eq.
  - reflexivity.
  - unfold links, Orchestrator.linksWithIds.
    rewrite (imap_ids _ found 0) by reflexivity. apply NoDup_seq.
  - unfold links, Orchestrator.linksWithIds. now rewrite imap_urls by reflexivity.
  - apply imap_Forall. reflexivity.
  - exact Hne.
  - exists d, (Orchestrator.res_item
                 (Orchestrator.resolveLinks md5 env tasks1 item stored
                    (cron_newTaskId env) links)), recovered.
    eexists. eexists. split; [reflexivity|].
    split; [rewrite setQueue_tasks; exact Hd|].
    split; [apply queueOf_setQueue|].
    split; [congruence|]. split; [exact Hdef|].
    rewrite <- Hlen. exact Hfin.
Qed.

Lemma GET_task_and_queue_verdicts_witness :
  exists d q',
    scraping_tasks (fst (Orchestrator.GET (fun s => s) Runs.half_env Samples.pending_store))
      !! "task-new" = Some d /\
    movies_queue (fst (Orchestrator.GET (fun s => s) Runs.half_env Samples.pending_store))
      !! "q1" = Some q' /\
    length (t_links d) = 2%nat /\
    t_status d = "completed" /\ q_status q' = "failed".
Proof.
  destruct (GET_task_and_queue_verdicts (fun s => s) Runs.half_env Samples.pending_store
              true "q1" (Samples.queue_item "pending" 0 0 ""))
    as (d & q' & recovered & doneCount & deferred & Hresp & Hd & Hq & Hlen & _ & Hfin).
  - vm_compute. reflexivity.
  - vm_compute. reflexivity.
  - vm_compute. apply NoDup_cons. split; [|apply NoDup_singleton].
    intros H. apply list_elem_of_In in H. destruct H as [H | []]. discriminate H.
  - vm_compute in Hresp. injection Hresp as <- <- <-.
    destruct (Hfin eq_refl) as (_ & _ & Ht & Hs).
    exists d, q'. repeat split; assumption.
Defined.

(** X16.  An invocation leaves no lock of its own behind.  A queue
    item that is "processing" after an invocation was "processing"
    before it and has not been touched.  When the request passed the
    guard on the secret, the item was not yet stuck, and it is not the
    item the invocation claimed: the claimed item and every stuck item
    end in another status.  A request that is refused changes nothing
    and is answered as unauthorized. *)
Theorem GET_leaves_no_lock
    (md5 : string -> string) (cronSecret authorization : option string)
    (env : CronEnv) (st0 : Store) (m : bool) (id : string) (q' : QueueItem) :
  Orchestrator.queueOf m (fst (CronRoute.GET md5 cronSecret authorization env st0)) !! id
  = Some q' ->
  q_status q' = "processing" ->
  Orchestrator.queueOf m st0 !! id = Some q' /\
  (CronRoute.authorized cronSecret authorization = true ->
     Recovery.queueItemStuck (cron_start env) q' = false /\
     Orchestrator.pickItem (fst (Recovery.recoverStuckTasks (cron_start env) st0))
     <> Some (m, (id, q'))) /\
  (CronRoute.authorized cronSecret authorization = false ->
     CronRoute.GET md5 cronSecret authorization env st0 = (st0, CronUnauthorized)).
Proof.
  unfold CronRoute.GET.
  destruct (CronRoute.authorized cronSecret authorization); cbn [fst]; intros Hq' Hs.
  - destruct (handler_leaves_no_lock md5 env st0 m id q' Hq' Hs) as (H1 & H2 & H3).
    split; [exact H1|]. split; [auto | discriminate].
  - split; [exact Hq'|]. split; [discriminate | reflexivity].
Qed.

Lemma GET_leaves_no_lock_witness :
  Orchestrator.queueOf false Runs.busy_store !! "w1"
  = Some (Samples.queue_item "processing" 0 900 "t1") /\
  Recovery.queueItemStuck (cron_start Samples.cron_env_done)
    (Samples.queue_item "processing" 0 900 "t1") = false /\
  Orchestrator.pickItem
    (fst (Recovery.recoverStuckTasks (cron_start Samples.cron_env_done) Runs.busy_store))
  <> Some (false, ("w1", Samples.queue_item "processing" 0 900 "t1")).
Proof.
  destruct (GET_leaves_no_lock (fun s => s) (Some "s3cret") (Some "Bearer s3cret")
              Samples.cron_env_done Runs.busy_store false "w1"
              (Samples.queue_item "processing" 0 900 "t1"))
    as (H1 & H2 & _).
  - vm_compute. reflexivity.
  - reflexivity.
  - split; [exact H1|]. apply H2. vm_compute. reflexivity.
Defined.

(** ** Reading the stream line by line *)

Lemma splitLines_nonempty s : Stream.splitLines s <> [].
Proof.
  destruct s as [|ch s]; simpl; [discriminate|].
  destruct (Ascii.eqb ch Stream.newline); [discriminate|].
  destruct (Stream.splitLines s); discriminate.
Qed.

Lemma removelast_cons_ne {A} (x : A) (l : list A) :
  l <> [] -> List.removelast (x :: l) = x :: List.removelast l.
Proof. destruct l; [contradiction | reflexivity]. Qed.

Lemma last_cons_ne {A} (x d : A) (l : list A) :
  l <> [] -> List.last (x :: l) d = List.last l d.
Proof. destruct l; [contradiction | reflexivity]. Qed.

(** Splitting a text that continues: the last piece of the first part
    is joined to the first piece of the rest. *)
Lemma splitLines_app a b :
  Stream.splitLines (a +:+ b)
  = List.removelast (Stream.splitLines a)
    ++ match Stream.splitLines b with
       | y :: lb => (List.last (Stream.splitLines a) "" +:+ y) :: lb
       | [] => []
       end.
Proof.
  induction a as [|ch a IH].
  - change ("" +:+ b) with b. simpl.
    destruct (Stream.splitLines b) as [|y lb]; [reflexivity|].
    change ("" +:+ y) with y. reflexivity.
  - change (String ch a +:+ b) with (String ch (a +:+ b)).
    cbn [Stream.splitLines]. rewrite IH.
    pose proof (splitLines_nonempty a) as Ha.
    pose proof (splitLines_nonempty b) as Hb.
    destruct (Stream.splitLines b) as [|y lb]; [contradiction|].
    destruct (Ascii.eqb ch Stream.newline).
    + rewrite removelast_cons_ne, last_cons_ne by exact Ha. reflexivity.
    + destruct (Stream.splitLines a) as [|l ls]; [contradiction|].
      destruct ls as [|l2 ls]; reflexivity.
Qed.

Lemma string_append_assoc (a b c : string) : (a +:+ b) +:+ c = a +:+ (b +:+ c).
Proof.
  induction a as [|ch a IH]; [reflexivity|].
  change (String ch ((a +:+ b) +:+ c) = String ch (a +:+ (b +:+ c))). now rewrite IH.
Qed.

Lemma string_append_nil_r (a : string) : a +:+ "" = a.
Proof.
  induction a as [|ch a IH]; [reflexivity|].
  change (String ch (a +:+ "") = String ch a). now rewrite IH.
Qed.

Lemma list_last_app {A} (l1 l2 : list A) (d : A) :
  l2 <> [] -> List.last (l1 ++ l2) d = List.last l2 d.
Proof.
  intros H. induction l1 as [|x l1 IH]; [reflexivity|].
  change ((x :: l1) ++ l2) with (x :: (l1 ++ l2)).
  rewrite last_cons_ne; [exact IH|]. destruct l1; [exact H | discriminate].
Qed.

(** [lines.pop() || ''] is the last piece. *)
Lemma pop_is_last (lines : list string) :
  JS.from_nullish (JS.or_truthy (last lines) None) "" = List.last lines "".
Proof.
  induction lines as [|x lines IH]; [reflexivity|].
  destruct lines as [|y lines].
  - simpl. unfold JS.or_truthy, JS.truthy.
    destruct (String.eqb x "") eqn:E; simpl; [|reflexivity].
    apply String.eqb_eq in E. now subst.
  - exact IH.
Qed.

(** The piece kept in the buffer holds no line feed. *)
Lemma splitLines_last_single s :
  Stream.splitLines (List.last (Stream.splitLines s) "") = [List.last (Stream.splitLines s) ""].
Proof.
  induction s as [|ch s IH]; [reflexivity|].
  cbn [Stream.splitLines]. pose proof (splitLines_nonempty s) as Hs.
  destruct (Ascii.eqb ch Stream.newline) eqn:E.
  - rewrite last_cons_ne by exact Hs. exact IH.
  - destruct (Stream.splitLines s) as [|l ls]; [contradiction|].
    destruct ls as [|l2 ls].
    + simpl in IH |- *. rewrite E, IH. reflexivity.
    + exact IH.
Qed.

Lemma splitLines_continue x rest :
  Stream.splitLines (x +:+ rest)
  = List.removelast (Stream.splitLines x)
    ++ Stream.splitLines (List.last (Stream.splitLines x) "" +:+ rest).
Proof.
  rewrite (splitLines_app x rest).
  rewrite (splitLines_app (List.last (Stream.splitLines x) "") rest).
  rewrite splitLines_last_single. reflexivity.
Qed.

(** The read loop hands over the pieces of the whole text except the
    last one, which stays in the buffer. *)
Lemma readLoop_text parse taskId chunks :
  forall buffer cs, Stream.splitLines buffer = [buffer] ->
    Stream.readLoop parse taskId buffer chunks cs
    = (fold_left (Stream.handleText parse taskId)
         (List.removelast (Stream.splitLines (buffer +:+ fold_right String.append "" chunks)))
         cs,
       List.last (Stream.splitLines (buffer +:+ fold_right String.append "" chunks)) "").
Proof.
  induction chunks as [|chunk rest IH]; intros buffer cs Hb.
  - simpl. rewrite string_append_nil_r, Hb. reflexivity.
  - cbn [Stream.readLoop fold_right]. unfold Stream.takeLines.
    rewrite pop_is_last.
    rewrite IH by apply splitLines_last_single.
    rewrite <- string_append_assoc.
    rewrite (splitLines_continue (buffer +:+ chunk)).
    rewrite removelast_app by apply splitLines_nonempty.
    rewrite list_last_app by apply splitLines_nonempty.
    rewrite fold_left_app. reflexivity.
Qed.

Lemma splitLines_no_line_feed s :
  forallb (fun ch => negb (Ascii.eqb ch Stream.newline)) (list_ascii_of_string s) = true ->
  Stream.splitLines s = [s].
Proof.
  induction s as [|ch s IH]; simpl; [reflexivity|].
  intros H. apply andb_true_iff in H as [Hc Hs].
  apply negb_true_iff in Hc. rewrite Hc, (IH Hs). reflexivity.
Qed.

Lemma splitLines_ends_with_line_feed s :
  Stream.splitLines (s +:+ String Stream.newline "") = Stream.splitLines s ++ [""].
Proof.
  rewrite splitLines_app.
  change (Stream.splitLines (String Stream.newline "")) with ["" ; ""].
  cbv beta iota. rewrite string_append_nil_r.
  change (List.removelast (Stream.splitLines s) ++ [List.last (Stream.splitLines s) ""; ""])
    with (List.removelast (Stream.splitLines s) ++ [List.last (Stream.splitLines s) ""] ++ [""]).
  rewrite app_assoc. f_equal.
  symmetry. apply (app_removelast_last ""). apply splitLines_nonempty.
Qed.

(** X20.  The lines of a stream do not depend on how the network cuts
    it into chunks: the read loop handles, in order, every piece of the
    whole text that is followed by a line feed, and keeps the rest in
    its buffer, so two ways of cutting the same text leave the same
    state.  What follows the last line feed is never handled: a
    response without a line feed changes nothing, and a response that
    ends with a line feed has every one of its lines handled. *)
Theorem stream_lines_ignore_chunking
    (parse : string -> option StreamMsg) (taskId : string) (chunks : list string)
    (cs : Client * Overlay.StreamLocal) :
  let text := fold_right String.append "" chunks in
  Stream.readLoop parse taskId "" chunks cs
  = (fold_left (Stream.handleText parse taskId)
       (List.removelast (Stream.splitLines text)) cs,
     List.last (Stream.splitLines text) "") /\
  (forall chunks', fold_right String.append "" chunks' = text ->
     Stream.readLoop parse taskId "" chunks' cs = Stream.readLoop parse taskId "" chunks cs) /\
  (forallb (fun ch => negb (Ascii.eqb ch Stream.newline)) (list_ascii_of_string text) = true ->
     Stream.readLoop parse taskId "" chunks cs = (cs, text)) /\
  (forall body, text = body +:+ String Stream.newline "" ->
     Stream.readLoop parse taskId "" chunks cs
     = (fold_left (Stream.handleText parse taskId) (Stream.splitLines body) cs, "")).
Proof.
  intros text.
  assert (H : forall l, Stream.readLoop parse taskId "" l cs
              = (fold_left (Stream.handleText parse taskId)
                   (List.removelast (Stream.splitLines (fold_right String.append "" l))) cs,
                 List.last (Stream.splitLines (fold_right String.append "" l)) "")).
  { intros l. now rewrite (readLoop_text parse taskId l "" cs). }
  split; [apply H|]. split; [|split].
  - intros chunks' E. rewrite !H. fold text. now rewrite E.
  - intros Hn. rewrite H. fold text. now rewrite (splitLines_no_line_feed text Hn).
  - intros body E. rewrite H. fold text. rewrite E, splitLines_ends_with_line_feed.
    now rewrite removelast_last, last_last.
Qed.

(** ** What the stream writes *)

Lemma isTerminalWord_inv o :
  Overlay.isTerminalWord o = true -> o = Some "done" \/ o = Some "error".
Proof.
  destruct o as [w|]; simpl; [|discriminate].
  intros H. apply orb_true_iff in H as [H | H]; apply String.eqb_eq in H; subst; auto.
Qed.

(** One line of the stream touches the live maps and at most one
    position of the shield of its task, where it writes "done" or
    "error". *)
Lemma handleLine_effect taskId data c s :
  let c' := fst (Overlay.handleLine taskId data c s) in
  tasks c' = tasks c /\ activeTaskId c' = activeTaskId c /\
  streamStarted c' = streamStarted c /\ streamEndedAt c' = streamEndedAt c /\
  (completedLinks c' = completedLinks c \/
   exists m e, completedLinks c !! taskId = Some m /\
     completedLinks c' = <[taskId := <[m_id data := e]> m]> (completedLinks c) /\
     (sh_status e = "done" \/ sh_status e = "error")).
Proof.
  unfold Overlay.handleLine.
  destruct (JS.truthy (m_msg data) && JS.truthy (m_type data));
    destruct (JS.truthy (m_final data));
    (destruct (Overlay.isTerminalWord (m_status data)) eqn:Et;
     [ apply isTerminalWord_inv in Et
     | destruct (bool_decide (m_status data = Some "finished"));
       [ match goal with
         | |- context [Overlay.isTerminalWord ?o] => destruct (Overlay.isTerminalWord o)
         end
       | ] ]);
    unfold Overlay.shieldStore; cbn [completedLinks Overlay.setLive];
    destruct (completedLinks c !! taskId) as [m|] eqn:Em;
    cbn [fst tasks activeTaskId streamStarted streamEndedAt completedLinks Overlay.setLive];
    repeat split; auto;
    right; eexists; eexists; (split; [reflexivity|]); (split; [reflexivity|]);
    cbn [sh_status]; try (right; reflexivity);
    destruct Et as [-> | ->]; simpl; auto.
Qed.

Lemma wroteOnly_refl taskId c : Stream.wroteOnly taskId c c.
Proof.
  repeat split; auto. intros m Hm. exists m. split; [exact Hm|]. intros i. now left.
Qed.

Lemma wroteOnly_trans taskId c1 c2 c3 :
  Stream.wroteOnly taskId c1 c2 -> Stream.wroteOnly taskId c2 c3 ->
  Stream.wroteOnly taskId c1 c3.
Proof.
  intros (A1 & A2 & A3 & A4 & A5 & A6 & A7) (B1 & B2 & B3 & B4 & B5 & B6 & B7).
  split; [congruence|]. split; [congruence|]. split; [congruence|]. split; [congruence|].
  split; [|split].
  - intros id Hid. rewrite B5, A5 by exact Hid. reflexivity.
  - intros Hn. auto.
  - intros m Hm. destruct (A7 m Hm) as (m2 & Hm2 & H2).
    destruct (B7 m2 Hm2) as (m3 & Hm3 & H3).
    exists m3. split; [exact Hm3|]. intros i.
    destruct (H3 i) as [E3 | E3]; [|now right].
    rewrite E3. apply H2.
Qed.

Lemma handleLine_wroteOnly taskId data c s :
  Stream.wroteOnly taskId c (fst (Overlay.handleLine taskId data c s)).
Proof.
  destruct (handleLine_effect taskId data c s) as (H1 & H2 & H3 & H4 & H5).
  split; [exact H1|]. split; [exact H2|]. split; [exact H3|]. split; [exact H4|].
  destruct H5 as [E | (m & e & Hm & E & He)]; rewrite E.
  - split; [reflexivity|]. split; [auto|].
    intros m Hm. exists m. split; [exact Hm|]. intros i. now left.
  - split; [|split].
    + intros id Hid. now rewrite lookup_insert_ne by congruence.
    + intros Hn. congruence.
    + intros m0 Hm0. assert (m0 = m) as -> by congruence.
      exists (<[m_id data := e]> m). split; [apply lookup_insert_eq|].
      intros i. destruct (decide (i = m_id data)) as [-> | Hi].
      * right. exists e. split; [apply lookup_insert_eq | exact He].
      * left. now rewrite lookup_insert_ne by congruence.
Qed.

Lemma handleText_wroteOnly parse taskId cs line :
  Stream.wroteOnly taskId (fst cs) (fst (Stream.handleText parse taskId cs line)).
Proof.
  unfold Stream.handleText.
  destruct (String.eqb (JS.trim line) ""); [apply wroteOnly_refl|].
  destruct (parse line) as [data|]; [apply handleLine_wroteOnly | apply wroteOnly_refl].
Qed.

Lemma fold_handleText_wroteOnly parse taskId lines :
  forall cs,
    Stream.wroteOnly taskId (fst cs) (fst (fold_left (Stream.handleText parse taskId) lines cs)).
Proof.
  induction lines as [|line lines IH]; intros cs; [apply wroteOnly_refl|].
  simpl. eapply wroteOnly_trans; [apply handleText_wroteOnly | apply IH].
Qed.

Lemma readLoop_wroteOnly parse taskId chunks :
  forall buffer cs,
    Stream.wroteOnly taskId (fst cs)
      (fst (fst (Stream.readLoop parse taskId buffer chunks cs))).
Proof.
  induction chunks as [|chunk rest IH]; intros buffer cs; [apply wroteOnly_refl|].
  cbn [Stream.readLoop]. destruct (Stream.takeLines buffer chunk) as [lines buffer'].
  eapply wroteOnly_trans; [apply fold_handleText_wroteOnly | apply IH].
Qed.

Lemma wroteOnly_final taskId c c' :
  Stream.wroteOnly taskId c c' -> Stream.shieldsFinal c -> Stream.shieldsFinal c'.
Proof.
  intros (_ & _ & _ & _ & Hother & Hnone & Hsome) Hinv id m' i e Hm' He.
  destruct (decide (id = taskId)) as [-> | Hid].
  - destruct (completedLinks c !! taskId) as [m|] eqn:Em.
    + destruct (Hsome m eq_refl) as (m2 & Hm2 & Hpos).
      assert (m2 = m') as -> by congruence.
      destruct (Hpos i) as [E | (e2 & E & Hfin)].
      * rewrite E in He. exact (Hinv taskId m i e Em He).
      * assert (e2 = e) as -> by congruence. exact Hfin.
    + rewrite (Hnone eq_refl) in Hm'. discriminate.
  - rewrite Hother in Hm' by exact Hid. exact (Hinv id m' i e Hm' He).
Qed.

Lemma startLiveStream_run parse respond c now taskId links :
  taskId ∉ streamStarted c ->
  exists c2,
    Stream.startLiveStream parse respond c now taskId links
    = (Overlay.streamFinally taskId now c2,
       Some (Intake.linksToSend (Overlay.shieldOf c taskId) links)) /\
    tasks c2 = tasks c /\ streamStarted c2 = {[taskId]} ∪ streamStarted c /\
    streamEndedAt c2 = streamEndedAt c /\
    (forall id, id <> taskId -> completedLinks c2 !! id = completedLinks c !! id) /\
    (completedLinks c !! taskId = None -> completedLinks c2 !! taskId = None) /\
    (forall m, completedLinks c !! taskId = Some m ->
       exists m', completedLinks c2 !! taskId = Some m' /\
         forall i, m' !! i = m !! i \/
                   exists e, m' !! i = Some e /\
                     (sh_status e = "done" \/ sh_status e = "error")).
Proof.
  intros Hns. unfold Stream.startLiveStream.
  rewrite bool_decide_eq_false_2 by exact Hns.
  match goal with
  | |- context [Stream.readLoop parse taskId "" ?chunks (?c1, ?s1)] =>
      pose proof (readLoop_wroteOnly parse taskId chunks "" (c1, s1)) as H;
      destruct (Stream.readLoop parse taskId "" chunks (c1, s1)) as [[c2 s2] buffer]
  end.
  cbn [fst] in H. destruct H as (H1 & _ & H3 & H4 & H5 & H6 & H7).
  cbn [tasks streamStarted streamEndedAt completedLinks] in *.
  exists c2. repeat split; auto.
Qed.

Lemma shieldOf_lookup c taskId i e :
  Overlay.shieldOf c taskId !! i = Some e <->
  exists m, completedLinks c !! taskId = Some m /\ m !! i = Some e.
Proof.
  unfold Overlay.shieldOf. destruct (completedLinks c !! taskId) as [m|]; simpl.
  - split; [eauto | intros (m' & E & H); congruence].
  - rewrite lookup_empty. split; [discriminate | intros (m' & E & _); discriminate].
Qed.

(** X21.  A shield never holds anything but final results.  Every
    entry written to a shield reports "done" or "error", and this is
    kept by each line of a stream, by a whole stream, by a poll, by the
    creation of an empty shield and by the removal of a task.  So,
    outside the stream of its task, a shielded link is counted as done
    or as failed, never as pending. *)
Theorem shield_holds_only_final_statuses (c : Client) :
  (completedLinks c = ∅ -> Stream.shieldsFinal c) /\
  (Stream.shieldsFinal c ->
     (forall taskId data s,
        Stream.shieldsFinal (fst (Overlay.handleLine taskId data c s))) /\
     (forall parse respond now taskId links,
        Stream.shieldsFinal
          (fst (Stream.startLiveStream parse respond c now taskId links))) /\
     (forall now data, Stream.shieldsFinal (Overlay.fetchTasks c now data)) /\
     (forall id, Stream.shieldsFinal (TaskActions.initShield c id)) /\
     (forall id, Stream.shieldsFinal (TaskActions.forget c id)) /\
     (forall task i l e,
        activeTaskId c <> Some (task_id task) ->
        Overlay.shieldOf c (task_id task) !! i = Some e ->
        Overlay.effectiveStatus c task i l = "done"
        \/ Overlay.effectiveStatus c task i l = "error")).
Proof.
  split.
  - intros E id m i e Hm. rewrite E, lookup_empty in Hm. discriminate.
  - intros Hinv. split; [|split; [|split; [|split; [|split]]]].
    + intros taskId data s. eapply wroteOnly_final; [apply handleLine_wroteOnly | exact Hinv].
    + intros parse respond now taskId links.
      destruct (decide (taskId ∈ streamStarted c)) as [Hs | Hs].
      * unfold Stream.startLiveStream. rewrite bool_decide_eq_true_2 by exact Hs. exact Hinv.
      * destruct (startLiveStream_run parse respond c now taskId links Hs)
          as (c2 & -> & _ & _ & _ & Hother & Hnone & Hsome).
        intros id m' i e Hm' He. cbn [fst Overlay.streamFinally completedLinks] in Hm'.
        destruct (decide (id = taskId)) as [-> | Hid].
        -- destruct (completedLinks c !! taskId) as [m|] eqn:Em.
           ++ destruct (Hsome m eq_refl) as (m2 & Hm2 & Hpos).
              assert (m2 = m') as -> by congruence.
              destruct (Hpos i) as [E | (e2 & E & Hfin)].
              ** rewrite E in He. exact (Hinv taskId m i e Em He).
              ** assert (e2 = e) as -> by congruence. exact Hfin.
           ++ rewrite (Hnone eq_refl) in Hm'. discriminate.
        -- rewrite Hother in Hm' by exact Hid. exact (Hinv id m' i e Hm' He).
    + intros now data id m i e Hm He. exact (Hinv id m i e Hm He).
    + intros id0 id m i e Hm He. cbn [TaskActions.initShield completedLinks] in Hm.
      destruct (decide (id = id0)) as [-> | Hid].
      * rewrite lookup_insert_eq in Hm. injection Hm as <-.
        rewrite lookup_empty in He. discriminate.
      * rewrite lookup_insert_ne in Hm by congruence. exact (Hinv id m i e Hm He).
    + intros id0 id m i e Hm He. cbn [TaskActions.forget completedLinks] in Hm.
      apply lookup_delete_Some in Hm as [_ Hm]. exact (Hinv id m i e Hm He).
    + intros task i l e Hlive Hsh. unfold Overlay.effectiveStatus.
      rewrite bool_decide_eq_false_2 by exact Hlive. cbn [andb]. rewrite Hsh.
      apply shieldOf_lookup in Hsh as (m & Hm & He).
      destruct (Hinv _ m i e Hm He) as [-> | ->]; [left | right]; reflexivity.
Qed.

(** The links sent to the stream are the links whose position is not
    shielded as done, in their order. *)
Lemma linksToSend_In (shield : gmap nat ShieldEntry) links l :
  In l (Intake.linksToSend shield links) <->
  exists i, links !! i = Some l /\
    forall e, shield !! i = Some e ->
      sh_status e <> "done" /\ sh_status e <> "success".
Proof.
  unfold Intake.linksToSend. rewrite <- list_elem_of_In, list_elem_of_omap.
  split.
  - intros (o & Ho & Hid). apply elem_of_lookup_imap in Ho as (i & y & -> & Hy).
    unfold id in Hid. exists i.
    destruct (shield !! i) as [e|] eqn:Es.
    + destruct (String.eqb (sh_status e) "done" || String.eqb (sh_status e) "success")
        eqn:Ed; [discriminate|].
      injection Hid as ->. split; [exact Hy|].
      intros e0 He0. injection He0 as <-.
      apply orb_false_iff in Ed as [E1 E2]. apply String.eqb_neq in E1, E2. auto.
    + injection Hid as ->. split; [exact Hy | discriminate].
  - intros (i & Hi & Hne). exists (Some l). split; [|reflexivity].
    apply elem_of_lookup_imap. exists i, l. split; [|exact Hi].
    destruct (shield !! i) as [e|]; [|reflexivity].
    destruct (Hne e eq_refl) as [H1 H2].
    apply String.eqb_neq in H1, H2. now rewrite H1, H2.
Qed.

(** X22.  What a live stream leaves behind.  For a task whose stream
    is already open nothing happens and no request is made.  Otherwise
    the request carries exactly the links whose position is not
    shielded as done; when the stream has ended no task is marked as
    streaming, the stream-end mark of the task is the time of the end,
    and the task list is as it was.  The shields of other tasks are
    untouched; in the shield of the task no entry is removed, and an
    entry that was added or replaced reports "done" or "error".  For a
    task without a shield nothing is shielded, whatever the stream
    reports. *)
Theorem stream_footprint
    (parse : string -> option StreamMsg) (respond : list Link -> list string)
    (c : Client) (now : Z) (taskId : string) (links : list Link) :
  let r := Stream.startLiveStream parse respond c now taskId links in
  (taskId ∈ streamStarted c -> r = (c, None)) /\
  (taskId ∉ streamStarted c ->
     snd r = Some (Intake.linksToSend (Overlay.shieldOf c taskId) links) /\
     (forall l, In l (Intake.linksToSend (Overlay.shieldOf c taskId) links) <->
        exists i, links !! i = Some l /\
          forall e, Overlay.shieldOf c taskId !! i = Some e ->
            sh_status e <> "done" /\ sh_status e <> "success") /\
     tasks (fst r) = tasks c /\
     activeTaskId (fst r) = None /\
     streamStarted (fst r) = streamStarted c /\
     streamEndedAt (fst r) = <[taskId := now]> (streamEndedAt c) /\
     (forall id, id <> taskId -> completedLinks (fst r) !! id = completedLinks c !! id) /\
     (forall i e, Overlay.shieldOf c taskId !! i = Some e ->
        exists e', Overlay.shieldOf (fst r) taskId !! i = Some e' /\
          (e' = e \/ sh_status e' = "done" \/ sh_status e' = "error")) /\
     (forall i e', Overlay.shieldOf (fst r) taskId !! i = Some e' ->
        Overlay.shieldOf c taskId !! i = Some e'
        \/ sh_status e' = "done" \/ sh_status e' = "error") /\
     (completedLinks c !! taskId = None -> Overlay.shieldOf (fst r) taskId = ∅)).
Proof.
  intros r. subst r. split.
  - intros Hs. unfold Stream.startLiveStream. now rewrite bool_decide_eq_true_2 by exact Hs.
  - intros Hs.
    destruct (startLiveStream_run parse respond c now taskId links Hs)
      as (c2 & -> & Htasks & Hstarted & Hended & Hother & Hnone & Hsome).
    cbn [fst snd Overlay.streamFinally tasks activeTaskId streamStarted streamEndedAt
         completedLinks].
    split; [reflexivity|]. split; [apply linksToSend_In|].
    split; [exact Htasks|]. split; [reflexivity|].
    split.
    { rewrite Hstarted. apply set_eq. intros x.
      rewrite elem_of_difference, elem_of_union, elem_of_singleton. split.
      - intros [[Hx | Hx] Hne]; [contradiction | exact Hx].
      - intros Hx. split; [now right|]. intros ->. contradiction. }
    split; [now rewrite Hended|]. split; [exact Hother|].
    assert (Hshield : forall i,
              Overlay.shieldOf (Overlay.streamFinally taskId now c2) taskId !! i
              = Overlay.shieldOf c2 taskId !! i) by reflexivity.
    split; [|split].
    + intros i e He. apply shieldOf_lookup in He as (m & Hm & He).
      destruct (Hsome m Hm) as (m' & Hm' & Hpos).
      destruct (Hpos i) as [E | (e2 & E & Hfin)].
      * exists e. split; [|now left].
        rewrite Hshield. apply shieldOf_lookup. exists m'. split; [exact Hm' | congruence].
      * exists e2. split; [|now right].
        rewrite Hshield. apply shieldOf_lookup. eauto.
    + intros i e' He'. rewrite Hshield in He'.
      apply shieldOf_lookup in He' as (m' & Hm' & He').
      destruct (completedLinks c !! taskId) as [m|] eqn:Em.
      * destruct (Hsome m eq_refl) as (m2 & Hm2 & Hpos).
        assert (m2 = m') as -> by congruence.
        destruct (Hpos i) as [E | (e2 & E & Hfin)].
        -- left. unfold Overlay.shieldOf. rewrite Em. simpl. congruence.
        -- right. assert (e2 = e') as -> by congruence. exact Hfin.
      * rewrite (Hnone eq_refl) in Hm'. discriminate.
    + intros Hn. unfold Overlay.shieldOf. cbn [Overlay.streamFinally completedLinks].
      now rewrite (Hnone Hn).
Qed.

(** ** Counters, cards and tabs *)

Lemma three_way_count (isDone isFailed : string -> bool) (statuses : list string) :
  (length (List.filter isDone statuses)
   + length (List.filter (fun s => negb (isDone s) && isFailed s) statuses)
   + length (List.filter (fun s => negb (isDone s) && negb (isFailed s)) statuses))%nat
  = length statuses.
Proof.
  induction statuses as [|s l IH]; simpl; [reflexivity|].
  destruct (isDone s), (isFailed s); simpl; lia.
Qed.

Lemma imap_map_ext {A B} (f : nat -> A -> B) (g : A -> B) (l : list A) :
  (forall i x, f i x = g x) -> imap f l = map g l.
Proof.
  revert f. induction l as [|x l IH]; intros f H; simpl; [reflexivity|].
  rewrite H. f_equal. apply IH. intros i y. apply H.
Qed.

Lemma effectiveStatus_polled c task i l :
  activeTaskId c <> Some (task_id task) ->
  Overlay.shieldOf c (task_id task) = ∅ ->
  Overlay.effectiveStatus c task i l = status_lc l.
Proof.
  intros Hlive Hsh. unfold Overlay.effectiveStatus, status_lc.
  rewrite bool_decide_eq_false_2 by exact Hlive. cbn [andb].
  rewrite Hsh, lookup_empty.
  destruct (l_status l) as [w|]; [|reflexivity].
  unfold JS.or_truthy, JS.truthy. destruct (String.eqb w "") eqn:E; simpl; [|reflexivity].
  apply String.eqb_eq in E. now subst.
Qed.

Lemma stats_polled c task :
  activeTaskId c <> Some (task_id task) ->
  Overlay.shieldOf c (task_id task) = ∅ ->
  Overlay.getEffectiveStats c task = Dashboard.getLinkStats (t_links (task_doc task)).
Proof.
  intros Hlive Hsh. unfold Overlay.getEffectiveStats, Dashboard.getLinkStats.
  rewrite (imap_map_ext _ status_lc) by (intros i x; now apply effectiveStatus_polled).
  destruct (t_links (task_doc task)) as [|l ls] eqn:E; [reflexivity|].
  now rewrite length_map.
Qed.

(** X23.  The counters of a task account for every link once: the
    total is the number of links and done, failed and pending add up to
    it, for the counters of the dashboard and for [getLinkStats].
    Without a stream and without a shield the two agree.  A link is
    counted as done, or as failed, exactly when the status shown on its
    card is. *)
Theorem link_counters_add_up (c : Client) (task : Task) :
  let links := t_links (task_doc task) in
  let s := Overlay.getEffectiveStats c task in
  let g := Dashboard.getLinkStats links in
  let isDone w := String.eqb w "done" || String.eqb w "success" in
  let isFailed w := String.eqb w "error" || String.eqb w "failed" in
  Overlay.total s = length links /\
  (Overlay.done s + Overlay.failed s + Overlay.pending s)%nat = Overlay.total s /\
  Overlay.total g = length links /\
  (Overlay.done g + Overlay.failed g + Overlay.pending g)%nat = Overlay.total g /\
  (activeTaskId c <> Some (task_id task) -> Overlay.shieldOf c (task_id task) = ∅ ->
     s = g) /\
  (forall i l,
     let shown := JS.toLowerCase (v_status (Dashboard.getEffectiveLinkData c task i l)) in
     let counted := Overlay.effectiveStatus c task i l in
     isDone shown = isDone counted /\ isFailed shown = isFailed counted).
Proof.
  intros links s g isDone isFailed.
  split; [apply length_imap|]. split.
  { subst s. unfold Overlay.getEffectiveStats.
    cbn [Overlay.total Overlay.done Overlay.failed Overlay.pending].
    apply three_way_count. }
  split.
  { subst g. unfold Dashboard.getLinkStats. destruct links; [reflexivity|].
    reflexivity. }
  split.
  { subst g. unfold Dashboard.getLinkStats. destruct links as [|l ls]; [reflexivity|].
    cbn [Overlay.total Overlay.done Overlay.failed Overlay.pending].
    rewrite three_way_count. apply length_map. }
  split; [apply stats_polled|].
  intros i l shown counted. subst shown counted.
  unfold Dashboard.getEffectiveLinkData, Overlay.effectiveStatus.
  destruct (bool_decide (activeTaskId c = Some (task_id task)) && JS.truthy (liveStatuses c !! i));
    [split; reflexivity|].
  destruct (Overlay.shieldOf c (task_id task) !! i) as [e|]; [split; reflexivity|].
  cbn [v_status]. destruct (JS.or_truthy (l_status l) None); split; reflexivity.
Qed.

Lemma getLinkStats_verdict links :
  let g := Dashboard.getLinkStats links in
  ((Overlay.pending g =? 0)%nat = forallb Persist.isTerminalLink links) /\
  ((0 <? Overlay.done g)%nat = existsb Persist.isSuccessLink links).
Proof.
  unfold Dashboard.getLinkStats. destruct links as [|l0 ls0]; [split; reflexivity|].
  cbn [Overlay.pending Overlay.done].
  generalize (l0 :: ls0). clear l0 ls0. intros links.
  induction links as [|l ls [IH1 IH2]]; [split; reflexivity|].
  cbn [map List.filter forallb existsb].
  unfold Persist.isTerminalLink at 1, Persist.isSuccessLink at 1.
  unfold Persist.TERMINAL_WORDS, Persist.SUCCESS_WORDS, JS.arr_includes. cbn [existsb].
  rewrite !orb_false_r.
  destruct (String.eqb (status_lc l) "done"), (String.eqb (status_lc l) "success"),
    (String.eqb (status_lc l) "error"), (String.eqb (status_lc l) "failed");
    cbn [negb andb orb length]; rewrite <- ?IH1, <- ?IH2; split; try reflexivity.
Qed.

Lemma trueStatus_polled c id d :
  activeTaskId c <> Some id -> Overlay.shieldOf c id = ∅ ->
  t_status d = Persist.aggregateStatus (t_links d) ->
  Dashboard.trueStatus c (mkClientTask id d) = t_status d.
Proof.
  intros Hlive Hsh Hst. unfold Dashboard.trueStatus, Overlay.getTrueTaskStatus.
  cbn [task_id task_doc]. rewrite bool_decide_eq_false_2 by exact Hlive.
  rewrite (stats_polled c (mkClientTask id d)) by assumption. cbn [task_doc].
  destruct (getLinkStats_verdict (t_links d)) as [Hp Hd]. rewrite Hp, Hd.
  destruct (t_links d) as [|l ls] eqn:El; [reflexivity|].
  assert (Ht : Overlay.total (Dashboard.getLinkStats (l :: ls)) = length (l :: ls))
    by reflexivity.
  rewrite Ht. cbn [length Nat.ltb Nat.leb andb].
  rewrite Hst. unfold Persist.aggregateStatus.
  destruct (forallb Persist.isTerminalLink (l :: ls)); reflexivity.
Qed.

(** X24.  The dashboard and the server give a Task the same verdict.
    For a Task document as a save leaves it, a client that is not
    streaming the Task and holds no shield for it shows the status the
    server stored, counts as done the links the server counts as
    succeeded, and counts no link as pending exactly when the server
    found every link terminal. *)
Theorem dashboard_agrees_with_server
    (c : Client) (id : string) (now : Z) (lid : nat) (linkUrl : string)
    (result : SaveResult) (extractedBy : option string) (d0 : TaskDoc) :
  activeTaskId c <> Some id -> Overlay.shieldOf c id = ∅ ->
  let d := Persist.saveTransaction now lid linkUrl result extractedBy d0 in
  let task := mkClientTask id d in
  let s := Overlay.getEffectiveStats c task in
  Dashboard.trueStatus c task = t_status d /\
  ((0 <? Overlay.done s)%nat = existsb Persist.isSuccessLink (t_links d)) /\
  ((Overlay.pending s =? 0)%nat = forallb Persist.isTerminalLink (t_links d)) /\
  Overlay.total s = length (t_links d0).
Proof.
  intros Hlive Hsh d task s.
  split; [apply trueStatus_polled; [exact Hlive | exact Hsh | reflexivity]|].
  assert (Hs : s = Dashboard.getLinkStats (t_links d))
    by (apply (stats_polled c task); assumption).
  destruct (getLinkStats_verdict (t_links d)) as [Hp Hd].
  split; [rewrite Hs; exact Hd|]. split; [rewrite Hs; exact Hp|].
  subst s. unfold Overlay.getEffectiveStats. cbn [Overlay.total].
  rewrite length_imap. apply length_map.
Qed.

Lemma dashboard_agrees_with_server_witness :
  Dashboard.trueStatus Samples.fresh_client (mkClientTask "t1" Samples.saved1)
  = t_status Samples.saved1.
Proof.
  pose proof (dashboard_agrees_with_server Samples.fresh_client "t1"
                1000 1 "https://gdflix.example/b" (Samples.result "error" None)
                (Some "Browser/Live")
                (Samples.task "https://site.example/movie" "processing" Samples.two_links))
    as H.
  cbv zeta in H. destruct H as [H _]; [discriminate | reflexivity |].
  exact H.
Defined.

Lemma exclusive_counts {A} (p q r : A -> bool) (l : list A) :
  (forall x, (Nat.b2n (p x) + Nat.b2n (q x) + Nat.b2n (r x) <= 1)%nat) ->
  (length (List.filter p l) + length (List.filter q l) + length (List.filter r l)
   <= length l)%nat.
Proof.
  intros H. induction l as [|x l IH]; simpl; [lia|].
  specialize (H x). destruct (p x), (q x), (r x); simpl in *; lia.
Qed.

Lemma inTab_exclusive c t :
  (Nat.b2n (Dashboard.inTab c "processing" t) + Nat.b2n (Dashboard.inTab c "completed" t)
   + Nat.b2n (Dashboard.inTab c "failed" t) <= 1)%nat.
Proof.
  unfold Dashboard.inTab.
  destruct (String.eqb (Dashboard.trueStatus c t) "processing") eqn:E1;
    destruct (String.eqb (Dashboard.trueStatus c t) "completed") eqn:E2;
    destruct (String.eqb (Dashboard.trueStatus c t) "failed") eqn:E3;
    simpl; try lia;
    repeat match goal with
           | H : String.eqb _ _ = true |- _ => apply String.eqb_eq in H
           end; congruence.
Qed.

(** X25.  The status tabs show a task at most once.  A task is in the
    tab of its effective status and in no other, so the three badge
    counts never add up to more than the number of tasks.  The task
    whose stream is open is in the Processing tab whatever the server
    says; a task that is not streamed and has links, none of them
    counted pending, is in the Completed tab when a link is counted
    done and in the Failed tab otherwise; a task that is in none of the
    three tabs shows the status the server stored.  The Home tab shows
    every task. *)
Theorem tabs_show_a_task_once (sortNewestFirst : list Task -> list Task) (c : Client) :
  let tab := Dashboard.getFilteredTasks sortNewestFirst c in
  (Dashboard.processingCount c + Dashboard.completedCount c + Dashboard.failedCount c
   <= Dashboard.historyCount c)%nat /\
  length (tab TabProcessing) = Dashboard.processingCount c /\
  length (tab TabCompleted) = Dashboard.completedCount c /\
  length (tab TabFailed) = Dashboard.failedCount c /\
  tab TabHome = tasks c /\
  (forall t, In t (tab TabProcessing) <->
     In t (tasks c) /\ Dashboard.trueStatus c t = "processing") /\
  (forall t, In t (tab TabCompleted) <->
     In t (tasks c) /\ Dashboard.trueStatus c t = "completed") /\
  (forall t, In t (tab TabFailed) <->
     In t (tasks c) /\ Dashboard.trueStatus c t = "failed") /\
  (forall t, In t (tasks c) -> activeTaskId c = Some (task_id t) ->
     In t (tab TabProcessing)) /\
  (forall t, In t (tasks c) -> activeTaskId c <> Some (task_id t) ->
     (0 < Overlay.total (Overlay.getEffectiveStats c t))%nat ->
     Overlay.pending (Overlay.getEffectiveStats c t) = 0%nat ->
     if (0 <? Overlay.done (Overlay.getEffectiveStats c t))%nat
     then In t (tab TabCompleted) else In t (tab TabFailed)) /\
  (forall t, In t (tasks c) ->
     ~ In t (tab TabProcessing) -> ~ In t (tab TabCompleted) -> ~ In t (tab TabFailed) ->
     activeTaskId c <> Some (task_id t) /\
     Dashboard.trueStatus c t = t_status (task_doc t)).
Proof.
  intros tab.
  assert (Hin : forall w t, In t (List.filter (Dashboard.inTab c w) (tasks c)) <->
                            In t (tasks c) /\ Dashboard.trueStatus c t = w).
  { intros w t. rewrite filter_In. unfold Dashboard.inTab.
    split; intros [H1 H2]; split; auto; now apply String.eqb_eq. }
  split; [apply exclusive_counts, inTab_exclusive|].
  split; [reflexivity|]. split; [reflexivity|]. split; [reflexivity|]. split; [reflexivity|].
  split; [apply Hin|]. split; [apply Hin|]. split; [apply Hin|].
  split; [|split].
  - intros t Ht Hlive. apply Hin. split; [exact Ht|].
    unfold Dashboard.trueStatus, Overlay.getTrueTaskStatus.
    now rewrite bool_decide_eq_true_2 by exact Hlive.
  - intros t Ht Hlive Htotal Hpending.
    assert (Hs : Dashboard.trueStatus c t
                 = if (0 <? Overlay.done (Overlay.getEffectiveStats c t))%nat
                   then "completed" else "failed").
    { unfold Dashboard.trueStatus, Overlay.getTrueTaskStatus.
      rewrite bool_decide_eq_false_2 by exact Hlive.
      apply Nat.ltb_lt in Htotal. rewrite Htotal, Hpending. reflexivity. }
    destruct (0 <? Overlay.done (Overlay.getEffectiveStats c t))%nat; apply Hin; auto.
  - intros t Ht Hp Hc Hf.
    assert (Hlive : activeTaskId c <> Some (task_id t)).
    { intros Hlive. apply Hp. apply Hin. split; [exact Ht|].
      unfold Dashboard.trueStatus, Overlay.getTrueTaskStatus.
      now rewrite bool_decide_eq_true_2 by exact Hlive. }
    split; [exact Hlive|].
    unfold Dashboard.trueStatus, Overlay.getTrueTaskStatus.
    rewrite bool_decide_eq_false_2 by exact Hlive.
    destruct ((0 <? Overlay.total (Overlay.getEffectiveStats c t))%nat
              && (Overlay.pending (Overlay.getEffectiveStats c t) =? 0)%nat) eqn:E;
      [|reflexivity].
    exfalso.
    assert (Hs : Dashboard.trueStatus c t
                 = if (0 <? Overlay.done (Overlay.getEffectiveStats c t))%nat
                   then "completed" else "failed").
    { unfold Dashboard.trueStatus, Overlay.getTrueTaskStatus.
      rewrite bool_decide_eq_false_2 by exact Hlive. now rewrite E. }
    destruct (0 <? Overlay.done (Overlay.getEffectiveStats c t))%nat;
      [apply Hc | apply Hf]; apply Hin; auto.
Qed.

(** ** The solve route *)

Lemma done_error_split {A} (f : A -> string) (l : list A) :
  Forall (fun x => f x = "done" \/ f x = "error") l ->
  (length (List.filter (fun x => String.eqb (f x) "done" || String.eqb (f x) "success") l)
   + length (List.filter (fun x => String.eqb (f x) "error" || String.eqb (f x) "failed") l))%nat
  = length l.
Proof.
  induction 1 as [|x l Hx _ IH]; simpl; [reflexivity|].
  destruct Hx as [-> | ->]; simpl; lia.
Qed.

Lemma direct_counts md5 (linkEnv : Link -> LinkEnv) taskId extractedBy (ls : list Link) :
  let settled :=
    map (fun r => Fulfilled (run_result r))
        (map (fun l => LinkProcessor.processLink md5 (linkEnv l) l (l_id l)
                         taskId extractedBy 1) ls) in
  (Orchestrator.countDirectDone settled + Orchestrator.countDirectErrors settled)%nat
  = length ls.
Proof.
  unfold Orchestrator.countDirectDone, Orchestrator.countDirectErrors.
  induction ls as [|l ls IH]; simpl; [reflexivity|].
  destruct (processLink_shape md5 (linkEnv l) l (l_id l) taskId extractedBy) as ([-> | ->] & _);
    simpl in *; lia.
Qed.

Lemma timer_result_counts (results : list PLResult) :
  Forall (fun r => pl_status r = "done" \/ pl_status r = "error") results ->
  (Orchestrator.countTimerDone results + Orchestrator.countTimerErrors results)%nat
  = length results.
Proof. apply (done_error_split pl_status). Qed.

(** X26.  The guards of the solve route.  With a secret configured, a
    request that carries neither the bearer token nor the internal
    header is refused; without a secret no request is refused.  A body
    that is not JSON, a missing task id and an unknown Task are answered
    with an error, and a Task without a pending link with zero counts;
    in all of these nothing is written.  Whatever the request, no Task
    is added or removed and no Task but the one named is changed. *)
Theorem solve_task_guards
    (md5 : string -> string) (env : SolveEnv) (tasks : gmap string TaskDoc)
    (req : SolveRequest) :
  let tasks' := fst (SolveTask.POST md5 env tasks req) in
  let response := snd (SolveTask.POST md5 env tasks req) in
  (forall secret, se_cronSecret env = Some secret -> secret <> "" ->
     sr_authorization req <> Some ("Bearer " +:+ secret) ->
     sr_internal req <> Some "true" ->
     response = SolveUnauthorized) /\
  (JS.truthy (se_cronSecret env) = false -> response <> SolveUnauthorized) /\
  (sr_internal req = Some "true" -> response <> SolveUnauthorized) /\
  ((forall taskId processed done errors directCount timerCount,
      response <> SolveOk taskId processed done errors directCount timerCount) ->
   tasks' = tasks) /\
  (forall taskId, response = SolveIdle taskId ->
     exists data, tasks !! taskId = Some data /\
       Forall (fun l => Orchestrator.isPendingLink l = false)
              (SolveTask.allLinks (sr_body req ≫= sb_links) data)) /\
  (forall taskId processed done errors directCount timerCount,
     response = SolveOk taskId processed done errors directCount timerCount ->
     is_Some (tasks !! taskId) /\ is_Some (tasks' !! taskId) /\
     forall k, k <> taskId -> tasks' !! k = tasks !! k) /\
  (forall k, tasks' !! k = None <-> tasks !! k = None).
Proof.
  intros tasks' response. subst tasks' response. unfold SolveTask.POST.
  assert (Hauth : forall secret, se_cronSecret env = Some secret -> secret <> "" ->
            sr_authorization req <> Some ("Bearer " +:+ secret) ->
            sr_internal req <> Some "true" -> SolveTask.authorized env req = false).
  { intros secret Hs Hne Ha Hi. unfold SolveTask.authorized. rewrite Hs.
    unfold JS.truthy at 1. apply String.eqb_neq in Hne. rewrite Hne. cbn [negb JS.from_nullish].
    apply orb_false_iff. split; apply String.eqb_neq.
    - unfold JS.or_truthy, JS.truthy.
      destruct (sr_authorization req) as [a|]; [|discriminate].
      destruct (String.eqb a "") eqn:Ea; simpl; [discriminate|]. congruence.
    - unfold JS.or_truthy, JS.truthy.
      destruct (sr_internal req) as [a|]; [|discriminate].
      destruct (String.eqb a "") eqn:Ea; simpl; [discriminate|]. congruence. }
  assert (Hopen : JS.truthy (se_cronSecret env) = false \/ sr_internal req = Some "true" ->
            SolveTask.authorized env req = true).
  { unfold SolveTask.authorized. intros [E | E]; [now rewrite E|].
    destruct (JS.truthy (se_cronSecret env)); [|reflexivity].
    rewrite E. apply orb_true_r. }
  split; [|split; [|split]].
  - intros secret Hs Hne Ha Hi. now rewrite (Hauth secret Hs Hne Ha Hi).
  - intros E. rewrite (Hopen (or_introl E)). cbn [negb].
    destruct (sr_body req) as [body|]; [|discriminate].
    destruct (JS.or_truthy (sb_taskId body) None) as [taskId|]; [|discriminate].
    destruct (tasks !! taskId); [|discriminate].
    destruct (_ =? 0)%nat; discriminate.
  - intros E. rewrite (Hopen (or_intror E)). cbn [negb].
    destruct (sr_body req) as [body|]; [|discriminate].
    destruct (JS.or_truthy (sb_taskId body) None) as [taskId|]; [|discriminate].
    destruct (tasks !! taskId); [|discriminate].
    destruct (_ =? 0)%nat; discriminate.
  - destruct (SolveTask.authorized env req); cbn [negb].
    2:{ split; [reflexivity|]. split; [discriminate|]. split; [discriminate|reflexivity]. }
    destruct (sr_body req) as [body|].
    2:{ split; [reflexivity|]. split; [discriminate|]. split; [discriminate|reflexivity]. }
    destruct (JS.or_truthy (sb_taskId body) None) as [taskId|].
    2:{ split; [reflexivity|]. split; [discriminate|]. split; [discriminate|reflexivity]. }
    destruct (tasks !! taskId) as [data|] eqn:Ed.
    2:{ split; [reflexivity|]. split; [discriminate|]. split; [discriminate|reflexivity]. }
    destruct (length (List.filter Orchestrator.isPendingLink
                        (SolveTask.allLinks (sb_links body) data)) =? 0)%nat eqn:Ep.
    + split; [reflexivity|]. split; [|split; [discriminate | reflexivity]].
      intros taskId0 E. injection E as <-. exists data. split; [exact Ed|].
      apply Nat.eqb_eq in Ep. cbn [mbind option_bind].
      apply List.Forall_forall. intros l Hl.
      destruct (Orchestrator.isPendingLink l) eqn:El; [|reflexivity].
      assert (In l (List.filter Orchestrator.isPendingLink
                      (SolveTask.allLinks (sb_links body) data)))
        by (apply filter_In; auto).
      destruct (List.filter Orchestrator.isPendingLink
                  (SolveTask.allLinks (sb_links body) data)); [contradiction | discriminate].
    + cbn [fst snd].
      assert (Hw : forall k,
                SolveTask.sv_tasks
                  (SolveTask.solve md5 env tasks taskId
                     (JS.from_nullish (JS.or_truthy (sb_extractedBy body) None) "Browser/Live")
                     data (SolveTask.allLinks (sb_links body) data)) !! k
                = if decide (k = taskId) then
                    SolveTask.sv_tasks
                      (SolveTask.solve md5 env tasks taskId
                         (JS.from_nullish (JS.or_truthy (sb_extractedBy body) None)
                            "Browser/Live")
                         data (SolveTask.allLinks (sb_links body) data)) !! taskId
                  else tasks !! k).
      { intros k. destruct (decide (k = taskId)) as [-> | Hk]; [reflexivity|].
        unfold SolveTask.solve. cbn [SolveTask.sv_tasks].
        rewrite (applyWrites_other _ _ taskId k);
          [now rewrite lookup_insert_ne by congruence | | exact Hk].
        apply interleave_Forall; eapply issuedFor_taskId.
        - apply direct_writes_issued.
        - apply (proj1 (timerLoop_writes _ _ _ _ _ _ _ _ 0%nat)). }
      assert (Hsome : is_Some
                (SolveTask.sv_tasks
                   (SolveTask.solve md5 env tasks taskId
                      (JS.from_nullish (JS.or_truthy (sb_extractedBy body) None) "Browser/Live")
                      data (SolveTask.allLinks (sb_links body) data)) !! taskId)).
      { unfold SolveTask.solve. cbn [SolveTask.sv_tasks]. eexists.
        apply applyWrites_lookup; [apply lookup_insert_eq|].
        apply interleave_Forall; eapply issuedFor_taskId.
        - apply direct_writes_issued.
        - apply (proj1 (timerLoop_writes _ _ _ _ _ _ _ _ 0%nat)). }
      split; [intros H; exfalso; eapply H; reflexivity|].
      split; [discriminate|]. split.
      * intros t p d e dc tc E. injection E as <- _ _ _ _ _.
        split; [eauto|]. split; [exact Hsome|].
        intros k Hk. rewrite Hw. now destruct (decide (k = taskId)).
      * intros k. rewrite Hw. destruct (decide (k = taskId)) as [-> | Hk]; [|reflexivity].
        destruct Hsome as [d Hd]. rewrite Hd, Ed. split; discriminate.
Qed.

Lemma fold_applyToDoc_started ws :
  forall d, t_processingStartedAt (fold_left Orchestrator.applyToDoc ws d)
            = t_processingStartedAt d /\
            t_createdAt (fold_left Orchestrator.applyToDoc ws d) = t_createdAt d.
Proof.
  induction ws as [|w ws IH]; intros d; simpl; [split; reflexivity|].
  destruct (IH (Orchestrator.applyToDoc d w)) as [-> ->]. split; reflexivity.
Qed.

(** Every link of a Task once the writes of a run over its pending
    links have committed, in any order: a link that was not pending is
    untouched, a direct link carries the status its resolution returned,
    a timer link the status of the one write made for it. *)
Lemma run_links md5 clock start (linkEnv : Link -> LinkEnv) sched taskId extractedBy message
    (tasks : gmap string TaskDoc) links d0 :
  tasks !! taskId = Some d0 -> t_links d0 = links ->
  NoDup (map l_id links) -> NoDup (map l_link links) ->
  let P := List.filter Orchestrator.isPendingLink links in
  let T := List.filter Orchestrator.isTimerLink P in
  let D := List.filter (fun l => negb (Orchestrator.isTimerLink l)) P in
  let proc := fun l => LinkProcessor.processLink md5 (linkEnv l) l (l_id l)
                         taskId extractedBy 1 in
  let timer := Orchestrator.timerLoop md5 clock start linkEnv taskId extractedBy message 0 T in
  let W := Orchestrator.interleave sched
             (flat_map (fun r => LinkProcessor.savesOf (run_events r)) (map proc D))
             (tr_writes timer) in
  exists d, Orchestrator.applyWrites tasks W !! taskId = Some d /\
    d = fold_left Orchestrator.applyToDoc W d0 /\
    (P <> [] -> t_status d = Persist.aggregateStatus (t_links d)) /\
    length (t_links d) = length links /\
    forall p l, links !! p = Some l ->
      exists l', t_links d !! p = Some l' /\
        (Orchestrator.isPendingLink l = false -> l' = l) /\
        (Orchestrator.isPendingLink l = true -> Orchestrator.isTimerLink l = false ->
           l_status l' = Some (pl_status (run_result (proc l)))) /\
        (Orchestrator.isPendingLink l = true -> Orchestrator.isTimerLink l = true ->
           exists k w, T !! k = Some l /\ tr_writes timer !! k = Some w /\
             l_status l' = Some (JS.from_nullish (r_status (sc_result w)) "error")).
Proof.
  intros Hd0 Hlinks Hids Hurls P T D proc timer W.
  set (Dw := flat_map (fun r => LinkProcessor.savesOf (run_events r)) (map proc D)) in *.
  set (Tw := tr_writes timer) in *.
  destruct (timerLoop_writes md5 clock start linkEnv taskId extractedBy message T 0)
    as (HrelT & _).
  fold timer in HrelT. fold Tw in HrelT.
  pose proof (direct_writes_issued md5 linkEnv taskId extractedBy D) as HrelD.
  fold proc in HrelD. fold Dw in HrelD.
  pose proof (direct_writes_status md5 linkEnv taskId extractedBy D) as HstD.
  fold proc in HstD. fold Dw in HstD.
  assert (HW : Permutation W (Dw ++ Tw)) by apply interleave_Permutation.
  assert (HWt : Forall (fun w => sc_taskId w = taskId) W).
  { apply interleave_Forall; eapply issuedFor_taskId; eauto. }
  assert (HP : forall l', In l' P -> In l' links /\ Orchestrator.isPendingLink l' = true)
    by (intros l' H; apply filter_In in H; exact H).
  assert (HT : forall l', In l' T -> In l' P /\ Orchestrator.isTimerLink l' = true)
    by (intros l' H; apply filter_In in H; exact H).
  assert (HD : forall l', In l' D -> In l' P /\ Orchestrator.isTimerLink l' = false).
  { intros l' H. apply filter_In in H as [H1 H2]. apply negb_true_iff in H2. auto. }
  assert (HidsP : NoDup (map l_id P) /\ NoDup (map l_link P))
    by (unfold P; auto using NoDup_map_filter).
  exists (fold_left Orchestrator.applyToDoc W d0).
  split; [now apply applyWrites_lookup|]. split; [reflexivity|]. split; [|split].
  - intros HPne. apply fold_applyToDoc_status. intros HWnil.
    apply Permutation_length in HW. rewrite HWnil, length_app in HW. simpl in HW.
    apply Forall2_length in HrelT, HrelD.
    pose proof (filter_split_length Orchestrator.isTimerLink P) as Hsplit.
    fold T D in Hsplit. destruct P; [contradiction | simpl in Hsplit; lia].
  - rewrite fold_applyToDoc_links, length_map. now rewrite Hlinks.
  - intros p l Hp.
    assert (Hin : In l links) by (apply list_elem_of_In; eapply list_elem_of_lookup_2; eauto).
    exists (fold_left Orchestrator.writeLink W l). split.
    { rewrite fold_applyToDoc_links, Hlinks.
      change (map ?f links) with (f <$> links). now rewrite list_lookup_fmap, Hp. }
    assert (HnoD : Orchestrator.isPendingLink l = false \/ Orchestrator.isTimerLink l = true ->
              List.filter (Orchestrator.writeFor l) Dw = []).
    { intros Hc. apply (writeFor_none taskId D _ l HrelD). intros l' Hl'.
      destruct (HD l' Hl') as [Hl'P Hl't]. destruct (HP l' Hl'P) as [Hl'in Hp'].
      apply (distinct_keys links); auto. intros ->. destruct Hc; congruence. }
    assert (HnoT : Orchestrator.isPendingLink l = false \/ Orchestrator.isTimerLink l = false ->
              List.filter (Orchestrator.writeFor l) Tw = []).
    { intros Hc. apply (writeFor_none taskId T _ l HrelT). intros l' Hl'.
      destruct (HT l' Hl') as [Hl'P Hl't]. destruct (HP l' Hl'P) as [Hl'in Hp'].
      apply (distinct_keys links); auto. intros ->. destruct Hc; congruence. }
    split; [|split].
    + intros Hnp. apply link_unwritten.
      apply (List_filter_Permutation (Orchestrator.writeFor l)) in HW.
      rewrite List.filter_app, HnoD, HnoT in HW by auto. simpl in HW.
      now apply Permutation_nil_r in HW.
    + intros Hpend Hdir.
      assert (HinD : In l D).
      { apply filter_In. split; [apply filter_In; auto | now rewrite Hdir]. }
      apply list_elem_of_In, list_elem_of_lookup_1 in HinD as [k Hk].
      destruct (Forall2_lookup_l _ _ _ _ _ HrelD Hk) as (w & Hw & _).
      destruct (Forall2_lookup_l _ _ _ _ _ HstD Hk) as (w' & Hw' & Hst).
      assert (w' = w) as -> by congruence.
      rewrite (link_written_once taskId D Dw Tw W l k w); auto.
      * simpl. now rewrite Hst.
      * unfold D. destruct HidsP. auto using NoDup_map_filter.
      * unfold D. destruct HidsP. auto using NoDup_map_filter.
      * etransitivity; [exact HW | apply Permutation_app_comm].
    + intros Hpend Htim.
      assert (HinT : In l T).
      { apply filter_In. split; [apply filter_In; auto | exact Htim]. }
      apply list_elem_of_In, list_elem_of_lookup_1 in HinT as [k Hk].
      destruct (Forall2_lookup_l _ _ _ _ _ HrelT Hk) as (w & Hw & _).
      exists k, w. split; [exact Hk|]. split; [exact Hw|].
      rewrite (link_written_once taskId T Tw Dw W l k w); auto.
      * unfold T. destruct HidsP. auto using NoDup_map_filter.
      * unfold T. destruct HidsP. auto using NoDup_map_filter.
Qed.

Lemma POST_ok_inv md5 env tasks req taskId processed done errors directCount timerCount :
  snd (SolveTask.POST md5 env tasks req)
  = SolveOk taskId processed done errors directCount timerCount ->
  exists body data,
    sr_body req = Some body /\ tasks !! taskId = Some data /\
    let extractedBy :=
      JS.from_nullish (JS.or_truthy (sb_extractedBy body) None) "Browser/Live" in
    let links := SolveTask.allLinks (sb_links body) data in
    let P := List.filter Orchestrator.isPendingLink links in
    let s := SolveTask.solve md5 env tasks taskId extractedBy data links in
    SolveTask.POST md5 env tasks req
    = (SolveTask.sv_tasks s,
       SolveOk taskId processed done errors directCount timerCount) /\
    P <> [] /\
    processed = length P /\
    done = (Orchestrator.countDirectDone
              (map (fun r => Fulfilled (run_result r)) (SolveTask.sv_direct s))
            + Orchestrator.countTimerDone (tr_results (SolveTask.sv_timer s)))%nat /\
    errors = (length P - done)%nat /\
    directCount = length (List.filter (fun l => negb (Orchestrator.isTimerLink l)) P) /\
    timerCount = length (List.filter Orchestrator.isTimerLink P).
Proof.
  unfold SolveTask.POST.
  destruct (SolveTask.authorized env req); cbn [negb]; [|discriminate].
  destruct (sr_body req) as [body|]; [|discriminate].
  destruct (JS.or_truthy (sb_taskId body) None) as [t|]; [|discriminate].
  destruct (tasks !! t) as [data|] eqn:Ed; [|discriminate].
  destruct (length (List.filter Orchestrator.isPendingLink
                      (SolveTask.allLinks (sb_links body) data)) =? 0)%nat eqn:Ep;
    [discriminate|].
  cbn [snd]. intros E. injection E as -> <- <- <- <- <-.
  exists body, data. split; [reflexivity|]. split; [exact Ed|].
  cbv zeta. split; [reflexivity|]. split.
  { intros En. rewrite En in Ep. discriminate. }
  repeat split.
Qed.

(** X27.  The report of the solve route.  When it resolves links the
    route reports as processed the number of pending links, which is
    positive; done and errors add up to it, and so do the numbers of
    direct and of timer links.  The errors are the links whose
    resolution failed together with the timer links that were never
    started: a link deferred by the time budget is reported as an error
    although it is stored as pending. *)
Theorem solve_task_report
    (md5 : string -> string) (env : SolveEnv) (tasks : gmap string TaskDoc)
    (req : SolveRequest) (taskId : string)
    (processed done errors directCount timerCount : nat) :
  snd (SolveTask.POST md5 env tasks req)
  = SolveOk taskId processed done errors directCount timerCount ->
  (0 < processed)%nat /\
  (done + errors)%nat = processed /\
  (directCount + timerCount)%nat = processed /\
  exists body data,
    sr_body req = Some body /\ tasks !! taskId = Some data /\
    let s := SolveTask.solve md5 env tasks taskId
               (JS.from_nullish (JS.or_truthy (sb_extractedBy body) None) "Browser/Live")
               data (SolveTask.allLinks (sb_links body) data) in
    let failed :=
      (Orchestrator.countDirectErrors
         (map (fun r => Fulfilled (run_result r)) (SolveTask.sv_direct s))
       + Orchestrator.countTimerErrors (tr_results (SolveTask.sv_timer s)))%nat in
    let notStarted := (timerCount - tr_started (SolveTask.sv_timer s))%nat in
    errors = (failed + notStarted)%nat /\
    (tr_deferred (SolveTask.sv_timer s) = true -> (0 < notStarted)%nat) /\
    (tr_deferred (SolveTask.sv_timer s) = false -> notStarted = 0%nat).
Proof.
  intros Hresp.
  destruct (POST_ok_inv _ _ _ _ _ _ _ _ _ _ Hresp)
    as (body & data & Hbody & Hdata & H).
  cbv zeta in H. destruct H as (_ & HP & -> & Hdone & -> & -> & ->).
  set (links := SolveTask.allLinks (sb_links body) data) in *.
  set (P := List.filter Orchestrator.isPendingLink links) in *.
  set (extractedBy := JS.from_nullish (JS.or_truthy (sb_extractedBy body) None) "Browser/Live")
    in *.
  set (T := List.filter Orchestrator.isTimerLink P) in *.
  set (D := List.filter (fun l => negb (Orchestrator.isTimerLink l)) P) in *.
  pose proof (filter_split_length Orchestrator.isTimerLink P) as Hsplit. fold T D in Hsplit.
  pose proof (direct_counts md5 (se_linkEnv env) taskId extractedBy D) as Hdc.
  cbv zeta in Hdc.
  destruct (timerLoop_counts md5 (se_clock env) (se_start env) (se_linkEnv env)
              taskId extractedBy SolveTask.DEFER_MESSAGE T 0)
    as (Hcnt & Hle & Hall & Hsome & Hshape).
  pose proof (timer_result_counts _ Hshape) as Htc.
  assert (Hs : SolveTask.sv_direct
                 (SolveTask.solve md5 env tasks taskId extractedBy data links)
               = map (fun l => LinkProcessor.processLink md5 (se_linkEnv env l) l (l_id l)
                                 taskId extractedBy 1) D) by reflexivity.
  assert (Ht : SolveTask.sv_timer
                 (SolveTask.solve md5 env tasks taskId extractedBy data links)
               = Orchestrator.timerLoop md5 (se_clock env) (se_start env) (se_linkEnv env)
                   taskId extractedBy SolveTask.DEFER_MESSAGE 0 T) by reflexivity.
  rewrite Hs, Ht in Hdone.
  split; [destruct P; [contradiction | simpl; lia]|].
  split; [lia|]. split; [lia|].
  exists body, data. split; [exact Hbody|]. split; [exact Hdata|].
  cbv zeta. fold links extractedBy. rewrite Hs, Ht.
  split; [lia|]. split.
  - intros Hd. specialize (Hsome Hd). lia.
  - intros Hd. specialize (Hall Hd). lia.
Qed.

(** X28.  The Task document after the solve route, for a request that
    names no links of its own and a stored Task whose links have
    distinct ids and distinct urls.  The Task keeps its url, its
    creation time and the number of its links, and it carries the time
    of this run as the start of processing.  A link that was not
    pending is stored as it was.  The stored status is the one the
    links give: "processing" while some link is not terminal,
    otherwise "completed" when some link succeeded and "failed" when
    none did.  When the time budget deferred a link the Task is
    "processing" and that link is still "pending"; when it deferred
    none, every link that was pending is stored as "done" or as
    "error". *)
Theorem solve_task_document
    (md5 : string -> string) (env : SolveEnv) (tasks : gmap string TaskDoc)
    (req : SolveRequest) (taskId : string)
    (processed done errors directCount timerCount : nat) (body : SolveBody) (data : TaskDoc) :
  snd (SolveTask.POST md5 env tasks req)
  = SolveOk taskId processed done errors directCount timerCount ->
  sr_body req = Some body -> SolveTask.allLinks (sb_links body) data = t_links data ->
  tasks !! taskId = Some data ->
  NoDup (map l_id (t_links data)) -> NoDup (map l_link (t_links data)) ->
  let s := SolveTask.solve md5 env tasks taskId
             (JS.from_nullish (JS.or_truthy (sb_extractedBy body) None) "Browser/Live")
             data (t_links data) in
  exists d,
    fst (SolveTask.POST md5 env tasks req) !! taskId = Some d /\
    t_url d = t_url data /\ t_createdAt d = t_createdAt data /\
    t_processingStartedAt d = Some (se_now env) /\
    length (t_links d) = length (t_links data) /\
    t_status d = Persist.aggregateStatus (t_links d) /\
    (forall p l, t_links data !! p = Some l -> Orchestrator.isPendingLink l = false ->
       t_links d !! p = Some l) /\
    (tr_deferred (SolveTask.sv_timer s) = true ->
       t_status d = "processing" /\
       exists p l', t_links d !! p = Some l' /\ l_status l' = Some "pending") /\
    (tr_deferred (SolveTask.sv_timer s) = false ->
       forall p l l', t_links data !! p = Some l -> Orchestrator.isPendingLink l = true ->
         t_links d !! p = Some l' ->
         l_status l' = Some "done" \/ l_status l' = Some "error").
Proof.
  intros Hresp Hbody Hlinks Hdata Hids Hurls s.
  destruct (POST_ok_inv _ _ _ _ _ _ _ _ _ _ Hresp)
    as (body' & data' & Hbody' & Hdata' & H).
  assert (body' = body) as -> by congruence.
  assert (data' = data) as -> by congruence.
  cbv zeta in H. rewrite Hlinks in H. fold s in H.
  destruct H as (HPOST & HP & _).
  rewrite HPOST. cbn [fst].
  set (extractedBy := JS.from_nullish (JS.or_truthy (sb_extractedBy body) None) "Browser/Live")
    in *.
  set (d0 := SolveTask.markProcessing (se_now env) extractedBy data).
  set (P := List.filter Orchestrator.isPendingLink (t_links data)) in *.
  set (T := List.filter Orchestrator.isTimerLink P).
  destruct (run_links md5 (se_clock env) (se_start env) (se_linkEnv env) (se_schedule env)
              taskId extractedBy SolveTask.DEFER_MESSAGE
              (<[taskId := d0]> tasks) (t_links data) d0)
    as (d & Hd & Hfold & Hagg & Hlen & Hpt);
    [apply lookup_insert_eq | reflexivity | exact Hids | exact Hurls |].
  fold P T in Hd, Hfold, Hagg, Hpt.
  set (timer := Orchestrator.timerLoop md5 (se_clock env) (se_start env) (se_linkEnv env)
                  taskId extractedBy SolveTask.DEFER_MESSAGE 0 T) in *.
  assert (Htimer : SolveTask.sv_timer s = timer) by reflexivity.
  destruct (timerLoop_counts md5 (se_clock env) (se_start env) (se_linkEnv env)
              taskId extractedBy SolveTask.DEFER_MESSAGE T 0)
    as (Hcnt & _ & Hall & Hsome & Hshape).
  destruct (timerLoop_writes md5 (se_clock env) (se_start env) (se_linkEnv env)
              taskId extractedBy SolveTask.DEFER_MESSAGE T 0) as (_ & HwT).
  fold timer in Hcnt, Hall, Hsome, Hshape, HwT.
  specialize (Hagg HP).
  exists d. split; [exact Hd|].
  split; [rewrite Hfold; exact (proj1 (fold_applyToDoc_url _ d0))|].
  split; [rewrite Hfold; exact (proj2 (fold_applyToDoc_started _ d0))|].
  split; [rewrite Hfold; exact (proj1 (fold_applyToDoc_started _ d0))|].
  split; [exact Hlen|]. split; [exact Hagg|]. split; [|split].
  - intros p l Hp Hnp. destruct (Hpt p l Hp) as (l' & Hl' & Hsame & _).
    now rewrite Hl', (Hsame Hnp).
  - rewrite Htimer. intros Hdf. specialize (Hsome Hdf).
    destruct (lookup_lt_is_Some_2 T (tr_started timer) Hsome) as [l Hl].
    assert (HlT : In l T) by (apply list_elem_of_In; eapply list_elem_of_lookup_2; eauto).
    apply filter_In in HlT as [HlP Htl]. apply filter_In in HlP as [Hin Hpl].
    apply list_elem_of_In, list_elem_of_lookup_1 in Hin as [p Hp].
    destruct (Hpt p l Hp) as (l' & Hl' & _ & _ & Htim).
    destruct (Htim Hpl Htl) as (k & w & Hk & Hw & Hst).
    assert (k = tr_started timer) as ->.
    { eapply NoDup_lookup; [|exact Hk|exact Hl].
      eapply NoDup_fmap_1 with (f := l_id). unfold T, P. now do 2 apply NoDup_map_filter. }
    destruct (HwT _ w Hw) as (_ & Hlate). destruct Hlate as (Hpw & _); [lia|].
    rewrite Hpw in Hst. simpl in Hst.
    split; [|eauto].
    rewrite Hagg. unfold Persist.aggregateStatus.
    assert (Hnt : forallb Persist.isTerminalLink (t_links d) = false).
    { apply not_true_is_false. intros Hall'. rewrite forallb_forall in Hall'.
      assert (Hin' : In l' (t_links d))
        by (apply list_elem_of_In; eapply list_elem_of_lookup_2; eauto).
      specialize (Hall' l' Hin'). unfold Persist.isTerminalLink, status_lc in Hall'.
      rewrite Hst in Hall'. discriminate Hall'. }
    now rewrite Hnt.
  - rewrite Htimer. intros Hdf p l l' Hp Hpl Hl'. specialize (Hall Hdf).
    destruct (Hpt p l Hp) as (l2 & Hl2 & _ & Hdir & Htim).
    assert (l2 = l') as -> by congruence.
    destruct (Orchestrator.isTimerLink l) eqn:Etl.
    + destruct (Htim Hpl eq_refl) as (k & w & Hk & Hw & Hst).
      assert (Hkl : (k < tr_started timer)%nat).
      { rewrite Hall. eapply lookup_lt_Some; eauto. }
      destruct (HwT _ w Hw) as (Hearly & _).
      destruct (Hearly Hkl) as (r & Hr & Hrs & _).
      rewrite Hst, Hrs. cbn [JS.from_nullish].
      rewrite List.Forall_forall in Hshape.
      destruct (Hshape r) as [-> | ->]; auto.
      apply list_elem_of_In. eapply list_elem_of_lookup_2; eauto.
    + rewrite (Hdir Hpl eq_refl).
      destruct (processLink_shape md5 (se_linkEnv env l) l (l_id l) taskId extractedBy)
        as ([-> | ->] & _); auto.
Qed.

Lemma solve_task_report_witness :
  snd (SolveTask.POST (fun s => s) SolveRuns.late_env Samples.timer_tasks
         (SolveRuns.request "t9"))
  = SolveOk "t9" 2 0 2 0 2 /\
  (0 < 2)%nat /\ (0 + 2)%nat = 2%nat /\ (0 + 2)%nat = 2%nat.
Proof.
  split; [vm_compute; reflexivity|].
  destruct (solve_task_report (fun s => s) SolveRuns.late_env Samples.timer_tasks
              (SolveRuns.request "t9") "t9" 2 0 2 0 2) as (H1 & H2 & H3 & _);
    [vm_compute; reflexivity|].
  exact (conj H1 (conj H2 H3)).
Defined.

Lemma solve_task_document_witness :
  exists d,
    fst (SolveTask.POST (fun s => s) SolveRuns.late_env Samples.timer_tasks
           (SolveRuns.request "t9")) !! "t9" = Some d /\
    t_processingStartedAt d = Some 500%Z /\
    t_status d = "processing".
Proof.
  destruct (solve_task_document (fun s => s) SolveRuns.late_env Samples.timer_tasks
              (SolveRuns.request "t9") "t9" 2 0 2 0 2
              (mkSolveBody (Some "t9") None None)
              (Samples.task "https://site.example/series" "processing" Samples.timer_links))
    as (d & Hd & _ & _ & Hstart & _ & _ & _ & Hdef & _).
  - vm_compute. reflexivity.
  - reflexivity.
  - reflexivity.
  - vm_compute. reflexivity.
  - vm_compute. apply NoDup_cons. split; [|apply NoDup_singleton].
    intros H. apply list_elem_of_In in H. destruct H as [H | []]. discriminate H.
  - vm_compute. apply NoDup_cons. split; [|apply NoDup_singleton].
    intros H. apply list_elem_of_In in H. destruct H as [H | []]. discriminate H.
  - exists d. split; [exact Hd|]. split; [exact Hstart|].
    destruct Hdef as [Hst _]; [vm_compute; reflexivity | exact Hst].
Defined.

(** ** Bulk import *)

Lemma sift_lengths urls :
  forall seen, (length (fst (Bulk.sift seen urls)) + length (snd (Bulk.sift seen urls)))%nat
               = length urls.
Proof.
  induction urls as [|u rest IH]; intros seen; simpl; [reflexivity|].
  destruct (bool_decide (Bulk.key u ∈ seen)).
  - specialize (IH seen). destruct (Bulk.sift seen rest) as [un du]. simpl in *. lia.
  - specialize (IH ({[Bulk.key u]} ∪ seen)).
    destruct (Bulk.sift ({[Bulk.key u]} ∪ seen) rest) as [un du]. simpl in *. lia.
Qed.

(** The urls kept by the loop are urls of the input whose keys are
    pairwise distinct and were not in the set. *)
Lemma sift_unique urls :
  forall seen,
    let unique := fst (Bulk.sift seen urls) in
    (forall u, In u unique -> In u urls /\ Bulk.key u ∉ seen) /\
    NoDup (map Bulk.key unique).
Proof.
  induction urls as [|u rest IH]; intros seen; simpl.
  - split; [intros u [] | constructor].
  - destruct (bool_decide (Bulk.key u ∈ seen)) eqn:E.
    + specialize (IH seen). destruct (Bulk.sift seen rest) as [un du]. simpl in *.
      destruct IH as [IH1 IH2]. split; [|exact IH2].
      intros v Hv. destruct (IH1 v Hv). auto.
    + apply bool_decide_eq_false in E.
      specialize (IH ({[Bulk.key u]} ∪ seen)).
      destruct (Bulk.sift ({[Bulk.key u]} ∪ seen) rest) as [un du]. simpl in *.
      destruct IH as [IH1 IH2]. split.
      * intros v [<- | Hv]; [auto|]. destruct (IH1 v Hv) as [Hin Hns].
        split; [auto|]. intros Hs. apply Hns. apply elem_of_union. now right.
      * apply NoDup_cons. split; [|exact IH2].
        intros Hin. apply list_elem_of_In, in_map_iff in Hin as (v & Hk & Hv).
        destruct (IH1 v Hv) as [_ Hns]. apply Hns.
        apply elem_of_union. left. apply elem_of_singleton. exact Hk.
Qed.

(** Every url of the input has its key in the set or among the urls
    kept. *)
Lemma sift_covers urls :
  forall seen u, In u urls ->
    Bulk.key u ∈ seen \/ In (Bulk.key u) (map Bulk.key (fst (Bulk.sift seen urls))).
Proof.
  induction urls as [|u0 rest IH]; intros seen u Hu; [contradiction|].
  simpl. destruct (bool_decide (Bulk.key u0 ∈ seen)) eqn:E.
  - apply bool_decide_eq_true in E.
    destruct Hu as [<- | Hu]; [now left|].
    specialize (IH seen u Hu). destruct (Bulk.sift seen rest) as [un du]. exact IH.
  - specialize (IH ({[Bulk.key u0]} ∪ seen) u).
    destruct (Bulk.sift ({[Bulk.key u0]} ∪ seen) rest) as [un du]. simpl in *.
    destruct Hu as [<- | Hu]; [right; now left|].
    destruct (IH Hu) as [Hs | Hin]; [|right; now right].
    apply elem_of_union in Hs as [Hs | Hs]; [|now left].
    apply elem_of_singleton in Hs. right. left. now symmetry.
Qed.

(** When every key is in the set already, every url is a duplicate. *)
Lemma sift_all_seen urls :
  forall seen, (forall u, In u urls -> Bulk.key u ∈ seen) ->
    Bulk.sift seen urls = ([], urls).
Proof.
  induction urls as [|u rest IH]; intros seen H; simpl; [reflexivity|].
  rewrite bool_decide_eq_true_2 by (apply H; now left).
  rewrite IH by (intros v Hv; apply H; now right). reflexivity.
Qed.

Lemma keysOf_spec {A} (url : A -> string) (docs : gmap string A) k :
  k ∈ Bulk.keysOf url docs <->
  exists id d, docs !! id = Some d /\ url d <> "" /\ Bulk.key (url d) = k.
Proof.
  unfold Bulk.keysOf. rewrite elem_of_list_to_set, list_elem_of_In, in_map_iff.
  split.
  - intros (u & Hk & Hu). apply filter_In in Hu as [Hu Hne].
    apply in_map_iff in Hu as ([id d] & Hd & Hin).
    apply list_elem_of_In, elem_of_map_to_list in Hin. simpl in Hd. subst u.
    apply negb_true_iff, String.eqb_neq in Hne. eauto.
  - intros (id & d & Hd & Hne & Hk). exists (url d). split; [exact Hk|].
    apply filter_In. split.
    + apply in_map_iff. exists (id, d). split; [reflexivity|].
      apply list_elem_of_In, elem_of_map_to_list. exact Hd.
    + apply negb_true_iff, String.eqb_neq. exact Hne.
Qed.

(** The batch with fresh, distinct ids: the documents that were in the
    queue stay, and the [i]-th url is stored under the [i]-th id. *)
Lemma commit_spec now newIds unique :
  forall i queue,
    (forall j, queue !! newIds (i + j) = None) ->
    (forall a b, newIds a = newIds b -> a = b) ->
    let queue' := Bulk.commit now newIds i unique queue in
    size queue' = (size queue + length unique)%nat /\
    (forall k q, queue !! k = Some q -> queue' !! k = Some q) /\
    (forall j u, unique !! j = Some u -> queue' !! newIds (i + j) = Some (Bulk.queued now u)) /\
    (forall k q, queue' !! k = Some q ->
       queue !! k = Some q \/ exists j u, unique !! j = Some u /\ k = newIds (i + j)
                                          /\ q = Bulk.queued now u).
Proof.
  induction unique as [|u rest IH]; intros i queue Hfresh Hinj; simpl.
  - split; [lia|]. split; [auto|]. split; [intros j v Hj; discriminate | auto].
  - assert (Hi : queue !! newIds i = None)
      by (specialize (Hfresh 0%nat); now rewrite Nat.add_0_r in Hfresh).
    destruct (IH (S i) (<[newIds i := Bulk.queued now u]> queue)) as (H1 & H2 & H3 & H4).
    { intros j. rewrite lookup_insert_ne.
      - replace (S i + j)%nat with (i + S j)%nat by lia. apply Hfresh.
      - intros E. apply Hinj in E. lia. }
    { exact Hinj. }
    split; [rewrite H1, map_size_insert_None by exact Hi; lia|].
    split; [|split].
    + intros k q Hk. apply H2. rewrite lookup_insert_ne; [exact Hk|]. congruence.
    + intros [|j] v Hj; simpl in Hj.
      * injection Hj as <-. rewrite Nat.add_0_r. apply H2. apply lookup_insert_eq.
      * replace (i + S j)%nat with (S i + j)%nat by lia. now apply H3.
    + intros k q Hk. destruct (H4 k q Hk) as [Hq | (j & v & Hj & -> & ->)].
      * destruct (decide (k = newIds i)) as [-> | Hne].
        -- rewrite lookup_insert_eq in Hq. injection Hq as <-.
           right. exists 0%nat, u. rewrite Nat.add_0_r. auto.
        -- rewrite lookup_insert_ne in Hq by congruence. now left.
      * right. exists (S j), v. split; [exact Hj|]. split; [f_equal; lia | reflexivity].
Qed.

Lemma POST_accepted now newIds st urls :
  urls <> [] -> (length urls <= 100)%nat ->
  Bulk.POST now newIds st (Some urls)
  = (mkStore (Bulk.commit now newIds 0
                (fst (Bulk.sift (Bulk.existingUrls st) (Bulk.normalized urls)))
                (movies_queue st))
             (webseries_queue st) (scraping_tasks st),
     BulkOk (length (fst (Bulk.sift (Bulk.existingUrls st) (Bulk.normalized urls))))
            (length (snd (Bulk.sift (Bulk.existingUrls st) (Bulk.normalized urls))))
            (length urls - length (Bulk.normalized urls)) (length urls)).
Proof.
  intros Hne Hle. unfold Bulk.POST. cbn [JS.from_nullish].
  destruct (length urls =? 0)%nat eqn:E0.
  { apply Nat.eqb_eq in E0. destruct urls; [contradiction | discriminate]. }
  assert (E1 : (100 <? length urls)%nat = false) by (apply Nat.ltb_ge; exact Hle).
  rewrite E1.
  destruct (Bulk.sift (Bulk.existingUrls st) (Bulk.normalized urls)) as [un du].
  reflexivity.
Qed.

Lemma normalized_spec urls u :
  In u (Bulk.normalized urls) <->
  String.prefix "http" u = true /\ exists u0, In u0 urls /\ JS.trim u0 = u.
Proof.
  unfold Bulk.normalized. rewrite filter_In, in_map_iff.
  split; intros [H1 H2]; split; auto;
    destruct H1 as (u0 & H3 & H4) || destruct H2 as (u0 & H3 & H4); eauto.
Qed.

Lemma normalized_length urls :
  (length (Bulk.normalized urls)
   + length (List.filter (fun u => negb (String.prefix "http" (JS.trim u))) urls))%nat
  = length urls.
Proof.
  unfold Bulk.normalized. induction urls as [|u rest IH]; simpl; [reflexivity|].
  destruct (String.prefix "http" (JS.trim u)); simpl; lia.
Qed.

(** X29.  The account of a bulk import.  An empty list and a list of
    more than 100 urls are refused and nothing is written.  Otherwise
    added, duplicates and skipped add up to the number of urls given,
    where skipped counts the urls that do not start with "http" once
    trimmed; Tasks and the web-series queue are not touched; and, the
    generated ids being fresh, the movies queue keeps every item it had
    and gains exactly the added ones, each a pending item created now
    for a trimmed url of the request whose key was not known, no two of
    them for the same key. *)
Theorem bulk_import_accounts
    (now : Z) (newIds : nat -> string) (st : Store) (bodyUrls : option (list string)) :
  let urls := JS.from_nullish bodyUrls [] in
  let r := Bulk.POST now newIds st bodyUrls in
  (urls = [] -> r = (st, BulkBadRequest "No URLs provided")) /\
  ((100 < length urls)%nat -> r = (st, BulkBadRequest "Max 100 URLs per batch")) /\
  (urls <> [] -> (length urls <= 100)%nat ->
     exists added duplicates skipped,
       snd r = BulkOk added duplicates skipped (length urls) /\
       (added + duplicates + skipped)%nat = length urls /\
       skipped
       = length (List.filter (fun u => negb (String.prefix "http" (JS.trim u))) urls) /\
       webseries_queue (fst r) = webseries_queue st /\
       scraping_tasks (fst r) = scraping_tasks st /\
       ((forall i, movies_queue st !! newIds i = None) ->
        (forall a b, newIds a = newIds b -> a = b) ->
        size (movies_queue (fst r)) = (size (movies_queue st) + added)%nat /\
        (forall k q, movies_queue st !! k = Some q -> movies_queue (fst r) !! k = Some q) /\
        (forall k q, movies_queue (fst r) !! k = Some q -> movies_queue st !! k = None ->
           q = Bulk.queued now (q_url q) /\
           String.prefix "http" (q_url q) = true /\
           (Bulk.key (q_url q) ∉ Bulk.existingUrls st) /\
           exists u, In u urls /\ JS.trim u = q_url q) /\
        (forall k1 q1 k2 q2,
           movies_queue (fst r) !! k1 = Some q1 -> movies_queue st !! k1 = None ->
           movies_queue (fst r) !! k2 = Some q2 -> movies_queue st !! k2 = None ->
           Bulk.key (q_url q1) = Bulk.key (q_url q2) -> k1 = k2))).
Proof.
  intros urls r. split; [|split].
  - intros E. subst r. unfold Bulk.POST. fold urls. now rewrite E.
  - intros Hgt. subst r. unfold Bulk.POST. fold urls.
    destruct (length urls =? 0)%nat eqn:E0; [apply Nat.eqb_eq in E0; lia|].
    apply Nat.ltb_lt in Hgt. now rewrite Hgt.
  - intros Hne Hle.
    assert (Hb : bodyUrls = Some urls).
    { subst urls. destruct bodyUrls; [reflexivity | contradiction]. }
    subst r. rewrite Hb, (POST_accepted now newIds st urls Hne Hle). cbn [fst snd].
    set (unique := fst (Bulk.sift (Bulk.existingUrls st) (Bulk.normalized urls))).
    pose proof (sift_lengths (Bulk.normalized urls) (Bulk.existingUrls st)) as Hsl.
    pose proof (normalized_length urls) as Hnl.
    destruct (sift_unique (Bulk.normalized urls) (Bulk.existingUrls st)) as [Hun Hnd].
    fold unique in Hsl, Hun, Hnd.
    eexists _, _, _. split; [reflexivity|]. split; [lia|]. split; [lia|].
    split; [reflexivity|]. split; [reflexivity|].
    intros Hfresh Hinj. cbn [movies_queue].
    destruct (commit_spec now newIds unique 0 (movies_queue st)) as (H1 & H2 & H3 & H4);
      [intros j; apply Hfresh | exact Hinj |].
    split; [exact H1|]. split; [exact H2|]. split.
    + intros k q Hk Hnone. destruct (H4 k q Hk) as [Hq | (j & u & Hj & -> & ->)];
        [congruence|].
      cbn [Bulk.queued q_url].
      assert (Hin : In u unique)
        by (apply list_elem_of_In; eapply list_elem_of_lookup_2; eauto).
      destruct (Hun u Hin) as [Hnorm Hns].
      apply normalized_spec in Hnorm as [Hp Hex].
      split; [reflexivity|]. split; [exact Hp|]. split; [exact Hns | exact Hex].
    + intros k1 q1 k2 q2 Hk1 Hn1 Hk2 Hn2 Hkey.
      destruct (H4 k1 q1 Hk1) as [Hq | (j1 & u1 & Hj1 & -> & ->)]; [congruence|].
      destruct (H4 k2 q2 Hk2) as [Hq | (j2 & u2 & Hj2 & -> & ->)]; [congruence|].
      cbn [Bulk.queued q_url] in Hkey. f_equal. f_equal.
      eapply (NoDup_lookup (map Bulk.key unique)); [exact Hnd | |].
      * change (map Bulk.key unique) with (Bulk.key <$> unique).
        rewrite list_lookup_fmap, Hj1. reflexivity.
      * change (map Bulk.key unique) with (Bulk.key <$> unique).
        rewrite list_lookup_fmap, Hj2. simpl. now rewrite Hkey.
Qed.

Lemma prefix_http_nonempty u : String.prefix "http" u = true -> u <> "".
Proof. intros H ->. discriminate H. Qed.

(** X30.  A bulk import is idempotent, and what it adds is picked up
    by the orchestrator.  With fresh ids for the first import, a second
    import of the same urls, at any time and with any ids, adds nothing,
    reports every acceptable url as a duplicate and leaves the store as
    the first import left it.  After an import that added a url some
    queue item can be claimed: every added item is pending and has a
    creation time. *)
Theorem bulk_import_is_idempotent
    (now : Z) (newIds : nat -> string) (st : Store) (urls : list string)
    (now' : Z) (newIds' : nat -> string) :
  urls <> [] -> (length urls <= 100)%nat ->
  (forall i, movies_queue st !! newIds i = None) ->
  (forall a b, newIds a = newIds b -> a = b) ->
  let st1 := fst (Bulk.POST now newIds st (Some urls)) in
  Bulk.POST now' newIds' st1 (Some urls)
  = (st1, BulkOk 0 (length (Bulk.normalized urls))
                 (length urls - length (Bulk.normalized urls)) (length urls)) /\
  (forall added duplicates skipped total,
     snd (Bulk.POST now newIds st (Some urls)) = BulkOk added duplicates skipped total ->
     (0 < added)%nat -> Orchestrator.pickItem st1 <> None).
Proof.
  intros Hne Hle Hfresh Hinj st1. subst st1.
  rewrite (POST_accepted now newIds st urls Hne Hle). cbn [fst snd].
  set (unique := fst (Bulk.sift (Bulk.existingUrls st) (Bulk.normalized urls))).
  set (st1 := mkStore (Bulk.commit now newIds 0 unique (movies_queue st))
                      (webseries_queue st) (scraping_tasks st)).
  destruct (commit_spec now newIds unique 0 (movies_queue st)) as (H1 & H2 & H3 & H4);
    [intros j; apply Hfresh | exact Hinj |].
  destruct (sift_unique (Bulk.normalized urls) (Bulk.existingUrls st)) as [Hun _].
  fold unique in Hun.
  split.
  - rewrite (POST_accepted now' newIds' st1 urls Hne Hle).
    assert (Hseen : forall u, In u (Bulk.normalized urls) -> Bulk.key u ∈ Bulk.existingUrls st1).
    { intros u Hu.
      destruct (sift_covers (Bulk.normalized urls) (Bulk.existingUrls st) u Hu) as [Hs | Hk].
      - unfold Bulk.existingUrls in *. cbn [scraping_tasks movies_queue webseries_queue st1].
        apply elem_of_union in Hs as [Hs | Hs]; [|apply elem_of_union; now right].
        apply elem_of_union in Hs as [Hs | Hs];
          apply elem_of_union; left; apply elem_of_union; [now left | right].
        apply keysOf_spec in Hs as (id & d & Hd & Hnd & Hkd).
        apply keysOf_spec. exists id, d. split; [apply H2; exact Hd | auto].
      - fold unique in Hk. apply in_map_iff in Hk as (v & Hkv & Hv).
        apply list_elem_of_In, list_elem_of_lookup_1 in Hv as [j Hj].
        assert (Hvin : In v unique)
          by (apply list_elem_of_In; eapply list_elem_of_lookup_2; eauto).
        destruct (Hun v Hvin) as [Hnorm _].
        apply normalized_spec in Hnorm as [Hp _].
        unfold Bulk.existingUrls. cbn [scraping_tasks movies_queue webseries_queue st1].
        apply elem_of_union. left. apply elem_of_union. right.
        apply keysOf_spec. exists (newIds (0 + j)%nat), (Bulk.queued now v).
        split; [now apply H3|]. split; [now apply prefix_http_nonempty | exact Hkv]. }
    rewrite (sift_all_seen _ _ Hseen). reflexivity.
  - intros added duplicates skipped total E Hpos. injection E as <- _ _ _.
    fold unique in Hpos.
    destruct unique as [|u rest] eqn:Eu; [simpl in Hpos; lia|].
    specialize (H3 0%nat u eq_refl).
    unfold Orchestrator.pickItem. cbn [movies_queue st1].
    destruct (Orchestrator.pickPending (Bulk.commit now newIds 0 (u :: rest) (movies_queue st)))
      as [kv|] eqn:Ep; [discriminate|].
    pose proof (pickPending_None _ Ep _ _ H3 eq_refl) as Hc. discriminate Hc.
Qed.

Lemma bulk_import_is_idempotent_witness :
  Bulk.POST 2000 (fun i => "y" +:+ pretty i)
    (fst (Bulk.POST 1000 (fun i => "x" +:+ pretty i) Samples.pending_store
            (Some [" https://Site.example/New "; "ftp://other"; "https://site.example/new"])))
    (Some [" https://Site.example/New "; "ftp://other"; "https://site.example/new"])
  = (fst (Bulk.POST 1000 (fun i => "x" +:+ pretty i) Samples.pending_store
            (Some [" https://Site.example/New "; "ftp://other"; "https://site.example/new"])),
     BulkOk 0 2 1 3).
Proof.
  apply (bulk_import_is_idempotent 1000 (fun i => "x" +:+ pretty i) Samples.pending_store
           [" https://Site.example/New "; "ftp://other"; "https://site.example/new"]
           2000 (fun i => "y" +:+ pretty i)).
  - discriminate.
  - simpl. lia.
  - intros i. apply lookup_singleton_None. intros E. discriminate E.
  - intros a b E. apply (inj (String.append "x")) in E.
    apply (inj pretty) in E. exact E.
Defined.

(** ** The time budget of the sequential loop *)





